(* ===== verification/_CoqProject ===== *)
-Q . S2P
Prelude.v
Constants.v
Elements.v
Event.v
Parser.v
ParserSpec.v
Netlink.v
NetlinkProps.v
Template.v
Record.v
Encoder.v
EncoderSpec.v
EncoderProps.v
Pipeline.v
Collector.v
CollectorProps.v
System.v
Machine.v
ExporterSpec.v
Socket.v
Signals.v
Worker.v
WorkerLog.v
WorkerFrame.v
WorkerProps.v
WorkerRefines.v
WorkerStats.v
WorkerMain.v
WorkerStream.v
WorkerStops.v
WorkerTemplate.v
WorkerPanics.v
WorkerBusy.v
WorkerFlush.v
Supervisor.v
KeeperSpec.v
SupervisorProps.v
SupervisorStops.v
SupervisorRefines.v
TestSupport.v
RecordTests.v
TemplateTests.v
EncoderTests.v
ParserTests.v
MainTests.v
SignalTests.v
TestSuite.v
