(* ===== verification/Prelude.v ===== *)
(** * A verification of NatStream

    NatStream is a daemon that listens to the kernel's conntrack notifications on
    a netlink socket and exports the NAT sessions among them to a collector, as
    IPFIX (RFC 7011) or NetFlow v9 (RFC 3954) messages over UDP.

    ** The program

    A notification arrives in a netlink datagram.  [src/netlink/socket.rs]
    receives datagrams in batches; [src/netlink/parser.rs] finds the conntrack
    messages in one and hands each NAT event ([src/event.rs]) to a callback.
    The event loop of the worker ([run_worker] in [src/main.rs]) is that
    callback's owner: it adds the event as a record to the message under
    construction ([src/export/encoder.rs], which writes records with
    [src/export/record.rs] after a template resolved by
    [src/export/template.rs]), sends the message when it is full, when nothing
    arrived for 100 ms and at shutdown, and retransmits the template.  Signals
    come through a descriptor ([src/signals.rs]).  With [--daemon] a supervisor
    forks the worker, restarts it when it fails and stops it on request.

    ** The development

    - [Prelude]: outcomes (a value, a panic, fuel used up), results, the target
      machine, w-bit arithmetic, byte strings and slices.  Everything the source
      can panic on (slices, indices, overflow in a debug build, [expect],
      [assert!]) is a [Panic] of the model; in a release build arithmetic wraps.
    - [Constants], [Elements]: the constants.  [Event]: events.
    - [Parser]: the parser, loop by loop.  [ParserSpec]: a reference parser
      without offsets, and the lemmas that the loops compute it.  [Netlink]: the
      message builder of the tests.  [NetlinkProps]: the parser's theorems:
      it refines the reference, ends on every input, reads back what the builder
      builds, keeps to whole messages and to translated IPv4 sessions.
    - [Template], [Record], [Encoder]: the exporter.  [EncoderSpec]: the message
      format as a function from events to bytes.  [EncoderProps]: the encoder
      refines it, within the size budget, with the right sequence numbers.
      What the fields of a record must say is stated by the registered numbers of
      their information elements ([element_value] in [Record]).
    - [Pipeline]: the benchmarks ([benches/pipeline.rs]): their fixtures hold the
      sessions they claim to, and parser and encoder together export every one of
      them in as few messages as there can be.
    - [Collector]: the collector of the end-to-end tests
      ([tests/e2e/flowdecode.py]).  [CollectorProps]: it reads back, record by
      record, what the encoder was given.
    - [System]: system calls.  The kernel is a parameter, the class [Kernel]: any
      state and any answers, within the shape the interface documents.  Code with
      effects runs in the monad [sys], which threads the kernel's state and a log
      of all calls with their answers; theorems about effects speak of the log.
    - [Machine]: runs of a labelled transition system with silent steps, induction
      over them, and what it means for a log of system calls to be one.
    - [ExporterSpec]: an abstract exporter, a labelled transition system that takes
      in events, reads the clock and sends numbered messages, with what holds of
      all its runs by induction on its steps.
    - [Socket], [Signals]: the netlink socket with its receive batch (buffers,
      headers and the pointers between them as indices), the signal descriptor.
    - [Worker]: [run_worker] and all it calls.  [WorkerLog]: what the log of a run
      says was received, handed to [send], taken or refused by it, and reported.  [WorkerFrame]: a frame rule for
      effects (what every call keeps, code keeps); the loop makes no other calls
      than an exporter's and ends exactly on a signal.  [WorkerProps]: the
      invariant of its loop, that messages handed to [send] and the records in the
      encoder's buffer account for exactly the events received, by rules that follow the
      calls; of those messages a collector gets the ones that [send] took, and reads
      them from the first template on ([handed_over]).
      [WorkerRefines]: the event loop implements the abstract exporter, by a
      forward simulation from the log of its calls to the labels of the machine.
      [WorkerStats]: the drop counters and reports.  [WorkerMain]: a whole run
      from the flags to the exit.  [WorkerStream]: the numbered messages of a whole
      run.  [WorkerStops]: a run ends if a shutdown signal comes.
      [WorkerTemplate]: an idle link gets its template on time.  [WorkerPanics]: a
      template interval of 2^63 seconds or more ends the worker in a panic.  [WorkerBusy]:
      what a link without NAT events holds back while a message is open.
      [WorkerFlush]: after 100 ms of silence everything received is handed to [send].
    - [Supervisor]: [run_supervisor], [main] and all they call.  [KeeperSpec]: the
      life cycle of a worker's keeper as an abstract machine: started, restarted
      after a growing delay, stopped first politely and then by force.
      [SupervisorProps]: that there is never more than one worker and none after a
      shutdown request, how a worker's process ends and how the daemon detaches.
      [SupervisorStops]: total correctness: a worker that does not heed SIGTERM is
      killed, a wait before a restart ends, and the supervisor returns, on a kernel
      where waiting takes time and finitely many signals come ([wakes]).
      [SupervisorRefines]: the supervisor implements the keeper, and so a failing
      worker is restarted at most once a second.
    - [RecordTests], [TemplateTests], [EncoderTests], [ParserTests], [MainTests],
      [SignalTests]: the unit tests of the source, test by test, as programs of the
      model that panic where the test would ([TestSupport] has the assertions and
      the helpers).  [TestSuite]: they all pass, on debug and release builds, both
      byte orders and both pointer widths.

    ** Fuel and bounds

    The loops of the source are [loop] and [sys_loop], with fuel.  The parser's
    loops get the length of the input, which the theorems show is enough: they
    end.  The encoder and the receive batch have no unbounded loop.
    [read_pending], the event loops and the supervisor's loops run as long as the
    kernel makes them: their theorems hold for every fuel, [runs] saying that what is reached is right
    and nothing panics, and [ends] that the end is reached; a measure of what the
    kernel has left to deliver bounds the fuel that takes.  The worker counts
    errors in 64 bits, so its theorems bound the number of passes; 2^60 units of
    counting take far longer than any run.  They assume a 64-bit target, a
    monotonic clock below 2^62 seconds ([sane_clock]) and a template interval of at most
    2^62 seconds, which is what keeps [Instant] arithmetic from panicking.

    ** What is not modelled

    Log lines other than the drop report, allocation failure, the bytes of C
    structures other than the fields the program reads or writes, the harness that
    times the benchmarks, packaging, the tests that run the binary or the command
    line parser, and of the collector its socket and printing.  The command line is parsed by clap, from the
    attributes of [Args], and its address by [SocketAddr::from_str]: neither is code
    of the repository, so the parsed [Args] are the input here and the address is
    passed on unread.  [fork] is followed in one process at a time. *)

From stdpp Require Import base list numbers.
From Stdlib Require Import ZArith Lia.

Local Open Scope Z_scope.

(** ** Outcomes: values, panics and exhausted fuel *)

Inductive panic_reason :=
  | IndexOutOfRange
  | SliceOutOfRange
  | LengthMismatch
  | ArithmeticOverflow
  | DivisionByZero
  | ExpectFailed
  | AssertFailed.

#[export] Instance panic_reason_eq_dec : EqDecision panic_reason.
Proof. solve_decision. Defined.

(** What a piece of Rust code does: return a value, panic, or (only for the
    loops, which are modelled with fuel) not finish within the fuel. *)
Inductive outcome (A : Type) : Type :=
  | Done (a : A)
  | Panic (why : panic_reason)
  | Exhausted.
Arguments Done {A} a.
Arguments Panic {A} why.
Arguments Exhausted {A}.

#[export] Instance outcome_ret : MRet outcome := @Done.
#[export] Instance outcome_bind : MBind outcome := fun A B f m =>
  match m with
  | Done a => f a
  | Panic why => Panic why
  | Exhausted => Exhausted
  end.

(** [Result<A, E>]: an error the source returns rather than panics on. *)
Inductive result (E A : Type) : Type :=
  | Ok (a : A)
  | Err (e : E).
Arguments Ok {E A} a.
Arguments Err {E A} e.

Definition guard_panic (why : panic_reason) (b : bool) : outcome unit :=
  if b then Done tt else Panic why.

(** Left-to-right iteration of a fallible step over a list. *)
Fixpoint foldM {A S : Type} (f : S -> A -> outcome S) (s : S) (l : list A) : outcome S :=
  match l with
  | [] => Done s
  | x :: l' => s' ← f s x; foldM f s' l'
  end.

Lemma bind_done {A B : Type} (a : A) (f : A -> outcome B) : (Done a ≫= f) = f a.
Proof. reflexivity. Qed.

Lemma bind_inv {A B : Type} (m : outcome A) (f : A -> outcome B) (b : B) :
  m ≫= f = Done b -> exists a, m = Done a /\ f a = Done b.
Proof. destruct m; simpl; intros; eauto; discriminate. Qed.

Lemma bind_step {A B : Type} (m : outcome A) (a : A) (f : A -> outcome B) :
  m = Done a -> (m ≫= f) = f a.
Proof. by intros ->. Qed.

Lemma foldM_app {A S : Type} (f : S -> A -> outcome S) (l1 l2 : list A) (s : S) :
  foldM f s (l1 ++ l2) = (s' ← foldM f s l1; foldM f s' l2).
Proof.
  revert s; induction l1 as [|x l1 IH]; intros s; simpl; [done|].
  destruct (f s x); simpl; auto.
Qed.

(** A fold whose step never panics on states satisfying an invariant. *)
Lemma foldM_invariant {A S : Type} (f : S -> A -> outcome S) (I : list A -> S -> Prop) :
  (forall done s x, I done s -> exists s', f s x = Done s' /\ I (done ++ [x]) s') ->
  forall l done s, I done s -> exists s', foldM f s l = Done s' /\ I (done ++ l) s'.
Proof.
  intros Hstep; induction l as [|x l IH]; intros done s HI; simpl.
  - exists s. by rewrite app_nil_r.
  - destruct (Hstep done s x HI) as (s1 & -> & HI1); simpl.
    destruct (IH (done ++ [x]) s1 HI1) as (s2 & -> & HI2).
    exists s2. by rewrite <- app_assoc in HI2.
Qed.

(** ** Loops *)

(** One pass of a loop body: go round again, or leave with a result. *)
Inductive flow (S R : Type) : Type :=
  | Continue (s : S)
  | Break (r : R).
Arguments Continue {S R} s.
Arguments Break {S R} r.

Fixpoint loop {S R : Type} (fuel : nat) (body : S -> outcome (flow S R)) (s : S)
    : outcome R :=
  match fuel with
  | O => Exhausted
  | Datatypes.S fuel' =>
      step ← body s;
      match step with
      | Continue s' => loop fuel' body s'
      | Break r => Done r
      end
  end.

(** More fuel never changes a result already reached. *)
Lemma loop_more_fuel {S R : Type} (body : S -> outcome (flow S R)) (f1 f2 : nat) (s : S) (r : R) :
  loop f1 body s = Done r -> (f1 <= f2)%nat -> loop f2 body s = Done r.
Proof.
  revert f2 s; induction f1 as [|f1 IH]; intros f2 s Hl Hle; simpl in Hl; [discriminate|].
  destruct f2 as [|f2]; [lia|]. simpl.
  destruct (body s) as [[s'|r']| |]; simpl in *; auto.
  apply IH; [done | lia].
Qed.

(** Total correctness of a loop: an invariant, a measure the body decreases,
    and enough fuel for the measure give a result, with its postcondition. *)
Lemma loop_total {S R : Type} (body : S -> outcome (flow S R))
    (I : S -> Prop) (Q : R -> Prop) (mu : S -> nat) :
  (forall s, I s ->
     (exists s', body s = Done (Continue s') /\ I s' /\ (mu s' < mu s)%nat) \/
     (exists r, body s = Done (Break r) /\ Q r)) ->
  forall fuel s, I s -> (mu s < fuel)%nat -> exists r, loop fuel body s = Done r /\ Q r.
Proof.
  intros Hbody; induction fuel as [|fuel IH]; intros s HI Hmu; [lia|]. simpl.
  destruct (Hbody s HI) as [(s' & -> & HI' & Hlt)|(r & -> & HQ)]; simpl; eauto.
  apply IH; [done | lia].
Qed.

(** ** The target the program is compiled for *)

Inductive endianness := LittleEndian | BigEndian.

(** What the source leaves to the target and the build profile: the byte order
    of [from_ne_bytes], the width of [usize], and whether integer overflow
    panics and debug assertions run (a debug build) or overflow wraps and the
    assertions are compiled out (a release build). *)
Class Target := {
  target_endian : endianness;
  pointer_width : Z;
  overflow_checks : bool;
  pointer_width_cases : pointer_width = 32 \/ pointer_width = 64
}.

Definition x86_64_release : Target :=
  {| target_endian := LittleEndian; pointer_width := 64; overflow_checks := false;
     pointer_width_cases := or_intror eq_refl |}.
Definition x86_64_debug : Target :=
  {| target_endian := LittleEndian; pointer_width := 64; overflow_checks := true;
     pointer_width_cases := or_intror eq_refl |}.
Definition s390x_release : Target :=
  {| target_endian := BigEndian; pointer_width := 64; overflow_checks := false;
     pointer_width_cases := or_intror eq_refl |}.
Definition armv7_release : Target :=
  {| target_endian := LittleEndian; pointer_width := 32; overflow_checks := false;
     pointer_width_cases := or_introl eq_refl |}.

(** ** Machine integers *)

Section MachineIntegers.
Context {T : Target}.

(** An unsigned sum, difference or product at a width: what does not fit
    panics with overflow checks and wraps without them. *)
Definition fit_w (bits v : Z) : outcome Z :=
  if (0 <=? v) && (v <? 2 ^ bits) then Done v
  else if overflow_checks then Panic ArithmeticOverflow
  else Done (v mod 2 ^ bits).

Definition add_w (bits a b : Z) : outcome Z := fit_w bits (a + b).
Definition sub_w (bits a b : Z) : outcome Z := fit_w bits (a - b).
Definition mul_w (bits a b : Z) : outcome Z := fit_w bits (a * b).

Definition usize_add (a b : Z) : outcome Z := add_w pointer_width a b.
Definition usize_sub (a b : Z) : outcome Z := sub_w pointer_width a b.
Definition usize_mul (a b : Z) : outcome Z := mul_w pointer_width a b.

(** [debug_assert!(b)] *)
Definition debug_assert (b : bool) : outcome unit :=
  if overflow_checks then guard_panic AssertFailed b else Done tt.

Lemma debug_assert_done (b : bool) : b = true -> debug_assert b = Done tt.
Proof. intros ->. unfold debug_assert. by destruct overflow_checks. Qed.

Definition usize_max : Z := 2 ^ pointer_width - 1.
(** No Rust allocation, slice or array is longer than [isize::MAX] bytes. *)
Definition isize_max : Z := 2 ^ (pointer_width - 1) - 1.

Lemma fit_w_done (bits v : Z) : 0 <= v < 2 ^ bits -> fit_w bits v = Done v.
Proof.
  intros Hv. unfold fit_w.
  destruct (Z.leb_spec 0 v), (Z.ltb_spec v (2 ^ bits)); simpl; auto; lia.
Qed.

Lemma usize_max_ge : 2 ^ 32 - 1 <= usize_max.
Proof. unfold usize_max. destruct pointer_width_cases as [-> | ->]; lia. Qed.

Lemma isize_usize : isize_max + 2 ^ 31 <= usize_max.
Proof.
  unfold usize_max, isize_max.
  destruct pointer_width_cases as [-> | ->]; apply Z.leb_le; reflexivity.
Qed.

Lemma usize_add_done (a b : Z) : 0 <= a + b <= usize_max -> usize_add a b = Done (a + b).
Proof. unfold usize_max. intros. apply fit_w_done. lia. Qed.

Lemma usize_sub_done (a b : Z) : 0 <= a - b <= usize_max -> usize_sub a b = Done (a - b).
Proof. unfold usize_max. intros. apply fit_w_done. lia. Qed.

Lemma usize_mul_done (a b : Z) : 0 <= a * b <= usize_max -> usize_mul a b = Done (a * b).
Proof. unfold usize_max. intros. apply fit_w_done. lia. Qed.

End MachineIntegers.

(** Without a target: the conversions whose failure the source handles. *)
Definition u16_max : Z := 2 ^ 16 - 1.
Definition u32_max : Z := 2 ^ 32 - 1.
Definition u64_max : Z := 2 ^ 64 - 1.

(** [u16::try_from(v).expect(..)] *)
Definition u16_try_from (v : Z) : outcome Z :=
  if v <=? u16_max then Done v else Panic ExpectFailed.

Lemma u16_try_from_done (v : Z) : v <= u16_max -> u16_try_from v = Done v.
Proof. unfold u16_try_from. intros. destruct (Z.leb_spec v u16_max); [done | lia]. Qed.

Definition is_u8 (v : Z) : Prop := 0 <= v < 2 ^ 8.
Definition is_u16 (v : Z) : Prop := 0 <= v < 2 ^ 16.
Definition is_u32 (v : Z) : Prop := 0 <= v < 2 ^ 32.
Definition is_u64 (v : Z) : Prop := 0 <= v < 2 ^ 64.

(** ** Byte strings *)

Abbreviation bytes := (list Z) (only parsing).

Definition bytes_ok (bs : bytes) : Prop := Forall is_u8 bs.

Definition zlen {A : Type} (l : list A) : Z := Z.of_nat (length l).

(** [v.to_be_bytes()] at [n] bytes: the most significant byte first. *)
Fixpoint to_be_bytes (n : nat) (v : Z) : bytes :=
  match n with
  | O => []
  | S n' => (v / 2 ^ (8 * Z.of_nat n')) mod 256 :: to_be_bytes n' v
  end.

(** [from_be_bytes(bs)] *)
Fixpoint from_be_bytes (bs : bytes) : Z :=
  match bs with
  | [] => 0
  | b :: bs' => b * 2 ^ (8 * zlen bs') + from_be_bytes bs'
  end.

(** [from_ne_bytes] and [to_ne_bytes] follow the byte order of the target. *)
Definition from_ne_bytes {T : Target} (bs : bytes) : Z :=
  match target_endian with
  | LittleEndian => from_be_bytes (reverse bs)
  | BigEndian => from_be_bytes bs
  end.

Definition to_ne_bytes {T : Target} (n : nat) (v : Z) : bytes :=
  match target_endian with
  | LittleEndian => reverse (to_be_bytes n v)
  | BigEndian => to_be_bytes n v
  end.

Lemma zlen_nonneg {A : Type} (l : list A) : 0 <= zlen l.
Proof. unfold zlen. lia. Qed.

Lemma zlen_nil {A : Type} : zlen (@nil A) = 0.
Proof. reflexivity. Qed.

Lemma zlen_cons {A : Type} (x : A) (l : list A) : zlen (x :: l) = 1 + zlen l.
Proof. unfold zlen. simpl. lia. Qed.

Lemma zlen_app {A : Type} (l1 l2 : list A) : zlen (l1 ++ l2) = zlen l1 + zlen l2.
Proof. unfold zlen. rewrite length_app. lia. Qed.

Lemma zlen_replicate {A : Type} (n : nat) (x : A) : zlen (replicate n x) = Z.of_nat n.
Proof. unfold zlen. by rewrite length_replicate. Qed.

Lemma zlen_take {A : Type} (n : Z) (l : list A) :
  0 <= n <= zlen l -> zlen (take (Z.to_nat n) l) = n.
Proof. unfold zlen. intros. rewrite length_take. lia. Qed.

Lemma zlen_drop {A : Type} (n : Z) (l : list A) :
  0 <= n <= zlen l -> zlen (drop (Z.to_nat n) l) = zlen l - n.
Proof. unfold zlen. intros. rewrite length_drop. lia. Qed.

Lemma zlen_to_be_bytes (n : nat) (v : Z) : zlen (to_be_bytes n v) = Z.of_nat n.
Proof. induction n as [|n IH]; [done|]. cbn [to_be_bytes]. rewrite zlen_cons, IH. lia. Qed.

Lemma length_to_be_bytes (n : nat) (v : Z) : length (to_be_bytes n v) = n.
Proof. pose proof (zlen_to_be_bytes n v). unfold zlen in *. lia. Qed.

Lemma to_be_bytes_ok (n : nat) (v : Z) : bytes_ok (to_be_bytes n v).
Proof.
  induction n as [|n IH]; cbn [to_be_bytes]; constructor; auto.
  unfold is_u8. change (2 ^ 8) with 256. apply Z.mod_pos_bound. lia.
Qed.

Lemma from_be_bytes_bound (bs : bytes) :
  bytes_ok bs -> 0 <= from_be_bytes bs < 2 ^ (8 * zlen bs).
Proof.
  induction 1 as [|b bs Hb _ IH]; [change (0 <= 0 < 1); lia|].
  cbn [from_be_bytes]. rewrite zlen_cons.
  replace (8 * (1 + zlen bs)) with (8 * zlen bs + 8) by lia.
  pose proof (zlen_nonneg bs).
  rewrite Z.pow_add_r by lia. unfold is_u8 in Hb. nia.
Qed.

(** Decoding what was encoded keeps the low [8 * n] bits. *)
Lemma from_to_be_bytes (n : nat) (v : Z) :
  from_be_bytes (to_be_bytes n v) = v mod 2 ^ (8 * Z.of_nat n).
Proof.
  induction n as [|n IH]; cbn [to_be_bytes from_be_bytes].
  - simpl. by rewrite Z.mod_1_r.
  - rewrite IH, zlen_to_be_bytes.
    replace (8 * Z.of_nat (S n)) with (8 * Z.of_nat n + 8) by lia.
    rewrite Z.pow_add_r by lia.
    rewrite Z.rem_mul_r by lia. change (2 ^ 8) with 256. lia.
Qed.

Lemma from_to_be_bytes_small (n : nat) (v : Z) :
  0 <= v < 2 ^ (8 * Z.of_nat n) -> from_be_bytes (to_be_bytes n v) = v.
Proof. intros. rewrite from_to_be_bytes. by apply Z.mod_small. Qed.

Lemma to_be_bytes_mod (n : nat) (k v : Z) :
  0 <= k -> to_be_bytes n (v + k * 2 ^ (8 * Z.of_nat n)) = to_be_bytes n v.
Proof.
  intros Hk. assert (Hgen : forall m j, 0 <= j -> (m <= n)%nat ->
    to_be_bytes m (v + j * 2 ^ (8 * Z.of_nat m)) = to_be_bytes m v).
  { induction m as [|m IH]; intros j Hj Hm; cbn [to_be_bytes]; [done|].
    replace (8 * Z.of_nat (S m)) with (8 + 8 * Z.of_nat m) by lia.
    rewrite Z.pow_add_r by lia. rewrite Z.mul_assoc.
    f_equal.
    - rewrite Z.div_add by lia. change (2 ^ 8) with 256. by rewrite Z.mod_add by lia.
    - apply IH; lia. }
  by apply Hgen.
Qed.

(** Encoding what was decoded gives the bytes back. *)
Lemma to_from_be_bytes (bs : bytes) :
  bytes_ok bs -> to_be_bytes (length bs) (from_be_bytes bs) = bs.
Proof.
  induction 1 as [|b bs Hb Hbs IH]; [done|].
  cbn [length to_be_bytes from_be_bytes]. fold (zlen bs).
  pose proof (from_be_bytes_bound bs Hbs) as Hbound. unfold is_u8 in Hb.
  f_equal.
  - rewrite Z.add_comm, Z.div_add by (apply Z.pow_nonzero; unfold zlen; lia).
    rewrite Z.div_small by lia. apply Z.mod_small. lia.
  - rewrite Z.add_comm. unfold zlen. rewrite to_be_bytes_mod by lia. done.
Qed.

Lemma zlen_reverse {A : Type} (l : list A) : zlen (reverse l) = zlen l.
Proof. unfold zlen. by rewrite length_reverse. Qed.

Section NativeEndian.
Context {T : Target}.

Lemma zlen_to_ne_bytes (n : nat) (v : Z) : zlen (to_ne_bytes n v) = Z.of_nat n.
Proof.
  unfold to_ne_bytes. destruct target_endian; rewrite ?zlen_reverse; apply zlen_to_be_bytes.
Qed.

Lemma to_ne_bytes_ok (n : nat) (v : Z) : bytes_ok (to_ne_bytes n v).
Proof.
  unfold to_ne_bytes, bytes_ok. destruct target_endian; rewrite ?Forall_reverse;
    apply to_be_bytes_ok.
Qed.

Lemma from_to_ne_bytes_small (n : nat) (v : Z) :
  0 <= v < 2 ^ (8 * Z.of_nat n) -> from_ne_bytes (to_ne_bytes n v) = v.
Proof.
  intros. unfold from_ne_bytes, to_ne_bytes.
  destruct target_endian; rewrite ?reverse_involutive; by apply from_to_be_bytes_small.
Qed.

Lemma from_ne_bytes_bound (bs : bytes) :
  bytes_ok bs -> 0 <= from_ne_bytes bs < 2 ^ (8 * zlen bs).
Proof.
  intros Hok. unfold from_ne_bytes. destruct target_endian; [|by apply from_be_bytes_bound].
  rewrite <- (zlen_reverse bs). apply from_be_bytes_bound. by apply Forall_reverse.
Qed.

End NativeEndian.

(** ** Slices and buffers *)

(** The bytes [l[a..b]] when [0 <= a <= b <= l.len()]. *)
Definition sub {A : Type} (l : list A) (a b : Z) : list A :=
  take (Z.to_nat (b - a)) (drop (Z.to_nat a) l).

(** [&l[a..b]], which panics when the range does not lie within [l]. *)
Definition slice {A : Type} (l : list A) (a b : Z) : outcome (list A) :=
  if (0 <=? a) && (a <=? b) && (b <=? zlen l) then Done (sub l a b) else Panic SliceOutOfRange.

(** [&l[a..]] *)
Definition slice_from {A : Type} (l : list A) (a : Z) : outcome (list A) :=
  slice l a (zlen l).

(** [l[i]] *)
Definition index {A : Type} (l : list A) (i : Z) : outcome A :=
  if (0 <=? i) && (i <? zlen l) then
    match l !! Z.to_nat i with Some x => Done x | None => Panic IndexOutOfRange end
  else Panic IndexOutOfRange.

(** [buf] with the bytes from [a] on replaced by [bs]. *)
Definition patch {A : Type} (buf : list A) (a : Z) (bs : list A) : list A :=
  take (Z.to_nat a) buf ++ bs ++ drop (Z.to_nat (a + zlen bs)) buf.

(** [buf[a..b].copy_from_slice(bs)], which also panics when the lengths differ. *)
Definition copy_from_slice {A : Type} (buf : list A) (a b : Z) (bs : list A)
    : outcome (list A) :=
  if (0 <=? a) && (a <=? b) && (b <=? zlen buf) then
    if b - a =? zlen bs then Done (patch buf a bs) else Panic LengthMismatch
  else Panic SliceOutOfRange.

(** [buf[i] = v] *)
Definition set_index {A : Type} (buf : list A) (i : Z) (v : A) : outcome (list A) :=
  if (0 <=? i) && (i <? zlen buf) then Done (patch buf i [v]) else Panic IndexOutOfRange.

(** [buf[a..b].fill(v)] *)
Definition fill {A : Type} (buf : list A) (a b : Z) (v : A) : outcome (list A) :=
  if (0 <=? a) && (a <=? b) && (b <=? zlen buf) then
    Done (patch buf a (replicate (Z.to_nat (b - a)) v))
  else Panic SliceOutOfRange.

Ltac bool_cases :=
  repeat match goal with
  | |- context [?a <=? ?b] => destruct (Z.leb_spec a b); simpl
  | |- context [?a <? ?b] => destruct (Z.ltb_spec a b); simpl
  | |- context [?a =? ?b] => destruct (Z.eqb_spec a b); simpl
  end; try lia; try done.

(** Range facts about closed numbers and closed byte strings. *)
Ltac closed_bounds :=
  repeat first [ apply Forall_nil_2 | apply Forall_cons_2 | split | by vm_compute | hnf ].

Section Slices.
Context {A : Type}.
Implicit Types (l buf bs : list A) (a b i : Z).

Lemma slice_done l a b : 0 <= a <= b -> b <= zlen l -> slice l a b = Done (sub l a b).
Proof. intros. unfold slice. bool_cases. Qed.

Lemma slice_from_done l a : 0 <= a <= zlen l -> slice_from l a = Done (drop (Z.to_nat a) l).
Proof.
  intros. unfold slice_from. rewrite slice_done by lia. unfold sub.
  f_equal. apply take_ge. rewrite length_drop. unfold zlen in *. lia.
Qed.

Lemma zlen_sub l a b : 0 <= a <= b -> b <= zlen l -> zlen (sub l a b) = b - a.
Proof.
  intros. unfold sub. rewrite zlen_take; [done|]. rewrite zlen_drop; lia.
Qed.

Lemma index_done l i : 0 <= i < zlen l -> exists x, l !! Z.to_nat i = Some x /\ index l i = Done x.
Proof.
  intros Hi. unfold index.
  destruct (lookup_lt_is_Some_2 l (Z.to_nat i)) as [x Hx]; [unfold zlen in *; lia|].
  exists x. rewrite Hx. split; [done|]. bool_cases.
Qed.

Lemma patch_app x y z bs : zlen bs = zlen y -> patch (x ++ y ++ z) (zlen x) bs = x ++ bs ++ z.
Proof.
  intros Hlen. unfold patch. rewrite Hlen. unfold zlen.
  rewrite Nat2Z.id, take_app_length. f_equal. f_equal.
  replace (Z.to_nat _) with (length (x ++ y)) by (rewrite length_app; lia).
  by rewrite app_assoc, drop_app_length.
Qed.

Lemma copy_from_slice_done buf a b bs :
  0 <= a -> b = a + zlen bs -> b <= zlen buf -> copy_from_slice buf a b bs = Done (patch buf a bs).
Proof.
  intros. subst. pose proof (zlen_nonneg bs). unfold copy_from_slice. bool_cases.
Qed.

Lemma set_index_done buf i x : 0 <= i < zlen buf -> set_index buf i x = Done (patch buf i [x]).
Proof. intros. unfold set_index. bool_cases. Qed.

Lemma fill_done buf a b x :
  0 <= a <= b -> b <= zlen buf ->
  fill buf a b x = Done (patch buf a (replicate (Z.to_nat (b - a)) x)).
Proof. intros. unfold fill. bool_cases. Qed.

Lemma zlen_patch buf a bs : 0 <= a -> a + zlen bs <= zlen buf -> zlen (patch buf a bs) = zlen buf.
Proof.
  intros. pose proof (zlen_nonneg bs). unfold patch.
  rewrite !zlen_app, zlen_take, zlen_drop by lia. lia.
Qed.

(** Writing at the end of what is already written appends to it. *)
Lemma take_patch_end buf a bs :
  0 <= a -> a + zlen bs <= zlen buf ->
  take (Z.to_nat (a + zlen bs)) (patch buf a bs) = take (Z.to_nat a) buf ++ bs.
Proof.
  intros. unfold patch. rewrite app_assoc. apply take_app_length'.
  rewrite length_app, length_take. unfold zlen in *. lia.
Qed.

(** Writing inside what is already written patches it in place. *)
Lemma take_patch_inside buf a n bs :
  0 <= a -> a + zlen bs <= n -> n <= zlen buf ->
  take (Z.to_nat n) (patch buf a bs) = patch (take (Z.to_nat n) buf) a bs.
Proof.
  intros. pose proof (zlen_nonneg bs).
  assert (length buf = Z.to_nat (zlen buf)) by (unfold zlen; lia).
  assert (length bs = Z.to_nat (zlen bs)) by (unfold zlen; lia).
  unfold patch. rewrite !take_app, !take_take, !length_take.
  rewrite (take_ge bs) by lia.
  f_equal; [f_equal; lia|]. f_equal.
  rewrite skipn_firstn_comm. f_equal. lia.
Qed.

(** Two adjacent writes are one. *)
Lemma patch_patch buf a x y :
  0 <= a -> a + zlen x + zlen y <= zlen buf ->
  patch (patch buf a x) (a + zlen x) y = patch buf a (x ++ y).
Proof.
  intros. pose proof (zlen_nonneg x). pose proof (zlen_nonneg y).
  unfold patch at 1. rewrite take_patch_end by lia.
  rewrite <- app_assoc. unfold patch. rewrite <- app_assoc. f_equal. f_equal. f_equal.
  rewrite zlen_app. rewrite app_assoc, drop_app_ge.
  - rewrite drop_drop, length_app, length_take. f_equal. unfold zlen in *. lia.
  - rewrite length_app, length_take. unfold zlen in *. lia.
Qed.

Lemma patch_nil buf a : 0 <= a <= zlen buf -> patch buf a [] = buf.
Proof. intros. unfold patch. change (zlen []) with 0. rewrite Z.add_0_r. apply take_drop. Qed.

Lemma sub_all l : sub l 0 (zlen l) = l.
Proof. unfold sub. rewrite drop_0. apply take_ge. unfold zlen. lia. Qed.

Lemma sub_prefix l a b n :
  0 <= a <= b -> b <= n -> n <= zlen l -> sub (take (Z.to_nat n) l) a b = sub l a b.
Proof.
  intros. unfold sub. rewrite skipn_firstn_comm, take_take. f_equal. lia.
Qed.

Lemma sub_drop l n a b : 0 <= n -> 0 <= a ->
  sub (drop (Z.to_nat n) l) a b = sub l (n + a) (n + b).
Proof.
  intros. unfold sub. rewrite drop_drop. f_equal; [lia|]. f_equal. lia.
Qed.

Lemma drop_sub l n a b : 0 <= n -> 0 <= a -> drop (Z.to_nat n) (sub l a b) = sub l (a + n) b.
Proof.
  intros. unfold sub. rewrite skipn_firstn_comm, drop_drop. f_equal; [lia|]. f_equal. lia.
Qed.

Lemma drop_app_zlen (x y : list A) n : n = zlen x -> drop (Z.to_nat n) (x ++ y) = y.
Proof. intros ->. unfold zlen. rewrite Nat2Z.id. apply drop_app_length. Qed.

Lemma take_app_zlen (x y : list A) n : n = zlen x -> take (Z.to_nat n) (x ++ y) = x.
Proof. intros ->. unfold zlen. rewrite Nat2Z.id. apply take_app_length. Qed.

(** The middle of three pieces, by its position. *)
Lemma sub_middle (x y z : list A) a b :
  a = zlen x -> b = zlen x + zlen y -> sub (x ++ y ++ z) a b = y.
Proof.
  intros Ha ->. unfold sub. rewrite (drop_app_zlen x) by done. subst a.
  apply take_app_zlen. lia.
Qed.

Lemma sub_head (x y : list A) b : b = zlen x -> sub (x ++ y) 0 b = x.
Proof. intros. apply (sub_middle [] x y); [done|]. rewrite zlen_nil. lia. Qed.

(** A piece of the middle of three. *)
Lemma sub_inside (x y z : list A) n a b :
  n = zlen x -> 0 <= a <= b -> b <= zlen y -> sub (x ++ y ++ z) (n + a) (n + b) = sub y a b.
Proof.
  intros -> Ha Hb. rewrite <- sub_drop by (pose proof (zlen_nonneg x); lia).
  rewrite (drop_app_zlen x) by done. rewrite <- (sub_prefix (y ++ z) a b (zlen y)).
  - by rewrite take_app_zlen.
  - lia.
  - done.
  - rewrite zlen_app. pose proof (zlen_nonneg z). lia.
Qed.

End Slices.

Lemma bytes_ok_sub (l : bytes) (a b : Z) : bytes_ok l -> bytes_ok (sub l a b).
Proof. intros. apply Forall_take, Forall_drop. done. Qed.

Lemma bytes_ok_drop (l : bytes) (n : nat) : bytes_ok l -> bytes_ok (drop n l).
Proof. apply Forall_drop. Qed.

Lemma bytes_ok_take (l : bytes) (n : nat) : bytes_ok l -> bytes_ok (take n l).
Proof. apply Forall_take. Qed.

Lemma bytes_ok_app (l1 l2 : bytes) : bytes_ok l1 -> bytes_ok l2 -> bytes_ok (l1 ++ l2).
Proof. intros. by apply Forall_app. Qed.

Lemma index_lookup {A : Type} (l : list A) (i : Z) (x : A) :
  0 <= i -> l !! Z.to_nat i = Some x -> index l i = Done x.
Proof.
  intros Hi Hx. unfold index. rewrite Hx.
  apply lookup_lt_Some in Hx. unfold zlen. bool_cases.
Qed.

Lemma drop_past {A : Type} (l : list A) (n : Z) : zlen l <= n -> drop (Z.to_nat n) l = [].
Proof. intros. apply drop_ge. unfold zlen in *. lia. Qed.

(** Clearing the two low bits of a machine word rounds it down to a multiple of
    four. *)
Lemma land_clear_low2 (w x : Z) :
  2 <= w -> 0 <= x < 2 ^ w -> Z.land x (Z.lxor (2 ^ w - 1) 3) = x / 4 * 4.
Proof.
  intros Hw Hx.
  replace (2 ^ w - 1) with (Z.ones w) by (rewrite Z.ones_equiv; lia).
  change 4 with (2 ^ 2). rewrite <- Z.shiftr_div_pow2, <- Z.shiftl_mul_pow2 by lia.
  apply Z.bits_inj'. intros n Hn.
  rewrite Z.land_spec, Z.lxor_spec, Z.shiftl_spec by lia.
  change 3 with (Z.ones 2). rewrite !Z.testbit_ones_nonneg by lia.
  destruct (Z.ltb_spec n 2); destruct (Z.ltb_spec n w); try lia; simpl.
  - rewrite Z.testbit_neg_r with (n := n - 2) by lia. apply andb_false_r.
  - rewrite Z.shiftr_spec by lia. rewrite andb_true_r. f_equal. lia.
  - rewrite andb_false_r, Z.shiftr_spec by lia. symmetry.
    replace (n - 2 + 2) with n by lia.
    destruct (Z.eq_dec x 0) as [->|]; [apply Z.testbit_0_l|].
    apply Z.bits_above_log2; [lia|]. apply Z.log2_lt_pow2; [lia|].
    apply Z.lt_le_trans with (2 ^ w); [lia|]. apply Z.pow_le_mono_r; lia.
Qed.

(** Reads at literal positions of a list whose first cells are known. *)
Ltac read_index :=
  repeat (erewrite index_lookup; [| lia | reflexivity]); rewrite ?bind_done.

(** [exec lem] runs the first operation of the goal's left-hand side with [lem],
    which says what it returns; the side conditions are linear arithmetic or hypotheses. *)
Tactic Notation "exec" uconstr(lem) :=
  lazymatch goal with
  | |- (?m ≫= ?k) = _ =>
      erewrite (bind_step m _ k) by (eapply lem; first [lia | eassumption]); cbv beta match
  end.

(** Parts of byte strings hold bytes. *)
Create HintDb wire.
#[export] Hint Resolve bytes_ok_sub bytes_ok_drop bytes_ok_take bytes_ok_app : wire.

(** Arithmetic on the lengths of buffers and of what is written into them. *)
Ltac sizes :=
  repeat first [ rewrite zlen_app | rewrite zlen_to_be_bytes | rewrite zlen_replicate
               | rewrite zlen_patch by sizes ];
  lia.

Lemma patch_next {A : Type} (b : list A) (a c : Z) (x y : list A) :
  0 <= a -> c = a + zlen x -> c + zlen y <= zlen b -> patch (patch b a x) c y = patch b a (x ++ y).
Proof. intros ? -> ?. by apply patch_patch; lia. Qed.
