(* ===== verification/Constants.v ===== *)
(** * Netlink and conntrack constants

    The constants of [src/netlink/constants.rs] under their own names, and its
    one function, [buffer_size].  Values the source takes from [libc] are the
    Linux ones its comments state. *)

From stdpp Require Import base numbers.
From Stdlib Require Import ZArith Lia.
From S2P Require Import Prelude.
Local Open Scope Z_scope.

Definition NETLINK_NETFILTER : Z := 12.
Definition AF_NETLINK_FAMILY : Z := 16.
Definition NFPROTO_IPV4 : Z := 2.
Definition NFPROTO_IPV6 : Z := 10.
Definition NETLINK_ADD_MEMBERSHIP : Z := 1.
Definition NETLINK_NO_ENOBUFS : Z := 5.
Definition NFNLGRP_CONNTRACK_NEW : Z := 1.
Definition NFNLGRP_CONNTRACK_DESTROY : Z := 3.
Definition NFNL_SUBSYS_CTNETLINK : Z := 1.
Definition NLMSG_MIN_TYPE : Z := 0x10.
Definition IPCTNL_MSG_CT_NEW : Z := 0.
Definition IPCTNL_MSG_CT_DELETE : Z := 2.
Definition CTA_TUPLE_ORIG : Z := 1.
Definition CTA_TUPLE_REPLY : Z := 2.
Definition CTA_STATUS : Z := 3.
Definition CTA_COUNTERS_ORIG : Z := 9.
Definition CTA_COUNTERS_REPLY : Z := 10.
Definition CTA_TUPLE_IP : Z := 1.
Definition CTA_TUPLE_PROTO : Z := 2.
Definition CTA_IP_V4_SRC : Z := 1.
Definition CTA_IP_V4_DST : Z := 2.
Definition CTA_PROTO_NUM : Z := 1.
Definition CTA_PROTO_SRC_PORT : Z := 2.
Definition CTA_PROTO_DST_PORT : Z := 3.
Definition CTA_COUNTERS_PACKETS : Z := 1.
Definition CTA_COUNTERS_BYTES : Z := 2.
Definition IPS_SRC_NAT : Z := Z.shiftl 1 4.
Definition IPS_DST_NAT : Z := Z.shiftl 1 5.
Definition IPS_NAT_MASK : Z := Z.lor IPS_SRC_NAT IPS_DST_NAT.
Definition NLA_ALIGNTO : Z := 4.
Definition NLA_TYPE_MASK : Z := 0x3FFF.
Definition NLMSG_HDRLEN : Z := 16.
Definition NFGENMSG_LEN : Z := 4.
Definition NLA_HDRLEN : Z := 4.
Definition DEFAULT_RECV_BUF_SIZE : Z := 4 * 1024 * 1024.
Definition DEFAULT_SEND_BUF_SIZE : Z := 4 * 1024 * 1024.
Definition RECV_BATCH_SIZE : Z := 16.
Definition RECV_SLOT_SIZE : Z := 64 * 1024.

(** [libc::c_int::MAX] *)
Definition c_int_max : Z := 2 ^ 31 - 1.

(** [c_int::try_from(size).unwrap_or(c_int::MAX)] *)
Definition buffer_size (size : Z) : Z :=
  if size <=? c_int_max then size else c_int_max.

Lemma buffer_size_spec (size : Z) : buffer_size size = Z.min size c_int_max.
Proof. unfold buffer_size. bool_cases. Qed.
