(* ===== verification/Elements.v ===== *)
(** * Export protocol constants

    The constants of [src/export/elements.rs] under their own names. *)

From Stdlib Require Import ZArith.
Local Open Scope Z_scope.

Definition IPFIX_VERSION : Z := 10.
Definition IPFIX_HEADER_LEN : Z := 16.
Definition IPFIX_TEMPLATE_SET_ID : Z := 2.
Definition NETFLOW9_VERSION : Z := 9.
Definition NETFLOW9_HEADER_LEN : Z := 20.
Definition NETFLOW9_TEMPLATE_FLOWSET_ID : Z := 0.
Definition NETFLOW9_ALIGNMENT : Z := 4.
Definition V9_OUT_BYTES : Z := 23.
Definition V9_OUT_PKTS : Z := 24.
Definition SET_HEADER_LEN : Z := 4.
Definition FIELD_SPECIFIER_LEN : Z := 4.
Definition ENTERPRISE_NUMBER_LEN : Z := 4.
Definition ENTERPRISE_BIT : Z := 0x8000.
Definition MAX_MSG_SIZE : Z := 1472.
Definition MIN_TEMPLATE_ID : Z := 256.
Definition DEFAULT_TEMPLATE_ID : Z := 256.
Definition DEFAULT_TEMPLATE_INTERVAL_SECS : Z := 30.
Definition REVERSE_INFORMATION_ELEMENT_PEN : Z := 29305.
Definition IE_OCTET_DELTA_COUNT : Z := 1.
Definition IE_PACKET_DELTA_COUNT : Z := 2.
Definition IE_PROTOCOL_IDENTIFIER : Z := 4.
Definition IE_SOURCE_TRANSPORT_PORT : Z := 7.
Definition IE_SOURCE_IPV4_ADDRESS : Z := 8.
Definition IE_DESTINATION_TRANSPORT_PORT : Z := 11.
Definition IE_DESTINATION_IPV4_ADDRESS : Z := 12.
Definition IE_POST_NAT_SOURCE_IPV4_ADDRESS : Z := 225.
Definition IE_POST_NAT_DESTINATION_IPV4_ADDRESS : Z := 226.
Definition IE_POST_NAPT_SOURCE_TRANSPORT_PORT : Z := 227.
Definition IE_POST_NAPT_DESTINATION_TRANSPORT_PORT : Z := 228.
Definition IE_NAT_EVENT : Z := 230.
Definition NAT44_SESSION_CREATE : Z := 4.
Definition NAT44_SESSION_DELETE : Z := 5.
