(* ===== verification/Event.v ===== *)
(** * Conntrack events

    [src/event.rs]: the NAT event type, the event record the parser produces
    and the encoder consumes, and their [Display] forms.  An IPv4 address is
    its four octets, as [Ipv4Addr::new] takes them and [octets] returns them. *)

From stdpp Require Import base list numbers strings pretty.
From Stdlib Require Import ZArith Lia.
From S2P Require Import Prelude Elements.
Local Open Scope Z_scope.

Inductive NatEventType := Create | Delete.

#[export] Instance NatEventType_eq_dec : EqDecision NatEventType.
Proof. solve_decision. Defined.

Definition nat_event_code (self : NatEventType) : Z :=
  match self with
  | Create => NAT44_SESSION_CREATE
  | Delete => NAT44_SESSION_DELETE
  end.

Record Ipv4Addr := Ipv4Addr_new { octet0 : Z; octet1 : Z; octet2 : Z; octet3 : Z }.

#[export] Instance Ipv4Addr_eq_dec : EqDecision Ipv4Addr.
Proof. solve_decision. Defined.

Definition octets (a : Ipv4Addr) : bytes := [octet0 a; octet1 a; octet2 a; octet3 a].

(** [Ipv4Addr::UNSPECIFIED] *)
Definition UNSPECIFIED : Ipv4Addr := Ipv4Addr_new 0 0 0 0.

Record ConntrackEvent := {
  nat_event : NatEventType;
  protocol : Z;
  src_ip : Ipv4Addr;
  dst_ip : Ipv4Addr;
  src_port : Z;
  dst_port : Z;
  post_nat_src_ip : Ipv4Addr;
  post_nat_src_port : Z;
  post_nat_dst_ip : Ipv4Addr;
  post_nat_dst_port : Z;
  orig_bytes : Z;
  orig_packets : Z;
  reply_bytes : Z;
  reply_packets : Z
}.

#[export] Instance ConntrackEvent_eq_dec : EqDecision ConntrackEvent.
Proof. solve_decision. Defined.

(** ** The types of the fields, as the source declares them *)

Definition addr_ok (a : Ipv4Addr) : Prop := bytes_ok (octets a).

Record event_ok (e : ConntrackEvent) : Prop := {
  ok_protocol : is_u8 (protocol e);
  ok_src_ip : addr_ok (src_ip e);
  ok_dst_ip : addr_ok (dst_ip e);
  ok_src_port : is_u16 (src_port e);
  ok_dst_port : is_u16 (dst_port e);
  ok_post_nat_src_ip : addr_ok (post_nat_src_ip e);
  ok_post_nat_src_port : is_u16 (post_nat_src_port e);
  ok_post_nat_dst_ip : addr_ok (post_nat_dst_ip e);
  ok_post_nat_dst_port : is_u16 (post_nat_dst_port e);
  ok_orig_bytes : is_u64 (orig_bytes e);
  ok_orig_packets : is_u64 (orig_packets e);
  ok_reply_bytes : is_u64 (reply_bytes e);
  ok_reply_packets : is_u64 (reply_packets e)
}.

(** ** Display *)

Definition NatEventType_fmt (self : NatEventType) : string :=
  match self with
  | Create => "CREATE"
  | Delete => "DELETE"
  end.

(** [Ipv4Addr]'s [Display]: dotted decimal. *)
Definition Ipv4Addr_fmt (a : Ipv4Addr) : string :=
  pretty (octet0 a) +:+ "." +:+ pretty (octet1 a) +:+ "." +:+
  pretty (octet2 a) +:+ "." +:+ pretty (octet3 a).

Definition ConntrackEvent_fmt (self : ConntrackEvent) : string :=
  NatEventType_fmt (nat_event self) +:+ " proto=" +:+ pretty (protocol self) +:+ " " +:+
  Ipv4Addr_fmt (src_ip self) +:+ ":" +:+ pretty (src_port self) +:+ " -> " +:+
  Ipv4Addr_fmt (dst_ip self) +:+ ":" +:+ pretty (dst_port self) +:+ " nat=" +:+
  Ipv4Addr_fmt (post_nat_src_ip self) +:+ ":" +:+ pretty (post_nat_src_port self) +:+ " -> " +:+
  Ipv4Addr_fmt (post_nat_dst_ip self) +:+ ":" +:+ pretty (post_nat_dst_port self) +:+ " orig=" +:+
  pretty (orig_bytes self) +:+ "/" +:+ pretty (orig_packets self) +:+ " reply=" +:+
  pretty (reply_bytes self) +:+ "/" +:+ pretty (reply_packets self).

(** The event of the unit tests' fixture. *)
Definition fixture_event (proto : Z) : ConntrackEvent := {|
  nat_event := Create;
  protocol := proto;
  src_ip := Ipv4Addr_new 192 168 1 10;
  dst_ip := Ipv4Addr_new 8 8 8 8;
  src_port := 1234;
  dst_port := 53;
  post_nat_src_ip := Ipv4Addr_new 203 0 113 5;
  post_nat_src_port := 40000;
  post_nat_dst_ip := Ipv4Addr_new 8 8 8 8;
  post_nat_dst_port := 53;
  orig_bytes := 700;
  orig_packets := 7;
  reply_bytes := 900;
  reply_packets := 9
|}.

Example fixture_event_displays :
  ConntrackEvent_fmt (fixture_event 17) =
  "CREATE proto=17 192.168.1.10:1234 -> 8.8.8.8:53 nat=203.0.113.5:40000 -> 8.8.8.8:53 orig=700/7 reply=900/9"%string.
Proof. vm_compute. reflexivity. Qed.

Lemma zlen_octets (a : Ipv4Addr) : zlen (octets a) = 4.
Proof. reflexivity. Qed.

Lemma nat_event_code_u8 (t : NatEventType) : is_u8 (nat_event_code t).
Proof. destruct t; closed_bounds. Qed.

(** The code identifies the event type. *)
Lemma nat_event_code_inj (t1 t2 : NatEventType) :
  nat_event_code t1 = nat_event_code t2 -> t1 = t2.
Proof. destruct t1, t2; cbn; intros; done. Qed.

Lemma fixture_event_ok (proto : Z) : is_u8 proto -> event_ok (fixture_event proto).
Proof.
  intros Hp. split; [exact Hp|..]; closed_bounds.
Qed.
