(* ===== verification/Parser.v ===== *)
(** * The netlink parser

    [src/netlink/parser.rs].  The five attribute loops of the source share one
    shape (read the header, check the length, take the payload, dispatch,
    advance to the next aligned offset); that shape is [nla_body], and each
    parse function is it with its own [match] on the attribute type.  The [&mut]
    out-parameters are the loop state, returned updated. *)

From stdpp Require Import base list numbers.
From Stdlib Require Import ZArith Lia.
From S2P Require Import Prelude Constants Elements Event.
Local Open Scope Z_scope.

Section Parser.
Context {T : Target}.

(** ** Reading integers *)

Definition read_u16 (data : bytes) : outcome Z :=
  b0 ← index data 0; b1 ← index data 1;
  Done (from_ne_bytes [b0; b1]).

Definition read_u32 (data : bytes) : outcome Z :=
  b0 ← index data 0; b1 ← index data 1; b2 ← index data 2; b3 ← index data 3;
  Done (from_ne_bytes [b0; b1; b2; b3]).

Definition read_u16_be (data : bytes) : outcome Z :=
  b0 ← index data 0; b1 ← index data 1;
  Done (from_be_bytes [b0; b1]).

Definition read_u32_be (data : bytes) : outcome Z :=
  b0 ← index data 0; b1 ← index data 1; b2 ← index data 2; b3 ← index data 3;
  Done (from_be_bytes [b0; b1; b2; b3]).

Definition read_u64_be (data : bytes) : outcome Z :=
  b0 ← index data 0; b1 ← index data 1; b2 ← index data 2; b3 ← index data 3;
  b4 ← index data 4; b5 ← index data 5; b6 ← index data 6; b7 ← index data 7;
  Done (from_be_bytes [b0; b1; b2; b3; b4; b5; b6; b7]).

(** [(len + NLA_ALIGNTO - 1) & !(NLA_ALIGNTO - 1)]; [!] flips the bits of a
    [usize]. *)
Definition nla_align (len : Z) : outcome Z :=
  a ← usize_add len NLA_ALIGNTO;
  b ← usize_sub a 1;
  Done (Z.land b (Z.lxor usize_max (NLA_ALIGNTO - 1))).

(** ** Attribute loops *)

(** One pass of an attribute loop over [data] at [offset]. *)
Definition nla_body {S : Type} (data : bytes) (handle : S -> Z -> bytes -> outcome S)
    (st : Z * S) : outcome (flow (Z * S) S) :=
  let '(offset, s) := st in
  header_end ← usize_add offset NLA_HDRLEN;
  if header_end <=? zlen data then
    at_len ← slice_from data offset;
    nla_len ← read_u16 at_len;
    type_offset ← usize_add offset 2;
    at_type ← slice_from data type_offset;
    raw_type ← read_u16 at_type;
    let nla_type := Z.land raw_type NLA_TYPE_MASK in
    if nla_len <? NLA_HDRLEN then Done (Break s)
    else
      attr_end ← usize_add offset nla_len;
      if zlen data <? attr_end then Done (Break s)
      else
        payload_start ← usize_add offset NLA_HDRLEN;
        payload ← slice data payload_start attr_end;
        s' ← handle s nla_type payload;
        next ← nla_align attr_end;
        Done (Continue (next, s'))
  else Done (Break s).

(** The loop from offset 0.  An attribute takes at least four bytes, so the
    fuel, one more than the number of bytes, is never reached. *)
Definition nla_loop {S : Type} (data : bytes) (handle : S -> Z -> bytes -> outcome S)
    (s : S) : outcome S :=
  loop (Datatypes.S (length data)) (nla_body data handle) (0, s).

Definition parse_tuple_ip_attr (st : Ipv4Addr * Ipv4Addr) (nla_type : Z) (payload : bytes)
    : outcome (Ipv4Addr * Ipv4Addr) :=
  let '(src_ip, dst_ip) := st in
  if (nla_type =? CTA_IP_V4_SRC) && (4 <=? zlen payload) then
    p0 ← index payload 0; p1 ← index payload 1; p2 ← index payload 2; p3 ← index payload 3;
    Done (Ipv4Addr_new p0 p1 p2 p3, dst_ip)
  else if (nla_type =? CTA_IP_V4_DST) && (4 <=? zlen payload) then
    p0 ← index payload 0; p1 ← index payload 1; p2 ← index payload 2; p3 ← index payload 3;
    Done (src_ip, Ipv4Addr_new p0 p1 p2 p3)
  else Done (src_ip, dst_ip).

Definition parse_tuple_ip (data : bytes) (src_ip dst_ip : Ipv4Addr)
    : outcome (Ipv4Addr * Ipv4Addr) :=
  nla_loop data parse_tuple_ip_attr (src_ip, dst_ip).

Definition parse_tuple_proto_attr (st : Z * Z * Z) (nla_type : Z) (payload : bytes)
    : outcome (Z * Z * Z) :=
  let '(protocol, src_port, dst_port) := st in
  if (nla_type =? CTA_PROTO_NUM) && negb (zlen payload =? 0) then
    p ← index payload 0; Done (p, src_port, dst_port)
  else if (nla_type =? CTA_PROTO_SRC_PORT) && (2 <=? zlen payload) then
    p ← read_u16_be payload; Done (protocol, p, dst_port)
  else if (nla_type =? CTA_PROTO_DST_PORT) && (2 <=? zlen payload) then
    p ← read_u16_be payload; Done (protocol, src_port, p)
  else Done (protocol, src_port, dst_port).

Definition parse_tuple_proto (data : bytes) (protocol src_port dst_port : Z)
    : outcome (Z * Z * Z) :=
  nla_loop data parse_tuple_proto_attr (protocol, src_port, dst_port).

Definition parse_counters_attr (st : Z * Z) (nla_type : Z) (payload : bytes)
    : outcome (Z * Z) :=
  let '(n_bytes, n_packets) := st in
  if (nla_type =? CTA_COUNTERS_PACKETS) && (8 <=? zlen payload) then
    v ← read_u64_be payload; Done (n_bytes, v)
  else if (nla_type =? CTA_COUNTERS_BYTES) && (8 <=? zlen payload) then
    v ← read_u64_be payload; Done (v, n_packets)
  else Done (n_bytes, n_packets).

Definition parse_counters (data : bytes) (n_bytes n_packets : Z) : outcome (Z * Z) :=
  nla_loop data parse_counters_attr (n_bytes, n_packets).

(** The five out-parameters of [parse_tuple]. *)
Record tuple_out := Tuple_out {
  t_src_ip : Ipv4Addr;
  t_dst_ip : Ipv4Addr;
  t_protocol : Z;
  t_src_port : Z;
  t_dst_port : Z
}.

Definition parse_tuple_attr (st : tuple_out) (nla_type : Z) (payload : bytes)
    : outcome tuple_out :=
  let 'Tuple_out src_ip dst_ip protocol src_port dst_port := st in
  if nla_type =? CTA_TUPLE_IP then
    '(src_ip, dst_ip) ← parse_tuple_ip payload src_ip dst_ip;
    Done (Tuple_out src_ip dst_ip protocol src_port dst_port)
  else if nla_type =? CTA_TUPLE_PROTO then
    '(protocol, src_port, dst_port) ← parse_tuple_proto payload protocol src_port dst_port;
    Done (Tuple_out src_ip dst_ip protocol src_port dst_port)
  else Done st.

Definition parse_tuple (data : bytes) (st : tuple_out) : outcome tuple_out :=
  nla_loop data parse_tuple_attr st.

(** ** A conntrack message *)

(** The locals of [parse_nla_tree]. *)
Record tree_state := {
  l_src_ip : Ipv4Addr;
  l_dst_ip : Ipv4Addr;
  l_protocol : Z;
  l_src_port : Z;
  l_dst_port : Z;
  l_post_nat_src_ip : Ipv4Addr;
  l_post_nat_src_port : Z;
  l_post_nat_dst_ip : Ipv4Addr;
  l_post_nat_dst_port : Z;
  l_status : Z;
  l_orig_bytes : Z;
  l_orig_packets : Z;
  l_reply_bytes : Z;
  l_reply_packets : Z;
  l_has_status : bool
}.

Definition tree_init : tree_state := {|
  l_src_ip := UNSPECIFIED; l_dst_ip := UNSPECIFIED; l_protocol := 0;
  l_src_port := 0; l_dst_port := 0;
  l_post_nat_src_ip := UNSPECIFIED; l_post_nat_src_port := 0;
  l_post_nat_dst_ip := UNSPECIFIED; l_post_nat_dst_port := 0;
  l_status := 0; l_orig_bytes := 0; l_orig_packets := 0;
  l_reply_bytes := 0; l_reply_packets := 0; l_has_status := false
|}.

Definition parse_nla_tree_attr (s : tree_state) (nla_type : Z) (payload : bytes)
    : outcome tree_state :=
  if nla_type =? CTA_TUPLE_ORIG then
    t ← parse_tuple payload
          (Tuple_out (l_src_ip s) (l_dst_ip s) (l_protocol s) (l_src_port s) (l_dst_port s));
    Done {| l_src_ip := t_src_ip t; l_dst_ip := t_dst_ip t; l_protocol := t_protocol t;
            l_src_port := t_src_port t; l_dst_port := t_dst_port t;
            l_post_nat_src_ip := l_post_nat_src_ip s;
            l_post_nat_src_port := l_post_nat_src_port s;
            l_post_nat_dst_ip := l_post_nat_dst_ip s;
            l_post_nat_dst_port := l_post_nat_dst_port s;
            l_status := l_status s;
            l_orig_bytes := l_orig_bytes s; l_orig_packets := l_orig_packets s;
            l_reply_bytes := l_reply_bytes s; l_reply_packets := l_reply_packets s;
            l_has_status := l_has_status s |}
  else if nla_type =? CTA_TUPLE_REPLY then
    t ← parse_tuple payload
          (Tuple_out (l_post_nat_dst_ip s) (l_post_nat_src_ip s) 0
                     (l_post_nat_dst_port s) (l_post_nat_src_port s));
    Done {| l_src_ip := l_src_ip s; l_dst_ip := l_dst_ip s; l_protocol := l_protocol s;
            l_src_port := l_src_port s; l_dst_port := l_dst_port s;
            l_post_nat_src_ip := t_dst_ip t;
            l_post_nat_src_port := t_dst_port t;
            l_post_nat_dst_ip := t_src_ip t;
            l_post_nat_dst_port := t_src_port t;
            l_status := l_status s;
            l_orig_bytes := l_orig_bytes s; l_orig_packets := l_orig_packets s;
            l_reply_bytes := l_reply_bytes s; l_reply_packets := l_reply_packets s;
            l_has_status := l_has_status s |}
  else if nla_type =? CTA_STATUS then
    if 4 <=? zlen payload then
      v ← read_u32_be payload;
      Done {| l_src_ip := l_src_ip s; l_dst_ip := l_dst_ip s; l_protocol := l_protocol s;
              l_src_port := l_src_port s; l_dst_port := l_dst_port s;
              l_post_nat_src_ip := l_post_nat_src_ip s;
              l_post_nat_src_port := l_post_nat_src_port s;
              l_post_nat_dst_ip := l_post_nat_dst_ip s;
              l_post_nat_dst_port := l_post_nat_dst_port s;
              l_status := v;
              l_orig_bytes := l_orig_bytes s; l_orig_packets := l_orig_packets s;
              l_reply_bytes := l_reply_bytes s; l_reply_packets := l_reply_packets s;
              l_has_status := true |}
    else Done s
  else if nla_type =? CTA_COUNTERS_ORIG then
    '(n_bytes, n_packets) ← parse_counters payload (l_orig_bytes s) (l_orig_packets s);
    Done {| l_src_ip := l_src_ip s; l_dst_ip := l_dst_ip s; l_protocol := l_protocol s;
            l_src_port := l_src_port s; l_dst_port := l_dst_port s;
            l_post_nat_src_ip := l_post_nat_src_ip s;
            l_post_nat_src_port := l_post_nat_src_port s;
            l_post_nat_dst_ip := l_post_nat_dst_ip s;
            l_post_nat_dst_port := l_post_nat_dst_port s;
            l_status := l_status s;
            l_orig_bytes := n_bytes; l_orig_packets := n_packets;
            l_reply_bytes := l_reply_bytes s; l_reply_packets := l_reply_packets s;
            l_has_status := l_has_status s |}
  else if nla_type =? CTA_COUNTERS_REPLY then
    '(n_bytes, n_packets) ← parse_counters payload (l_reply_bytes s) (l_reply_packets s);
    Done {| l_src_ip := l_src_ip s; l_dst_ip := l_dst_ip s; l_protocol := l_protocol s;
            l_src_port := l_src_port s; l_dst_port := l_dst_port s;
            l_post_nat_src_ip := l_post_nat_src_ip s;
            l_post_nat_src_port := l_post_nat_src_port s;
            l_post_nat_dst_ip := l_post_nat_dst_ip s;
            l_post_nat_dst_port := l_post_nat_dst_port s;
            l_status := l_status s;
            l_orig_bytes := l_orig_bytes s; l_orig_packets := l_orig_packets s;
            l_reply_bytes := n_bytes; l_reply_packets := n_packets;
            l_has_status := l_has_status s |}
  else Done s.

Definition parse_nla_tree (event_type : NatEventType) (data : bytes)
    : outcome (option ConntrackEvent) :=
  s ← nla_loop data parse_nla_tree_attr tree_init;
  if negb (l_has_status s) || (Z.land (l_status s) IPS_NAT_MASK =? 0) then Done None
  else Done (Some {|
    nat_event := event_type;
    protocol := l_protocol s;
    src_ip := l_src_ip s;
    dst_ip := l_dst_ip s;
    src_port := l_src_port s;
    dst_port := l_dst_port s;
    post_nat_src_ip := l_post_nat_src_ip s;
    post_nat_src_port := l_post_nat_src_port s;
    post_nat_dst_ip := l_post_nat_dst_ip s;
    post_nat_dst_port := l_post_nat_dst_port s;
    orig_bytes := l_orig_bytes s;
    orig_packets := l_orig_packets s;
    reply_bytes := l_reply_bytes s;
    reply_packets := l_reply_packets s |}).

(** ** A netlink datagram *)

(** The [match msg_type] of the message loop: [None] is its [continue] arm. *)
Definition event_type_of (msg_type : Z) : option NatEventType :=
  if msg_type =? IPCTNL_MSG_CT_NEW then Some Create
  else if msg_type =? IPCTNL_MSG_CT_DELETE then Some Delete
  else None.

(** One pass of the message loop.  [S] is whatever the callback captures. *)
Definition message_body {S : Type} (buf : bytes) (callback : S -> ConntrackEvent -> outcome S)
    (st : Z * S) : outcome (flow (Z * S) S) :=
  let '(offset, s) := st in
  header_end ← usize_add offset NLMSG_HDRLEN;
  if header_end <=? zlen buf then
    at_len ← slice_from buf offset;
    nlmsg_len ← read_u32 at_len;
    type_offset ← usize_add offset 4;
    at_type ← slice_from buf type_offset;
    nlmsg_type ← read_u16 at_type;
    if nlmsg_len <? NLMSG_HDRLEN + NFGENMSG_LEN then Done (Break s)
    else
      message_end ← usize_add offset nlmsg_len;
      if zlen buf <? message_end then Done (Break s)
      else if (nlmsg_type <? NLMSG_MIN_TYPE)
              || negb (Z.shiftr nlmsg_type 8 =? NFNL_SUBSYS_CTNETLINK) then
        next ← nla_align message_end; Done (Continue (next, s))
      else
        match event_type_of (Z.land nlmsg_type 0xFF) with
        | None => next ← nla_align message_end; Done (Continue (next, s))
        | Some event_type =>
            family_offset ← usize_add offset NLMSG_HDRLEN;
            nfgen_family ← index buf family_offset;
            if negb (nfgen_family =? NFPROTO_IPV4) then
              next ← nla_align message_end; Done (Continue (next, s))
            else
              nla_start ← (h ← usize_add offset NLMSG_HDRLEN; usize_add h NFGENMSG_LEN);
              nla_end ← usize_add offset nlmsg_len;
              attrs ← slice buf nla_start nla_end;
              event ← parse_nla_tree event_type attrs;
              s' ← match event with Some e => callback s e | None => Done s end;
              next ← nla_align message_end;
              Done (Continue (next, s'))
        end
  else Done (Break s).

(** A message takes at least twenty bytes, so the fuel is never reached (on a
    64-bit target; see the theorems for the 32-bit ones). *)
Definition parse_conntrack_messages {S : Type} (buf : bytes)
    (callback : S -> ConntrackEvent -> outcome S) (s : S) : outcome S :=
  loop (Datatypes.S (length buf)) (message_body buf callback) (0, s).

End Parser.
