(* ===== verification/ParserSpec.v ===== *)
(** * What the netlink parser computes

    A reference parser that works on suffixes of the input instead of offsets
    into it, a declarative reading of a conntrack message (which attribute, at
    which place of the attribute tree, gives which field), and the theorems
    that [Parser] computes exactly that, on every input. *)

From stdpp Require Import base list numbers.
From Stdlib Require Import ZArith Lia.
From Equations Require Import Equations.
From S2P Require Import Prelude Constants Elements Event Parser.
Local Open Scope Z_scope.

(** An attribute: its type without the flag bits, and its payload. *)
Abbreviation nl_attr := (Z * bytes)%type (only parsing).

(** A netlink message: its type and what follows its header. *)
Abbreviation nl_message := (Z * bytes)%type (only parsing).

Section ReferenceParser.
Context {T : Target}.

(** Rounding up to the netlink alignment. *)
Definition align4 (n : Z) : Z := (n + 3) / 4 * 4.

Lemma align4_bounds (n : Z) : n <= align4 n < n + 4.
Proof. unfold align4. Z.div_mod_to_equations. lia. Qed.

Lemma align4_add (a n : Z) : a mod 4 = 0 -> align4 (a + n) = a + align4 n.
Proof. unfold align4. Z.div_mod_to_equations. lia. Qed.

Lemma align4_mod (n : Z) : align4 n mod 4 = 0.
Proof. unfold align4. apply Z.mod_mul. lia. Qed.

Definition attr_len (data : bytes) : Z := from_ne_bytes (sub data 0 2).
Definition attr_type (data : bytes) : Z := Z.land (from_ne_bytes (sub data 2 4)) NLA_TYPE_MASK.

Definition attr_fits (data : bytes) : Prop :=
  NLA_HDRLEN <= zlen data /\ NLA_HDRLEN <= attr_len data <= zlen data.

#[export] Instance attr_fits_dec (data : bytes) : Decision (attr_fits data).
Proof. unfold attr_fits. apply _. Defined.

(** The attributes of a byte string: as long as a whole one fits, take it and
    go on after its padding. *)
Equations? nla_attrs (data : bytes) : list nl_attr by wf (length data) lt :=
  nla_attrs data with decide (attr_fits data) => {
    | left _ := (attr_type data, sub data NLA_HDRLEN (attr_len data))
                  :: nla_attrs (drop (Z.to_nat (align4 (attr_len data))) data);
    | right _ := [] }.
Proof.
  destruct a as [Hlen Hattr]. unfold NLA_HDRLEN, zlen in *.
  rewrite length_drop. pose proof (align4_bounds (attr_len data)). lia.
Defined.

Definition message_len (data : bytes) : Z := from_ne_bytes (sub data 0 4).
Definition message_type (data : bytes) : Z := from_ne_bytes (sub data 4 6).

Definition message_fits (data : bytes) : Prop :=
  NLMSG_HDRLEN <= zlen data /\
  NLMSG_HDRLEN + NFGENMSG_LEN <= message_len data <= zlen data.

#[export] Instance message_fits_dec (data : bytes) : Decision (message_fits data).
Proof. unfold message_fits. apply _. Defined.

Equations? nl_messages (data : bytes) : list nl_message by wf (length data) lt :=
  nl_messages data with decide (message_fits data) => {
    | left _ := (message_type data, sub data NLMSG_HDRLEN (message_len data))
                  :: nl_messages (drop (Z.to_nat (align4 (message_len data))) data);
    | right _ := [] }.
Proof.
  destruct m as [Hlen Hmsg]. unfold NLMSG_HDRLEN, NFGENMSG_LEN, zlen in *.
  rewrite length_drop. pose proof (align4_bounds (message_len data)). lia.
Defined.

(** ** The reading of the attribute tree *)

(** The attributes nested in those of type [ty], in order. *)
Definition children (ty : Z) (attrs : list nl_attr) : list nl_attr :=
  concat (map (fun a => if a.1 =? ty then nla_attrs a.2 else []) attrs).

(** The value of the last attribute that has one, or the default. *)
Definition last_value {V : Type} (value : nl_attr -> option V) (d : V) (attrs : list nl_attr) : V :=
  foldl (fun v a => default v (value a)) d attrs.

(** The first [n] bytes of an attribute of type [ty] that has that many. *)
Definition prefix_of (ty n : Z) (a : nl_attr) : option bytes :=
  if (a.1 =? ty) && (n <=? zlen a.2) then Some (sub a.2 0 n) else None.

Definition uint_of (ty n : Z) (a : nl_attr) : option Z := from_be_bytes <$> prefix_of ty n a.

Definition addr_of (ty : Z) (a : nl_attr) : option Ipv4Addr :=
  match prefix_of ty 4 a with
  | Some [b0; b1; b2; b3] => Some (Ipv4Addr_new b0 b1 b2 b3)
  | _ => None
  end.

Definition ip_attrs (tuple : Z) (attrs : list nl_attr) : list nl_attr :=
  children CTA_TUPLE_IP (children tuple attrs).
Definition proto_attrs (tuple : Z) (attrs : list nl_attr) : list nl_attr :=
  children CTA_TUPLE_PROTO (children tuple attrs).

Definition status_of (attrs : list nl_attr) : option Z :=
  last_value (fun a => Some <$> uint_of CTA_STATUS 4 a) None attrs.

(** The event a tree of attributes describes.  The translated addresses come
    from the reply tuple, with source and destination exchanged. *)
Definition event_of_attrs (event_type : NatEventType) (attrs : list nl_attr)
    : option ConntrackEvent :=
  match status_of attrs with
  | Some status =>
      if Z.land status IPS_NAT_MASK =? 0 then None
      else Some {|
        nat_event := event_type;
        protocol := last_value (uint_of CTA_PROTO_NUM 1) 0 (proto_attrs CTA_TUPLE_ORIG attrs);
        src_ip := last_value (addr_of CTA_IP_V4_SRC) UNSPECIFIED (ip_attrs CTA_TUPLE_ORIG attrs);
        dst_ip := last_value (addr_of CTA_IP_V4_DST) UNSPECIFIED (ip_attrs CTA_TUPLE_ORIG attrs);
        src_port := last_value (uint_of CTA_PROTO_SRC_PORT 2) 0 (proto_attrs CTA_TUPLE_ORIG attrs);
        dst_port := last_value (uint_of CTA_PROTO_DST_PORT 2) 0 (proto_attrs CTA_TUPLE_ORIG attrs);
        post_nat_src_ip :=
          last_value (addr_of CTA_IP_V4_DST) UNSPECIFIED (ip_attrs CTA_TUPLE_REPLY attrs);
        post_nat_src_port :=
          last_value (uint_of CTA_PROTO_DST_PORT 2) 0 (proto_attrs CTA_TUPLE_REPLY attrs);
        post_nat_dst_ip :=
          last_value (addr_of CTA_IP_V4_SRC) UNSPECIFIED (ip_attrs CTA_TUPLE_REPLY attrs);
        post_nat_dst_port :=
          last_value (uint_of CTA_PROTO_SRC_PORT 2) 0 (proto_attrs CTA_TUPLE_REPLY attrs);
        orig_bytes :=
          last_value (uint_of CTA_COUNTERS_BYTES 8) 0 (children CTA_COUNTERS_ORIG attrs);
        orig_packets :=
          last_value (uint_of CTA_COUNTERS_PACKETS 8) 0 (children CTA_COUNTERS_ORIG attrs);
        reply_bytes :=
          last_value (uint_of CTA_COUNTERS_BYTES 8) 0 (children CTA_COUNTERS_REPLY attrs);
        reply_packets :=
          last_value (uint_of CTA_COUNTERS_PACKETS 8) 0 (children CTA_COUNTERS_REPLY attrs) |}
  | None => None
  end.

(** The event of one message: an IPv4 conntrack creation or deletion. *)
Definition event_of_message (m : nl_message) : option ConntrackEvent :=
  let '(ty, body) := m in
  if (ty <? NLMSG_MIN_TYPE) || negb (Z.shiftr ty 8 =? NFNL_SUBSYS_CTNETLINK) then None
  else
    match event_type_of (Z.land ty 0xFF), body !! 0%nat with
    | Some event_type, Some family =>
        if family =? NFPROTO_IPV4
        then event_of_attrs event_type (nla_attrs (drop (Z.to_nat NFGENMSG_LEN) body))
        else None
    | _, _ => None
    end.

(** The events of a datagram. *)
Definition conntrack_events (buf : bytes) : list ConntrackEvent :=
  omap event_of_message (nl_messages buf).

End ReferenceParser.

Section Refinement.
Context {T : Target}.

(** ** Single reads *)

Lemma read_u16_done (data : bytes) :
  2 <= zlen data -> read_u16 data = Done (from_ne_bytes (sub data 0 2)).
Proof.
  destruct data as [|b0 [|b1 data]]; rewrite ?zlen_cons, ?zlen_nil; intros; [lia..|].
  unfold read_u16. read_index. reflexivity.
Qed.

Lemma read_u32_done (data : bytes) :
  4 <= zlen data -> read_u32 data = Done (from_ne_bytes (sub data 0 4)).
Proof.
  destruct data as [|b0 [|b1 [|b2 [|b3 data]]]]; rewrite ?zlen_cons, ?zlen_nil; intros; [lia..|].
  unfold read_u32. read_index. reflexivity.
Qed.

Lemma nla_align_done (n : Z) :
  0 <= n -> n + 4 <= usize_max -> nla_align n = Done (align4 n).
Proof.
  intros. unfold nla_align, NLA_ALIGNTO.
  rewrite usize_add_done by lia. rewrite bind_done, usize_sub_done by lia.
  rewrite bind_done. unfold usize_max in *. change (4 - 1) with 3.
  rewrite land_clear_low2 by (destruct pointer_width_cases; lia).
  unfold align4. do 3 f_equal. lia.
Qed.

(** ** The attribute loop *)

Lemma attr_len_bound (data : bytes) :
  bytes_ok data -> 2 <= zlen data -> 0 <= attr_len data < 65536.
Proof.
  intros Hok Hlen. pose proof (from_ne_bytes_bound (sub data 0 2) (bytes_ok_sub _ _ _ Hok)) as H.
  rewrite zlen_sub in H by lia. apply H.
Qed.

(** One pass of the loop, in terms of the suffix at the current offset. *)
Lemma nla_body_spec {S : Type} (data : bytes) (h : S -> Z -> bytes -> outcome S) (offset : Z) (s : S) :
  bytes_ok data -> zlen data <= isize_max ->
  0 <= offset <= zlen data + 3 -> offset mod 4 = 0 ->
  let d := drop (Z.to_nat offset) data in
  nla_body data h (offset, s) =
    if decide (attr_fits d) then
      s' ← h s (attr_type d) (sub d NLA_HDRLEN (attr_len d));
      Done (Continue (offset + align4 (attr_len d), s'))
    else Done (Break s).
Proof.
  intros Hok Hmax Hoff Hal d. pose proof isize_usize. pose proof usize_max_ge.
  pose proof (zlen_nonneg data). unfold nla_body, attr_fits, NLA_HDRLEN.
  exec usize_add_done.
  destruct (Z.leb_spec (offset + 4) (zlen data)) as [Hin|Hout].
  2:{ rewrite decide_False; [done|]. intros [Hd _].
      destruct (Z.le_gt_cases offset (zlen data)).
      - unfold d in Hd. rewrite zlen_drop in Hd by lia. lia.
      - unfold d in Hd. rewrite drop_past, zlen_nil in Hd by lia. lia. }
  assert (Hdlen : zlen d = zlen data - offset) by (apply zlen_drop; lia).
  assert (Hdok : bytes_ok d) by (by apply bytes_ok_drop).
  pose proof (attr_len_bound d Hdok ltac:(lia)) as Hlb.
  exec slice_from_done. fold d.
  exec read_u16_done. fold (attr_len d).
  exec usize_add_done.
  exec slice_from_done.
  replace (drop (Z.to_nat (offset + 2)) data) with (drop (Z.to_nat 2) d)
    by (unfold d; rewrite drop_drop; f_equal; lia).
  assert (zlen (drop (Z.to_nat 2) d) = zlen d - 2) by (apply zlen_drop; lia).
  exec read_u16_done.
  rewrite sub_drop by lia. change (2 + 0) with 2. change (2 + 2) with 4. fold (attr_type d).
  destruct (Z.ltb_spec (attr_len d) 4) as [Hs|Hs].
  { rewrite decide_False by lia. done. }
  exec usize_add_done.
  destruct (Z.ltb_spec (zlen data) (offset + attr_len d)) as [Hbig|Hbig].
  { rewrite decide_False by lia. done. }
  rewrite decide_True by lia.
  exec usize_add_done.
  exec slice_done.
  rewrite <- (sub_drop data offset) by lia. fold d.
  destruct (h s (attr_type d) _) as [s'| |]; [|done..]. rewrite !bind_done.
  exec nla_align_done.
  do 3 f_equal. apply align4_add. done.
Qed.

(** ** Offset loops compute folds over suffixes *)

(** A loop over offsets into [data] whose body, at each aligned offset, either
    takes the item at the head of the suffix and advances past it, or stops,
    is the fold of the item handler over the items of [data]. *)
Lemma offset_loop_foldM {S X : Type} (data : bytes) (body : Z * S -> outcome (flow (Z * S) S))
    (f : S -> X -> outcome S) (fits : bytes -> Prop) `{!forall d, Decision (fits d)}
    (head : bytes -> X) (adv : bytes -> Z) (items : bytes -> list X) :
  (forall offset s, 0 <= offset <= zlen data + 3 -> offset mod 4 = 0 ->
     let d := drop (Z.to_nat offset) data in
     body (offset, s) =
       if decide (fits d) then s' ← f s (head d); Done (Continue (offset + adv d, s'))
       else Done (Break s)) ->
  (forall d, items d = if decide (fits d) then head d :: items (drop (Z.to_nat (adv d)) d) else []) ->
  (forall d, fits d -> 0 < adv d <= zlen d + 3 /\ adv d mod 4 = 0 /\ 0 < zlen d) ->
  forall fuel offset s,
    0 <= offset <= zlen data + 3 -> offset mod 4 = 0 ->
    (0 < fuel)%nat -> zlen data - offset < Z.of_nat fuel ->
    loop fuel body (offset, s) = foldM f s (items (drop (Z.to_nat offset) data)).
Proof.
  intros Hbody Hitems Hadv; induction fuel as [|fuel IH]; intros offset s Hoff Hal Hf Hm; [lia|].
  cbn [loop]. rewrite Hbody, Hitems by done. set (d := drop (Z.to_nat offset) data).
  case_decide as Hfits; [|done].
  destruct (Hadv d Hfits) as (Hadv1 & Hadv2 & Hpos).
  assert (Hd : zlen d = zlen data - offset).
  { destruct (Z.le_gt_cases offset (zlen data)); [apply zlen_drop; lia|].
    unfold d in Hpos. rewrite drop_past in Hpos by lia. by vm_compute in Hpos. }
  assert (Hdd : drop (Z.to_nat (adv d)) d = drop (Z.to_nat (offset + adv d)) data).
  { unfold d at 2. rewrite drop_drop. f_equal. lia. }
  cbn [foldM]. destruct (f s (head d)) as [s'| |]; [|done..]. rewrite !bind_done.
  rewrite IH; [| lia | rewrite Z.add_mod by done; by rewrite Hal, Hadv2 | lia | lia].
  by rewrite Hdd.
Qed.

Lemma nla_attrs_eq (d : bytes) :
  nla_attrs d = if decide (attr_fits d) then
    (attr_type d, sub d NLA_HDRLEN (attr_len d)) :: nla_attrs (drop (Z.to_nat (align4 (attr_len d))) d)
  else [].
Proof. rewrite nla_attrs_equation_1. unfold nla_attrs_unfold_clause_1. by case_decide. Qed.

Lemma nl_messages_eq (d : bytes) :
  nl_messages d = if decide (message_fits d) then
    (message_type d, sub d NLMSG_HDRLEN (message_len d))
      :: nl_messages (drop (Z.to_nat (align4 (message_len d))) d)
  else [].
Proof. rewrite nl_messages_equation_1. unfold nl_messages_unfold_clause_1. by case_decide. Qed.

(** Every attribute loop is the fold of its handler over the attributes. *)
Lemma nla_loop_foldM {S : Type} (data : bytes) (h : S -> Z -> bytes -> outcome S) (s : S) :
  bytes_ok data -> zlen data <= isize_max ->
  nla_loop data h s = foldM (fun s a => h s a.1 a.2) s (nla_attrs data).
Proof.
  intros Hok Hmax. unfold nla_loop. pose proof (zlen_nonneg data).
  apply (offset_loop_foldM data _ (fun s a => h s a.1 a.2) attr_fits
           (fun d => (attr_type d, sub d NLA_HDRLEN (attr_len d)))
           (fun d => align4 (attr_len d)) nla_attrs); try (unfold zlen; lia); try done.
  - intros offset s' Hoff Hal. by apply nla_body_spec.
  - apply nla_attrs_eq.
  - intros d [? ?]. unfold NLA_HDRLEN in *. pose proof (align4_bounds (attr_len d)).
    pose proof (align4_mod (attr_len d)). lia.
Qed.

(** ** Leaf attributes *)

Lemma last_value_app {V : Type} (f : nl_attr -> option V) (d : V) (l1 l2 : list nl_attr) :
  last_value f d (l1 ++ l2) = last_value f (last_value f d l1) l2.
Proof. unfold last_value. apply foldl_app. Qed.

Lemma children_app (ty : Z) (l1 l2 : list nl_attr) :
  children ty (l1 ++ l2) = children ty l1 ++ children ty l2.
Proof. unfold children. by rewrite map_app, concat_app. Qed.

Lemma children_cons (ty : Z) (a : nl_attr) (l : list nl_attr) :
  children ty (a :: l) = (if a.1 =? ty then nla_attrs a.2 else []) ++ children ty l.
Proof. reflexivity. Qed.

Ltac uncons p n :=
  lazymatch n with
  | O => idtac
  | Datatypes.S ?m =>
      let b := fresh "b" in
      destruct p as [|b p]; [rewrite ?zlen_cons, ?zlen_nil in *; exfalso; lia | uncons p m]
  end.

Lemma tuple_ip_attr_done (s d : Ipv4Addr) (ty : Z) (p : bytes) :
  parse_tuple_ip_attr (s, d) ty p =
  Done (default s (addr_of CTA_IP_V4_SRC (ty, p)), default d (addr_of CTA_IP_V4_DST (ty, p))).
Proof.
  unfold parse_tuple_ip_attr, addr_of, prefix_of, CTA_IP_V4_SRC, CTA_IP_V4_DST. cbn [fst snd].
  destruct (Z.leb_spec 4 (zlen p)); rewrite ?andb_false_r, ?andb_true_r; [|done].
  uncons p 4%nat. read_index.
  destruct (Z.eqb_spec ty 1), (Z.eqb_spec ty 2); try lia; done.
Qed.

Lemma from_be_bytes_singleton (b : Z) : from_be_bytes [b] = b.
Proof. cbn [from_be_bytes]. change (2 ^ (8 * zlen (@nil Z))) with 1. lia. Qed.

Lemma read_u16_be_done (p : bytes) :
  2 <= zlen p -> read_u16_be p = Done (from_be_bytes (sub p 0 2)).
Proof. intros. uncons p 2%nat. unfold read_u16_be. read_index. reflexivity. Qed.

Lemma read_u32_be_done (p : bytes) :
  4 <= zlen p -> read_u32_be p = Done (from_be_bytes (sub p 0 4)).
Proof. intros. uncons p 4%nat. unfold read_u32_be. read_index. reflexivity. Qed.

Lemma read_u64_be_done (p : bytes) :
  8 <= zlen p -> read_u64_be p = Done (from_be_bytes (sub p 0 8)).
Proof. intros. uncons p 8%nat. unfold read_u64_be. read_index. reflexivity. Qed.

Lemma tuple_proto_attr_done (pr sp dp ty : Z) (p : bytes) :
  parse_tuple_proto_attr (pr, sp, dp) ty p =
  Done (default pr (uint_of CTA_PROTO_NUM 1 (ty, p)),
        default sp (uint_of CTA_PROTO_SRC_PORT 2 (ty, p)),
        default dp (uint_of CTA_PROTO_DST_PORT 2 (ty, p))).
Proof.
  unfold parse_tuple_proto_attr, uint_of, prefix_of, CTA_PROTO_NUM, CTA_PROTO_SRC_PORT,
    CTA_PROTO_DST_PORT. cbn [fst snd]. pose proof (zlen_nonneg p).
  destruct (Z.eqb_spec ty 1), (Z.eqb_spec ty 2), (Z.eqb_spec ty 3); try lia; cbn [andb].
  - destruct (Z.leb_spec 1 (zlen p)), (Z.eqb_spec (zlen p) 0); try lia; [|done].
    uncons p 1%nat. read_index. rewrite <- (from_be_bytes_singleton b) at 1. reflexivity.
  - destruct (Z.leb_spec 2 (zlen p)); [|done]. by rewrite read_u16_be_done by lia.
  - destruct (Z.leb_spec 2 (zlen p)); [|done]. by rewrite read_u16_be_done by lia.
  - done.
Qed.

Lemma counters_attr_done (nb np ty : Z) (p : bytes) :
  parse_counters_attr (nb, np) ty p =
  Done (default nb (uint_of CTA_COUNTERS_BYTES 8 (ty, p)),
        default np (uint_of CTA_COUNTERS_PACKETS 8 (ty, p))).
Proof.
  unfold parse_counters_attr, uint_of, prefix_of, CTA_COUNTERS_BYTES, CTA_COUNTERS_PACKETS.
  cbn [fst snd].
  destruct (Z.eqb_spec ty 1), (Z.eqb_spec ty 2); try lia; cbn [andb]; [..|done];
    destruct (Z.leb_spec 8 (zlen p)); try done; by rewrite read_u64_be_done by lia.
Qed.

(** ** Nested attributes *)

Definition input_ok (data : bytes) : Prop := bytes_ok data /\ zlen data <= isize_max.

Lemma nla_attrs_ok (data : bytes) :
  input_ok data -> Forall (fun a => input_ok a.2) (nla_attrs data).
Proof.
  funelim (nla_attrs data); intros Hok; [|constructor].
  destruct Hok as [Hb Hl], a as [Hlen Hattr]. unfold NLA_HDRLEN in *.
  constructor; cbn [fst snd].
  - split; [auto with wire|]. rewrite zlen_sub; lia.
  - match goal with IH : _ -> Forall _ _ |- _ => apply IH end.
    split; [auto with wire|]. unfold zlen in *. rewrite length_drop. lia.
Qed.

(** A fold whose steps are pure, on attributes with a property, is a pure fold. *)
Lemma foldM_pure {A S : Type} (f : S -> A -> outcome S) (g : S -> A -> S) (P : A -> Prop)
    (l : list A) (s : S) :
  (forall s a, P a -> f s a = Done (g s a)) -> Forall P l -> foldM f s l = Done (foldl g s l).
Proof.
  intros Hf Hl; revert s; induction Hl as [|a l Ha _ IH]; intros s; [done|].
  cbn [foldM foldl]. rewrite Hf by done. apply IH.
Qed.

Lemma parse_tuple_ip_done (data : bytes) (s d : Ipv4Addr) : input_ok data ->
  parse_tuple_ip data s d =
  Done (last_value (addr_of CTA_IP_V4_SRC) s (nla_attrs data),
        last_value (addr_of CTA_IP_V4_DST) d (nla_attrs data)).
Proof.
  intros [Hb Hl]. unfold parse_tuple_ip. rewrite nla_loop_foldM by done.
  revert s d; induction (nla_attrs data) as [|[ty p] l IH]; intros s d; [done|].
  cbn [foldM fst snd]. rewrite tuple_ip_attr_done. apply IH.
Qed.

Lemma parse_tuple_proto_done (data : bytes) (pr sp dp : Z) : input_ok data ->
  parse_tuple_proto data pr sp dp =
  Done (last_value (uint_of CTA_PROTO_NUM 1) pr (nla_attrs data),
        last_value (uint_of CTA_PROTO_SRC_PORT 2) sp (nla_attrs data),
        last_value (uint_of CTA_PROTO_DST_PORT 2) dp (nla_attrs data)).
Proof.
  intros [Hb Hl]. unfold parse_tuple_proto. rewrite nla_loop_foldM by done.
  revert pr sp dp; induction (nla_attrs data) as [|[ty p] l IH]; intros pr sp dp; [done|].
  cbn [foldM fst snd]. rewrite tuple_proto_attr_done. apply IH.
Qed.

Lemma parse_counters_done (data : bytes) (nb np : Z) : input_ok data ->
  parse_counters data nb np =
  Done (last_value (uint_of CTA_COUNTERS_BYTES 8) nb (nla_attrs data),
        last_value (uint_of CTA_COUNTERS_PACKETS 8) np (nla_attrs data)).
Proof.
  intros [Hb Hl]. unfold parse_counters. rewrite nla_loop_foldM by done.
  revert nb np; induction (nla_attrs data) as [|[ty p] l IH]; intros nb np; [done|].
  cbn [foldM fst snd]. rewrite counters_attr_done. apply IH.
Qed.

(** The out-parameters of [parse_tuple] after a list of attributes. *)
Definition tuple_after (st : tuple_out) (attrs : list nl_attr) : tuple_out :=
  let ip := children CTA_TUPLE_IP attrs in
  let proto := children CTA_TUPLE_PROTO attrs in
  Tuple_out (last_value (addr_of CTA_IP_V4_SRC) (t_src_ip st) ip)
            (last_value (addr_of CTA_IP_V4_DST) (t_dst_ip st) ip)
            (last_value (uint_of CTA_PROTO_NUM 1) (t_protocol st) proto)
            (last_value (uint_of CTA_PROTO_SRC_PORT 2) (t_src_port st) proto)
            (last_value (uint_of CTA_PROTO_DST_PORT 2) (t_dst_port st) proto).

Lemma tuple_after_app (st : tuple_out) (l1 l2 : list nl_attr) :
  tuple_after st (l1 ++ l2) = tuple_after (tuple_after st l1) l2.
Proof. unfold tuple_after. by rewrite !children_app, !last_value_app. Qed.

Lemma tuple_attr_done (st : tuple_out) (ty : Z) (p : bytes) : input_ok p ->
  parse_tuple_attr st ty p = Done (tuple_after st [(ty, p)]).
Proof.
  intros Hp. destruct st as [s d pr sp dp].
  unfold parse_tuple_attr, tuple_after, CTA_TUPLE_IP, CTA_TUPLE_PROTO.
  rewrite !children_cons, !app_nil_r. cbn [fst snd t_src_ip t_dst_ip t_protocol t_src_port t_dst_port].
  destruct (Z.eqb_spec ty 1), (Z.eqb_spec ty 2); try lia; [| |done].
  - by rewrite parse_tuple_ip_done.
  - by rewrite parse_tuple_proto_done.
Qed.

Lemma parse_tuple_done (data : bytes) (st : tuple_out) : input_ok data ->
  parse_tuple data st = Done (tuple_after st (nla_attrs data)).
Proof.
  intros Hok. unfold parse_tuple. rewrite nla_loop_foldM by apply Hok.
  pose proof (nla_attrs_ok data Hok) as Hall. revert st.
  induction Hall as [|[ty p] l Hp _ IH]; intros st; [by destruct st|].
  cbn [foldM fst snd] in *. rewrite tuple_attr_done, bind_done, IH by done.
  by rewrite <- (tuple_after_app st [(ty, p)] l).
Qed.

Definition has_status_attr (a : nl_attr) : bool := bool_decide (is_Some (uint_of CTA_STATUS 4 a)).

(** The locals of [parse_nla_tree] after a list of attributes. *)
Definition tree_after (s : tree_state) (attrs : list nl_attr) : tree_state :=
  let orig := tuple_after
    (Tuple_out (l_src_ip s) (l_dst_ip s) (l_protocol s) (l_src_port s) (l_dst_port s))
    (children CTA_TUPLE_ORIG attrs) in
  let reply := tuple_after
    (Tuple_out (l_post_nat_dst_ip s) (l_post_nat_src_ip s) 0
               (l_post_nat_dst_port s) (l_post_nat_src_port s))
    (children CTA_TUPLE_REPLY attrs) in
  {| l_src_ip := t_src_ip orig; l_dst_ip := t_dst_ip orig; l_protocol := t_protocol orig;
     l_src_port := t_src_port orig; l_dst_port := t_dst_port orig;
     l_post_nat_src_ip := t_dst_ip reply; l_post_nat_src_port := t_dst_port reply;
     l_post_nat_dst_ip := t_src_ip reply; l_post_nat_dst_port := t_src_port reply;
     l_status := last_value (uint_of CTA_STATUS 4) (l_status s) attrs;
     l_orig_bytes :=
       last_value (uint_of CTA_COUNTERS_BYTES 8) (l_orig_bytes s) (children CTA_COUNTERS_ORIG attrs);
     l_orig_packets :=
       last_value (uint_of CTA_COUNTERS_PACKETS 8) (l_orig_packets s) (children CTA_COUNTERS_ORIG attrs);
     l_reply_bytes :=
       last_value (uint_of CTA_COUNTERS_BYTES 8) (l_reply_bytes s) (children CTA_COUNTERS_REPLY attrs);
     l_reply_packets :=
       last_value (uint_of CTA_COUNTERS_PACKETS 8) (l_reply_packets s) (children CTA_COUNTERS_REPLY attrs);
     l_has_status := l_has_status s || existsb has_status_attr attrs |}.

Lemma tree_after_app (s : tree_state) (l1 l2 : list nl_attr) :
  tree_after s (l1 ++ l2) = tree_after (tree_after s l1) l2.
Proof.
  unfold tree_after, tuple_after.
  cbn [l_src_ip l_dst_ip l_protocol l_src_port l_dst_port l_post_nat_src_ip l_post_nat_src_port
       l_post_nat_dst_ip l_post_nat_dst_port l_status l_orig_bytes l_orig_packets l_reply_bytes
       l_reply_packets l_has_status t_src_ip t_dst_ip t_protocol t_src_port t_dst_port].
  by rewrite !children_app, !last_value_app, existsb_app, orb_assoc.
Qed.

Lemma uint_of_eq (ty n : Z) (a : nl_attr) :
  uint_of ty n a =
  if (a.1 =? ty) && (n <=? zlen a.2) then Some (from_be_bytes (sub a.2 0 n)) else None.
Proof. unfold uint_of, prefix_of. by destruct (_ && _). Qed.

Lemma tree_attr_done (s : tree_state) (ty : Z) (p : bytes) : input_ok p ->
  parse_nla_tree_attr s ty p = Done (tree_after s [(ty, p)]).
Proof.
  intros Hp. destruct s as [x1 x2 x3 x4 x5 x6 x7 x8 x9 x10 x11 x12 x13 x14 x15].
  unfold parse_nla_tree_attr, tree_after.
  rewrite !children_cons, !app_nil_r.
  unfold CTA_TUPLE_ORIG, CTA_TUPLE_REPLY, CTA_STATUS, CTA_COUNTERS_ORIG, CTA_COUNTERS_REPLY.
  cbn [existsb last_value foldl]. unfold has_status_attr, CTA_STATUS.
  rewrite !(uint_of_eq 3 4). rewrite !orb_false_r.
  cbn [fst snd l_src_ip l_dst_ip l_protocol l_src_port l_dst_port l_post_nat_src_ip
       l_post_nat_src_port l_post_nat_dst_ip l_post_nat_dst_port l_status l_orig_bytes
       l_orig_packets l_reply_bytes l_reply_packets l_has_status].
  destruct (Z.eqb_spec ty 1), (Z.eqb_spec ty 2), (Z.eqb_spec ty 3), (Z.eqb_spec ty 9),
    (Z.eqb_spec ty 10); try lia; cbn [andb bool_decide].
  1,2: by rewrite parse_tuple_done, bind_done, orb_false_r by done.
  2,3: by rewrite parse_counters_done, bind_done, orb_false_r by done.
  2: by rewrite orb_false_r.
  destruct (Z.leb_spec 4 (zlen p)).
  - by rewrite read_u32_be_done, bind_done, orb_true_r by done.
  - by rewrite orb_false_r.
Qed.

Lemma tree_loop_done (data : bytes) (s : tree_state) : input_ok data ->
  nla_loop data parse_nla_tree_attr s = Done (tree_after s (nla_attrs data)).
Proof.
  intros Hok. rewrite nla_loop_foldM by apply Hok.
  pose proof (nla_attrs_ok data Hok) as Hall. revert s.
  induction Hall as [|[ty p] l Hp _ IH]; intros s.
  - destruct s. unfold tree_after. cbn. by rewrite orb_false_r.
  - cbn [foldM fst snd] in *. rewrite tree_attr_done, bind_done, IH by done.
    by rewrite <- (tree_after_app s [(ty, p)] l).
Qed.

Lemma status_after (b : bool) (d : Z) (attrs : list nl_attr) :
  last_value (fun a => Some <$> uint_of CTA_STATUS 4 a) (if b then Some d else None) attrs =
  if b || existsb has_status_attr attrs
  then Some (last_value (uint_of CTA_STATUS 4) d attrs) else None.
Proof.
  revert b d; induction attrs as [|a l IH]; intros b d; [by destruct b|].
  cbn [existsb last_value foldl]. unfold has_status_attr at 1.
  destruct (uint_of CTA_STATUS 4 a) as [v|] eqn:Hv; cbn [fmap option_fmap option_map default].
  - rewrite bool_decide_true by eauto. rewrite orb_true_r. exact (IH true v).
  - rewrite bool_decide_false by (intros [? ?]; congruence). exact (IH b d).
Qed.

(** The attribute tree of one message gives exactly the declared event. *)
Lemma parse_nla_tree_done (ty : NatEventType) (data : bytes) : input_ok data ->
  parse_nla_tree ty data = Done (event_of_attrs ty (nla_attrs data)).
Proof.
  intros Hok. unfold parse_nla_tree. rewrite tree_loop_done, bind_done by done.
  unfold event_of_attrs, status_of.
  rewrite (status_after false 0). cbn [l_has_status l_status tree_after tree_init orb].
  destruct (existsb has_status_attr (nla_attrs data)); cbn [negb orb]; [|done].
  by destruct (_ =? 0).
Qed.

(** ** The message loop *)

Lemma message_len_bound (data : bytes) :
  bytes_ok data -> 4 <= zlen data -> 0 <= message_len data < 2 ^ 32.
Proof.
  intros Hok Hlen. pose proof (from_ne_bytes_bound (sub data 0 4) (bytes_ok_sub _ _ _ Hok)) as H.
  rewrite zlen_sub in H by lia. apply H.
Qed.

(** What the message loop does with one message. *)
Definition on_message {S : Type} (callback : S -> ConntrackEvent -> outcome S)
    (s : S) (m : nl_message) : outcome S :=
  match event_of_message m with Some e => callback s e | None => Done s end.

Lemma isize_usize_64 : pointer_width = 64 -> isize_max + 2 ^ 33 <= usize_max.
Proof. unfold usize_max, isize_max. intros ->. apply Z.leb_le. reflexivity. Qed.

(** A message begins only where a header fits. *)
Lemma no_message_past (buf : bytes) (offset : Z) : 0 <= offset -> zlen buf < offset + NLMSG_HDRLEN ->
  ~ message_fits (drop (Z.to_nat offset) buf).
Proof.
  unfold NLMSG_HDRLEN. intros Hoff Hout [Hd _]. unfold NLMSG_HDRLEN in Hd. destruct (Z.le_gt_cases offset (zlen buf)).
  - rewrite zlen_drop in Hd by lia. lia.
  - rewrite drop_past in Hd by lia. by vm_compute in Hd.
Qed.

(** The family and the attributes of the message at [offset], in the datagram and
    in the message's own bytes. *)
Lemma message_family (buf : bytes) (offset len : Z) : 0 <= offset -> 16 < len ->
  sub (drop (Z.to_nat offset) buf) 16 len !! 0%nat = buf !! Z.to_nat (offset + 16).
Proof. intros. unfold sub. rewrite lookup_take_lt by lia. rewrite !lookup_drop. f_equal. lia. Qed.

Lemma message_attrs (buf : bytes) (offset len : Z) : 0 <= offset -> 20 <= len ->
  sub buf (offset + 16 + 4) (offset + len) = drop (Z.to_nat 4) (sub (drop (Z.to_nat offset) buf) 16 len).
Proof. intros. rewrite drop_sub, <- Z.add_assoc by lia. by rewrite sub_drop by lia. Qed.

Lemma message_body_spec {S : Type} (buf : bytes) (cb : S -> ConntrackEvent -> outcome S)
    (offset : Z) (s : S) :
  pointer_width = 64 -> input_ok buf ->
  0 <= offset <= zlen buf + 3 -> offset mod 4 = 0 ->
  let d := drop (Z.to_nat offset) buf in
  message_body buf cb (offset, s) =
    if decide (message_fits d) then
      s' ← on_message cb s (message_type d, sub d NLMSG_HDRLEN (message_len d));
      Done (Continue (offset + align4 (message_len d), s'))
    else Done (Break s).
Proof.
  intros H64 [Hok Hmax] Hoff Hal d. pose proof (isize_usize_64 H64).
  pose proof (zlen_nonneg buf). unfold message_body, message_fits, NLMSG_HDRLEN, NFGENMSG_LEN.
  exec usize_add_done.
  destruct (Z.leb_spec (offset + 16) (zlen buf)) as [Hin|Hout].
  2:{ rewrite decide_False; [done|]. apply no_message_past; [lia|exact Hout]. }
  assert (Hdlen : zlen d = zlen buf - offset) by (apply zlen_drop; lia).
  assert (Hdok : bytes_ok d) by (by apply bytes_ok_drop).
  pose proof (message_len_bound d Hdok ltac:(lia)) as Hlb.
  exec slice_from_done. fold d. exec read_u32_done. fold (message_len d).
  exec usize_add_done. exec slice_from_done.
  replace (drop (Z.to_nat (offset + 4)) buf) with (drop (Z.to_nat 4) d)
    by (unfold d; rewrite drop_drop; f_equal; lia).
  assert (zlen (drop (Z.to_nat 4) d) = zlen d - 4) by (apply zlen_drop; lia).
  exec read_u16_done. rewrite sub_drop by lia. change (4 + 0) with 4. change (4 + 2) with 6.
  fold (message_type d).
  destruct (Z.ltb_spec (message_len d) (16 + 4)); [by rewrite decide_False by lia|].
  exec usize_add_done.
  destruct (Z.ltb_spec (zlen buf) (offset + message_len d)); [by rewrite decide_False by lia|].
  rewrite decide_True by lia.
  assert (Hnext : nla_align (offset + message_len d) = Done (offset + align4 (message_len d))).
  { rewrite nla_align_done, align4_add by (done || lia). done. }
  rewrite Hnext, bind_done. unfold on_message, event_of_message.
  destruct (_ || _); [done|].
  destruct (event_type_of _) as [ty|]; [|done].
  exec usize_add_done.
  set (body := sub d 16 (message_len d)).
  assert (Hfam : body !! 0%nat = buf !! Z.to_nat (offset + 16)) by (apply message_family; lia).
  destruct (index_done buf (offset + 16) ltac:(lia)) as (fam & Hlk & ->).
  rewrite Hfam, Hlk, bind_done.
  destruct (fam =? NFPROTO_IPV4); cbn [negb]; [|done].
  rewrite (usize_add_done offset 16), bind_done by lia. exec usize_add_done. exec usize_add_done.
  exec slice_done.
  assert (Hattrs : sub buf (offset + 16 + 4) (offset + message_len d) = drop (Z.to_nat 4) body)
    by (apply message_attrs; lia).
  rewrite Hattrs, parse_nla_tree_done, bind_done; [done|].
  rewrite <- Hattrs. split; [auto with wire|]. rewrite zlen_sub; lia.
Qed.

(** On a 64-bit target the parser hands the callback exactly the events of the
    reference parser, in order. *)
Lemma parse_messages_done {S : Type} (buf : bytes) (cb : S -> ConntrackEvent -> outcome S) (s : S) :
  pointer_width = 64 -> input_ok buf ->
  parse_conntrack_messages buf cb s = foldM cb s (conntrack_events buf).
Proof.
  intros H64 Hok. transitivity (foldM (on_message cb) s (nl_messages buf)).
  - unfold parse_conntrack_messages. pose proof (zlen_nonneg buf).
    apply (offset_loop_foldM buf _ (on_message cb) message_fits
             (fun d => (message_type d, sub d NLMSG_HDRLEN (message_len d)))
             (fun d => align4 (message_len d)) nl_messages); try (unfold zlen; lia); try done.
    + intros offset s' Hoff Hal. by apply message_body_spec.
    + apply nl_messages_eq.
    + intros d [? ?]. unfold NLMSG_HDRLEN, NFGENMSG_LEN in *.
      pose proof (align4_bounds (message_len d)). pose proof (align4_mod (message_len d)). lia.
  - unfold conntrack_events. revert s. induction (nl_messages buf) as [|m l IH]; intros s; [done|].
    cbn [foldM omap list_omap].
    assert (on_message cb s m = match event_of_message m with Some e => cb s e | None => Done s end)
      as -> by done.
    destruct (event_of_message m) as [e|]; cbn [foldM]; [|apply IH].
    destruct (cb s e); [apply IH | done..].
Qed.

End Refinement.
