(* ===== verification/Netlink.v ===== *)
(** * Building netlink datagrams

    [tests/support/netlink.rs]: the encoder of conntrack notifications that the
    unit tests and the benchmarks feed to the parser, which writes the layout
    the kernel does. *)

From stdpp Require Import base list numbers.
From Stdlib Require Import ZArith Lia.
From S2P Require Import Prelude Constants Event.
Local Open Scope Z_scope.

Section Netlink.
Context {T : Target}.

Definition NLA_F_NESTED : Z := 0x8000.

(** [while out.len() % NLA_ALIGNTO != 0 { out.push(0) }] *)
Definition pad_to_align (out : bytes) : bytes :=
  out ++ replicate (Z.to_nat ((- zlen out) mod NLA_ALIGNTO)) 0.

(** [u16::try_from(..).expect("attribute fits in u16")] guards the length. *)
Definition attr (nla_type : Z) (payload : bytes) : outcome bytes :=
  len ← u16_try_from (NLA_HDRLEN + zlen payload);
  Done (pad_to_align (to_ne_bytes 2 len ++ to_ne_bytes 2 nla_type ++ payload)).

Definition nested (nla_type : Z) (children : list bytes) : outcome bytes :=
  attr (Z.lor nla_type NLA_F_NESTED) (concat children).

Definition tuple (nla_type : Z) (src dst : Ipv4Addr) (proto sport dport : Z) : outcome bytes :=
  a_src ← attr CTA_IP_V4_SRC (octets src);
  a_dst ← attr CTA_IP_V4_DST (octets dst);
  ip ← nested CTA_TUPLE_IP [a_src; a_dst];
  a_num ← attr CTA_PROTO_NUM [proto];
  a_sport ← attr CTA_PROTO_SRC_PORT (to_be_bytes 2 sport);
  a_dport ← attr CTA_PROTO_DST_PORT (to_be_bytes 2 dport);
  pr ← nested CTA_TUPLE_PROTO [a_num; a_sport; a_dport];
  nested nla_type [ip; pr].

Definition counters (nla_type n_packets n_bytes : Z) : outcome bytes :=
  p ← attr CTA_COUNTERS_PACKETS (to_be_bytes 8 n_packets);
  b ← attr CTA_COUNTERS_BYTES (to_be_bytes 8 n_bytes);
  nested nla_type [p; b].

(** [u32::try_from(..).expect("message fits in u32")] *)
Definition u32_try_from (v : Z) : outcome Z :=
  if v <=? u32_max then Done v else Panic ExpectFailed.

Definition message (nlmsg_type family : Z) (attrs : list bytes) : outcome bytes :=
  let body := [family; 0; 0; 0] ++ concat attrs in
  len ← u32_try_from (NLMSG_HDRLEN + zlen body);
  Done (pad_to_align (to_ne_bytes 4 len ++ to_ne_bytes 2 nlmsg_type ++ to_ne_bytes 2 0
                      ++ to_ne_bytes 4 0 ++ to_ne_bytes 4 0 ++ body)).

Definition ct_event (msg_type family : Z) (attrs : list bytes) : outcome bytes :=
  message (Z.lor (Z.shiftl NFNL_SUBSYS_CTNETLINK 8) msg_type) family attrs.

(** [snat_event] of the parser's unit tests. *)
Definition snat_event : outcome bytes :=
  orig ← tuple CTA_TUPLE_ORIG (Ipv4Addr_new 192 168 1 10) (Ipv4Addr_new 8 8 8 8) 6 1234 53;
  reply ← tuple CTA_TUPLE_REPLY (Ipv4Addr_new 8 8 8 8) (Ipv4Addr_new 203 0 113 5) 6 53 40000;
  status ← attr CTA_STATUS (to_be_bytes 4 IPS_SRC_NAT);
  c_orig ← counters CTA_COUNTERS_ORIG 7 700;
  c_reply ← counters CTA_COUNTERS_REPLY 9 900;
  ct_event IPCTNL_MSG_CT_NEW NFPROTO_IPV4 [orig; reply; status; c_orig; c_reply].

End Netlink.
