(* ===== verification/NetlinkProps.v ===== *)
(** * Properties of the netlink parser

    The parser against the reference parser of [ParserSpec], against the
    datagram builder of [Netlink], and on malformed and truncated input. *)

From stdpp Require Import base list numbers.
From Stdlib Require Import ZArith Lia.
From S2P Require Import Prelude Constants Elements Event Parser ParserSpec Netlink.
Local Open Scope Z_scope.

Create Rewrite HintDb wire_size.

Section RoundTrip.
Context {T : Target}.

Lemma zlen_pad_to_align (bs : bytes) : zlen (pad_to_align bs) = align4 (zlen bs).
Proof.
  unfold pad_to_align, align4, NLA_ALIGNTO. rewrite zlen_app, zlen_replicate.
  pose proof (zlen_nonneg bs). rewrite Z2Nat.id by (apply Z.mod_pos_bound; lia).
  Z.div_mod_to_equations. lia.
Qed.

Lemma pad_to_align_split (bs : bytes) : exists pad, pad_to_align bs = bs ++ pad.
Proof. eexists. reflexivity. Qed.

(** An attribute that was built is the first attribute that is read. *)
Lemma nla_attrs_attr (ty : Z) (payload bs rest : bytes) :
  is_u16 ty -> attr ty payload = Done bs ->
  nla_attrs (bs ++ rest) = (Z.land ty NLA_TYPE_MASK, payload) :: nla_attrs rest.
Proof.
  intros Hty Hattr. unfold attr in Hattr. apply bind_inv in Hattr as (len & Hlen & [= <-]).
  unfold u16_try_from, u16_max, NLA_HDRLEN in Hlen.
  destruct (Z.leb_spec (4 + zlen payload) (2 ^ 16 - 1)); [|discriminate]. injection Hlen as <-.
  pose proof (zlen_nonneg payload).
  set (hdr := to_ne_bytes 2 (4 + zlen payload)). set (tyb := to_ne_bytes 2 ty).
  assert (Hh : zlen hdr = 2) by exact (zlen_to_ne_bytes 2 _).
  assert (Ht : zlen tyb = 2) by exact (zlen_to_ne_bytes 2 _).
  set (bs := pad_to_align (hdr ++ tyb ++ payload)).
  assert (Hbs : zlen bs = align4 (4 + zlen payload)).
  { unfold bs. rewrite zlen_pad_to_align, !zlen_app. f_equal. lia. }
  assert (exists pad, bs ++ rest = hdr ++ tyb ++ payload ++ pad ++ rest) as [pad Hpad].
  { destruct (pad_to_align_split (hdr ++ tyb ++ payload)) as [pad Hpad].
    exists pad. unfold bs. by rewrite Hpad, <- !app_assoc. }
  assert (Hal : attr_len (bs ++ rest) = 4 + zlen payload).
  { unfold attr_len. rewrite Hpad, sub_head by lia.
    apply from_to_ne_bytes_small. change (2 ^ (8 * Z.of_nat 2)) with (2 ^ 16). lia. }
  assert (Hat : attr_type (bs ++ rest) = Z.land ty NLA_TYPE_MASK).
  { unfold attr_type. rewrite Hpad, sub_middle by lia. f_equal.
    apply from_to_ne_bytes_small. exact Hty. }
  rewrite nla_attrs_eq, decide_True.
  - rewrite Hal, Hat. f_equal; [f_equal|f_equal].
    + rewrite Hpad, app_assoc. apply sub_middle; rewrite zlen_app; unfold NLA_HDRLEN; lia.
    + by apply drop_app_zlen.
  - unfold attr_fits, NLA_HDRLEN. rewrite Hal, zlen_app, Hbs.
    pose proof (align4_bounds (4 + zlen payload)). pose proof (zlen_nonneg rest). lia.
Qed.

(** The bytes of an attribute short enough to be built. *)
Definition attr_bytes (ty : Z) (payload : bytes) : bytes :=
  pad_to_align (to_ne_bytes 2 (NLA_HDRLEN + zlen payload) ++ to_ne_bytes 2 ty ++ payload).

Definition nested_bytes (ty : Z) (children : list bytes) : bytes :=
  attr_bytes (Z.lor ty NLA_F_NESTED) (concat children).

Lemma attr_done (ty : Z) (payload : bytes) :
  4 + zlen payload <= u16_max -> attr ty payload = Done (attr_bytes ty payload).
Proof. intros. unfold attr, NLA_HDRLEN. by rewrite u16_try_from_done by lia. Qed.

Lemma nested_done (ty : Z) (children : list bytes) :
  4 + zlen (concat children) <= u16_max -> nested ty children = Done (nested_bytes ty children).
Proof. apply attr_done. Qed.

Lemma zlen_attr_bytes (ty : Z) (payload : bytes) :
  zlen (attr_bytes ty payload) = align4 (4 + zlen payload).
Proof.
  unfold attr_bytes. rewrite zlen_pad_to_align, !zlen_app, !zlen_to_ne_bytes. f_equal. lia.
Qed.

Lemma pad_to_align_ok (bs : bytes) : bytes_ok bs -> bytes_ok (pad_to_align bs).
Proof. intros. apply bytes_ok_app; [done|]. apply Forall_replicate. closed_bounds. Qed.

Lemma attr_bytes_ok (ty : Z) (payload : bytes) : bytes_ok payload -> bytes_ok (attr_bytes ty payload).
Proof.
  intros. apply pad_to_align_ok. repeat apply bytes_ok_app; auto using to_ne_bytes_ok.
Qed.

Lemma bytes_ok_concat (l : list bytes) : Forall bytes_ok l -> bytes_ok (concat l).
Proof. induction 1; simpl; [constructor|]. by apply bytes_ok_app. Qed.

Lemma nla_attrs_nil : nla_attrs [] = [].
Proof. rewrite nla_attrs_eq, decide_False; [done|]. intros [H _]. by vm_compute in H. Qed.

(** Reading a concatenation of attributes that were built gives them back. *)
Lemma nla_attrs_concat (l : list (Z * bytes)) :
  Forall (fun a => is_u16 a.1 /\ 4 + zlen a.2 <= u16_max) l ->
  nla_attrs (concat (map (fun a => attr_bytes a.1 a.2) l)) =
  map (fun a => (Z.land a.1 NLA_TYPE_MASK, a.2)) l.
Proof.
  induction 1 as [|[ty p] l [Hty Hp] _ IH]; [apply nla_attrs_nil|].
  cbn [map concat fst snd] in *. by rewrite (nla_attrs_attr _ _ _ _ Hty (attr_done _ _ Hp)), IH.
Qed.

#[local] Hint Rewrite @zlen_app @zlen_cons @zlen_nil @zlen_to_be_bytes zlen_octets
  zlen_attr_bytes : wire_size.

(** Sizes of attributes with payloads of known size. *)
Ltac wire_size :=
  unfold nested_bytes; cbn [concat app]; autorewrite with wire_size;
  repeat match goal with H : zlen _ = _ |- _ => rewrite H end; by vm_compute.

Definition ip_bytes (src dst : Ipv4Addr) : list (Z * bytes) :=
  [(CTA_IP_V4_SRC, octets src); (CTA_IP_V4_DST, octets dst)].
Definition proto_bytes (proto sport dport : Z) : list (Z * bytes) :=
  [(CTA_PROTO_NUM, [proto]); (CTA_PROTO_SRC_PORT, to_be_bytes 2 sport);
   (CTA_PROTO_DST_PORT, to_be_bytes 2 dport)].
Definition attrs_bytes (l : list (Z * bytes)) : bytes :=
  concat (map (fun a => attr_bytes a.1 a.2) l).

Definition tuple_payload (src dst : Ipv4Addr) (proto sport dport : Z) : list (Z * bytes) :=
  [(Z.lor CTA_TUPLE_IP NLA_F_NESTED, attrs_bytes (ip_bytes src dst));
   (Z.lor CTA_TUPLE_PROTO NLA_F_NESTED, attrs_bytes (proto_bytes proto sport dport))].

Lemma tuple_done (ty : Z) (src dst : Ipv4Addr) (proto sport dport : Z) :
  tuple ty src dst proto sport dport =
  Done (attr_bytes (Z.lor ty NLA_F_NESTED) (attrs_bytes (tuple_payload src dst proto sport dport))).
Proof.
  unfold tuple. repeat (rewrite ?attr_done, ?nested_done, ?bind_done by wire_size).
  reflexivity.
Qed.

Definition counters_payload (n_packets n_bytes : Z) : list (Z * bytes) :=
  [(CTA_COUNTERS_PACKETS, to_be_bytes 8 n_packets); (CTA_COUNTERS_BYTES, to_be_bytes 8 n_bytes)].

Lemma counters_done (ty n_packets n_bytes : Z) :
  counters ty n_packets n_bytes =
  Done (attr_bytes (Z.lor ty NLA_F_NESTED) (attrs_bytes (counters_payload n_packets n_bytes))).
Proof.
  unfold counters. repeat (rewrite ?attr_done, ?nested_done, ?bind_done by wire_size).
  reflexivity.
Qed.

(** ** Messages *)

Definition message_bytes (ty family : Z) (attrs : list (Z * bytes)) : bytes :=
  let body := [family; 0; 0; 0] ++ attrs_bytes attrs in
  pad_to_align (to_ne_bytes 4 (NLMSG_HDRLEN + zlen body) ++ to_ne_bytes 2 ty ++ to_ne_bytes 2 0
                ++ to_ne_bytes 4 0 ++ to_ne_bytes 4 0 ++ body).

Lemma message_done (ty family : Z) (attrs : list (Z * bytes)) :
  20 + zlen (attrs_bytes attrs) <= u32_max ->
  message ty family (map (fun a => attr_bytes a.1 a.2) attrs) = Done (message_bytes ty family attrs).
Proof.
  intros H. unfold message. fold (attrs_bytes attrs). unfold u32_try_from.
  destruct (Z.leb_spec (NLMSG_HDRLEN + zlen ([family; 0; 0; 0] ++ attrs_bytes attrs)) u32_max) as [|Hbig];
    [done|].
  rewrite zlen_app in Hbig. change (zlen [family; 0; 0; 0]) with 4 in Hbig.
  unfold NLMSG_HDRLEN in Hbig. lia.
Qed.

(** A message that was built is the first message that is read. *)
Lemma nl_messages_message (ty family : Z) (attrs : list (Z * bytes)) (rest : bytes) :
  is_u16 ty -> 20 + zlen (attrs_bytes attrs) <= u32_max ->
  nl_messages (message_bytes ty family attrs ++ rest) =
  (ty, [family; 0; 0; 0] ++ attrs_bytes attrs) :: nl_messages rest.
Proof.
  intros Hty Hlen. pose proof (zlen_nonneg (attrs_bytes attrs)).
  unfold message_bytes. set (body := [family; 0; 0; 0] ++ attrs_bytes attrs).
  assert (Hb : zlen body = 4 + zlen (attrs_bytes attrs)) by (unfold body; rewrite zlen_app; done).
  set (hdr := to_ne_bytes 4 (NLMSG_HDRLEN + zlen body)). set (tyb := to_ne_bytes 2 ty).
  set (tail := to_ne_bytes 2 0 ++ to_ne_bytes 4 0 ++ to_ne_bytes 4 0).
  assert (Hh : zlen hdr = 4) by exact (zlen_to_ne_bytes 4 _).
  assert (Ht : zlen tyb = 2) by exact (zlen_to_ne_bytes 2 _).
  assert (Htl : zlen tail = 10) by (unfold tail; rewrite !zlen_app, !zlen_to_ne_bytes; done).
  set (bs := pad_to_align _).
  assert (Hbs : zlen bs = align4 (16 + zlen body)).
  { unfold bs. rewrite zlen_pad_to_align, !zlen_app, !zlen_to_ne_bytes.
    unfold hdr, tyb in *. f_equal. lia. }
  assert (exists pad, bs ++ rest = hdr ++ tyb ++ tail ++ body ++ pad ++ rest) as [pad Hpad].
  { unfold bs. match goal with |- context [pad_to_align ?x] =>
      destruct (pad_to_align_split x) as [pad ->] end.
    exists pad. unfold tail. by rewrite <- !app_assoc. }
  assert (Hml : message_len (bs ++ rest) = 16 + zlen body).
  { unfold message_len. rewrite Hpad, sub_head by lia. unfold hdr, NLMSG_HDRLEN.
    apply from_to_ne_bytes_small. change (2 ^ (8 * Z.of_nat 4)) with (2 ^ 32).
    unfold u32_max in *. lia. }
  assert (Hmt : message_type (bs ++ rest) = ty).
  { unfold message_type. rewrite Hpad, sub_middle by lia. apply from_to_ne_bytes_small. exact Hty. }
  rewrite nl_messages_eq, decide_True.
  - rewrite Hml, Hmt. f_equal; [f_equal|f_equal].
    + rewrite Hpad, !(app_assoc _ _ (body ++ _)), (app_assoc hdr).
      apply sub_middle; rewrite !zlen_app; unfold NLMSG_HDRLEN; lia.
    + by apply drop_app_zlen.
  - unfold message_fits, NLMSG_HDRLEN, NFGENMSG_LEN. rewrite Hml, zlen_app, Hbs.
    pose proof (align4_bounds (16 + zlen body)). pose proof (zlen_nonneg rest). lia.
Qed.

(** ** Events *)

Definition msg_type_of (t : NatEventType) : Z :=
  match t with Create => IPCTNL_MSG_CT_NEW | Delete => IPCTNL_MSG_CT_DELETE end.

(** The notification of an event with a given conntrack status, built the way
    [snat_event] is. *)
Definition encode_event (status : Z) (e : ConntrackEvent) : outcome bytes :=
  orig ← tuple CTA_TUPLE_ORIG (src_ip e) (dst_ip e) (protocol e) (src_port e) (dst_port e);
  reply ← tuple CTA_TUPLE_REPLY (post_nat_dst_ip e) (post_nat_src_ip e) (protocol e)
            (post_nat_dst_port e) (post_nat_src_port e);
  st ← attr CTA_STATUS (to_be_bytes 4 status);
  c_orig ← counters CTA_COUNTERS_ORIG (orig_packets e) (orig_bytes e);
  c_reply ← counters CTA_COUNTERS_REPLY (reply_packets e) (reply_bytes e);
  ct_event (msg_type_of (nat_event e)) NFPROTO_IPV4 [orig; reply; st; c_orig; c_reply].

Definition event_attrs (status : Z) (e : ConntrackEvent) : list (Z * bytes) :=
  [(Z.lor CTA_TUPLE_ORIG NLA_F_NESTED,
    attrs_bytes (tuple_payload (src_ip e) (dst_ip e) (protocol e) (src_port e) (dst_port e)));
   (Z.lor CTA_TUPLE_REPLY NLA_F_NESTED,
    attrs_bytes (tuple_payload (post_nat_dst_ip e) (post_nat_src_ip e) (protocol e)
                  (post_nat_dst_port e) (post_nat_src_port e)));
   (CTA_STATUS, to_be_bytes 4 status);
   (Z.lor CTA_COUNTERS_ORIG NLA_F_NESTED, attrs_bytes (counters_payload (orig_packets e) (orig_bytes e)));
   (Z.lor CTA_COUNTERS_REPLY NLA_F_NESTED, attrs_bytes (counters_payload (reply_packets e) (reply_bytes e)))].

Definition event_bytes (status : Z) (e : ConntrackEvent) : bytes :=
  message_bytes (Z.lor (Z.shiftl NFNL_SUBSYS_CTNETLINK 8) (msg_type_of (nat_event e))) NFPROTO_IPV4
    (event_attrs status e).

Lemma zlen_ip_bytes (src dst : Ipv4Addr) : zlen (attrs_bytes (ip_bytes src dst)) = 16.
Proof. unfold attrs_bytes, ip_bytes. cbn [map fst snd]. wire_size. Qed.

Lemma zlen_proto_bytes (proto sport dport : Z) :
  zlen (attrs_bytes (proto_bytes proto sport dport)) = 24.
Proof. unfold attrs_bytes, proto_bytes. cbn [map fst snd]. wire_size. Qed.

Lemma zlen_counters_payload (n_packets n_bytes : Z) :
  zlen (attrs_bytes (counters_payload n_packets n_bytes)) = 24.
Proof. unfold attrs_bytes, counters_payload. cbn [map fst snd]. wire_size. Qed.

#[local] Hint Rewrite zlen_ip_bytes zlen_proto_bytes zlen_counters_payload : wire_size.

Lemma zlen_tuple_payload (src dst : Ipv4Addr) (proto sport dport : Z) :
  zlen (attrs_bytes (tuple_payload src dst proto sport dport)) = 48.
Proof. unfold attrs_bytes at 1, tuple_payload. cbn [map fst snd]. wire_size. Qed.

#[local] Hint Rewrite zlen_tuple_payload : wire_size.

Lemma zlen_event_attrs (status : Z) (e : ConntrackEvent) :
  zlen (attrs_bytes (event_attrs status e)) = 168.
Proof. unfold attrs_bytes at 1, event_attrs. cbn [map fst snd]. wire_size. Qed.

(** A notification with or without counters. *)
Definition session_attrs (counted : bool) (status : Z) (e : ConntrackEvent) : list (Z * bytes) :=
  take 3 (event_attrs status e) ++ (if counted then drop 3 (event_attrs status e) else []).

Definition session_bytes (counted : bool) (status : Z) (e : ConntrackEvent) : bytes :=
  message_bytes (Z.lor (Z.shiftl NFNL_SUBSYS_CTNETLINK 8) (msg_type_of (nat_event e))) NFPROTO_IPV4
    (session_attrs counted status e).

Lemma zlen_session_attrs (counted : bool) (status : Z) (e : ConntrackEvent) :
  zlen (attrs_bytes (session_attrs counted status e)) = if counted then 168 else 112.
Proof.
  destruct counted; [exact (zlen_event_attrs status e)|]. unfold attrs_bytes at 1, session_attrs, event_attrs.
  cbn [take app map fst snd]. wire_size.
Qed.

Lemma encode_event_done (status : Z) (e : ConntrackEvent) :
  encode_event status e = Done (event_bytes status e).
Proof.
  unfold encode_event. rewrite !tuple_done, !bind_done.
  rewrite attr_done by wire_size. rewrite !counters_done, !bind_done.
  apply (message_done _ _ (event_attrs status e)). rewrite zlen_event_attrs. by vm_compute.
Qed.

(** Side conditions of [nla_attrs_concat] for attributes of known size. *)
Ltac built_attrs :=
  repeat (apply Forall_cons_2; [split; cbn [fst snd]; [closed_bounds | wire_size]|]);
  apply Forall_nil_2.

Lemma nla_attrs_tuple (src dst : Ipv4Addr) (proto sport dport : Z) :
  nla_attrs (attrs_bytes (tuple_payload src dst proto sport dport)) =
  [(CTA_TUPLE_IP, attrs_bytes (ip_bytes src dst));
   (CTA_TUPLE_PROTO, attrs_bytes (proto_bytes proto sport dport))].
Proof. unfold attrs_bytes at 1. rewrite nla_attrs_concat; [done|]. built_attrs. Qed.

Lemma nla_attrs_ip (src dst : Ipv4Addr) :
  nla_attrs (attrs_bytes (ip_bytes src dst)) = ip_bytes src dst.
Proof. unfold attrs_bytes. rewrite nla_attrs_concat; [done|]. built_attrs. Qed.

Lemma nla_attrs_proto (proto sport dport : Z) :
  nla_attrs (attrs_bytes (proto_bytes proto sport dport)) = proto_bytes proto sport dport.
Proof. unfold attrs_bytes. rewrite nla_attrs_concat; [done|]. built_attrs. Qed.

Lemma nla_attrs_counters (n_packets n_bytes : Z) :
  nla_attrs (attrs_bytes (counters_payload n_packets n_bytes)) = counters_payload n_packets n_bytes.
Proof. unfold attrs_bytes. rewrite nla_attrs_concat; [done|]. built_attrs. Qed.

Lemma nla_attrs_event (status : Z) (e : ConntrackEvent) :
  nla_attrs (attrs_bytes (event_attrs status e)) =
  [(CTA_TUPLE_ORIG,
    attrs_bytes (tuple_payload (src_ip e) (dst_ip e) (protocol e) (src_port e) (dst_port e)));
   (CTA_TUPLE_REPLY,
    attrs_bytes (tuple_payload (post_nat_dst_ip e) (post_nat_src_ip e) (protocol e)
                  (post_nat_dst_port e) (post_nat_src_port e)));
   (CTA_STATUS, to_be_bytes 4 status);
   (CTA_COUNTERS_ORIG, attrs_bytes (counters_payload (orig_packets e) (orig_bytes e)));
   (CTA_COUNTERS_REPLY, attrs_bytes (counters_payload (reply_packets e) (reply_bytes e)))].
Proof. unfold attrs_bytes at 1. rewrite nla_attrs_concat; [done|]. built_attrs. Qed.

Lemma nla_attrs_session (counted : bool) (status : Z) (e : ConntrackEvent) :
  nla_attrs (attrs_bytes (session_attrs counted status e)) =
  take 3 (nla_attrs (attrs_bytes (event_attrs status e))) ++
  (if counted then drop 3 (nla_attrs (attrs_bytes (event_attrs status e))) else []).
Proof.
  destruct counted; [by rewrite take_drop|]. rewrite nla_attrs_event. cbn [take app].
  unfold attrs_bytes at 1, session_attrs, event_attrs. cbn [take app]. rewrite nla_attrs_concat; [done|]. built_attrs.
Qed.

Lemma children_hit (ty : Z) (p : bytes) (l : list (Z * bytes)) :
  children ty ((ty, p) :: l) = nla_attrs p ++ children ty l.
Proof. rewrite children_cons. cbn [fst snd]. by rewrite Z.eqb_refl. Qed.

Lemma children_miss (ty ty' : Z) (p : bytes) (l : list (Z * bytes)) :
  (ty' =? ty) = false -> children ty ((ty', p) :: l) = children ty l.
Proof. intros H. rewrite children_cons. cbn [fst snd]. by rewrite H. Qed.

Lemma uint_of_hit (ty k : Z) (n : nat) (v : Z) :
  k = Z.of_nat n -> 0 <= v < 2 ^ (8 * Z.of_nat n) -> uint_of ty k (ty, to_be_bytes n v) = Some v.
Proof.
  intros -> Hv. rewrite uint_of_eq. cbn [fst snd].
  rewrite Z.eqb_refl, zlen_to_be_bytes, Z.leb_refl. cbn [andb]. f_equal.
  rewrite <- (app_nil_r (to_be_bytes n v)), sub_head by (by rewrite zlen_to_be_bytes).
  by apply from_to_be_bytes_small.
Qed.

Lemma uint_of_miss (ty ty' k : Z) (p : bytes) : (ty' =? ty) = false -> uint_of ty k (ty', p) = None.
Proof. intros H. rewrite uint_of_eq. cbn [fst]. by rewrite H. Qed.

Lemma uint_of_byte (ty b : Z) : uint_of ty 1 (ty, [b]) = Some b.
Proof.
  rewrite uint_of_eq. cbn [fst snd]. rewrite Z.eqb_refl.
  change (1 <=? zlen [b]) with true. cbn [andb]. f_equal.
  exact (from_be_bytes_singleton b).
Qed.

Lemma addr_of_hit (ty : Z) (a : Ipv4Addr) : addr_of ty (ty, octets a) = Some a.
Proof.
  unfold addr_of, prefix_of. cbn [fst snd]. rewrite Z.eqb_refl, zlen_octets. by destruct a.
Qed.

Lemma addr_of_miss (ty ty' : Z) (p : bytes) : (ty' =? ty) = false -> addr_of ty (ty', p) = None.
Proof. intros H. unfold addr_of, prefix_of. cbn [fst]. by rewrite H. Qed.

Ltac attr_values :=
  repeat first
    [ rewrite children_hit | rewrite children_miss by reflexivity
    | rewrite addr_of_hit | rewrite addr_of_miss by reflexivity
    | rewrite uint_of_byte | rewrite uint_of_hit by (reflexivity || done)
    | rewrite uint_of_miss by reflexivity
    | progress cbn [last_value foldl fmap option_fmap option_map default from_option id] ].

(** A session without counters reads as one that counted nothing. *)
Definition uncounted (e : ConntrackEvent) : Prop :=
  orig_bytes e = 0 /\ orig_packets e = 0 /\ reply_bytes e = 0 /\ reply_packets e = 0.

Lemma event_of_attrs_session (counted : bool) (status : Z) (e : ConntrackEvent) :
  event_ok e -> is_u32 status -> (counted = false -> uncounted e) ->
  event_of_attrs (nat_event e) (nla_attrs (attrs_bytes (session_attrs counted status e))) =
  if Z.land status IPS_NAT_MASK =? 0 then None else Some e.
Proof.
  intros [] Hst Hun. rewrite nla_attrs_session, nla_attrs_event.
  destruct counted; cbn [take drop app]; unfold event_of_attrs, status_of, ip_attrs, proto_attrs;
    attr_values; change (children ?t []) with (@nil (Z * bytes)); rewrite !app_nil_r;
    rewrite !nla_attrs_tuple, ?nla_attrs_counters; attr_values;
    change (children ?t []) with (@nil (Z * bytes)); rewrite !app_nil_r;
    rewrite !nla_attrs_ip, !nla_attrs_proto; unfold ip_bytes, proto_bytes, counters_payload; attr_values.
  - destruct (_ =? 0); [done|]. by destruct e.
  - destruct (Hun eq_refl) as (H1 & H2 & H3 & H4). destruct (_ =? 0); [done|]. destruct e; cbn in *. by subst.
Qed.

Lemma conntrack_events_session (counted : bool) (status : Z) (e : ConntrackEvent) (rest : bytes) :
  event_ok e -> is_u32 status -> (counted = false -> uncounted e) ->
  conntrack_events (session_bytes counted status e ++ rest) =
  (if Z.land status IPS_NAT_MASK =? 0 then [] else [e]) ++ conntrack_events rest.
Proof.
  intros He Hst Hun. unfold conntrack_events, session_bytes.
  rewrite nl_messages_message; [|destruct (nat_event e); closed_bounds|rewrite zlen_session_attrs; by destruct counted].
  cbn [omap list_omap].
  assert (event_of_message
    (Z.lor (Z.shiftl NFNL_SUBSYS_CTNETLINK 8) (msg_type_of (nat_event e)),
     [NFPROTO_IPV4; 0; 0; 0] ++ attrs_bytes (session_attrs counted status e)) =
    if Z.land status IPS_NAT_MASK =? 0 then None else Some e) as ->; [|by destruct (_ =? 0)].
  transitivity (event_of_attrs (nat_event e) (nla_attrs (attrs_bytes (session_attrs counted status e))));
    [by destruct (nat_event e) | by apply event_of_attrs_session].
Qed.

(** A built notification with a NAT status describes the event it was built
    from. *)
Lemma conntrack_events_built (status : Z) (e : ConntrackEvent) (rest : bytes) :
  event_ok e -> is_u32 status -> Z.land status IPS_NAT_MASK <> 0 ->
  conntrack_events (event_bytes status e ++ rest) = e :: conntrack_events rest.
Proof.
  intros He Hst Hnat. change (event_bytes status e) with (session_bytes true status e).
  rewrite conntrack_events_session by done. by apply Z.eqb_neq in Hnat as ->.
Qed.

Lemma attrs_bytes_ok (l : list (Z * bytes)) : Forall (fun a => bytes_ok a.2) l -> bytes_ok (attrs_bytes l).
Proof.
  intros Hl. apply bytes_ok_concat, Forall_map. eapply Forall_impl; [|exact Hl].
  intros a Ha. by apply attr_bytes_ok.
Qed.

Lemma session_bytes_ok (counted : bool) (status : Z) (e : ConntrackEvent) :
  event_ok e -> bytes_ok (session_bytes counted status e) /\ zlen (session_bytes counted status e) <= 188.
Proof.
  intros He. split.
  - destruct He. apply pad_to_align_ok. do 5 (apply bytes_ok_app; [apply to_ne_bytes_ok|]).
    apply bytes_ok_app; [closed_bounds|]. destruct counted; cbn [session_attrs event_attrs take drop app];
    repeat first [ assumption | apply to_be_bytes_ok | apply attrs_bytes_ok | apply Forall_cons_2
                 | apply Forall_nil_2 | progress cbn [snd] ].
  - unfold session_bytes, message_bytes. cbv zeta. rewrite zlen_pad_to_align, !zlen_app, !zlen_to_ne_bytes, zlen_session_attrs.
    by destruct counted.
Qed.

Lemma event_bytes_ok (status : Z) (e : ConntrackEvent) : event_ok e -> bytes_ok (event_bytes status e).
Proof. apply (session_bytes_ok true). Qed.

End RoundTrip.

(** ** Prefixes *)

Section Prefixes.
Context {T : Target}.

(** Whether a message fits, its length, type and body, only depend on the bytes
    up to its end. *)
Lemma message_fits_prefix (d : bytes) (n : nat) :
  message_fits (take n d) ->
  message_fits d /\ message_len (take n d) = message_len d /\
  message_type (take n d) = message_type d /\
  sub (take n d) NLMSG_HDRLEN (message_len (take n d)) = sub d NLMSG_HDRLEN (message_len d).
Proof.
  intros [Hlen Hmsg]. unfold NLMSG_HDRLEN, NFGENMSG_LEN in *.
  destruct (le_lt_dec (length d) n) as [Hge|Hlt].
  { rewrite take_ge in * by lia. done. }
  assert (Hn : zlen (take n d) = Z.of_nat n) by (unfold zlen; rewrite length_take; lia).
  assert (Hpre : forall a b, 0 <= a <= b -> b <= Z.of_nat n -> sub (take n d) a b = sub d a b).
  { intros a b Ha Hb. rewrite <- (Nat2Z.id n) at 1. apply sub_prefix; unfold zlen; lia. }
  assert (Hml : message_len (take n d) = message_len d).
  { unfold message_len. rewrite Hpre by lia. done. }
  assert (Hmt : message_type (take n d) = message_type d).
  { unfold message_type. rewrite Hpre by lia. done. }
  split_and!; [|done..|].
  - unfold message_fits, NLMSG_HDRLEN, NFGENMSG_LEN. rewrite Hml, Hn in *. unfold zlen in *. lia.
  - rewrite Hml in *. apply Hpre; lia.
Qed.

Lemma nl_messages_prefix (n : nat) (buf : bytes) :
  nl_messages (take n buf) `prefix_of` nl_messages buf.
Proof.
  revert n. induction buf as [buf IH] using (well_founded_induction (Wf_nat.well_founded_ltof _ length)).
  intros n. rewrite (nl_messages_eq (take n buf)). case_decide as Hfits; [|apply prefix_nil].
  destruct (message_fits_prefix buf n Hfits) as ([Hl Hm] & Hml & Hmt & Hsub).
  rewrite Hsub, Hmt, Hml, (nl_messages_eq buf), decide_True by done.
  apply prefix_cons. pose proof (align4_bounds (message_len buf)).
  unfold NLMSG_HDRLEN, NFGENMSG_LEN in *.
  rewrite skipn_firstn_comm. apply IH. unfold Wf_nat.ltof. rewrite length_drop. unfold zlen in *. lia.
Qed.

Lemma omap_prefix {A B : Type} (f : A -> option B) (l1 l2 : list A) :
  l1 `prefix_of` l2 -> omap f l1 `prefix_of` omap f l2.
Proof. intros [k ->]. rewrite omap_app. by apply prefix_app_r. Qed.

(** ** Well-typed events *)

Lemma last_value_ind {V : Type} (P : V -> Prop) (f : Z * bytes -> option V) (d : V) (l : list (Z * bytes)) :
  P d -> Forall (fun a => forall v, f a = Some v -> P v) l -> P (last_value f d l).
Proof.
  intros Hd Hl; revert d Hd; induction Hl as [|a l Ha _ IH]; intros d Hd; [done|].
  cbn [last_value foldl]. apply IH. destruct (f a) eqn:Hf; [by apply Ha | done].
Qed.

Abbreviation attrs_ok := (Forall (fun a : Z * bytes => input_ok a.2)).

Lemma children_ok (ty : Z) (l : list (Z * bytes)) : attrs_ok l -> attrs_ok (children ty l).
Proof.
  induction 1 as [|a l Ha _ IH]; [constructor|]. rewrite children_cons.
  apply Forall_app. split; [|done]. destruct (a.1 =? ty); [by apply nla_attrs_ok | constructor].
Qed.

Lemma uint_of_bound (ty n : Z) (d : Z) (l : list (Z * bytes)) :
  0 <= n -> attrs_ok l -> 0 <= d < 2 ^ (8 * n) -> 0 <= last_value (uint_of ty n) d l < 2 ^ (8 * n).
Proof.
  intros Hn Hl Hd. apply (last_value_ind (fun v => 0 <= v < 2 ^ (8 * n))); [done|].
  eapply Forall_impl; [|exact Hl]. intros a [Ha _] v Hv. rewrite uint_of_eq in Hv.
  destruct (Z.leb_spec n (zlen a.2)); [|by rewrite andb_false_r in Hv].
  destruct (a.1 =? ty); [|done]. cbn [andb] in Hv. injection Hv as <-.
  pose proof (from_be_bytes_bound (sub a.2 0 n) (bytes_ok_sub _ _ _ Ha)) as Hb.
  rewrite zlen_sub, Z.sub_0_r in Hb by lia. done.
Qed.

Lemma addr_of_ok (ty : Z) (l : list (Z * bytes)) :
  attrs_ok l -> addr_ok (last_value (addr_of ty) UNSPECIFIED l).
Proof.
  intros Hl. apply (last_value_ind addr_ok); [closed_bounds|].
  eapply Forall_impl; [|exact Hl]. intros a [Ha _] v. unfold addr_of, prefix_of.
  destruct (_ && _); [|done]. pose proof (bytes_ok_sub a.2 0 4 Ha) as Hs.
  destruct (sub a.2 0 4) as [|b0 [|b1 [|b2 [|b3 [|]]]]]; try done. by intros [= <-].
Qed.

Lemma event_of_attrs_ok (ty : NatEventType) (l : list (Z * bytes)) (e : ConntrackEvent) :
  attrs_ok l -> event_of_attrs ty l = Some e -> event_ok e.
Proof.
  intros Hl. unfold event_of_attrs. destruct (status_of l); [|done].
  destruct (_ =? 0); [done|]. intros [= <-].
  split; cbn [protocol src_ip dst_ip src_port dst_port post_nat_src_ip post_nat_src_port
    post_nat_dst_ip post_nat_dst_port orig_bytes orig_packets reply_bytes reply_packets];
    unfold ip_attrs, proto_attrs;
    first [ apply addr_of_ok; auto using children_ok
          | apply (uint_of_bound _ 1); auto using children_ok; lia
          | apply (uint_of_bound _ 2); auto using children_ok; lia
          | apply (uint_of_bound _ 8); auto using children_ok; lia ].
Qed.

Lemma nl_messages_ok (buf : bytes) :
  input_ok buf -> Forall (fun m => input_ok m.2) (nl_messages buf).
Proof.
  induction buf as [buf IH] using (well_founded_induction (Wf_nat.well_founded_ltof _ length)).
  intros [Hb Hl]. rewrite nl_messages_eq. case_decide as Hfits; [|constructor].
  destruct Hfits as [Hlen Hmsg]. unfold NLMSG_HDRLEN, NFGENMSG_LEN in *.
  pose proof (align4_bounds (message_len buf)). constructor; cbn [snd].
  - split; [auto with wire|]. rewrite zlen_sub; lia.
  - apply IH; [unfold Wf_nat.ltof; rewrite length_drop; unfold zlen in *; lia|].
    split; [auto with wire|]. unfold zlen in *. rewrite length_drop. lia.
Qed.

Lemma conntrack_events_ok (buf : bytes) : input_ok buf -> Forall event_ok (conntrack_events buf).
Proof.
  intros Hok. unfold conntrack_events. pose proof (nl_messages_ok buf Hok) as Hms.
  induction Hms as [|[ty body] l [Hb Hl] _ IH]; [constructor|].
  cbn [omap list_omap snd] in *.
  destruct (event_of_message (ty, body)) as [e|] eqn:He; [|done]. constructor; [|done].
  unfold event_of_message in He. destruct (_ || _); [done|].
  destruct (event_type_of _); [|done]. destruct (body !! 0%nat); [|done].
  destruct (_ =? _); [|done].
  eapply event_of_attrs_ok; [|exact He]. apply nla_attrs_ok.
  split; [auto with wire|]. unfold zlen in *. rewrite length_drop. lia.
Qed.

End Prefixes.

(** ** Theorems *)

(** [parse] of the parser's unit tests: collect the events in a vector. *)
Definition parse {T : Target} (buf : bytes) : outcome (list ConntrackEvent) :=
  parse_conntrack_messages buf (fun events event => Done (events ++ [event])) [].

Lemma foldM_push {A : Type} (l acc : list A) :
  foldM (fun xs x => Done (xs ++ [x])) acc l = Done (acc ++ l).
Proof.
  revert acc; induction l as [|x l IH]; intros acc; cbn [foldM]; [by rewrite app_nil_r|].
  rewrite bind_done, IH. by rewrite <- app_assoc.
Qed.

Lemma parse_done {T : Target} (buf : bytes) :
  pointer_width = 64 -> input_ok buf -> parse buf = Done (conntrack_events buf).
Proof. intros. unfold parse. rewrite parse_messages_done by done. apply foldM_push. Qed.

(** C6: on a 64-bit target, for every datagram and every callback, the parser's
    offset arithmetic computes the reference parser: it runs the callback on
    the events of the whole messages of the datagram, in order, and nothing
    else (no panic, no overflow and no endless loop of its own). *)
Theorem parser_refines_reference {T : Target} {S : Type} (buf : bytes)
    (callback : S -> ConntrackEvent -> outcome S) (s : S) :
  pointer_width = 64 -> input_ok buf ->
  parse_conntrack_messages buf callback s = foldM callback s (conntrack_events buf).
Proof. apply parse_messages_done. Qed.

(** A datagram that is all garbage: a message claiming 4 GiB. *)
Definition garbage : bytes := replicate 64 255.

Lemma closed_input_ok {T : Target} (buf : bytes) :
  forallb (fun b => (0 <=? b) && (b <? 256)) buf = true -> (zlen buf <=? 2 ^ 31 - 1) = true ->
  input_ok buf.
Proof.
  intros Hb Hl. split.
  - apply Forall_forall. intros b Hin.
    rewrite forallb_forall in Hb. specialize (Hb b Hin). unfold is_u8. change (2 ^ 8) with 256. lia.
  - unfold isize_max. destruct pointer_width_cases as [-> | ->]; lia.
Qed.

Lemma parser_refines_reference_witness :
  parse_conntrack_messages (T := x86_64_debug) garbage (fun n _ => Done (n + 1)) 0 = Done 0.
Proof.
  rewrite (@parser_refines_reference x86_64_debug); [vm_compute; reflexivity | reflexivity |].
  apply closed_input_ok; vm_compute; reflexivity.
Defined.

(** C19: on a 64-bit target, with a callback that keeps an invariant and does not
    panic on well-typed events, parsing any datagram terminates normally and keeps the
    invariant: malformed input cannot make the parser panic or loop. *)
Theorem parser_total {T : Target} {S : Type} (buf : bytes)
    (callback : S -> ConntrackEvent -> outcome S) (I : S -> Prop) (s : S) :
  pointer_width = 64 -> input_ok buf ->
  (forall s e, I s -> event_ok e -> exists s', callback s e = Done s' /\ I s') ->
  I s -> exists s', parse_conntrack_messages buf callback s = Done s' /\ I s'.
Proof.
  intros H64 Hok Hcb Hs. rewrite parse_messages_done by done.
  pose proof (conntrack_events_ok buf Hok) as Hev. revert s Hs.
  induction Hev as [|e l He _ IH]; intros s Hs; cbn [foldM]; [eauto|].
  destruct (Hcb s e Hs He) as (s' & -> & Hs'). apply IH. done.
Qed.

Lemma parser_total_witness :
  exists n, parse_conntrack_messages (T := x86_64_release) garbage (fun n _ => Done (n + 1)) 0 = Done n
            /\ 0 <= n.
Proof.
  apply (@parser_total x86_64_release Z garbage (fun n _ => Done (n + 1)) (fun n => 0 <= n) 0);
    [reflexivity | apply closed_input_ok; vm_compute; reflexivity | | lia].
  intros n e Hn _. exists (n + 1). split; [reflexivity | lia].
Defined.

(** C22: a truncated datagram yields a prefix of the events of the whole one:
    cutting a datagram anywhere loses events from the end and never invents or
    alters one. *)
Theorem truncation_yields_prefix {T : Target} (buf : bytes) (n : nat) :
  pointer_width = 64 -> input_ok buf ->
  exists kept all, parse (take n buf) = Done kept /\ parse buf = Done all /\ kept `prefix_of` all.
Proof.
  intros H64 [Hb Hl]. do 2 eexists. split_and!.
  - apply parse_done; [done|]. split; [auto with wire|].
    unfold zlen in *. rewrite length_take. lia.
  - by apply parse_done.
  - apply omap_prefix, nl_messages_prefix.
Qed.

(** Two notifications of the fixture event, one of creation and one of deletion. *)
Definition two_events {T : Target} : bytes :=
  event_bytes IPS_SRC_NAT (fixture_event 6) ++ event_bytes IPS_DST_NAT (fixture_event 17).

Lemma truncation_yields_prefix_witness :
  exists kept all, parse (T := x86_64_debug) (take 220 (two_events (T := x86_64_debug))) = Done kept /\
    parse (T := x86_64_debug) (two_events (T := x86_64_debug)) = Done all /\ kept `prefix_of` all.
Proof.
  apply (@truncation_yields_prefix x86_64_debug); [reflexivity|].
  apply closed_input_ok; vm_compute; reflexivity.
Defined.

(** C20: the parser reads back what the builder writes: a datagram of
    notifications of well-typed events, each with a status that has a NAT bit,
    followed by anything, parses to those events in order (the reply tuple
    giving the translated addresses with source and destination exchanged),
    followed by the events of the rest. *)
Theorem parse_built_events {T : Target} (l : list (Z * ConntrackEvent)) (rest : bytes) :
  pointer_width = 64 ->
  Forall (fun x => is_u32 x.1 /\ Z.land x.1 IPS_NAT_MASK <> 0 /\ event_ok x.2) l ->
  input_ok (concat (map (fun x => event_bytes x.1 x.2) l) ++ rest) ->
  Forall (fun x => encode_event x.1 x.2 = Done (event_bytes x.1 x.2)) l /\
  parse (concat (map (fun x => event_bytes x.1 x.2) l) ++ rest) =
  Done (map snd l ++ conntrack_events rest).
Proof.
  intros H64 Hl Hok. split; [apply Forall_forall; intros; apply encode_event_done|].
  rewrite parse_done by done. f_equal. clear Hok.
  induction Hl as [|[st e] l (Hst & Hnat & He) _ IH]; [done|].
  cbn [map concat fst snd] in *. rewrite <- app_assoc, conntrack_events_built by done.
  cbn [app]. by rewrite IH.
Qed.

Lemma parse_built_events_witness :
  Forall (fun x => encode_event (T := s390x_release) x.1 x.2
                   = Done (event_bytes (T := s390x_release) x.1 x.2)) [(IPS_SRC_NAT, fixture_event 6)] /\
  parse (T := s390x_release) (event_bytes (T := s390x_release) IPS_SRC_NAT (fixture_event 6) ++ garbage) =
  Done [fixture_event 6].
Proof.
  apply (@parse_built_events s390x_release [(IPS_SRC_NAT, fixture_event 6)] garbage).
  - reflexivity.
  - constructor; [|constructor]. cbn [fst snd].
    split; [closed_bounds|]. split; [vm_compute; discriminate|].
    apply fixture_event_ok. closed_bounds.
  - apply closed_input_ok; vm_compute; reflexivity.
Defined.

(** C21: only translated IPv4 sessions are reported: every event comes from a
    message of the conntrack subsystem whose type says creation or deletion
    (as the event does), for the IPv4 family, whose last status attribute has
    a NAT bit.  Control messages, other subsystems, IPv6 and untranslated
    sessions yield nothing. *)
Theorem only_nat_sessions_reported {T : Target} (buf : bytes) (events : list ConntrackEvent)
    (e : ConntrackEvent) :
  pointer_width = 64 -> input_ok buf -> parse buf = Done events -> In e events ->
  exists ty body status,
    In (ty, body) (nl_messages buf) /\
    NLMSG_MIN_TYPE <= ty /\ Z.shiftr ty 8 = NFNL_SUBSYS_CTNETLINK /\
    event_type_of (Z.land ty 0xFF) = Some (nat_event e) /\
    body !! 0%nat = Some NFPROTO_IPV4 /\
    status_of (nla_attrs (drop 4 body)) = Some status /\ Z.land status IPS_NAT_MASK <> 0.
Proof.
  intros H64 Hok Hparse Hin. rewrite parse_done in Hparse by done. injection Hparse as <-.
  apply list_elem_of_In, list_elem_of_omap in Hin as ([ty body] & Hm & He).
  apply list_elem_of_In in Hm. unfold event_of_message in He.
  destruct (Z.ltb_spec ty NLMSG_MIN_TYPE); [done|].
  destruct (Z.eqb_spec (Z.shiftr ty 8) NFNL_SUBSYS_CTNETLINK); [|done]. cbn [orb negb] in He.
  destruct (event_type_of _) as [et|] eqn:Het; [|done].
  destruct (body !! 0%nat) as [fam|] eqn:Hfam; [|done].
  destruct (Z.eqb_spec fam NFPROTO_IPV4) as [->|]; [|done].
  change (Z.to_nat NFGENMSG_LEN) with 4%nat in He. unfold event_of_attrs in He.
  destruct (status_of _) as [st|] eqn:Hst; [|done].
  destruct (Z.eqb_spec (Z.land st IPS_NAT_MASK) 0); [done|]. injection He as <-.
  exists ty, body, st. by split_and!.
Qed.

Lemma only_nat_sessions_reported_witness :
  exists ty body status,
    In (ty, body) (nl_messages (T := x86_64_debug) (two_events (T := x86_64_debug))) /\
    NLMSG_MIN_TYPE <= ty /\ Z.shiftr ty 8 = NFNL_SUBSYS_CTNETLINK /\
    event_type_of (Z.land ty 0xFF) = Some (nat_event (fixture_event 17)) /\
    body !! 0%nat = Some NFPROTO_IPV4 /\
    status_of (nla_attrs (T := x86_64_debug) (drop 4 body)) = Some status /\
    Z.land status IPS_NAT_MASK <> 0.
Proof.
  apply (@only_nat_sessions_reported x86_64_debug two_events
           [fixture_event 6; fixture_event 17] (fixture_event 17)).
  - reflexivity.
  - apply closed_input_ok; vm_compute; reflexivity.
  - vm_compute. reflexivity.
  - right. left. reflexivity.
Defined.

(** ** The message loop on a 32-bit target *)

(** Two messages of the expectation subsystem; the second, at offset 20, claims
    a length of 2^32 - 20. *)
Definition wrapping_datagram : bytes :=
  [20; 0; 0; 0; 0; 2; 0; 0; 0; 0; 0; 0; 0; 0; 0; 0; 2; 0; 0; 0] ++
  [236; 255; 255; 255; 0; 2; 0; 0; 0; 0; 0; 0; 0; 0; 0; 0].

Lemma wrapping_datagram_steps {S : Type} (cb : S -> ConntrackEvent -> outcome S) (s : S) :
  message_body (T := armv7_release) wrapping_datagram cb (0, s) = Done (Continue (20, s)) /\
  message_body (T := armv7_release) wrapping_datagram cb (20, s) = Done (Continue (0, s)).
Proof. split; vm_compute; reflexivity. Qed.

(** C34: on a 32-bit target the check [offset + nlmsg_len > len] can wrap: in a
    release build a 36-byte datagram whose second message claims a length of
    2^32 - 20 sends the offset back to 0, and the message loop never ends. *)
Theorem message_loop_can_hang_on_32_bit {S : Type} (cb : S -> ConntrackEvent -> outcome S)
    (s : S) (fuel : nat) :
  loop fuel (message_body (T := armv7_release) wrapping_datagram cb) (0, s) = Exhausted.
Proof.
  destruct (wrapping_datagram_steps cb s) as [H0 H20].
  assert (loop fuel (message_body (T := armv7_release) wrapping_datagram cb) (0, s) = Exhausted /\
          loop fuel (message_body (T := armv7_release) wrapping_datagram cb) (20, s) = Exhausted)
    as [H _]; [|exact H].
  induction fuel as [|fuel [IH0 IH20]]; [done|]. cbn [loop]. rewrite H0, H20. done.
Qed.

(** The unit tests' events, evaluated. *)
Example snat_event_reports_the_translated_source :
  (b ← snat_event (T := x86_64_debug); parse (T := x86_64_debug) b) = Done [fixture_event 6].
Proof. vm_compute. reflexivity. Qed.
