(* ===== verification/Template.v ===== *)
(** * Export templates

    [src/export/template.rs]: the field tables of the profiles, the protocol's
    wire constants, and the resolution of a profile, a protocol and a counter
    width into the template the encoder works from.  Sizes are sums over at
    most fourteen fields; [resolve_ok] bounds them far below any [usize], so
    they are computed without width. *)

From stdpp Require Import base list numbers strings pretty.
From Stdlib Require Import ZArith Lia.
From S2P Require Import Prelude Elements.
Local Open Scope Z_scope.

Module FieldSource.

Inductive t :=
  | NatEvent | Protocol | SrcIp | DstIp | SrcPort | DstPort
  | PostNatSrcIp | PostNatSrcPort | PostNatDstIp | PostNatDstPort
  | OrigBytes | OrigPackets | ReplyBytes | ReplyPackets.

#[export] Instance t_eq_dec : EqDecision t.
Proof. solve_decision. Defined.

Definition natural_len (self : t) : option Z :=
  match self with
  | NatEvent | Protocol => Some 1
  | SrcPort | DstPort | PostNatSrcPort | PostNatDstPort => Some 2
  | SrcIp | DstIp | PostNatSrcIp | PostNatDstIp => Some 4
  | OrigBytes | OrigPackets | ReplyBytes | ReplyPackets => None
  end.

End FieldSource.

Record Element := { ie_id : Z; ie_pen : option Z }.

Definition ie (id : Z) : Element := {| ie_id := id; ie_pen := None |}.
Definition reverse_ie (id : Z) : Element :=
  {| ie_id := id; ie_pen := Some REVERSE_INFORMATION_ELEMENT_PEN |}.

Inductive Width := Fixed (n : Z) | Counter.

Record FieldShape := field { shape_source : FieldSource.t; shape_ipfix : Element; shape_width : Width }.

Definition PROFILE_FULL : list FieldShape := [
  field FieldSource.NatEvent (ie IE_NAT_EVENT) (Fixed 1);
  field FieldSource.Protocol (ie IE_PROTOCOL_IDENTIFIER) (Fixed 1);
  field FieldSource.SrcIp (ie IE_SOURCE_IPV4_ADDRESS) (Fixed 4);
  field FieldSource.DstIp (ie IE_DESTINATION_IPV4_ADDRESS) (Fixed 4);
  field FieldSource.SrcPort (ie IE_SOURCE_TRANSPORT_PORT) (Fixed 2);
  field FieldSource.DstPort (ie IE_DESTINATION_TRANSPORT_PORT) (Fixed 2);
  field FieldSource.PostNatSrcIp (ie IE_POST_NAT_SOURCE_IPV4_ADDRESS) (Fixed 4);
  field FieldSource.PostNatSrcPort (ie IE_POST_NAPT_SOURCE_TRANSPORT_PORT) (Fixed 2);
  field FieldSource.PostNatDstIp (ie IE_POST_NAT_DESTINATION_IPV4_ADDRESS) (Fixed 4);
  field FieldSource.PostNatDstPort (ie IE_POST_NAPT_DESTINATION_TRANSPORT_PORT) (Fixed 2);
  field FieldSource.OrigBytes (ie IE_OCTET_DELTA_COUNT) Counter;
  field FieldSource.OrigPackets (ie IE_PACKET_DELTA_COUNT) Counter;
  field FieldSource.ReplyBytes (reverse_ie IE_OCTET_DELTA_COUNT) Counter;
  field FieldSource.ReplyPackets (reverse_ie IE_PACKET_DELTA_COUNT) Counter].

Definition PROFILE_NAT_SOURCE : list FieldShape := [
  field FieldSource.NatEvent (ie IE_NAT_EVENT) (Fixed 1);
  field FieldSource.Protocol (ie IE_PROTOCOL_IDENTIFIER) (Fixed 1);
  field FieldSource.SrcIp (ie IE_SOURCE_IPV4_ADDRESS) (Fixed 4);
  field FieldSource.DstIp (ie IE_DESTINATION_IPV4_ADDRESS) (Fixed 4);
  field FieldSource.SrcPort (ie IE_SOURCE_TRANSPORT_PORT) (Fixed 2);
  field FieldSource.DstPort (ie IE_DESTINATION_TRANSPORT_PORT) (Fixed 2);
  field FieldSource.PostNatSrcIp (ie IE_POST_NAT_SOURCE_IPV4_ADDRESS) (Fixed 4);
  field FieldSource.PostNatSrcPort (ie IE_POST_NAPT_SOURCE_TRANSPORT_PORT) (Fixed 2);
  field FieldSource.OrigBytes (ie IE_OCTET_DELTA_COUNT) Counter;
  field FieldSource.OrigPackets (ie IE_PACKET_DELTA_COUNT) Counter;
  field FieldSource.ReplyBytes (reverse_ie IE_OCTET_DELTA_COUNT) Counter;
  field FieldSource.ReplyPackets (reverse_ie IE_PACKET_DELTA_COUNT) Counter].

Definition PROFILE_FLOW_ONLY : list FieldShape := [
  field FieldSource.Protocol (ie IE_PROTOCOL_IDENTIFIER) (Fixed 1);
  field FieldSource.SrcIp (ie IE_SOURCE_IPV4_ADDRESS) (Fixed 4);
  field FieldSource.DstIp (ie IE_DESTINATION_IPV4_ADDRESS) (Fixed 4);
  field FieldSource.SrcPort (ie IE_SOURCE_TRANSPORT_PORT) (Fixed 2);
  field FieldSource.DstPort (ie IE_DESTINATION_TRANSPORT_PORT) (Fixed 2);
  field FieldSource.OrigBytes (ie IE_OCTET_DELTA_COUNT) Counter;
  field FieldSource.OrigPackets (ie IE_PACKET_DELTA_COUNT) Counter;
  field FieldSource.ReplyBytes (reverse_ie IE_OCTET_DELTA_COUNT) Counter;
  field FieldSource.ReplyPackets (reverse_ie IE_PACKET_DELTA_COUNT) Counter].

(** The [while] over the table with its early return. *)
Fixpoint shapes_are_consistent (shapes : list FieldShape) : bool :=
  match shapes with
  | [] => true
  | shape :: rest =>
      let ok :=
        match shape_width shape, FieldSource.natural_len (shape_source shape) with
        | Fixed declared, Some natural => declared =? natural
        | Counter, None => true
        | _, _ => false
        end in
      if negb ok then false else shapes_are_consistent rest
  end.

(** The three compile-time assertions. *)
Example profile_full_is_consistent : shapes_are_consistent PROFILE_FULL = true.
Proof. reflexivity. Qed.
Example profile_nat_source_is_consistent : shapes_are_consistent PROFILE_NAT_SOURCE = true.
Proof. reflexivity. Qed.
Example profile_flow_only_is_consistent : shapes_are_consistent PROFILE_FLOW_ONLY = true.
Proof. reflexivity. Qed.

Inductive Protocol := Ipfix | Netflow9.

#[export] Instance Protocol_eq_dec : EqDecision Protocol.
Proof. solve_decision. Defined.

Definition version (self : Protocol) : Z :=
  match self with Ipfix => IPFIX_VERSION | Netflow9 => NETFLOW9_VERSION end.

Definition header_len (self : Protocol) : Z :=
  match self with Ipfix => IPFIX_HEADER_LEN | Netflow9 => NETFLOW9_HEADER_LEN end.

Definition template_set_id (self : Protocol) : Z :=
  match self with Ipfix => IPFIX_TEMPLATE_SET_ID | Netflow9 => NETFLOW9_TEMPLATE_FLOWSET_ID end.

Definition supports_enterprise (self : Protocol) : bool :=
  match self with Ipfix => true | Netflow9 => false end.

Definition set_alignment (self : Protocol) : Z :=
  match self with Ipfix => 1 | Netflow9 => NETFLOW9_ALIGNMENT end.

Definition netflow9_type (source : FieldSource.t) (ipfix_id : Z) : Z :=
  match source with
  | FieldSource.ReplyBytes => V9_OUT_BYTES
  | FieldSource.ReplyPackets => V9_OUT_PKTS
  | _ => ipfix_id
  end.

Inductive Profile := Full | NatSource | FlowOnly.

Definition shapes (self : Profile) : list FieldShape :=
  match self with
  | Full => PROFILE_FULL
  | NatSource => PROFILE_NAT_SOURCE
  | FlowOnly => PROFILE_FLOW_ONLY
  end.

Inductive CounterWidth := Four | Eight.

Definition width_bytes (self : CounterWidth) : Z :=
  match self with Four => 4 | Eight => 8 end.

(** The errors the export configuration can be refused with. *)
Inductive config_error :=
  | BadCounterWidth (other : Z)
  | TemplateIdTooSmall (template_id : Z)
  | RecordDoesNotFit (record_size set_size : Z).

(** Their messages, as [bail!] formats them. *)
Definition config_error_fmt (e : config_error) : string :=
  match e with
  | BadCounterWidth other => "counter width must be 4 or 8 bytes, got " +:+ pretty other
  | TemplateIdTooSmall template_id =>
      "template ID must be at least " +:+ pretty MIN_TEMPLATE_ID +:+ ", got " +:+ pretty template_id
  | RecordDoesNotFit record_size set_size =>
      "a " +:+ pretty record_size +:+ "-byte record with a " +:+ pretty set_size +:+
      "-byte template does not fit in the " +:+ pretty MAX_MSG_SIZE +:+ "-byte message budget"
  end.

Definition CounterWidth_from_bytes (bytes : Z) : result config_error CounterWidth :=
  if bytes =? 4 then Ok Four
  else if bytes =? 8 then Ok Eight
  else Err (BadCounterWidth bytes).

Record ResolvedField := {
  rf_id : Z;
  rf_pen : option Z;
  rf_length : Z;
  rf_source : FieldSource.t
}.

Record Template := {
  fields : list ResolvedField;
  record_size : Z;
  template_id : Z;
  template_protocol : Protocol;
  template_profile : Profile;
  counter_width : CounterWidth
}.

(** [value.div_ceil(alignment) * alignment] *)
Definition align_up (value alignment : Z) : Z :=
  ((value + alignment - 1) / alignment) * alignment.

Definition sum_z (l : list Z) : Z := foldr Z.add 0 l.

(** The closure [resolve] maps over the shapes of the profile. *)
Definition resolve_field (protocol : Protocol) (counter_width : CounterWidth) (shape : FieldShape)
    : ResolvedField :=
  let '(id, pen) :=
    match protocol with
    | Ipfix => (ie_id (shape_ipfix shape), ie_pen (shape_ipfix shape))
    | Netflow9 => (netflow9_type (shape_source shape) (ie_id (shape_ipfix shape)), None)
    end in
  {| rf_id := id; rf_pen := pen;
     rf_length := match shape_width shape with Fixed n => n | Counter => width_bytes counter_width end;
     rf_source := shape_source shape |}.

Definition specifier_len (f : ResolvedField) : Z :=
  match rf_pen f with
  | Some _ => FIELD_SPECIFIER_LEN + ENTERPRISE_NUMBER_LEN
  | None => FIELD_SPECIFIER_LEN
  end.

Definition set_size (self : Template) : Z :=
  let specifiers := sum_z (map specifier_len (fields self)) in
  align_up (SET_HEADER_LEN + 4 + specifiers) (set_alignment (template_protocol self)).

Definition data_set_size (self : Template) (records : Z) : Z :=
  align_up (SET_HEADER_LEN + records * record_size self) (set_alignment (template_protocol self)).

Definition resolve {T : Target} (protocol : Protocol) (profile : Profile) (width : CounterWidth)
    (id : Z) : outcome (result config_error Template) :=
  if id <? MIN_TEMPLATE_ID then Done (Err (TemplateIdTooSmall id))
  else
    let fs := map (resolve_field protocol width) (shapes profile) in
    _ ← debug_assert (supports_enterprise protocol ||
                      forallb (fun f => match rf_pen f with None => true | Some _ => false end) fs);
    let template := {|
      fields := fs;
      record_size := sum_z (map rf_length fs);
      template_id := id;
      template_protocol := protocol;
      template_profile := profile;
      counter_width := width |} in
    let smallest_useful := header_len protocol + set_size template + data_set_size template 1 in
    Done (if MAX_MSG_SIZE <? smallest_useful
          then Err (RecordDoesNotFit (record_size template) (set_size template))
          else Ok template).

Definition field_count (self : Template) : outcome Z := u16_try_from (zlen (fields self)).

(** The counting loop; with [record_size > 0] each pass adds at least one byte,
    so a message budget of passes is enough. *)
Definition max_records_per_message {T : Target} (self : Template) : outcome Z :=
  budget ← (b ← usize_sub MAX_MSG_SIZE (header_len (template_protocol self));
            usize_sub b (set_size self));
  loop (Z.to_nat (MAX_MSG_SIZE + 1))
    (fun records =>
       if data_set_size self (records + 1) <=? budget
       then n ← usize_add records 1; Done (Continue n)
       else Done (Break records)) 0.

(** ** Alignment *)

Lemma align_up_spec (v a : Z) : 0 < a -> 0 <= v ->
  v <= align_up v a < v + a /\ align_up v a mod a = 0.
Proof.
  intros Ha Hv. unfold align_up. split; [|apply Z.mod_mul; lia].
  pose proof (Z.div_mod (v + a - 1) a ltac:(lia)). pose proof (Z.mod_pos_bound (v + a - 1) a Ha).
  nia.
Qed.

Lemma align_up_1 (v : Z) : align_up v 1 = v.
Proof. unfold align_up. rewrite Z.div_1_r. lia. Qed.

(** The least multiple above a value: monotone, and unique in its interval. *)
Lemma align_up_mono (v w a : Z) : 0 < a -> v <= w -> align_up v a <= align_up w a.
Proof.
  intros Ha Hvw. unfold align_up. apply Z.mul_le_mono_nonneg_r; [lia|].
  apply Z.div_le_mono; lia.
Qed.

(** Aligning after an aligned prefix. *)
Lemma align_up_add (p v a : Z) : 0 < a -> p mod a = 0 -> align_up (p + v) a = p + align_up v a.
Proof.
  intros Ha Hp. apply Z.mod_divide in Hp as [k ->]; [|lia]. unfold align_up.
  replace (k * a + v + a - 1) with (v + a - 1 + k * a) by lia. rewrite Z.div_add by lia. lia.
Qed.

Lemma set_alignment_cases (p : Protocol) : set_alignment p = 1 \/ set_alignment p = 4.
Proof. destruct p; auto. Qed.

Lemma header_len_aligned (p : Protocol) : header_len p mod set_alignment p = 0.
Proof. by destruct p. Qed.

(** ** What resolution guarantees *)

Record field_ok (p : Protocol) (f : ResolvedField) : Prop := {
  fo_id : 0 <= rf_id f < ENTERPRISE_BIT;
  fo_len : 1 <= rf_length f <= 8;
  fo_natural : match FieldSource.natural_len (rf_source f) with
               | Some n => rf_length f = n
               | None => rf_length f = 4 \/ rf_length f = 8
               end;
  fo_pen : match rf_pen f with
           | Some pen => supports_enterprise p = true /\ is_u32 pen
           | None => True
           end
}.

Record template_ok (t : Template) : Prop := {
  to_fields : Forall (field_ok (template_protocol t)) (fields t);
  to_count : 9 <= zlen (fields t) <= 14;
  to_size : record_size t = sum_z (map rf_length (fields t));
  to_size_bounds : 29 <= record_size t <= 58;
  to_id : MIN_TEMPLATE_ID <= template_id t < 2 ^ 16;
  to_set : 8 <= set_size t <= 72;
  to_fits : header_len (template_protocol t) + set_size t + data_set_size t 1 <= MAX_MSG_SIZE
}.

Definition resolved (p : Protocol) (pr : Profile) (w : CounterWidth) (id : Z) : Template :=
  let fs := map (resolve_field p w) (shapes pr) in
  {| fields := fs; record_size := sum_z (map rf_length fs); template_id := id;
     template_protocol := p; template_profile := pr; counter_width := w |}.

(** Resolution refuses exactly the reserved template identifiers. *)
Lemma resolve_eq {T : Target} (p : Protocol) (pr : Profile) (w : CounterWidth) (id : Z) :
  resolve p pr w id =
  Done (if id <? MIN_TEMPLATE_ID then Err (TemplateIdTooSmall id) else Ok (resolved p pr w id)).
Proof.
  unfold resolve. destruct (id <? MIN_TEMPLATE_ID); [done|].
  rewrite debug_assert_done, bind_done; by destruct p, pr, w.
Qed.

Ltac by_evaluation := vm_compute; try (intuition congruence).

Lemma resolved_fields_ok (p : Protocol) (pr : Profile) (w : CounterWidth) (id : Z) :
  Forall (field_ok p) (fields (resolved p pr w id)).
Proof.
  destruct p, pr, w; repeat (apply Forall_cons_2; [split; by_evaluation|]); apply Forall_nil_2.
Qed.

Lemma resolve_ok {T : Target} (p : Protocol) (pr : Profile) (w : CounterWidth) (id : Z)
    (t : Template) :
  is_u16 id -> resolve p pr w id = Done (Ok t) -> t = resolved p pr w id /\ template_ok t.
Proof.
  intros Hid. rewrite resolve_eq. destruct (Z.ltb_spec id MIN_TEMPLATE_ID); [done|].
  intros [= <-]. split; [done|]. unfold is_u16 in Hid.
  split; [apply resolved_fields_ok | | done | | cbn [template_id resolved]; lia | |].
  all: destruct p, pr, w; by_evaluation.
Qed.

(** ** The capacity of a message *)

Section Capacity.
Context {T : Target}.

Lemma data_set_size_bounds (t : Template) (n : Z) : template_ok t -> 0 <= n ->
  4 + n * record_size t <= data_set_size t n <= 4 + n * record_size t + 3.
Proof.
  intros [] Hn. unfold data_set_size, SET_HEADER_LEN.
  pose proof (align_up_spec (4 + n * record_size t) (set_alignment (template_protocol t))).
  destruct (set_alignment_cases (template_protocol t)); nia.
Qed.

Lemma data_set_size_mono (t : Template) (n m : Z) : template_ok t -> n <= m ->
  data_set_size t n <= data_set_size t m.
Proof.
  intros [] Hnm. apply align_up_mono; [|unfold SET_HEADER_LEN; nia].
  destruct (set_alignment_cases (template_protocol t)); lia.
Qed.

Lemma max_records_done (t : Template) : template_ok t ->
  exists n, max_records_per_message t = Done n /\ 1 <= n /\
    (forall m, 0 <= m ->
       header_len (template_protocol t) + set_size t + data_set_size t m <= MAX_MSG_SIZE <-> m <= n).
Proof.
  intros Hok. pose proof Hok as []. pose proof usize_max_ge.
  set (h := header_len (template_protocol t)) in *.
  assert (Hh : h = 16 \/ h = 20) by (unfold h; destruct (template_protocol t); auto).
  unfold max_records_per_message. fold h. unfold MAX_MSG_SIZE in *.
  rewrite (usize_sub_done 1472 h), bind_done by lia.
  rewrite (usize_sub_done (1472 - h)), bind_done by lia.
  set (budget := 1472 - h - set_size t).
  match goal with |- context [loop ?fl ?b 0] => set (body := b); set (fuel := fl) end.
  destruct (loop_total body
    (fun n => 0 <= n /\ (n = 0 \/ data_set_size t n <= budget))
    (fun n => 0 <= n /\ (n = 0 \/ data_set_size t n <= budget) /\ budget < data_set_size t (n + 1))
    (fun n => Z.to_nat (1472 - n))) with (fuel := fuel) (s := 0) as (n & Hn & H1 & H2 & H3).
  - intros n [Hn Hbud]. unfold body.
    assert (Hsmall : n <= 1471).
    { pose proof (data_set_size_bounds t n Hok Hn). destruct Hbud; nia. }
    destruct (Z.leb_spec (data_set_size t (n + 1)) budget) as [Hb|Hb].
    + left. exists (n + 1). rewrite usize_add_done, bind_done by lia. split; [done|]. lia.
    + right. exists n. auto.
  - lia.
  - vm_compute. lia.
  - exists n. split; [exact Hn|]. pose proof (data_set_size_mono t n 1 Hok).
    assert (1 <= n).
    { destruct (Z.eq_dec n 0) as [->|]; [|lia]. change (0 + 1) with 1 in H3. lia. }
    split; [done|]. intros m Hm. split.
    + intros Hfit. destruct (Z.le_gt_cases m n); [done|].
      pose proof (data_set_size_mono t (n + 1) m Hok ltac:(lia)). lia.
    + intros Hle. pose proof (data_set_size_mono t m n Hok Hle). lia.
Qed.

End Capacity.

(** C26: resolution.  For every protocol, profile, counter width and 16-bit
    identifier, [resolve] returns and refuses exactly the identifiers below 256.
    What it accepts is well formed (field widths as their sources need them, the
    record size their sum, enterprise numbers only where the protocol can
    express them, header, template and one record within the message budget),
    lists the profile's fields in order, and names no information element
    twice. *)
Theorem resolve_accepts_all_but_reserved_ids {T : Target} (p : Protocol) (pr : Profile)
    (w : CounterWidth) (id : Z) :
  is_u16 id ->
  (id < MIN_TEMPLATE_ID /\ resolve p pr w id = Done (Err (TemplateIdTooSmall id))) \/
  (exists t, MIN_TEMPLATE_ID <= id /\ resolve p pr w id = Done (Ok t) /\ template_ok t /\
     map rf_source (fields t) = map shape_source (shapes pr) /\ template_id t = id /\
     template_protocol t = p /\ NoDup (map (fun f => (rf_pen f, rf_id f)) (fields t))).
Proof.
  intros Hid. pose proof (resolve_ok p pr w id (resolved p pr w id) Hid) as Hok.
  rewrite resolve_eq in *. destruct (Z.ltb_spec id MIN_TEMPLATE_ID); [by left|right].
  exists (resolved p pr w id). destruct Hok as [_ Hok]; [done|].
  split_and!; try done; [by destruct p, pr, w|].
  apply (bool_decide_unpack _). destruct p, pr, w; by vm_compute.
Qed.

Lemma resolve_accepts_all_but_reserved_ids_witness :
  exists t, resolve (T := x86_64_debug) Netflow9 Full Four 300 = Done (Ok t) /\ template_ok t.
Proof.
  destruct (@resolve_accepts_all_but_reserved_ids x86_64_debug Netflow9 Full Four 300)
    as [[H _]|(t & _ & Ht & Hok & _)].
  - closed_bounds.
  - vm_compute in H. discriminate.
  - exists t. split; [exact Ht|exact Hok].
Defined.
