(* ===== verification/Record.v ===== *)
(** * Data records

    [src/export/record.rs]: the value each field carries, the clamping of
    counters, and [write_record], which writes one record into the message
    buffer and counts the counters it had to clamp. *)

From stdpp Require Import base list numbers.
From Stdlib Require Import ZArith Lia.
From S2P Require Import Prelude Elements Event Template.
Local Open Scope Z_scope.

Inductive Value :=
  | VByte (v : Z)
  | VPort (v : Z)
  | VAddr (octs : bytes)
  | VCounter (v : Z).

Definition value_of (source : FieldSource.t) (event : ConntrackEvent) : Value :=
  match source with
  | FieldSource.NatEvent => VByte (nat_event_code (nat_event event))
  | FieldSource.Protocol => VByte (protocol event)
  | FieldSource.SrcIp => VAddr (octets (src_ip event))
  | FieldSource.DstIp => VAddr (octets (dst_ip event))
  | FieldSource.SrcPort => VPort (src_port event)
  | FieldSource.DstPort => VPort (dst_port event)
  | FieldSource.PostNatSrcIp => VAddr (octets (post_nat_src_ip event))
  | FieldSource.PostNatSrcPort => VPort (post_nat_src_port event)
  | FieldSource.PostNatDstIp => VAddr (octets (post_nat_dst_ip event))
  | FieldSource.PostNatDstPort => VPort (post_nat_dst_port event)
  | FieldSource.OrigBytes => VCounter (orig_bytes event)
  | FieldSource.OrigPackets => VCounter (orig_packets event)
  | FieldSource.ReplyBytes => VCounter (reply_bytes event)
  | FieldSource.ReplyPackets => VCounter (reply_packets event)
  end.

Definition counter_max (len : Z) : Z :=
  if 8 <=? len then u64_max else Z.shiftl 1 (len * 8) - 1.

Section WriteRecord.
Context {T : Target}.

(** One pass of the loop over the fields: the buffer, the offset and the count
    of clamped counters. *)
Definition write_field (event : ConntrackEvent) (st : bytes * Z * Z) (f : ResolvedField)
    : outcome (bytes * Z * Z) :=
  let '(buf, offset, saturated) := st in
  let len := rf_length f in
  _ ← debug_assert match FieldSource.natural_len (rf_source f) with
                   | Some n => n =? len
                   | None => true
                   end;
  match value_of (rf_source f) event with
  | VByte value =>
      buf ← set_index buf offset value;
      offset ← usize_add offset 1;
      Done (buf, offset, saturated)
  | VPort value =>
      last ← usize_add offset 2;
      buf ← copy_from_slice buf offset last (to_be_bytes 2 value);
      offset ← usize_add offset 2;
      Done (buf, offset, saturated)
  | VAddr value =>
      last ← usize_add offset 4;
      buf ← copy_from_slice buf offset last value;
      offset ← usize_add offset 4;
      Done (buf, offset, saturated)
  | VCounter value =>
      let max := counter_max len in
      '(value, saturated) ←
        (if max <? value then s ← add_w 64 saturated 1; Done (max, s)
         else Done (value, saturated));
      last ← usize_add offset len;
      skip ← usize_sub 8 len;
      low ← slice_from (to_be_bytes 8 value) skip;
      buf ← copy_from_slice buf offset last low;
      offset ← usize_add offset len;
      Done (buf, offset, saturated)
  end.

Definition write_record (buf : bytes) (offset : Z) (fs : list ResolvedField)
    (event : ConntrackEvent) : outcome (bytes * Z * Z) :=
  foldM (write_field event) (buf, offset, 0) fs.

(** ** What a record is *)

(** The bytes of a field, and whether its counter was clamped. *)
Definition field_bytes (event : ConntrackEvent) (f : ResolvedField) : bytes :=
  match value_of (rf_source f) event with
  | VByte v => [v]
  | VPort v => to_be_bytes 2 v
  | VAddr octs => octs
  | VCounter v => to_be_bytes (Z.to_nat (rf_length f)) (Z.min v (counter_max (rf_length f)))
  end.

Definition clamped (event : ConntrackEvent) (f : ResolvedField) : Z :=
  match value_of (rf_source f) event with
  | VCounter v => if counter_max (rf_length f) <? v then 1 else 0
  | _ => 0
  end.

Definition record_bytes (fs : list ResolvedField) (event : ConntrackEvent) : bytes :=
  concat (map (field_bytes event) fs).

Definition clamped_counters (fs : list ResolvedField) (event : ConntrackEvent) : Z :=
  sum_z (map (clamped event) fs).

Lemma zlen_field_bytes (p : Protocol) (event : ConntrackEvent) (f : ResolvedField) :
  field_ok p f -> zlen (field_bytes event f) = rf_length f.
Proof.
  intros [_ Hlen Hnat _]. unfold field_bytes.
  destruct (rf_source f); cbn [value_of FieldSource.natural_len] in *; subst;
    rewrite ?zlen_to_be_bytes, ?zlen_octets; try rewrite Hnat; try done; lia.
Qed.

Lemma zlen_record_bytes (p : Protocol) (event : ConntrackEvent) (fs : list ResolvedField) :
  Forall (field_ok p) fs -> zlen (record_bytes fs event) = sum_z (map rf_length fs).
Proof.
  induction 1 as [|f fs Hf _ IH]; [done|]. unfold record_bytes in *. cbn [map concat sum_z foldr].
  rewrite zlen_app, IH. by rewrite (zlen_field_bytes p).
Qed.

Lemma clamped_bound (event : ConntrackEvent) (f : ResolvedField) : 0 <= clamped event f <= 1.
Proof.
  unfold clamped. destruct (value_of _ _); try lia. destruct (_ <? _); lia.
Qed.

(** ** One field *)

Lemma counter_low_bytes (len v : Z) : len = 4 \/ len = 8 ->
  slice_from (to_be_bytes 8 v) (8 - len) = Done (to_be_bytes (Z.to_nat len) v).
Proof.
  intros Hlen. rewrite slice_from_done by (rewrite zlen_to_be_bytes; lia).
  by destruct Hlen as [-> | ->].
Qed.

Lemma clamp_done (sat v max : Z) : 0 <= sat -> sat + 1 <= u64_max ->
  (if max <? v then s ← add_w 64 sat 1; Done (max, s) else Done (v, sat)) =
  Done (Z.min v max, sat + if max <? v then 1 else 0).
Proof.
  intros. destruct (Z.ltb_spec max v).
  - unfold add_w. rewrite fit_w_done, bind_done by (unfold u64_max in *; lia).
    by rewrite Z.min_r by lia.
  - rewrite Z.min_l, Z.add_0_r by lia. done.
Qed.

(** A field that has room is written at its advertised width, whole, and
    nothing else of the buffer changes. *)
Lemma write_field_done (p : Protocol) (event : ConntrackEvent) (buf : bytes) (offset sat : Z)
    (f : ResolvedField) :
  field_ok p f -> 0 <= offset -> offset + rf_length f <= zlen buf -> zlen buf <= isize_max ->
  0 <= sat -> sat + 1 <= u64_max ->
  write_field event (buf, offset, sat) f =
  Done (patch buf offset (field_bytes event f), offset + rf_length f, sat + clamped event f).
Proof.
  intros Hok Hoff Hroom Hmax Hs0 Hs1. pose proof isize_usize. pose proof usize_max_ge.
  pose proof (zlen_field_bytes p event f Hok) as Hlen.
  destruct Hok as [_ Hl Hnat _]. unfold write_field. cbv zeta beta iota.
  rewrite debug_assert_done, bind_done
    by (destruct (FieldSource.natural_len (rf_source f)); [by apply Z.eqb_eq|done]).
  unfold field_bytes, clamped in *.
  destruct (value_of (rf_source f) event) eqn:Hv; cbv beta iota in *.
  - rewrite zlen_cons in Hlen. change (zlen []) with 0 in Hlen.
    exec set_index_done. exec usize_add_done. repeat f_equal; lia.
  - pose proof (zlen_to_be_bytes 2 v). exec usize_add_done.
    exec copy_from_slice_done. exec usize_add_done. repeat f_equal; lia.
  - assert (rf_length f = 4) by (destruct (rf_source f); simplify_eq; done).
    exec usize_add_done. exec copy_from_slice_done. exec usize_add_done. repeat f_equal; lia.
  - assert (Hc : rf_length f = 4 \/ rf_length f = 8)
      by (destruct (rf_source f); simplify_eq; done).
    rewrite clamp_done, bind_done by done.
    exec usize_add_done. exec usize_sub_done.
    rewrite counter_low_bytes, bind_done by done.
    exec copy_from_slice_done. exec usize_add_done. done.
Qed.

Lemma sum_z_nonneg (l : list Z) : Forall (fun x => 0 <= x) l -> 0 <= sum_z l.
Proof.
  induction 1 as [|x l Hx _ IH]; [done|]. change (sum_z (x :: l)) with (x + sum_z l). lia.
Qed.

Lemma clamped_counters_bound (fs : list ResolvedField) (event : ConntrackEvent) :
  0 <= clamped_counters fs event <= zlen fs.
Proof.
  unfold clamped_counters. induction fs as [|f fs IH]; [done|].
  cbn [map sum_z foldr]. fold (sum_z (map (clamped event) fs)). rewrite zlen_cons.
  pose proof (clamped_bound event f). lia.
Qed.

Lemma field_lengths_nonneg (p : Protocol) (fs : list ResolvedField) :
  Forall (field_ok p) fs -> 0 <= sum_z (map rf_length fs).
Proof.
  intros Hfs. apply sum_z_nonneg, Forall_map. eapply Forall_impl; [|exact Hfs].
  intros f [_ ? _ _]. simpl. lia.
Qed.

(** ** One record *)

Lemma write_fields_done (p : Protocol) (event : ConntrackEvent) (fs : list ResolvedField)
    (buf : bytes) (offset sat : Z) :
  Forall (field_ok p) fs -> 0 <= offset -> offset + sum_z (map rf_length fs) <= zlen buf ->
  zlen buf <= isize_max -> 0 <= sat -> sat + zlen fs <= u64_max ->
  foldM (write_field event) (buf, offset, sat) fs =
  Done (patch buf offset (record_bytes fs event), offset + sum_z (map rf_length fs),
        sat + clamped_counters fs event).
Proof.
  intros Hfs. revert buf offset sat. induction Hfs as [|f fs Hf Hfs IH];
    intros buf offset sat Hoff Hroom Hmax Hs0 Hs1.
  - change (sum_z (map rf_length [])) with 0 in *. change (clamped_counters [] event) with 0.
    change (record_bytes [] event) with (@nil Z). rewrite patch_nil, !Z.add_0_r by lia. done.
  - pose proof (field_lengths_nonneg p fs Hfs). pose proof (clamped_bound event f).
    pose proof (zlen_field_bytes p event f Hf) as Hlen.
    pose proof (zlen_record_bytes p event fs Hfs) as Hrest. pose proof (zlen_nonneg fs).
    change (sum_z (map rf_length (f :: fs))) with (rf_length f + sum_z (map rf_length fs)) in *.
    change (clamped_counters (f :: fs) event) with (clamped event f + clamped_counters fs event).
    change (record_bytes (f :: fs) event) with (field_bytes event f ++ record_bytes fs event).
    rewrite zlen_cons in Hs1. cbn [foldM].
    assert (0 <= rf_length f) by (destruct Hf; lia).
    rewrite (write_field_done p), bind_done by (done || lia).
    assert (zlen (patch buf offset (field_bytes event f)) = zlen buf) by (apply zlen_patch; lia).
    rewrite IH by lia.
    rewrite <- Hlen, patch_patch by lia. f_equal. f_equal; [f_equal|]; lia.
Qed.

Lemma write_record_done (p : Protocol) (event : ConntrackEvent) (fs : list ResolvedField)
    (buf : bytes) (offset : Z) :
  Forall (field_ok p) fs -> 0 <= offset -> offset + sum_z (map rf_length fs) <= zlen buf ->
  zlen buf <= isize_max -> zlen fs <= u64_max ->
  write_record buf offset fs event =
  Done (patch buf offset (record_bytes fs event), offset + sum_z (map rf_length fs),
        clamped_counters fs event).
Proof. intros. unfold write_record. by rewrite (write_fields_done p) by (done || lia). Qed.

Lemma record_bytes_ok (fs : list ResolvedField) (event : ConntrackEvent) :
  event_ok event -> bytes_ok (record_bytes fs event).
Proof.
  intros Hev. apply Forall_concat, Forall_map, Forall_true. intros f.
  unfold field_bytes. destruct Hev.
  destruct (rf_source f); cbn [value_of]; try apply to_be_bytes_ok; try done;
    (apply Forall_cons_2; [first [exact ok_protocol | apply nat_event_code_u8] | apply Forall_nil_2]).
Qed.

End WriteRecord.

(** ** What a record says *)

(** What an information element says of a session event, by the registered meaning of
    its number: IANA's IPFIX elements (RFC 7012, RFC 8158 for the natEvent), the reverse
    elements of RFC 5103 under its enterprise number 29305, and for NetFlow v9
    OUT_BYTES (23) and OUT_PKTS (24) for the other direction.  Nothing of the
    exporter's code is used. *)
Definition element_value (p : Protocol) (pen : option Z) (id : Z) (ev : ConntrackEvent) : Z :=
  match pen, id with
  | None, 230 => match nat_event ev with Create => 4 | Delete => 5 end
  | None, 4 => protocol ev
  | None, 8 => from_be_bytes (octets (src_ip ev))
  | None, 12 => from_be_bytes (octets (dst_ip ev))
  | None, 7 => src_port ev
  | None, 11 => dst_port ev
  | None, 225 => from_be_bytes (octets (post_nat_src_ip ev))
  | None, 226 => from_be_bytes (octets (post_nat_dst_ip ev))
  | None, 227 => post_nat_src_port ev
  | None, 228 => post_nat_dst_port ev
  | None, 1 => orig_bytes ev
  | None, 2 => orig_packets ev
  | Some 29305, 1 => match p with Ipfix => reply_bytes ev | Netflow9 => -1 end
  | Some 29305, 2 => match p with Ipfix => reply_packets ev | Netflow9 => -1 end
  | None, 23 => match p with Ipfix => -1 | Netflow9 => reply_bytes ev end
  | None, 24 => match p with Ipfix => -1 | Netflow9 => reply_packets ev end
  | _, _ => -1
  end.

(** The largest number a field can hold, the number its element says of an event,
    and what can be on the wire of it. *)
Definition field_max (f : ResolvedField) : Z := 2 ^ (8 * rf_length f) - 1.
Definition field_value (p : Protocol) (ev : ConntrackEvent) (f : ResolvedField) : Z :=
  element_value p (rf_pen f) (rf_id f) ev.
Definition wire_value (p : Protocol) (ev : ConntrackEvent) (f : ResolvedField) : Z :=
  Z.min (field_value p ev f) (field_max f).

(** How many fields of a record are too narrow for what they should say. *)
Definition too_narrow (p : Protocol) (ev : ConntrackEvent) (fs : list ResolvedField) : list ResolvedField :=
  filter (fun f => field_max f < field_value p ev f) fs.

(** The number in a value. *)
Definition value_number (v : Value) : Z :=
  match v with
  | VByte n | VPort n | VCounter n => n
  | VAddr octs => from_be_bytes octs
  end.

Lemma counter_max_eq (len : Z) : len = 4 \/ len = 8 -> counter_max len = 2 ^ (8 * len) - 1.
Proof. by intros [-> | ->]. Qed.

Lemma octets_number (a : Ipv4Addr) : bytes_ok (octets a) -> 0 <= from_be_bytes (octets a) <= 2 ^ 32 - 1.
Proof.
  intros Ha. pose proof (from_be_bytes_bound (octets a) Ha) as Hb. rewrite zlen_octets in Hb.
  change (2 ^ (8 * 4)) with (2 ^ 32) in Hb. lia.
Qed.

(** The bytes of a field stand for its value, if the field is wide enough. *)
Lemma from_field_bytes (p : Protocol) (event : ConntrackEvent) (f : ResolvedField) :
  field_ok p f -> event_ok event ->
  from_be_bytes (field_bytes event f) = Z.min (value_number (value_of (rf_source f) event)) (field_max f).
Proof.
  intros [_ Hl Hnat _] Hev. unfold field_bytes, field_max. destruct Hev.
  destruct (rf_source f); cbn [value_of value_number FieldSource.natural_len] in *;
    try rewrite Hnat; pose proof (nat_event_code_u8 (nat_event event)) as Hcode.
  all: try (rewrite Z.min_l by (apply octets_number; done); done).
  all: try (rewrite Z.min_l by (unfold is_u8, is_u16 in *; lia);
            first [apply from_to_be_bytes_small; done | cbn [from_be_bytes]; change (zlen []) with 0; lia]).
  all: rewrite counter_max_eq by done; apply from_to_be_bytes_small; unfold is_u64 in *.
  all: rewrite Z2Nat.id by lia; assert (0 < 2 ^ (8 * rf_length f)) by (apply Z.pow_pos_nonneg; lia); lia.
Qed.

(** Every resolved field takes from the event what its element is defined to say. *)
Definition meant (p : Protocol) (f : ResolvedField) : Prop :=
  forall ev, value_number (value_of (rf_source f) ev) = field_value p ev f.

Lemma resolved_meant (p : Protocol) (pr : Profile) (w : CounterWidth) (id : Z) :
  Forall (meant p) (fields (resolved p pr w id)).
Proof. destruct p, pr, w; repeat (apply Forall_cons_2; [by intros []|]); apply Forall_nil_2. Qed.

Lemma clamped_too_narrow (p : Protocol) (ev : ConntrackEvent) (f : ResolvedField) :
  field_ok p f -> event_ok ev -> meant p f ->
  clamped ev f = if bool_decide (field_max f < field_value p ev f) then 1 else 0.
Proof.
  intros [_ Hl Hnat _] Hev Hf. rewrite <- Hf. unfold clamped, field_max. destruct Hev.
  destruct (rf_source f); cbn [value_of value_number FieldSource.natural_len] in *; try rewrite Hnat.
  all: try (rewrite bool_decide_false; [done|]).
  all: try (pose proof (nat_event_code_u8 (nat_event ev)); unfold is_u8, is_u16 in *; lia).
  all: try (match goal with |- ~ _ < from_be_bytes (octets ?a) => destruct (octets_number a); [done|lia] end).
  all: rewrite counter_max_eq by done; case_bool_decide;
    match goal with |- (if ?a <? ?b then _ else _) = _ => destruct (Z.ltb_spec a b) end; lia.
Qed.

Lemma clamped_counters_too_narrow (p : Protocol) (ev : ConntrackEvent) (fs : list ResolvedField) :
  Forall (field_ok p) fs -> event_ok ev -> Forall (meant p) fs ->
  clamped_counters fs ev = zlen (too_narrow p ev fs).
Proof.
  intros Hfs Hev. induction Hfs as [|f fs Hf Hfs IH]; intros Hm; [done|].
  apply Forall_cons_1 in Hm as [Hmf Hm].
  change (clamped_counters (f :: fs) ev) with (clamped ev f + clamped_counters fs ev).
  rewrite (clamped_too_narrow p), IH by done. unfold too_narrow. rewrite filter_cons.
  case_bool_decide; case_decide; try done. rewrite zlen_cons. lia.
Qed.

Lemma record_field (p : Protocol) (event : ConntrackEvent) (fs : list ResolvedField) (i : nat)
    (f : ResolvedField) :
  Forall (field_ok p) fs -> fs !! i = Some f ->
  let start := sum_z (map rf_length (take i fs)) in
  sub (record_bytes fs event) start (start + rf_length f) = field_bytes event f.
Proof.
  intros Hfs Hi start. rewrite <- (take_drop_middle fs i f Hi) in Hfs |- * at 1.
  apply Forall_app in Hfs as [Hpre Hrest]. apply Forall_cons_1 in Hrest as [Hf _].
  unfold record_bytes. rewrite map_app, concat_app. cbn [map concat].
  apply sub_middle.
  - unfold start. symmetry. by apply (zlen_record_bytes p).
  - fold (record_bytes (take i fs) event).
    rewrite (zlen_record_bytes p), (zlen_field_bytes p) by done. done.
Qed.

Lemma field_position (p : Protocol) (fs : list ResolvedField) (i : nat) (f : ResolvedField) :
  Forall (field_ok p) fs -> fs !! i = Some f ->
  0 <= sum_z (map rf_length (take i fs)) /\ 1 <= rf_length f /\
  sum_z (map rf_length (take i fs)) + rf_length f <= sum_z (map rf_length fs).
Proof.
  intros Hfs. revert i. induction Hfs as [|g fs Hg Hfs IH]; intros [|i] Hi; try done.
  - injection Hi as ->. pose proof (field_lengths_nonneg p fs Hfs).
    change (sum_z (map rf_length (f :: fs))) with (rf_length f + sum_z (map rf_length fs)).
    change (sum_z (map rf_length (take 0 (f :: fs)))) with 0. destruct Hg. lia.
  - change (sum_z (map rf_length (g :: fs))) with (rf_length g + sum_z (map rf_length fs)).
    change (sum_z (map rf_length (take (S i) (g :: fs))))
      with (rf_length g + sum_z (map rf_length (take i fs))).
    specialize (IH i Hi). destruct Hg. lia.
Qed.

(** C23: a record on the wire.  Under every template that [resolve] makes, given
    room for a record, [write_record] does not panic, advances the offset by the
    advertised record size, changes no byte outside the record, and leaves at the
    position of each field of the template, in order and big-endian, what the
    registered meaning of the field's information element says of the event: exactly, or,
    where the field is too narrow for it, the largest number it can hold.  The
    result counts the fields that were too narrow. *)
Theorem record_on_the_wire {T : Target} (p : Protocol) (pr : Profile) (w : CounterWidth) (id : Z)
    (t : Template) (ev : ConntrackEvent) (buf : bytes) (offset : Z) :
  is_u16 id -> resolve p pr w id = Done (Ok t) ->
  event_ok ev -> 0 <= offset -> offset + record_size t <= zlen buf -> zlen buf <= isize_max ->
  exists buf',
    write_record buf offset (fields t) ev =
      Done (buf', offset + record_size t, zlen (too_narrow p ev (fields t))) /\
    take (Z.to_nat offset) buf' = take (Z.to_nat offset) buf /\
    drop (Z.to_nat (offset + record_size t)) buf' = drop (Z.to_nat (offset + record_size t)) buf /\
    forall i f, fields t !! i = Some f ->
      let start := offset + sum_z (map rf_length (take i (fields t))) in
      from_be_bytes (sub buf' start (start + rf_length f)) = wire_value p ev f.
Proof.
  intros Hid Hres Hev Hoff Hroom Hmax. apply resolve_ok in Hres as [Ht Hok]; [|done].
  pose proof (resolved_meant p pr w id) as Hm. rewrite <- Ht in Hm.
  destruct Hok as [Hfs Hcount Hsize Hbounds _ _ _].
  assert (Hp : template_protocol t = p) by (by rewrite Ht). rewrite Hp in Hfs.
  exists (patch buf offset (record_bytes (fields t) ev)).
  pose proof (zlen_record_bytes _ ev _ Hfs) as Hz. rewrite <- Hsize in Hz.
  assert (Hpre : zlen (take (Z.to_nat offset) buf) = offset) by (apply zlen_take; lia).
  split.
  { rewrite (write_record_done p) by (done || unfold u64_max; lia).
    rewrite (clamped_counters_too_narrow p) by done. by rewrite <- Hsize. }
  unfold patch. rewrite Hz. split; [by apply take_app_zlen|].
  split; [rewrite app_assoc; apply drop_app_zlen; rewrite zlen_app; lia|].
  intros i f Hi. cbv zeta. unfold wire_value. rewrite <- (Forall_lookup_1 _ _ _ _ Hm Hi).
  rewrite <- (from_field_bytes p ev f) by (done || by eapply Forall_lookup_1).
  rewrite <- (record_field p ev (fields t) i f Hfs Hi). f_equal.
  destruct (field_position p (fields t) i f Hfs Hi).
  rewrite <- Z.add_assoc. apply sub_inside; lia.
Qed.

Definition clamping_event : ConntrackEvent :=
  {| nat_event := Create; protocol := 6; src_ip := Ipv4Addr_new 10 0 0 1;
     dst_ip := Ipv4Addr_new 10 0 0 2; src_port := 1; dst_port := 2;
     post_nat_src_ip := UNSPECIFIED; post_nat_src_port := 0; post_nat_dst_ip := UNSPECIFIED;
     post_nat_dst_port := 0; orig_bytes := 2 ^ 40; orig_packets := 7; reply_bytes := 8;
     reply_packets := 9 |}.

Lemma record_on_the_wire_witness :
  exists buf',
    write_record (T := x86_64_debug) (replicate 64 0) 4 (fields (resolved Ipfix FlowOnly Four 256))
      clamping_event = Done (buf', 33, 1) /\
    from_be_bytes (sub buf' 5 9) = 0x0a000001 /\
    from_be_bytes (sub buf' 13 15) = 1 /\ from_be_bytes (sub buf' 15 17) = 2 /\
    from_be_bytes (sub buf' 17 21) = 2 ^ 32 - 1 /\
    from_be_bytes (sub buf' 25 29) = 8 /\ from_be_bytes (sub buf' 29 33) = 9.
Proof.
  destruct (@record_on_the_wire x86_64_debug Ipfix FlowOnly Four 256 (resolved Ipfix FlowOnly Four 256)
              clamping_event (replicate 64 0) 4) as (buf' & Hrun & _ & _ & Hfields).
  - closed_bounds.
  - reflexivity.
  - split; closed_bounds.
  - lia.
  - by vm_compute.
  - by vm_compute.
  - exists buf'. split; [exact Hrun|]. split_and!.
    + exact (Hfields 1%nat _ eq_refl).
    + exact (Hfields 3%nat _ eq_refl).
    + exact (Hfields 4%nat _ eq_refl).
    + exact (Hfields 5%nat _ eq_refl).
    + exact (Hfields 7%nat _ eq_refl).
    + exact (Hfields 8%nat _ eq_refl).
Defined.

(** Eight-byte counters never lose anything.  With the default counter width
    no counter of a conntrack event is ever clamped, under either protocol and
    any profile. *)
Lemma eight_byte_counters_are_exact (p : Protocol) (pr : Profile) (id : Z) (ev : ConntrackEvent) :
  event_ok ev -> clamped_counters (fields (resolved p pr Eight id)) ev = 0.
Proof.
  intros Hev. destruct Hev. unfold clamped_counters, is_u64 in *.
  assert (Hmax : forall v, 0 <= v < 2 ^ 64 -> (counter_max 8 <? v) = false)
    by (intros; apply Z.ltb_ge; unfold counter_max, u64_max; simpl; lia).
  destruct p, pr; cbn; unfold clamped; cbn; by rewrite !Hmax.
Qed.
