(* ===== verification/Encoder.v ===== *)
(** * The message encoder

    [src/export/encoder.rs]: the pre-allocated message buffer and the operations
    that fill it.  The encoder is threaded as a value; the two clocks the source
    reads ([SystemTime::now], [Instant::now]) are arguments of the operations
    that read them. *)

From stdpp Require Import base list numbers.
From Stdlib Require Import ZArith Lia.
From S2P Require Import Prelude Elements Event Template Record.
Local Open Scope Z_scope.

(** Readings of the two clocks, in nanoseconds: [SystemTime::now] relative to the
    Unix epoch (negative before it) and [Instant::now] on the monotonic clock.  They are
    independent of each other, so that where the source reads the one and later the
    other, as [finalize] does, one [Clock] has both readings. *)
Record Clock := { system_time : Z; instant : Z }.

Record Encoder := {
  buf : bytes;
  offset : Z;
  record_count : Z;
  data_set_offset : Z;
  data_set_open : bool;
  template_included : bool;
  sequence_number : Z;
  observation_domain_id : Z;
  template : Template;
  saturated_counters : Z;
  started : Z
}.

(** Field assignments. *)
Definition set_output (e : Encoder) (b : bytes) (o : Z) : Encoder :=
  {| buf := b; offset := o; record_count := record_count e;
     data_set_offset := data_set_offset e; data_set_open := data_set_open e;
     template_included := template_included e; sequence_number := sequence_number e;
     observation_domain_id := observation_domain_id e; template := template e;
     saturated_counters := saturated_counters e; started := started e |}.

Definition set_message (e : Encoder) (count dso : Z) (open included : bool) : Encoder :=
  {| buf := buf e; offset := offset e; record_count := count;
     data_set_offset := dso; data_set_open := open;
     template_included := included; sequence_number := sequence_number e;
     observation_domain_id := observation_domain_id e; template := template e;
     saturated_counters := saturated_counters e; started := started e |}.

Definition set_counters (e : Encoder) (seq saturated : Z) : Encoder :=
  {| buf := buf e; offset := offset e; record_count := record_count e;
     data_set_offset := data_set_offset e; data_set_open := data_set_open e;
     template_included := template_included e; sequence_number := seq;
     observation_domain_id := observation_domain_id e; template := template e;
     saturated_counters := saturated; started := started e |}.

Section Operations.
Context {T : Target}.

Definition put_u16 (buf : bytes) (offset value : Z) : outcome (bytes * Z) :=
  last ← usize_add offset 2;
  buf ← copy_from_slice buf offset last (to_be_bytes 2 value);
  offset ← usize_add offset 2;
  Done (buf, offset).

Definition put_u32 (buf : bytes) (offset value : Z) : outcome (bytes * Z) :=
  last ← usize_add offset 4;
  buf ← copy_from_slice buf offset last (to_be_bytes 4 value);
  offset ← usize_add offset 4;
  Done (buf, offset).

Definition message_len (value : Z) : outcome Z := u16_try_from value.

Definition new (domain : Z) (t : Template) (now : Clock) : Encoder :=
  {| buf := replicate (Z.to_nat MAX_MSG_SIZE) 0; offset := 0; record_count := 0;
     data_set_offset := 0; data_set_open := false; template_included := false;
     sequence_number := 0; observation_domain_id := domain; template := t;
     saturated_counters := 0; started := instant now |}.

Definition encoder_protocol (self : Encoder) : Protocol := template_protocol (template self).

Definition pad_set (self : Encoder) : outcome Encoder :=
  let padded := align_up (offset self) (set_alignment (encoder_protocol self)) in
  b ← fill (buf self) (offset self) padded 0;
  Done (set_output self b padded).

(** The specifier of one field. *)
Definition write_specifier (p : Protocol) (out : bytes * Z) (f : ResolvedField)
    : outcome (bytes * Z) :=
  let '(b, o) := out in
  match rf_pen f with
  | Some pen =>
      _ ← debug_assert (supports_enterprise p);
      '(b, o) ← put_u16 b o (Z.lor (rf_id f) ENTERPRISE_BIT);
      '(b, o) ← put_u16 b o (rf_length f);
      put_u32 b o pen
  | None =>
      '(b, o) ← put_u16 b o (rf_id f);
      put_u16 b o (rf_length f)
  end.

Definition write_template_set (self : Encoder) : outcome Encoder :=
  let set_start := offset self in
  let t := template self in
  let p := template_protocol t in
  '(b, o) ← put_u16 (buf self) (offset self) (template_set_id p);
  len ← message_len (set_size t);
  '(b, o) ← put_u16 b o len;
  '(b, o) ← put_u16 b o (template_id t);
  count ← field_count t;
  '(b, o) ← put_u16 b o count;
  '(b, o) ← foldM (write_specifier p) (b, o) (fields t);
  self ← pad_set (set_output self b o);
  _ ← (if overflow_checks then
         written ← usize_sub (offset self) set_start;
         debug_assert (written =? set_size (template self))
       else Done tt);
  Done self.

Definition begin_message (self : Encoder) (include_template : bool) : outcome Encoder :=
  let self := set_message self 0 (data_set_offset self) false include_template in
  let self := set_output self (buf self) (header_len (encoder_protocol self)) in
  if include_template then write_template_set self else Done self.

(** The data set header, written before the first record. *)
Definition open_data_set (self : Encoder) : outcome Encoder :=
  if negb (data_set_open self) then
    let data_set_offset := offset self in
    '(b, o) ← put_u16 (buf self) (offset self) (template_id (template self));
    '(b, o) ← put_u16 b o 0;
    Done (set_message (set_output self b o) (record_count self) data_set_offset true
            (template_included self))
  else Done self.

(** What [add_record] does once the record is known to fit. *)
Definition append_record (self : Encoder) (event : ConntrackEvent) : outcome Encoder :=
  self ← open_data_set self;
  '(b, o, saturated) ← write_record (buf self) (offset self) (fields (template self)) event;
  let self := set_output self b o in
  total ← add_w 64 (saturated_counters self) saturated;
  count ← add_w 32 (record_count self) 1;
  Done (set_message (set_counters self (sequence_number self) total)
          count (data_set_offset self) (data_set_open self) (template_included self)).

Definition add_record (self : Encoder) (event : ConntrackEvent) : outcome (Encoder * bool) :=
  padding_reserve ← usize_sub (set_alignment (encoder_protocol self)) 1;
  needed ← (if data_set_open self then Done (record_size (template self))
            else usize_add SET_HEADER_LEN (record_size (template self)));
  room ← usize_add (offset self) needed;
  room ← usize_add room padding_reserve;
  if MAX_MSG_SIZE <? room then Done (self, false)
  else self ← append_record self event; Done (self, true).

Definition has_pending_output (self : Encoder) : bool :=
  (0 <? record_count self) || template_included self.

(** [SystemTime::now().duration_since(UNIX_EPOCH).unwrap_or_default().as_secs() as u32] *)
Definition unix_secs (now : Clock) : Z :=
  (if system_time now <? 0 then 0 else system_time now / 10 ^ 9) mod 2 ^ 32.

(** [started.elapsed().as_millis() as u32]; [elapsed] saturates at zero. *)
Definition uptime_ms (now : Clock) (started : Z) : Z :=
  (Z.max 0 (instant now - started) / 10 ^ 6) mod 2 ^ 32.

(** [u32::wrapping_add] *)
Definition wrapping_add_u32 (a b : Z) : Z := (a + b) mod 2 ^ 32.

Definition close_data_set (self : Encoder) : outcome Encoder :=
  if data_set_open self then
    self ← pad_set self;
    len ← usize_sub (offset self) (data_set_offset self);
    data_set_len ← message_len len;
    first ← usize_add (data_set_offset self) 2;
    last ← usize_add (data_set_offset self) 4;
    b ← copy_from_slice (buf self) first last (to_be_bytes 2 data_set_len);
    Done (set_output self b (offset self))
  else Done self.

(** The header fields of [finalize]: the buffer with the header filled in, and
    the next sequence number. *)
Definition write_header (self : Encoder) (now : Clock) (secs count : Z) : outcome (bytes * Z) :=
  b ← copy_from_slice (buf self) 0 2 (to_be_bytes 2 (version (encoder_protocol self)));
  match encoder_protocol self with
  | Ipfix =>
      len ← message_len (offset self);
      b ← copy_from_slice b 2 4 (to_be_bytes 2 len);
      b ← copy_from_slice b 4 8 (to_be_bytes 4 secs);
      b ← copy_from_slice b 8 12 (to_be_bytes 4 (sequence_number self));
      b ← copy_from_slice b 12 16 (to_be_bytes 4 (observation_domain_id self));
      Done (b, wrapping_add_u32 (sequence_number self) count)
  | Netflow9 =>
      let template_records := if template_included self then 1 else 0 in
      sum ← add_w 32 count template_records;
      record_total ← u16_try_from sum;
      b ← copy_from_slice b 2 4 (to_be_bytes 2 record_total);
      b ← copy_from_slice b 4 8 (to_be_bytes 4 (uptime_ms now (started self)));
      b ← copy_from_slice b 8 12 (to_be_bytes 4 secs);
      b ← copy_from_slice b 12 16 (to_be_bytes 4 (sequence_number self));
      b ← copy_from_slice b 16 20 (to_be_bytes 4 (observation_domain_id self));
      Done (b, wrapping_add_u32 (sequence_number self) 1)
  end.

(** [now] has the two readings made on the way: [SystemTime::now()] for the export time, and
    for NetFlow v9 the one behind [started.elapsed()] for the uptime. *)
Definition finalize (self : Encoder) (now : Clock) : outcome (Encoder * bytes * Z) :=
  self ← close_data_set self;
  let secs := unix_secs now in
  let count := record_count self in
  '(b, seq) ← write_header self now secs count;
  let self := set_counters (set_output self b (offset self)) seq (saturated_counters self) in
  out ← slice (buf self) 0 (offset self);
  Done (self, out, count).

End Operations.
