(* ===== verification/EncoderSpec.v ===== *)
(** * What a message is

    The bytes of an export message as a function of its contents, and the proof
    that the encoder's buffer operations produce exactly those bytes: each
    operation refines one step of building the message. *)

From stdpp Require Import base list numbers.
From Stdlib Require Import ZArith Lia.
From S2P Require Import Prelude Elements Event Template Record Encoder.
Local Open Scope Z_scope.

(** ** The message format *)

Definition pad_to (alignment : Z) (bs : bytes) : bytes :=
  bs ++ replicate (Z.to_nat (align_up (zlen bs) alignment - zlen bs)) 0.

Definition specifier_bytes (f : ResolvedField) : bytes :=
  match rf_pen f with
  | Some pen =>
      to_be_bytes 2 (Z.lor (rf_id f) ENTERPRISE_BIT) ++ to_be_bytes 2 (rf_length f) ++
      to_be_bytes 4 pen
  | None => to_be_bytes 2 (rf_id f) ++ to_be_bytes 2 (rf_length f)
  end.

Definition template_set_bytes (t : Template) : bytes :=
  pad_to (set_alignment (template_protocol t))
    (to_be_bytes 2 (template_set_id (template_protocol t)) ++ to_be_bytes 2 (set_size t) ++
     to_be_bytes 2 (template_id t) ++ to_be_bytes 2 (zlen (fields t)) ++
     concat (map specifier_bytes (fields t))).

(** A data set whose length field holds [len]. *)
Definition open_set_bytes (t : Template) (len : Z) (evs : list ConntrackEvent) : bytes :=
  match evs with
  | [] => []
  | _ => to_be_bytes 2 (template_id t) ++ to_be_bytes 2 len ++
         concat (map (record_bytes (fields t)) evs)
  end.

(** The closed data set; none at all when there are no records. *)
Definition data_set_bytes (t : Template) (evs : list ConntrackEvent) : bytes :=
  pad_to (set_alignment (template_protocol t))
    (open_set_bytes t (data_set_size t (zlen evs)) evs).

Definition body_bytes (t : Template) (incl : bool) (evs : list ConntrackEvent) : bytes :=
  (if incl then template_set_bytes t else []) ++ data_set_bytes t evs.

Definition message_size (t : Template) (incl : bool) (evs : list ConntrackEvent) : Z :=
  header_len (template_protocol t) + zlen (body_bytes t incl evs).

(** What the header says besides the contents. *)
Record header_info := { hi_seq : Z; hi_domain : Z; hi_secs : Z; hi_uptime : Z }.

Definition header_bytes (t : Template) (incl : bool) (evs : list ConntrackEvent) (h : header_info)
    : bytes :=
  to_be_bytes 2 (version (template_protocol t)) ++
  match template_protocol t with
  | Ipfix =>
      to_be_bytes 2 (message_size t incl evs) ++ to_be_bytes 4 (hi_secs h) ++
      to_be_bytes 4 (hi_seq h) ++ to_be_bytes 4 (hi_domain h)
  | Netflow9 =>
      to_be_bytes 2 (zlen evs + if incl then 1 else 0) ++ to_be_bytes 4 (hi_uptime h) ++
      to_be_bytes 4 (hi_secs h) ++ to_be_bytes 4 (hi_seq h) ++ to_be_bytes 4 (hi_domain h)
  end.

Definition message_bytes (t : Template) (incl : bool) (evs : list ConntrackEvent) (h : header_info)
    : bytes :=
  header_bytes t incl evs h ++ body_bytes t incl evs.

(** The sequence number of the next message. *)
Definition next_sequence (t : Template) (seq : Z) (evs : list ConntrackEvent) : Z :=
  wrapping_add_u32 seq (match template_protocol t with Ipfix => zlen evs | Netflow9 => 1 end).

(** Whether a message with or without the template has room for [n] records. *)
Definition fits (t : Template) (incl : bool) (n : Z) : bool :=
  header_len (template_protocol t) + (if incl then set_size t else 0) + SET_HEADER_LEN +
  n * record_size t + (set_alignment (template_protocol t) - 1) <=? MAX_MSG_SIZE.

(** ** Sizes *)

Lemma zlen_concat_map {A B : Type} (f : A -> list B) (g : A -> Z) (l : list A) :
  (forall x, x ∈ l -> zlen (f x) = g x) -> zlen (concat (map f l)) = sum_z (map g l).
Proof.
  induction l as [|x l IH]; intros Hf; [done|]. cbn [map concat]. rewrite zlen_app.
  change (sum_z (g x :: map g l)) with (g x + sum_z (map g l)).
  rewrite Hf, IH; [done| |by left]. intros y Hy. apply Hf. by right.
Qed.

Lemma sum_z_const {A : Type} (c : Z) (l : list A) : sum_z (map (fun _ => c) l) = zlen l * c.
Proof.
  induction l as [|x l IH]; [done|]. rewrite zlen_cons.
  change (sum_z (map (fun _ => c) (x :: l))) with (c + sum_z (map (fun _ => c) l)). lia.
Qed.

Lemma zlen_pad_to (a : Z) (bs : bytes) : 0 < a -> zlen (pad_to a bs) = align_up (zlen bs) a.
Proof.
  intros Ha. unfold pad_to. rewrite zlen_app, zlen_replicate.
  pose proof (align_up_spec (zlen bs) a Ha (zlen_nonneg bs)). lia.
Qed.

Lemma set_alignment_pos (p : Protocol) : 0 < set_alignment p.
Proof. destruct (set_alignment_cases p); lia. Qed.

Lemma zlen_specifier_bytes (f : ResolvedField) : zlen (specifier_bytes f) = specifier_len f.
Proof.
  unfold specifier_bytes, specifier_len.
  destruct (rf_pen f); rewrite ?zlen_app, ?zlen_to_be_bytes; done.
Qed.

Lemma zlen_template_set_bytes (t : Template) : zlen (template_set_bytes t) = set_size t.
Proof.
  unfold template_set_bytes. rewrite zlen_pad_to by apply set_alignment_pos.
  unfold set_size. f_equal. rewrite !zlen_app, !zlen_to_be_bytes.
  rewrite (zlen_concat_map _ specifier_len) by (intros; apply zlen_specifier_bytes).
  unfold SET_HEADER_LEN. lia.
Qed.

Section Sizes.
Context (t : Template) (Hok : template_ok t).

Lemma zlen_record (ev : ConntrackEvent) : zlen (record_bytes (fields t) ev) = record_size t.
Proof using Hok. destruct Hok. rewrite to_size. by eapply zlen_record_bytes. Qed.

Lemma zlen_records (evs : list ConntrackEvent) :
  zlen (concat (map (record_bytes (fields t)) evs)) = zlen evs * record_size t.
Proof using Hok.
  rewrite (zlen_concat_map _ (fun _ => record_size t)) by (intros; apply zlen_record).
  apply sum_z_const.
Qed.

Lemma zlen_open_set_bytes (len : Z) (evs : list ConntrackEvent) :
  zlen (open_set_bytes t len evs) =
  if bool_decide (evs = []) then 0 else SET_HEADER_LEN + zlen evs * record_size t.
Proof using Hok.
  unfold open_set_bytes. destruct evs as [|ev evs]; [done|].
  rewrite !zlen_app, !zlen_to_be_bytes, zlen_records. unfold SET_HEADER_LEN. simpl. lia.
Qed.

Lemma zlen_data_set_bytes (evs : list ConntrackEvent) :
  zlen (data_set_bytes t evs) =
  if bool_decide (evs = []) then 0 else data_set_size t (zlen evs).
Proof using Hok.
  unfold data_set_bytes. rewrite zlen_pad_to, zlen_open_set_bytes by apply set_alignment_pos.
  case_bool_decide; [|done]. by destruct (template_protocol t).
Qed.

Lemma zlen_header_bytes (incl : bool) (evs : list ConntrackEvent) (h : header_info) :
  zlen (header_bytes t incl evs h) = header_len (template_protocol t).
Proof using Type.
  unfold header_bytes. destruct (template_protocol t); rewrite !zlen_app, !zlen_to_be_bytes; done.
Qed.

End Sizes.

(** ** The writers *)

Section Writers.
Context {T : Target}.

Lemma put_u16_done (b : bytes) (o v : Z) :
  0 <= o -> o + 2 <= zlen b -> zlen b <= MAX_MSG_SIZE ->
  put_u16 b o v = Done (patch b o (to_be_bytes 2 v), o + 2).
Proof.
  intros. pose proof usize_max_ge. unfold MAX_MSG_SIZE in *.
  pose proof (zlen_to_be_bytes 2 v). unfold put_u16.
  exec usize_add_done. exec copy_from_slice_done. by exec usize_add_done.
Qed.

Lemma put_u32_done (b : bytes) (o v : Z) :
  0 <= o -> o + 4 <= zlen b -> zlen b <= MAX_MSG_SIZE ->
  put_u32 b o v = Done (patch b o (to_be_bytes 4 v), o + 4).
Proof.
  intros. pose proof usize_max_ge. unfold MAX_MSG_SIZE in *.
  pose proof (zlen_to_be_bytes 4 v). unfold put_u32.
  exec usize_add_done. exec copy_from_slice_done. by exec usize_add_done.
Qed.

Lemma message_len_done (v : Z) : v <= MAX_MSG_SIZE -> message_len v = Done v.
Proof. unfold MAX_MSG_SIZE. intros. apply u16_try_from_done. unfold u16_max. lia. Qed.

Lemma write_specifier_done (p : Protocol) (b : bytes) (o : Z) (f : ResolvedField) :
  field_ok p f -> 0 <= o -> o + specifier_len f <= zlen b -> zlen b <= MAX_MSG_SIZE ->
  write_specifier p (b, o) f = Done (patch b o (specifier_bytes f), o + specifier_len f).
Proof.
  intros [_ _ _ Hpen] Ho Hroom Hmax. unfold write_specifier, specifier_bytes, specifier_len in *.
  unfold FIELD_SPECIFIER_LEN, ENTERPRISE_NUMBER_LEN in *.
  destruct (rf_pen f) as [pen|].
  - rewrite debug_assert_done, bind_done by tauto.
    exec put_u16_done. rewrite put_u16_done, bind_done by sizes. cbv beta match.
    rewrite patch_next, put_u32_done, patch_next by sizes.
    rewrite <- app_assoc. do 2 f_equal. lia.
  - exec put_u16_done. rewrite put_u16_done, patch_next by sizes. do 2 f_equal. lia.
Qed.

Lemma specifier_len_pos (f : ResolvedField) : 4 <= specifier_len f <= 8.
Proof. unfold specifier_len. by destruct (rf_pen f). Qed.

Lemma specifiers_len_nonneg (fs : list ResolvedField) : 0 <= sum_z (map specifier_len fs).
Proof.
  apply sum_z_nonneg, Forall_map, Forall_true. intros f. pose proof (specifier_len_pos f). simpl. lia.
Qed.

Lemma write_specifiers_done (p : Protocol) (fs : list ResolvedField) (b : bytes) (o : Z) :
  Forall (field_ok p) fs -> 0 <= o -> o + sum_z (map specifier_len fs) <= zlen b ->
  zlen b <= MAX_MSG_SIZE ->
  foldM (write_specifier p) (b, o) fs =
  Done (patch b o (concat (map specifier_bytes fs)), o + sum_z (map specifier_len fs)).
Proof.
  intros Hfs. revert b o. induction Hfs as [|f fs Hf Hfs IH]; intros b o Ho Hroom Hmax.
  - change (sum_z (map specifier_len [])) with 0 in *. cbn [map concat foldM].
    rewrite patch_nil, Z.add_0_r by lia. done.
  - change (sum_z (map specifier_len (f :: fs)))
      with (specifier_len f + sum_z (map specifier_len fs)) in *.
    pose proof (specifiers_len_nonneg fs).
    pose proof (specifier_len_pos f). pose proof (zlen_specifier_bytes f).
    assert (zlen (concat (map specifier_bytes fs)) = sum_z (map specifier_len fs))
      by (apply zlen_concat_map; intros; apply zlen_specifier_bytes).
    cbn [foldM map concat]. exec write_specifier_done.
    assert (zlen (patch b o (specifier_bytes f)) = zlen b) by (apply zlen_patch; lia).
    rewrite IH, patch_next by lia. do 2 f_equal. lia.
Qed.

End Writers.

(** ** The encoder's invariant *)

(** Between messages. *)
Record encoder_ok (e : Encoder) : Prop := {
  eo_template : template_ok (template e);
  eo_buf : zlen (buf e) = MAX_MSG_SIZE;
  eo_seq : is_u32 (sequence_number e);
  eo_domain : is_u32 (observation_domain_id e);
  eo_saturated : is_u64 (saturated_counters e)
}.

(** Where the data set of a message starts. *)
Definition data_start (t : Template) (incl : bool) : Z :=
  header_len (template_protocol t) + if incl then set_size t else 0.

(** In the middle of a message that holds the template or not ([incl]) and the
    records of [evs], in order. *)
Record building (e : Encoder) (incl : bool) (evs : list ConntrackEvent) : Prop := {
  bd_ok : encoder_ok e;
  bd_incl : template_included e = incl;
  bd_count : record_count e = zlen evs;
  bd_open : data_set_open e = negb (bool_decide (evs = []));
  bd_start : evs <> [] -> data_set_offset e = data_start (template e) incl;
  bd_offset : offset e = data_start (template e) incl + zlen (open_set_bytes (template e) 0 evs);
  bd_fits : evs = [] \/ fits (template e) incl (zlen evs) = true;
  bd_body : exists hdr, zlen hdr = header_len (template_protocol (template e)) /\
    take (Z.to_nat (offset e)) (buf e) =
    hdr ++ (if incl then template_set_bytes (template e) else []) ++
    open_set_bytes (template e) 0 evs
}.

(** The parts of the encoder a message does not change. *)
Definition same_session (e e' : Encoder) : Prop :=
  template e' = template e /\ observation_domain_id e' = observation_domain_id e /\
  sequence_number e' = sequence_number e /\ started e' = started e.

Lemma header_len_cases (p : Protocol) : header_len p = 16 \/ header_len p = 20.
Proof. destruct p; auto. Qed.

Lemma data_start_bounds (t : Template) (incl : bool) : template_ok t ->
  16 <= data_start t incl <= 92 /\ data_start t incl mod set_alignment (template_protocol t) = 0.
Proof.
  intros []. unfold data_start. split.
  - destruct (header_len_cases (template_protocol t)), incl; lia.
  - unfold set_size. destruct (template_protocol t), incl; cbn [set_alignment header_len];
      rewrite ?Z.mod_1_r; try done.
    apply Z.mod_divide; [done|]. apply Z.divide_add_r; [by exists 5|].
    eexists; unfold align_up; done.
Qed.

Section Refinement.
Context {T : Target}.

Lemma pad_set_done (e : Encoder) :
  let padded := align_up (offset e) (set_alignment (encoder_protocol e)) in
  0 <= offset e -> padded <= zlen (buf e) ->
  pad_set e =
  Done (set_output e (patch (buf e) (offset e) (replicate (Z.to_nat (padded - offset e)) 0)) padded).
Proof.
  intros padded Hoff Hpad. unfold pad_set. fold padded.
  pose proof (align_up_spec (offset e) _ (set_alignment_pos (encoder_protocol e)) Hoff) as [? _].
  rewrite fill_done, bind_done by lia. done.
Qed.

(** The unpadded template set: its sixteen-bit headers, then the specifiers. *)
Lemma write_template_set_done (e : Encoder) : encoder_ok e ->
  offset e = header_len (encoder_protocol e) ->
  write_template_set e =
  Done (set_output e (patch (buf e) (offset e) (template_set_bytes (template e)))
          (offset e + set_size (template e))).
Proof.
  intros [Hok Hbuf _ _ _] Hoff. pose proof Hok as []. pose proof usize_max_ge.
  set (t := template e) in *. set (o := offset e) in *.
  set (S := sum_z (map specifier_len (fields t))).
  assert (Hh : o = 16 \/ o = 20) by (rewrite Hoff; apply header_len_cases).
  assert (Hsize : set_size t = align_up (8 + S) (set_alignment (template_protocol t))) by done.
  assert (HS : 0 <= S) by apply specifiers_len_nonneg.
  pose proof (align_up_spec (8 + S) _ (set_alignment_pos (template_protocol t)) ltac:(lia)) as [Ha _].
  rewrite <- Hsize in Ha.
  assert (HlenS : zlen (concat (map specifier_bytes (fields t))) = S)
    by (apply zlen_concat_map; intros; apply zlen_specifier_bytes).
  assert (Hm : MAX_MSG_SIZE = 1472) by done.
  assert (Hpadded : align_up (o + (8 + S)) (set_alignment (template_protocol t)) = o + set_size t).
  { rewrite Hsize. apply align_up_add; [apply set_alignment_pos|]. rewrite Hoff. apply header_len_aligned. }
  unfold write_template_set. fold t o. cbv zeta.
  exec put_u16_done. rewrite message_len_done, bind_done by lia.
  rewrite put_u16_done, bind_done by sizes. cbv beta match. rewrite patch_next by sizes.
  rewrite put_u16_done, bind_done by sizes. cbv beta match. rewrite patch_next by sizes.
  unfold field_count. rewrite u16_try_from_done, bind_done by (unfold u16_max; lia).
  rewrite put_u16_done, bind_done by sizes. cbv beta match. rewrite patch_next by sizes.
  rewrite write_specifiers_done, bind_done by first [done | fold S; sizes]. cbv beta match.
  fold S. rewrite patch_next by sizes.
  replace (o + 2 + 2 + 2 + 2 + S) with (o + (8 + S)) by lia.
  rewrite pad_set_done, bind_done; unfold encoder_protocol; cbn [buf offset template set_output];
    fold t; rewrite ?Hpadded; [| lia | sizes].
  rewrite patch_next by sizes.
  match goal with |- context [patch (buf e) o (?w ++ replicate ?n 0)] =>
    replace (template_set_bytes t) with (w ++ replicate n 0) end.
  2: { unfold template_set_bytes, pad_to.
       match goal with |- context [align_up (zlen ?L) _] => replace (zlen L) with (8 + S) by sizes end.
       rewrite <- Hsize, <- !app_assoc. do 6 f_equal. f_equal. lia. }
  destruct overflow_checks eqn:Hov; [|done].
  rewrite usize_sub_done, bind_done by lia. rewrite debug_assert_done, bind_done; [done|].
  apply Z.eqb_eq. lia.
Qed.


Lemma begin_message_done (e : Encoder) (incl : bool) : encoder_ok e ->
  exists e', begin_message e incl = Done e' /\ building e' incl [] /\ same_session e e' /\
    saturated_counters e' = saturated_counters e.
Proof.
  intros Hok. pose proof Hok as [Ht Hbuf Hseq Hdom Hsat]. pose proof Ht as [_ _ _ _ _ Hset Hfit].
  unfold begin_message. cbv zeta.
  match goal with |- context [write_template_set ?x] => set (e1 := x) end.
  assert (Hok1 : encoder_ok e1) by done.
  assert (Hoff1 : offset e1 = header_len (encoder_protocol e1)) by done.
  pose proof (header_len_cases (encoder_protocol e1)) as Hh.
  assert (Hm : MAX_MSG_SIZE = 1472) by done.
  assert (Hzb : zlen (buf e1) = MAX_MSG_SIZE) by done.
  destruct incl.
  - rewrite write_template_set_done by done. eexists; split; [done|].
    pose proof (zlen_template_set_bytes (template e)) as Hz.
    split; [|done]. split; try done.
    + destruct Hok1. split; try done. cbn [buf set_output]. rewrite zlen_patch; [done|lia|].
      change (template e1) with (template e). lia.
    + cbn [offset set_output template]. unfold data_start. change (zlen (open_set_bytes _ 0 [])) with 0.
      rewrite Hoff1. unfold encoder_protocol. lia.
    + by left.
    + exists (take (Z.to_nat (offset e1)) (buf e1)). cbn [offset buf set_output template].
      change (open_set_bytes _ 0 []) with (@nil Z). rewrite app_nil_r.
      change (template e1) with (template e) in *.
      split; [rewrite zlen_take; [done|lia]|]. rewrite <- Hz. apply take_patch_end; lia.
  - exists e1. split; [done|]. split; [|done]. split; try done.
    + unfold data_start. change (zlen (open_set_bytes _ 0 [])) with 0. rewrite Hoff1.
      unfold encoder_protocol. lia.
    + by left.
    + exists (take (Z.to_nat (offset e1)) (buf e1)). rewrite app_nil_r.
      split; [rewrite zlen_take; [done|lia]|done].
Qed.

Lemma fits_bound (t : Template) (incl : bool) (n : Z) : template_ok t -> 0 <= n ->
  fits t incl n = true ->
  data_start t incl + SET_HEADER_LEN + n * record_size t + set_alignment (template_protocol t) - 1
    <= MAX_MSG_SIZE /\ n <= 50.
Proof.
  intros Hok Hn Hfits. unfold fits in Hfits. apply Z.leb_le in Hfits.
  pose proof (data_start_bounds t incl Hok) as [Hds _]. pose proof Hok as [].
  unfold data_start, SET_HEADER_LEN, MAX_MSG_SIZE in *.
  pose proof (set_alignment_pos (template_protocol t)). split; [lia|]. nia.
Qed.

(** The data set header is in place once a record is about to be written. *)
Lemma open_data_set_done (e : Encoder) (incl : bool) (evs : list ConntrackEvent) :
  building e incl evs -> fits (template e) incl (zlen evs + 1) = true ->
  exists b hdr,
    let o := data_start (template e) incl + SET_HEADER_LEN + zlen evs * record_size (template e) in
    open_data_set e =
      Done (set_message (set_output e b o) (record_count e) (data_start (template e) incl) true incl) /\
    zlen b = MAX_MSG_SIZE /\ zlen hdr = header_len (template_protocol (template e)) /\
    take (Z.to_nat o) b =
      hdr ++ (if incl then template_set_bytes (template e) else []) ++
      to_be_bytes 2 (template_id (template e)) ++ to_be_bytes 2 0 ++
      concat (map (record_bytes (fields (template e))) evs).
Proof.
  intros [[Ht Hbuf _ _ _] Hincl Hcount Hopen Hstart Hoff _ (hdr & Hhdr & Hbody)] Hfits.
  pose proof (zlen_nonneg evs). pose proof (to_size_bounds _ Ht).
  destruct (fits_bound _ _ (zlen evs + 1) Ht ltac:(lia) Hfits) as [Hroom _].
  pose proof (data_start_bounds _ incl Ht) as [Hds _].
  pose proof (set_alignment_pos (template_protocol (template e))).
  rewrite zlen_open_set_bytes in Hoff by done. unfold open_data_set. rewrite Hopen.
  destruct evs as [|ev evs].
  - cbn [bool_decide negb] in *. change (zlen []) with 0 in *. cbn [negb] in Hoff.
    rewrite bool_decide_true in Hoff by done. rewrite bool_decide_true by done. cbn [negb].
    unfold SET_HEADER_LEN in *. rewrite put_u16_done, bind_done by lia. cbv beta match.
    rewrite put_u16_done, bind_done, patch_next by sizes. cbv beta match.
    exists (patch (buf e) (offset e) (to_be_bytes 2 (template_id (template e)) ++ to_be_bytes 2 0)), hdr.
    cbv zeta. split; [|split; [sizes|split; [done|]]].
    + rewrite Hincl. do 2 f_equal; [f_equal; lia | lia].
    + replace (data_start (template e) incl + 4 + 0 * record_size (template e)) with
        (offset e + zlen (to_be_bytes 2 (template_id (template e)) ++ to_be_bytes 2 0)) by sizes.
      rewrite take_patch_end, Hbody by sizes. cbn [open_set_bytes map concat].
      rewrite !app_nil_r, <- ?app_assoc. done.
  - rewrite bool_decide_false in * by done. cbn [negb] in *. exists (buf e), hdr. cbv zeta.
    rewrite <- Z.add_assoc, <- Hoff. split; [|split; [done|split; [done|exact Hbody]]].
    f_equal. rewrite <- (Hstart ltac:(done)), <- Hincl. by destruct e; simpl in *; subst.
Qed.

Lemma offset_bound (e : Encoder) (incl : bool) (evs : list ConntrackEvent) :
  building e incl evs -> 0 <= offset e <= MAX_MSG_SIZE.
Proof.
  intros [[Ht _ _ _ _] _ _ _ _ Hoff Hold _]. rewrite Hoff, zlen_open_set_bytes by done.
  pose proof (data_start_bounds _ incl Ht) as [Hds _]. pose proof (to_size_bounds _ Ht).
  pose proof (zlen_nonneg evs). unfold MAX_MSG_SIZE.
  case_bool_decide; [lia|]. destruct Hold as [|Hold]; [done|].
  destruct (fits_bound _ _ (zlen evs) Ht ltac:(lia) Hold) as [Hb _].
  pose proof (set_alignment_pos (template_protocol (template e))).
  unfold SET_HEADER_LEN, MAX_MSG_SIZE in *. lia.
Qed.

(** The room check of [add_record] is [fits] for one record more. *)
Lemma add_record_check (e : Encoder) (incl : bool) (evs : list ConntrackEvent) (ev : ConntrackEvent) :
  building e incl evs ->
  add_record e ev =
  if fits (template e) incl (zlen evs + 1)
  then e' ← append_record e ev; Done (e', true) else Done (e, false).
Proof.
  intros Hb. pose proof (offset_bound _ _ _ Hb) as Hob.
  pose proof Hb as [[Ht _ _ _ _] _ _ Hopen _ Hoff _ _]. pose proof (to_size_bounds _ Ht).
  pose proof usize_max_ge.
  set (needed := if data_set_open e then record_size (template e)
                 else SET_HEADER_LEN + record_size (template e)).
  assert (Hn : 29 <= needed <= 62)
    by (unfold needed, SET_HEADER_LEN; destruct (data_set_open e); lia).
  assert (Hroom : offset e + needed = data_start (template e) incl + SET_HEADER_LEN +
                                      (zlen evs + 1) * record_size (template e)).
  { unfold needed. rewrite Hoff, Hopen, zlen_open_set_bytes by done.
    case_bool_decide; simpl; subst; [change (zlen []) with 0|]; lia. }
  assert (Ha : 1 <= set_alignment (encoder_protocol e) <= 4)
    by (destruct (set_alignment_cases (encoder_protocol e)); lia).
  unfold add_record, MAX_MSG_SIZE in *. exec usize_sub_done.
  rewrite (bind_step _ needed)
    by (unfold needed; destruct (data_set_open e); [done|apply usize_add_done; unfold SET_HEADER_LEN; lia]).
  exec usize_add_done. exec usize_add_done.
  unfold fits. fold (data_start (template e) incl). rewrite <- Hroom.
  unfold encoder_protocol in *. unfold MAX_MSG_SIZE.
  rewrite Z.ltb_antisym. by destruct (_ <=? _).
Qed.

Lemma open_set_bytes_snoc (t : Template) (len : Z) (evs : list ConntrackEvent) (ev : ConntrackEvent) :
  open_set_bytes t len (evs ++ [ev]) =
  to_be_bytes 2 (template_id t) ++ to_be_bytes 2 len ++
  concat (map (record_bytes (fields t)) evs) ++ record_bytes (fields t) ev.
Proof.
  unfold open_set_bytes. rewrite map_app, concat_app. cbn [map concat]. rewrite app_nil_r.
  by destruct evs.
Qed.

Lemma append_record_done (e : Encoder) (incl : bool) (evs : list ConntrackEvent)
    (ev : ConntrackEvent) :
  building e incl evs -> fits (template e) incl (zlen evs + 1) = true ->
  saturated_counters e + zlen (fields (template e)) <= u64_max ->
  exists e', append_record e ev = Done e' /\ building e' incl (evs ++ [ev]) /\ same_session e e' /\
    saturated_counters e' = saturated_counters e + clamped_counters (fields (template e)) ev.
Proof.
  intros Hb Hfits Hsat. pose proof Hb as [[Ht _ Hseq Hdom Hs64] Hincl Hcount _ _ _ _ _].
  destruct (open_data_set_done _ _ _ Hb Hfits) as (b & hdr & Hopen & Hzb & Hhdr & Hbody).
  pose proof (zlen_nonneg evs).
  destruct (fits_bound _ _ (zlen evs + 1) Ht ltac:(lia) Hfits) as [Hroom Hn]. pose proof Ht as [Hfs ? Hrs ? _ _ _].
  pose proof (data_start_bounds _ incl Ht) as [Hds _].
  pose proof (set_alignment_pos (template_protocol (template e))).
  pose proof isize_usize. pose proof usize_max_ge.
  pose proof (zlen_record _ Ht ev) as Hz.
  pose proof (clamped_counters_bound (fields (template e)) ev).
  assert (MAX_MSG_SIZE <= isize_max) by (unfold MAX_MSG_SIZE, usize_max, isize_max in *;
    destruct pointer_width_cases as [-> | ->]; by apply Z.leb_le).
  unfold append_record. rewrite Hopen, bind_done.
  cbn [buf offset set_message set_output template]. set (o := data_start _ _ + _ + _) in *.
  assert (Ho : 0 <= o /\ o + record_size (template e) <= MAX_MSG_SIZE)
    by (unfold o, SET_HEADER_LEN in *; lia).
  rewrite (write_record_done (template_protocol (template e)))
    by (rewrite <- ?Hrs; done || unfold o, u64_max, SET_HEADER_LEN in *; lia).
  rewrite bind_done. cbv beta match zeta. unfold add_w.
  cbn [saturated_counters record_count set_message set_output].
  unfold is_u64 in Hs64. rewrite (fit_w_done 64), bind_done by (unfold u64_max in *; lia).
  rewrite (fit_w_done 32), bind_done by lia. eexists; split; [done|].
  split; [|split; [repeat split|done]]. split; try done.
  - split; try done; cbn [buf set_message set_counters set_output]; [sizes|].
    unfold is_u64. cbn [saturated_counters set_message set_counters set_output]. unfold u64_max in *. lia.
  - cbn. rewrite Hcount, zlen_app. done.
  - cbn. by destruct evs.
  - cbn [offset set_message set_counters set_output template]. rewrite zlen_open_set_bytes by done.
    rewrite bool_decide_false by (by destruct evs). rewrite zlen_app. change (zlen [ev]) with 1.
    unfold o. lia.
  - right. rewrite zlen_app. exact Hfits.
  - exists hdr. split; [done|]. cbn [offset buf set_message set_counters set_output template].
    rewrite <- Hrs, <- Hz, take_patch_end by lia. rewrite Hbody, open_set_bytes_snoc.
    by rewrite <- !app_assoc.
Qed.

Lemma message_size_eq (t : Template) (incl : bool) (evs : list ConntrackEvent) : template_ok t ->
  message_size t incl evs =
  data_start t incl + if bool_decide (evs = []) then 0 else data_set_size t (zlen evs).
Proof.
  intros Ht. unfold message_size, body_bytes, data_start.
  rewrite zlen_app, zlen_data_set_bytes by done.
  destruct incl; [rewrite zlen_template_set_bytes|change (zlen []) with 0]; lia.
Qed.

(** A message the encoder can build stays within its budget. *)
Lemma message_size_bound (t : Template) (incl : bool) (evs : list ConntrackEvent) :
  template_ok t -> evs = [] \/ fits t incl (zlen evs) = true ->
  0 <= message_size t incl evs <= MAX_MSG_SIZE.
Proof.
  intros Ht Hfits. rewrite message_size_eq by done.
  pose proof (data_start_bounds t incl Ht) as [Hds _]. unfold MAX_MSG_SIZE.
  case_bool_decide; [lia|]. destruct Hfits as [|Hfits]; [done|]. pose proof (zlen_nonneg evs).
  destruct (fits_bound _ _ (zlen evs) Ht ltac:(lia) Hfits) as [Hroom _].
  unfold data_set_size, MAX_MSG_SIZE, SET_HEADER_LEN in *. pose proof (to_size_bounds _ Ht).
  pose proof (align_up_spec (4 + zlen evs * record_size t) _
    (set_alignment_pos (template_protocol t)) ltac:(lia)). lia.
Qed.

(** Patching the length of the data set, once it is padded. *)
Lemma patch_set_length (t : Template) (pre : bytes) (old len : Z) (evs : list ConntrackEvent)
    (zeros : bytes) :
  evs <> [] ->
  patch (pre ++ open_set_bytes t old evs ++ zeros) (zlen pre + 2) (to_be_bytes 2 len) =
  pre ++ open_set_bytes t len evs ++ zeros.
Proof.
  intros Hne. destruct evs as [|ev evs]; [done|]. unfold open_set_bytes.
  set (recs := concat _). set (id := to_be_bytes 2 (template_id t)).
  replace (zlen pre + 2) with (zlen (pre ++ id)) by (unfold id; sizes).
  replace (pre ++ (id ++ to_be_bytes 2 old ++ recs) ++ zeros)
    with ((pre ++ id) ++ to_be_bytes 2 old ++ (recs ++ zeros)) by (by rewrite <- !app_assoc).
  rewrite patch_app by sizes. by rewrite <- !app_assoc.
Qed.

(** The size of a message that has records is the offset, aligned. *)
Lemma message_size_aligned (e : Encoder) (incl : bool) (evs : list ConntrackEvent) :
  building e incl evs -> evs <> [] ->
  let a := set_alignment (template_protocol (template e)) in
  align_up (offset e) a = message_size (template e) incl evs /\ offset e <= message_size (template e) incl evs /\
  offset e = data_start (template e) incl + zlen (open_set_bytes (template e) (data_set_size (template e) (zlen evs)) evs) /\
  message_size (template e) incl evs = data_start (template e) incl + data_set_size (template e) (zlen evs).
Proof.
  intros Hb Hne a. pose proof Hb as [[Ht Hbuf _ _ _] _ _ Hopen Hstart Hoff Hfits _].
  pose proof (message_size_bound _ incl evs Ht Hfits) as Hms. pose proof (data_start_bounds _ incl Ht) as [Hds Hal].
  pose proof (message_size_eq _ incl evs Ht) as Hsize. pose proof (zlen_open_set_bytes _ Ht 0 evs) as HU.
  pose proof (zlen_open_set_bytes _ Ht (data_set_size (template e) (zlen evs)) evs) as HU'.
  rewrite bool_decide_false in HU, HU', Hsize by done. rewrite <- HU' in HU. set (U := zlen (open_set_bytes _ (data_set_size _ _) _)) in *.
  assert (Ha : 0 < a) by apply set_alignment_pos.
  assert (Hpad : align_up (offset e) a = message_size (template e) incl evs).
  { rewrite Hoff, HU, Hsize, align_up_add by done. unfold data_set_size. fold a. congruence. }
  split; [done|]. rewrite <- Hpad. split; [|split; [congruence|]].
  - apply (align_up_spec (offset e) a Ha). assert (0 <= U) by apply zlen_nonneg. lia.
  - by rewrite Hpad, Hsize.
Qed.

(** The bytes of the message once the set is padded and its length filled in. *)
Lemma closed_bytes (t : Template) (incl : bool) (evs : list ConntrackEvent) (b hdr : bytes) (offset : Z) :
  template_ok t -> evs <> [] -> zlen hdr = header_len (template_protocol t) -> zlen b = MAX_MSG_SIZE ->
  let len := data_set_size t (zlen evs) in
  let start := data_start t incl in
  let zeros := replicate (Z.to_nat (start + len - offset)) 0 in
  offset = start + zlen (open_set_bytes t len evs) -> 4 <= zlen (open_set_bytes t len evs) ->
  offset <= start + len <= MAX_MSG_SIZE -> 0 <= start ->
  take (Z.to_nat offset) b = hdr ++ (if incl then template_set_bytes t else []) ++ open_set_bytes t 0 evs ->
  take (Z.to_nat (start + len)) (patch (patch b offset zeros) (start + 2) (to_be_bytes 2 len)) =
  hdr ++ body_bytes t incl evs.
Proof.
  intros Ht Hne Hhdr Hlen len start zeros Hoff HU0 Hsz Hst Hbody. pose proof (zlen_to_be_bytes 2 len).
  assert (Hz : zlen zeros = start + len - offset) by (unfold zeros; sizes).
  rewrite take_patch_inside by sizes.
  replace (start + len) with (offset + zlen zeros) by lia. rewrite take_patch_end, Hbody by lia.
  set (tset := if incl then _ else _).
  assert (Hpre : zlen (hdr ++ tset) = start).
  { unfold tset, start, data_start. rewrite zlen_app, Hhdr. destruct incl; [|done]. by rewrite zlen_template_set_bytes. }
  rewrite <- Hpre, <- !app_assoc, (app_assoc hdr), patch_set_length by done.
  unfold body_bytes, data_set_bytes, pad_to. fold len tset. rewrite <- !app_assoc.
  do 3 f_equal. unfold zeros. do 2 f_equal. rewrite Hoff. unfold len, data_set_size.
  rewrite (zlen_open_set_bytes _ Ht _ evs), bool_decide_false by done. lia.
Qed.

Lemma close_data_set_done (e : Encoder) (incl : bool) (evs : list ConntrackEvent) :
  building e incl evs ->
  exists b hdr,
    let size := message_size (template e) incl evs in
    close_data_set e = Done (set_output e b size) /\ zlen b = MAX_MSG_SIZE /\
    zlen hdr = header_len (template_protocol (template e)) /\
    take (Z.to_nat size) b = hdr ++ body_bytes (template e) incl evs.
Proof.
  intros Hb. pose proof Hb as [[Ht Hbuf _ _ _] _ _ Hopen Hstart Hoff0 Hfits (hdr & Hhdr & Hbody)].
  pose proof (message_size_bound _ incl evs Ht Hfits) as Hms. pose proof (data_start_bounds _ incl Ht) as [Hds _].
  pose proof usize_max_ge. unfold close_data_set. rewrite Hopen. case_bool_decide as Hnil; cbn [negb].
  { subst evs. exists (buf e), hdr. cbv zeta. rewrite (message_size_eq _ incl [] Ht).
    change (zlen (open_set_bytes _ _ [])) with 0 in Hoff0. rewrite bool_decide_true, <- Hoff0 by done.
    repeat split; [by destruct e|done|done|]. rewrite Hbody. unfold body_bytes, data_set_bytes.
    cbn [open_set_bytes]. by destruct (template_protocol (template e)). }
  destruct (message_size_aligned e incl evs Hb Hnil) as (Hpad & Hge & Hoff & Hsize).
  set (len := data_set_size (template e) (zlen evs)) in *.
  assert (HU0 : 4 <= zlen (open_set_bytes (template e) len evs)).
  { rewrite (zlen_open_set_bytes _ Ht), bool_decide_false by done. pose proof (zlen_nonneg evs).
    pose proof (to_size_bounds _ Ht). unfold SET_HEADER_LEN. nia. }
  set (size := message_size _ _ _) in *. assert (Hm : MAX_MSG_SIZE = 1472) by done.
  set (zeros := replicate (Z.to_nat (size - offset e)) 0). pose proof (zlen_to_be_bytes 2 len).
  assert (Hz : zlen zeros = size - offset e) by (unfold zeros; sizes).
  exists (patch (patch (buf e) (offset e) zeros) (data_start (template e) incl + 2) (to_be_bytes 2 len)), hdr.
  cbv zeta. split; [|split; [sizes|split; [done|]]].
  - rewrite pad_set_done, bind_done by (unfold encoder_protocol; rewrite ?Hpad; lia).
    unfold encoder_protocol. rewrite Hpad. fold zeros.
    cbn [offset buf data_set_offset set_output]. rewrite Hstart by done.
    assert (zlen (patch (buf e) (offset e) zeros) = MAX_MSG_SIZE) by sizes.
    exec usize_sub_done. rewrite message_len_done, bind_done by lia.
    replace (size - data_start (template e) incl) with len by lia.
    exec usize_add_done. exec usize_add_done. by exec copy_from_slice_done.
  - unfold zeros. rewrite Hsize. apply closed_bytes; try done; lia.
Qed.

(** What [finalize] puts in the header. *)
Definition header_of (e : Encoder) (now : Clock) : header_info :=
  {| hi_seq := sequence_number e; hi_domain := observation_domain_id e;
     hi_secs := unix_secs now; hi_uptime := uptime_ms now (started e) |}.

(** The writes into the header, one after the other from the start of the buffer. *)
Lemma copy_next (b : bytes) (lo hi : Z) (x y : bytes) :
  lo = zlen x -> hi = lo + zlen y -> hi <= zlen b ->
  copy_from_slice (patch b 0 x) lo hi y = Done (patch b 0 (x ++ y)).
Proof.
  intros -> -> Hle. pose proof (zlen_nonneg x). pose proof (zlen_nonneg y).
  rewrite copy_from_slice_done by sizes. by rewrite patch_next by lia.
Qed.

Ltac header_write :=
  rewrite copy_next, bind_done by first [done | sizes | rewrite ?zlen_app, ?zlen_to_be_bytes; done].

Lemma write_header_done (e : Encoder) (incl : bool) (evs : list ConntrackEvent) (now : Clock) :
  zlen (buf e) = MAX_MSG_SIZE -> offset e = message_size (template e) incl evs ->
  offset e <= MAX_MSG_SIZE -> template_included e = incl -> zlen evs <= 50 ->
  write_header e now (unix_secs now) (zlen evs) =
  Done (patch (buf e) 0 (header_bytes (template e) incl evs (header_of e now)),
        next_sequence (template e) (sequence_number e) evs).
Proof.
  intros Hbuf Hoff Hmax Hincl Hn. pose proof (zlen_nonneg evs).
  assert (Hm : MAX_MSG_SIZE = 1472) by done.
  unfold write_header, header_bytes, next_sequence, encoder_protocol. rewrite Hincl.
  destruct (template_protocol (template e)); cbv zeta.
  all: rewrite copy_from_slice_done, bind_done by (done || sizes).
  - rewrite message_len_done, bind_done by lia. do 4 header_write. rewrite Hoff, <- !app_assoc. done.
  - unfold add_w. rewrite fit_w_done, bind_done by (destruct incl; lia).
    rewrite u16_try_from_done, bind_done by (unfold u16_max; destruct incl; lia).
    do 5 header_write. rewrite <- !app_assoc. done.
Qed.

Lemma finalize_done (e : Encoder) (incl : bool) (evs : list ConntrackEvent) (now : Clock) :
  building e incl evs ->
  exists e',
    finalize e now = Done (e', message_bytes (template e) incl evs (header_of e now), zlen evs) /\
    encoder_ok e' /\ template e' = template e /\
    observation_domain_id e' = observation_domain_id e /\ started e' = started e /\
    sequence_number e' = next_sequence (template e) (sequence_number e) evs /\
    saturated_counters e' = saturated_counters e.
Proof.
  intros Hb. pose proof Hb as [[Ht Hbuf Hseq Hdom Hsat] Hincl Hcount _ _ _ Hfits _].
  pose proof (message_size_bound _ incl evs Ht Hfits) as Hms.
  destruct (close_data_set_done _ _ _ Hb) as (b & hdr & Hclose & Hzb & Hhdr & Hbody).
  set (size := message_size (template e) incl evs) in *.
  set (h := header_bytes (template e) incl evs (header_of e now)).
  assert (Hh : zlen h = header_len (template_protocol (template e))) by apply zlen_header_bytes.
  assert (Hn : zlen evs <= 50).
  { destruct Hfits as [->|Hf]; [by vm_compute|]. pose proof (zlen_nonneg evs).
    by destruct (fits_bound _ _ (zlen evs) Ht ltac:(lia) Hf). }
  assert (Hm : MAX_MSG_SIZE = 1472) by done.
  pose proof (header_len_cases (template_protocol (template e))).
  assert (Hsz : header_len (template_protocol (template e)) <= size).
  { unfold size, message_size. pose proof (zlen_nonneg (body_bytes (template e) incl evs)). lia. }
  exists (set_counters (set_output e (patch b 0 h) size)
            (next_sequence (template e) (sequence_number e) evs) (saturated_counters e)).
  split; [|split; [|done]].
  - unfold finalize. rewrite Hclose, bind_done. cbv zeta. cbn [record_count set_output].
    rewrite Hcount, (write_header_done _ incl) by (done || cbn [offset set_output]; lia).
    rewrite bind_done. cbv beta match.
    change (header_of (set_output e b size) now) with (header_of e now).
    cbn [template buf offset set_output set_counters sequence_number saturated_counters]. fold h.
    rewrite slice_done, bind_done by sizes. do 2 f_equal. f_equal.
    unfold sub. rewrite drop_0, Z.sub_0_r, take_patch_inside, Hbody by sizes.
    apply (patch_app [] hdr). lia.
  - split; try done; cbn [buf set_output set_counters]; [sizes|].
    apply Z.mod_pos_bound. done.
Qed.

End Refinement.
