(* ===== verification/EncoderProps.v ===== *)
(** * Encoding whole messages

    Sequences of encoder calls: one message filled from a list of events, and a
    session of messages.  The theorems say which bytes come out, which records
    are accepted, and how the sequence numbers run. *)

From stdpp Require Import base list numbers.
From Stdlib Require Import ZArith Lia.
From S2P Require Import Prelude Elements Event Template Record Encoder EncoderSpec.
Local Open Scope Z_scope.

(** How many records a message holds. *)
Definition capacity (t : Template) (incl : bool) : Z :=
  (MAX_MSG_SIZE - data_start t incl - SET_HEADER_LEN - (set_alignment (template_protocol t) - 1))
  / record_size t.

Lemma fits_capacity (t : Template) (incl : bool) (n : Z) : template_ok t ->
  fits t incl n = (n <=? capacity t incl).
Proof.
  intros Ht. pose proof (to_size_bounds _ Ht). unfold fits, capacity, data_start.
  set (room := MAX_MSG_SIZE - _ - _ - _).
  apply eq_bool_prop_intro. rewrite !Is_true_true, !Z.leb_le. unfold room in *. split.
  - intros. apply Z.div_le_lower_bound; lia.
  - intros Hn. pose proof (Z.mul_div_le room (record_size t) ltac:(lia)). unfold room in *. nia.
Qed.

(** A message always has room for one record, template or not. *)
Lemma capacity_bounds (t : Template) (incl : bool) : template_ok t -> 1 <= capacity t incl <= 50.
Proof.
  intros Ht. pose proof (to_size_bounds _ Ht). pose proof (data_start_bounds t incl Ht) as [Hds _].
  assert (1 <= set_alignment (template_protocol t) <= 4)
    by (destruct (set_alignment_cases (template_protocol t)); lia).
  unfold capacity, MAX_MSG_SIZE, SET_HEADER_LEN in *. split.
  - apply Z.div_le_lower_bound; lia.
  - apply Zlt_succ_le, Z.div_lt_upper_bound; lia.
Qed.

Section Messages.
Context {T : Target}.

(** The calls of a client that fills one message: the encoder after them, the
    bytes to send, the record count, and what each [add_record] answered. *)
Definition encode_step (st : Encoder * list bool) (ev : ConntrackEvent)
    : outcome (Encoder * list bool) :=
  '(e, added) ← add_record st.1 ev; Done (e, st.2 ++ [added]).

Definition encode_message (e : Encoder) (incl : bool) (evs : list ConntrackEvent) (now : Clock)
    : outcome (Encoder * bytes * Z * list bool) :=
  e ← begin_message e incl;
  '(e, answers) ← foldM encode_step (e, []) evs;
  '(e, out, count) ← finalize e now;
  Done (e, out, count, answers).

(** The records that go in: as many as fit, in order. *)
Definition accepted (t : Template) (incl : bool) (evs : list ConntrackEvent) : list ConntrackEvent :=
  take (Z.to_nat (capacity t incl)) evs.

Definition clamped_total (t : Template) (evs : list ConntrackEvent) : Z :=
  sum_z (map (clamped_counters (fields t)) evs).

Lemma sum_z_app (l1 l2 : list Z) : sum_z (l1 ++ l2) = sum_z l1 + sum_z l2.
Proof.
  induction l1 as [|x l1 IH]; [done|]. change (sum_z ((x :: l1) ++ l2)) with (x + sum_z (l1 ++ l2)).
  change (sum_z (x :: l1)) with (x + sum_z l1). lia.
Qed.

Lemma sum_z_singleton (x : Z) : sum_z [x] = x.
Proof. apply Z.add_0_r. Qed.

(** Adding one more event after [done], of which the first ones that fit are in. *)
Lemma encode_step_done (e : Encoder) (incl : bool) (done : list ConntrackEvent)
    (answers : list bool) (ev : ConntrackEvent) :
  building e incl (accepted (template e) incl done) ->
  saturated_counters e + 14 <= u64_max ->
  exists e', encode_step (e, answers) ev =
      Done (e', answers ++ [bool_decide (zlen done < capacity (template e) incl)]) /\
    building e' incl (accepted (template e) incl (done ++ [ev])) /\ same_session e e' /\
    saturated_counters e' + clamped_total (template e) (accepted (template e) incl done) =
    saturated_counters e + clamped_total (template e) (accepted (template e) incl (done ++ [ev])).
Proof.
  intros Hb Hsat. pose proof Hb as [[Ht _ _ _ _] _ _ _ _ _ _ _].
  pose proof (capacity_bounds _ incl Ht) as Hcap. pose proof (to_count _ Ht).
  set (t := template e) in *. unfold encode_step. cbn [fst snd].
  rewrite (add_record_check _ incl (accepted t incl done)) by done. fold t.
  rewrite fits_capacity by done. unfold accepted in *. set (c := capacity t incl) in *.
  case_bool_decide as Hlt.
  - assert (Htake : take (Z.to_nat c) done = done) by (apply take_ge; unfold zlen in *; lia).
    assert (Htake' : take (Z.to_nat c) (done ++ [ev]) = done ++ [ev])
      by (apply take_ge; rewrite length_app; unfold zlen in *; simpl; lia).
    rewrite Htake in Hb. rewrite Htake, Htake'.
    destruct (Z.leb_spec (zlen done + 1) c) as [Hle|]; [|lia].
    destruct (append_record_done e incl done ev) as (e' & -> & Hb' & Hsame & Hs); [done| |fold t; lia|].
    { fold t. rewrite fits_capacity by done. by apply Z.leb_le. }
    exists e'. split; [done|]. split; [done|]. split; [done|].
    unfold clamped_total. rewrite map_app, sum_z_app. cbn [map]. fold t in Hs.
    change (sum_z [clamped_counters (fields t) ev]) with (clamped_counters (fields t) ev + 0). lia.
  - assert (Hlen : zlen (take (Z.to_nat c) done) = c) by (apply zlen_take; lia).
    assert (Htake' : take (Z.to_nat c) (done ++ [ev]) = take (Z.to_nat c) done)
      by (apply take_app_le; unfold zlen in *; lia).
    rewrite Htake', Hlen. destruct (Z.leb_spec (c + 1) c); [lia|].
    exists e. split; [done|]. split; [done|]. split; [done|]. lia.
Qed.

Lemma clamped_total_bound (t : Template) (evs : list ConntrackEvent) : template_ok t ->
  0 <= clamped_total t evs <= 14 * zlen evs.
Proof.
  intros Ht. pose proof (to_count _ Ht). unfold clamped_total.
  induction evs as [|ev evs IH]; [done|]. rewrite zlen_cons.
  change (sum_z (map (clamped_counters (fields t)) (ev :: evs)))
    with (clamped_counters (fields t) ev + sum_z (map (clamped_counters (fields t)) evs)).
  pose proof (clamped_counters_bound (fields t) ev). lia.
Qed.

(** What each call answers: the first [capacity] records are taken. *)
Definition answers_for (t : Template) (incl : bool) (n : nat) : list bool :=
  map (fun i => bool_decide (Z.of_nat i < capacity t incl)) (seq 0 n).

Lemma answers_snoc (t : Template) (incl : bool) (n : nat) :
  answers_for t incl (S n) = answers_for t incl n ++ [bool_decide (Z.of_nat n < capacity t incl)].
Proof. unfold answers_for. by rewrite seq_S, map_app. Qed.

Lemma same_session_trans (e1 e2 e3 : Encoder) :
  same_session e1 e2 -> same_session e2 e3 -> same_session e1 e3.
Proof. unfold same_session. intuition congruence. Qed.

Lemma encode_steps_done (e0 : Encoder) (incl : bool) (evs : list ConntrackEvent) :
  building e0 incl [] -> saturated_counters e0 + 14 * (zlen evs + 1) <= u64_max ->
  exists e, foldM encode_step (e0, []) evs = Done (e, answers_for (template e0) incl (length evs)) /\
    building e incl (accepted (template e0) incl evs) /\ same_session e0 e /\
    saturated_counters e =
    saturated_counters e0 + clamped_total (template e0) (accepted (template e0) incl evs).
Proof.
  intros Hb0. pose proof Hb0 as [[Ht _ _ _ _] _ _ _ _ _ _ _]. set (t := template e0) in *.
  induction evs as [|ev evs IH] using rev_ind; intros Hsat.
  { exists e0. unfold accepted. rewrite take_nil.
    split; [done|]. split; [exact Hb0|]. split; [done|]. change (clamped_total t []) with 0. lia. }
  rewrite zlen_app in Hsat. change (zlen [ev]) with 1 in Hsat.
  destruct IH as (e & Hrun & Hb & Hsame & Hs); [lia|].
  pose proof Hsame as (Htm & _).
  assert (Hacc : zlen (accepted t incl evs) <= zlen evs)
    by (unfold accepted, zlen; rewrite length_take; lia).
  pose proof (clamped_total_bound t (accepted t incl evs) Ht).
  destruct (encode_step_done e incl evs (answers_for t incl (length evs)) ev)
    as (e' & Hstep & Hb' & Hsame' & Hs'); [by rewrite Htm|lia|].
  rewrite Htm in *. fold t in Hstep, Hb', Hs'. exists e'.
  rewrite foldM_app, Hrun, bind_done. cbn [foldM]. rewrite Hstep, bind_done.
  rewrite length_app, Nat.add_comm. cbn [length Nat.add]. rewrite answers_snoc.
  split; [done|]. split; [done|]. split; [by eapply same_session_trans|]. lia.
Qed.

Lemma new_ok (domain : Z) (t : Template) (now : Clock) : template_ok t -> is_u32 domain ->
  encoder_ok (new domain t now).
Proof. intros. by split. Qed.

Lemma resolved_ok (p : Protocol) (pr : Profile) (w : CounterWidth) (id : Z) :
  MIN_TEMPLATE_ID <= id < 2 ^ 16 -> template_ok (resolved p pr w id).
Proof.
  intros Hid. apply (resolve_ok (T := x86_64_release) p pr w id).
  - unfold is_u16, MIN_TEMPLATE_ID in *. lia.
  - rewrite resolve_eq. by destruct (Z.ltb_spec id MIN_TEMPLATE_ID); [lia|].
Qed.

Lemma encode_message_done (e : Encoder) (incl : bool) (evs : list ConntrackEvent) (now : Clock) :
  encoder_ok e -> saturated_counters e + 14 * (zlen evs + 1) <= u64_max ->
  let t := template e in
  let sent := accepted t incl evs in
  exists e',
    encode_message e incl evs now =
      Done (e', message_bytes t incl sent (header_of e now), zlen sent, answers_for t incl (length evs)) /\
    encoder_ok e' /\ template e' = t /\ observation_domain_id e' = observation_domain_id e /\
    started e' = started e /\
    sequence_number e' = next_sequence t (sequence_number e) sent /\
    saturated_counters e' = saturated_counters e + clamped_total t sent.
Proof.
  intros Hok Hsat t sent. unfold encode_message.
  destruct (begin_message_done e incl Hok) as (e1 & -> & Hb1 & Hsame1 & Hs1). rewrite bind_done.
  destruct (encode_steps_done e1 incl evs Hb1) as (e2 & -> & Hb2 & Hsame2 & Hs2); [lia|].
  rewrite bind_done. cbv beta match.
  destruct (finalize_done _ _ _ now Hb2) as (e3 & -> & Hok3 & Ht3 & Hd3 & Hst3 & Hq3 & Hs3).
  rewrite bind_done. cbv beta match. exists e3.
  destruct Hsame1 as (Ht1 & Hd1 & Hq1 & Hst1), Hsame2 as (Ht2 & Hd2 & Hq2 & Hst2).
  rewrite Ht2, Hq2 in Hq3. rewrite Ht1 in *. fold t sent in Ht2, Hs2, Hq3 |- *.
  split; [|split; [done|split_and!; [congruence..|lia]]].
  unfold header_of. by rewrite Ht2, Hd2, Hd1, Hq2, Hq1, Hst2, Hst1.
Qed.

End Messages.

(** ** One message *)

(** C7: encoding refines the message format.  From any encoder between
    messages, [begin_message], one [add_record] per event and [finalize] never
    panic, take exactly the first [capacity] events and refuse the others,
    return the bytes of [message_bytes] for those events (header, the template
    set when asked for, one data set when there is a record) with their count,
    advance the sequence number and add up the clamped counters. *)
Theorem encoder_refines_format {T : Target} (e : Encoder) (incl : bool) (evs : list ConntrackEvent) (now : Clock) :
  encoder_ok e -> saturated_counters e + 14 * (zlen evs + 1) <= u64_max ->
  let t := template e in
  let sent := accepted t incl evs in
  exists e',
    encode_message e incl evs now =
      Done (e', message_bytes t incl sent (header_of e now), zlen sent, answers_for t incl (length evs)) /\
    encoder_ok e' /\ template e' = t /\ observation_domain_id e' = observation_domain_id e /\
    started e' = started e /\
    sequence_number e' = next_sequence t (sequence_number e) sent /\
    saturated_counters e' = saturated_counters e + clamped_total t sent.
Proof. by apply encode_message_done. Qed.


(** A default exporter: IPFIX, all fields, eight-byte counters, template 256. *)
Definition default_encoder : Encoder :=
  new 7 (resolved Ipfix Full Eight 256) {| system_time := 0; instant := 0 |}.

Lemma default_encoder_ok : encoder_ok default_encoder.
Proof. apply new_ok; [apply resolved_ok|]; by vm_compute. Qed.

Definition at_noon : Clock := {| system_time := 1700000000 * 10 ^ 9; instant := 5 * 10 ^ 9 |}.

Lemma encoder_refines_format_witness :
  exists e',
    encode_message (T := x86_64_debug) default_encoder true [fixture_event 6; fixture_event 17] at_noon =
    Done (e', message_bytes (resolved Ipfix Full Eight 256) true [fixture_event 6; fixture_event 17]
                (header_of default_encoder at_noon), 2, [true; true]).
Proof.
  destruct (@encoder_refines_format x86_64_debug default_encoder true
              [fixture_event 6; fixture_event 17] at_noon) as (e' & H & _).
  - apply default_encoder_ok.
  - vm_compute. discriminate.
  - exists e'. exact H.
Defined.

(** The first record always fits.  Whatever the template and whether or not
    the message carries it, [add_record] on a message just begun takes the
    record: a client that starts a new message when the old one is full never
    loses the record in between. *)
Lemma fresh_message_takes_a_record {T : Target} (e : Encoder) (incl : bool) (ev : ConntrackEvent) :
  encoder_ok e -> saturated_counters e + 14 <= u64_max ->
  exists e1 e2, begin_message e incl = Done e1 /\ add_record e1 ev = Done (e2, true).
Proof.
  intros Hok Hsat. destruct (begin_message_done e incl Hok) as (e1 & H1 & Hb & (Ht1 & _) & Hs1).
  pose proof Hb as [[Ht _ _ _ _] _ _ _ _ _ _ _]. pose proof (capacity_bounds _ incl Ht).
  pose proof (to_count _ Ht).
  assert (Hfit : fits (template e1) incl (zlen (@nil ConntrackEvent) + 1) = true).
  { rewrite fits_capacity by done. apply Z.leb_le. change (zlen []) with 0. lia. }
  destruct (append_record_done e1 incl [] ev Hb Hfit) as (e2 & H2 & _); [lia|].
  exists e1, e2. split; [done|]. by rewrite (add_record_check _ incl []), Hfit, H2 by done.
Qed.

Lemma max_records_capacity {T : Target} (p : Protocol) (pr : Profile) (w : CounterWidth) (id : Z) :
  template_ok (resolved p pr w id) ->
  max_records_per_message (resolved p pr w id) = Done (capacity (resolved p pr w id) true).
Proof.
  intros Ht. destruct (max_records_done _ Ht) as (n & -> & Hn & Hiff). f_equal.
  set (c := capacity _ true). assert (Hc : 0 <= c) by (unfold c; pose proof (capacity_bounds _ true Ht); lia).
  pose proof (Hiff c Hc) as Hlo. pose proof (Hiff (c + 1) ltac:(lia)) as Hhi.
  assert (c <= n) by (apply Hlo; unfold c; destruct p, pr, w; by vm_compute).
  assert (~ c + 1 <= n); [|lia]. rewrite <- Hhi. unfold c. destruct p, pr, w; vm_compute; congruence.
Qed.

(** C25: the capacity reported at startup is the capacity used.  For every
    configuration [resolve] accepts, [max_records_per_message] returns a number
    [c], and an encoder between messages, with room in its 64-bit count of clamped counters, that begins
    a message with the template and is then given events one by one, any number of them, answers [true] to exactly the
    first [c] calls of [add_record] and [false] to every later one, and reports
    that many records when it finalizes; although the one function sizes the padded
    set and the other reserves for the worst padding. *)
Theorem reported_capacity_is_used {T : Target} (p : Protocol) (pr : Profile) (w : CounterWidth)
    (id : Z) (t : Template) :
  is_u16 id -> resolve p pr w id = Done (Ok t) ->
  exists c, max_records_per_message t = Done c /\ 1 <= c /\
    forall e evs now, encoder_ok e -> template e = t -> saturated_counters e + 14 * (zlen evs + 1) <= u64_max ->
    exists e1 e2 e3 out,
      begin_message e true = Done e1 /\
      foldM encode_step (e1, []) evs =
        Done (e2, map (fun i => bool_decide (Z.of_nat i < c)) (seq 0 (length evs))) /\
      finalize e2 now = Done (e3, out, Z.min c (zlen evs)).
Proof.
  intros Hid Hres. destruct (resolve_ok _ _ _ _ _ Hid Hres) as [-> Ht]. eexists.
  split; [by apply max_records_capacity|]. pose proof (capacity_bounds _ true Ht) as Hc. split; [lia|].
  intros e evs now Hok Het Hsat. destruct (begin_message_done e true Hok) as (e1 & H1 & Hb1 & (Ht1 & _) & Hs1).
  destruct (encode_steps_done e1 true evs Hb1) as (e2 & H2 & Hb2 & (Ht2 & _) & _); [lia|].
  destruct (finalize_done _ _ _ now Hb2) as (e3 & H3 & _). rewrite Ht1, Het in *.
  exists e1, e2, e3. eexists. split_and!; [exact H1|exact H2|]. rewrite H3. f_equal. f_equal.
  unfold accepted, zlen. rewrite length_take. lia.
Qed.

(** A NetFlow v9 message with a template has room for 48 flow-only records: of fifty
    the last two are refused. *)
Lemma reported_capacity_is_used_witness :
  exists c e1 e2 e3 out,
    max_records_per_message (T := x86_64_release) (resolved Netflow9 FlowOnly Four 300) = Done c /\ c = 48 /\
    begin_message (T := x86_64_release) (new 7 (resolved Netflow9 FlowOnly Four 300) at_noon) true = Done e1 /\
    foldM (encode_step (T := x86_64_release)) (e1, []) (replicate 50 (fixture_event 6)) =
      Done (e2, replicate 48 true ++ [false; false]) /\
    finalize (T := x86_64_release) e2 at_noon = Done (e3, out, 48).
Proof.
  destruct (@reported_capacity_is_used x86_64_release Netflow9 FlowOnly Four 300 (resolved Netflow9 FlowOnly Four 300))
    as (c & Hc & _ & Hused).
  - closed_bounds.
  - vm_compute. reflexivity.
  - assert (Hc48 : c = 48) by (vm_compute in Hc; congruence). subst c.
    destruct (Hused (new 7 (resolved Netflow9 FlowOnly Four 300) at_noon) (replicate 50 (fixture_event 6)) at_noon)
      as (e1 & e2 & e3 & out & H1 & H2 & H3).
    + apply new_ok; [apply resolved_ok|]; closed_bounds.
    + reflexivity.
    + vm_compute. discriminate.
    + exists 48, e1, e2, e3, out. split_and!; [exact Hc|reflexivity|exact H1|exact H2|exact H3].
Defined.

(** C24: every message stays within its budget and describes itself.  The bytes
    handed to the socket number at most 1472; an IPFIX header states their exact
    number; a NetFlow v9 header states the number of records, the template
    counted as one, and the message length is a multiple of four. *)
Theorem message_describes_itself {T : Target} (e e' : Encoder) (incl : bool)
    (evs : list ConntrackEvent) (now : Clock) (out : bytes) (count : Z) (answers : list bool) :
  encoder_ok e -> saturated_counters e + 14 * (zlen evs + 1) <= u64_max ->
  encode_message e incl evs now = Done (e', out, count, answers) ->
  zlen out <= MAX_MSG_SIZE /\
  match template_protocol (template e) with
  | Ipfix => from_be_bytes (sub out 2 4) = zlen out
  | Netflow9 => from_be_bytes (sub out 2 4) = count + (if incl then 1 else 0) /\ zlen out mod 4 = 0
  end.
Proof.
  intros Hok Hsat Hrun. pose proof (eo_template _ Hok) as Ht. set (t := template e) in *.
  destruct (encode_message_done e incl evs now Hok Hsat) as (e2 & Hrun' & _).
  rewrite Hrun in Hrun'. injection Hrun' as -> -> -> _. fold t.
  set (sent := accepted t incl evs).
  assert (Hn : zlen sent <= 50 /\ (sent = [] \/ fits t incl (zlen sent) = true)).
  { pose proof (capacity_bounds t incl Ht). unfold sent, accepted, zlen in *.
    rewrite fits_capacity by done. rewrite length_take.
    split; [|right; apply Z.leb_le]; lia. }
  destruct Hn as [Hn Hfits]. pose proof (zlen_nonneg sent).
  pose proof (message_size_bound t incl sent Ht Hfits) as Hsize.
  assert (Hlen : zlen (message_bytes t incl sent (header_of e now)) = message_size t incl sent).
  { unfold message_bytes, message_size. by rewrite zlen_app, zlen_header_bytes. }
  rewrite Hlen. split; [lia|]. unfold MAX_MSG_SIZE in Hsize.
  pose proof (message_size_eq t incl sent Ht) as Hms. unfold message_bytes, header_bytes.
  destruct (template_protocol t) eqn:Hp; rewrite <- !app_assoc;
    rewrite (sub_middle (to_be_bytes 2 _) (to_be_bytes 2 _)) by (rewrite !zlen_to_be_bytes; done);
    rewrite from_to_be_bytes_small by (destruct incl; lia); [done|split; [done|]].
  rewrite Hms. pose proof (data_start_bounds t incl Ht) as [_ Hal]. rewrite Hp in Hal.
  change (set_alignment Netflow9) with 4 in Hal. rewrite Z.add_mod, Hal by done.
  case_bool_decide; [done|]. unfold data_set_size. rewrite Hp. unfold align_up.
  change (set_alignment Netflow9) with 4. by rewrite Z.mod_mul.
Qed.

Definition v9_encoder : Encoder :=
  new 0 (resolved Netflow9 NatSource Four 4000) {| system_time := 0; instant := 0 |}.

Lemma message_describes_itself_witness :
  exists e' out,
    encode_message (T := x86_64_release) v9_encoder true [fixture_event 17] at_noon =
      Done (e', out, 1, [true]) /\
    zlen out <= MAX_MSG_SIZE /\ from_be_bytes (sub out 2 4) = 2 /\ zlen out mod 4 = 0.
Proof.
  assert (Hok : encoder_ok v9_encoder) by (apply new_ok; [apply resolved_ok|]; by vm_compute).
  assert (Hsat : saturated_counters v9_encoder + 14 * (zlen [fixture_event 17] + 1) <= u64_max)
    by (vm_compute; discriminate).
  destruct (encode_message_done (T := x86_64_release) v9_encoder true [fixture_event 17] at_noon Hok Hsat)
    as (e' & Hrun & _).
  exists e', (message_bytes (template v9_encoder) true [fixture_event 17] (header_of v9_encoder at_noon)).
  split; [exact Hrun|].
  exact (message_describes_itself v9_encoder e' true [fixture_event 17] at_noon _ 1 [true] Hok Hsat Hrun).
Defined.

(** ** Sessions *)

Abbreviation message_request := (bool * list ConntrackEvent * Clock)%type (only parsing).

Definition session_step {T : Target} (st : Encoder * list bytes) (m : message_request)
    : outcome (Encoder * list bytes) :=
  let '(incl, evs, now) := m in
  '(e, out, _, _) ← encode_message st.1 incl evs now;
  Done (e, st.2 ++ [out]).

Definition encode_session {T : Target} (e : Encoder) (ms : list message_request)
    : outcome (Encoder * list bytes) :=
  foldM session_step (e, []) ms.

(** What the sequence number counts: records under IPFIX, messages under v9. *)
Definition exported (t : Template) (ms : list message_request) : Z :=
  match template_protocol t with
  | Ipfix => sum_z (map (fun m => zlen (accepted t m.1.1 m.1.2)) ms)
  | Netflow9 => zlen ms
  end.

Lemma exported_snoc (t : Template) (ms : list message_request) (m : message_request) (seq : Z) :
  next_sequence t ((seq + exported t ms) mod 2 ^ 32) (accepted t m.1.1 m.1.2) =
  (seq + exported t (ms ++ [m])) mod 2 ^ 32.
Proof.
  unfold next_sequence, wrapping_add_u32, exported. destruct (template_protocol t).
  - rewrite map_app, sum_z_app. cbn [map].
    rewrite Z.add_mod_idemp_l by done. f_equal.
    rewrite sum_z_singleton. symmetry. apply Z.add_assoc.
  - rewrite zlen_app. change (zlen [m]) with 1. rewrite Z.add_mod_idemp_l by done. f_equal. lia.
Qed.

(** The events offered in a session, which bound what it can clamp. *)
Definition offered (ms : list message_request) : Z := sum_z (map (fun m => zlen m.1.2 + 1) ms).

Lemma offered_snoc (ms : list message_request) (m : message_request) :
  offered (ms ++ [m]) = offered ms + (zlen m.1.2 + 1).
Proof.
  unfold offered. rewrite map_app, sum_z_app. cbn [map]. by rewrite sum_z_singleton.
Qed.

Lemma encode_session_done {T : Target} (e : Encoder) (ms : list message_request) :
  encoder_ok e -> saturated_counters e + 14 * offered ms <= u64_max ->
  exists e' outs, encode_session e ms = Done (e', outs) /\ encoder_ok e' /\
    template e' = template e /\ observation_domain_id e' = observation_domain_id e /\
    started e' = started e /\
    saturated_counters e' <= saturated_counters e + 14 * offered ms /\
    sequence_number e' = (sequence_number e + exported (template e) ms) mod 2 ^ 32 /\
    length outs = length ms /\
    forall i m, ms !! i = Some m ->
      outs !! i = Some (message_bytes (template e) m.1.1 (accepted (template e) m.1.1 m.1.2)
        {| hi_seq := (sequence_number e + exported (template e) (take i ms)) mod 2 ^ 32;
           hi_domain := observation_domain_id e; hi_secs := unix_secs m.2;
           hi_uptime := uptime_ms m.2 (started e) |}).
Proof.
  intros Hok. set (t := template e). induction ms as [|m ms IH] using rev_ind; intros Hsat.
  - exists e, []. split; [done|]. split; [done|]. split_and!; try done; [cbn; lia|].
    replace (exported t []) with 0 by (unfold exported; by destruct (template_protocol t)).
    rewrite Z.add_0_r, Z.mod_small; [done|apply (eo_seq _ Hok)].
  - rewrite offered_snoc in *.
    pose proof (zlen_nonneg m.1.2).
    destruct IH as (e1 & outs & Hrun & Hok1 & Ht1 & Hd1 & Hst1 & Hs1 & Hq1 & Hlen & Houts); [lia|].
    destruct (encode_message_done e1 m.1.1 m.1.2 m.2 Hok1)
      as (e2 & Hstep & Hok2 & Ht2 & Hd2 & Hst2 & Hq2 & Hs2); [lia|].
    rewrite Ht1 in *. fold t in Hstep, Ht2, Hq2, Hs2. exists e2.
    exists (outs ++ [message_bytes t m.1.1 (accepted t m.1.1 m.1.2) (header_of e1 m.2)]).
    split.
    { unfold encode_session in *. rewrite foldM_app, Hrun, bind_done. cbn [foldM].
      unfold session_step at 1. destruct m as [[incl evs] now]. cbn [fst snd] in *.
      by rewrite Hstep, bind_done. }
    assert (Hacc : 0 <= clamped_total t (accepted t m.1.1 m.1.2) <= 14 * zlen m.1.2).
    { pose proof (clamped_total_bound t (accepted t m.1.1 m.1.2) (eo_template _ Hok)).
      assert (zlen (accepted t m.1.1 m.1.2) <= zlen m.1.2)
        by (unfold accepted, zlen; rewrite length_take; lia). lia. }
    split; [done|]. split; [done|]. split; [congruence|]. split; [congruence|]. split; [lia|].
    split; [rewrite Hq2, Hq1; apply exported_snoc|].
    split; [rewrite !length_app; cbn [length]; lia|]. intros i m' Hi.
    destruct (decide (i < length ms)%nat) as [Hlt|Hge].
    + rewrite lookup_app_l in Hi by done. rewrite lookup_app_l by lia.
      rewrite take_app_le by lia. by apply Houts.
    + apply lookup_app_Some in Hi as [Hi|[_ Hi]]; [apply lookup_lt_Some in Hi; lia|].
      apply list_lookup_singleton_Some in Hi as [Hi <-].
      replace i with (length ms) by lia. rewrite lookup_app_r by lia. rewrite Hlen, Nat.sub_diag.
      rewrite take_app_length. unfold header_of. by rewrite Hq1, Hd1, Hst1.
Qed.

(** C39: sequence numbers.  In any session of messages from one encoder, message
    [i] carries the count of what was exported before it, modulo 2^32: data
    records under IPFIX (RFC 7011), messages under NetFlow v9 (RFC 3954);
    template-only messages do not advance the IPFIX count. *)
Theorem sequence_numbers_count_exports {T : Target} (e : Encoder) (ms : list message_request) :
  encoder_ok e -> saturated_counters e + 14 * offered ms <= u64_max ->
  exists e' outs, encode_session e ms = Done (e', outs) /\ length outs = length ms /\
    forall i m, ms !! i = Some m ->
      outs !! i = Some (message_bytes (template e) m.1.1 (accepted (template e) m.1.1 m.1.2)
        {| hi_seq := (sequence_number e + exported (template e) (take i ms)) mod 2 ^ 32;
           hi_domain := observation_domain_id e; hi_secs := unix_secs m.2;
           hi_uptime := uptime_ms m.2 (started e) |}).
Proof.
  intros Hok Hsat.
  destruct (encode_session_done e ms Hok Hsat) as (e' & outs & Hrun & _ & _ & _ & _ & _ & _ & Hl & Ho).
  by exists e', outs.
Qed.

Definition a_session : list message_request :=
  [(true, [], at_noon); (false, [fixture_event 6; fixture_event 17], at_noon);
   (true, [fixture_event 6], at_noon)].

(** The template alone, two records, and one more with the template: 0, 0 and 2. *)
Lemma sequence_numbers_count_exports_witness :
  exists e' outs, encode_session (T := x86_64_debug) default_encoder a_session = Done (e', outs) /\
    option_map (fun d => from_be_bytes (sub d 8 12)) (outs !! 2%nat) = Some 2.
Proof.
  destruct (@sequence_numbers_count_exports x86_64_debug default_encoder a_session) as (e' & outs & Hrun & _ & Hout).
  - apply default_encoder_ok.
  - vm_compute. discriminate.
  - exists e', outs. split; [exact Hrun|]. rewrite (Hout 2%nat _ eq_refl). vm_compute. reflexivity.
Defined.
