(* ===== verification/Pipeline.v ===== *)
(** * The benchmarked pipeline

    [benches/pipeline.rs]: the datagrams it builds, the batches it encodes and what
    one iteration of each benchmark computes.  The harness that times them is not
    part of the repository.  The fixtures hold what the benchmarks say they hold, and
    the pipeline exports every session in as few messages as there can be. *)

From stdpp Require Import base list numbers.
From Stdlib Require Import ZArith Lia.
From S2P Require Import Prelude Constants Elements Event Parser ParserSpec Netlink NetlinkProps Template Record Encoder EncoderSpec EncoderProps.
Local Open Scope Z_scope.

Module pipeline.

Section Fixtures.
Context {T : Target}.

Definition IPS_ESTABLISHED_NO_NAT : Z := 0x188.

(** [u8::try_from(..).expect(..)], and [%] *)
Definition u8_try_from (v : Z) : outcome Z := if v <=? 2 ^ 8 - 1 then Done v else Panic ExpectFailed.
Definition rem (a b : Z) : outcome Z := if b =? 0 then Panic DivisionByZero else Done (a mod b).

Definition nat_event (index msg_type : Z) : outcome bytes :=
  h ← rem index 250; h ← add_w 32 h 2; host ← u8_try_from h;
  p ← rem index 60000; p ← add_w 32 1024 p; port ← u16_try_from p;
  let counted := msg_type =? IPCTNL_MSG_CT_DELETE in
  orig ← tuple CTA_TUPLE_ORIG (Ipv4Addr_new 192 168 1 host) (Ipv4Addr_new 8 8 8 8) 6 port 443;
  reply ← tuple CTA_TUPLE_REPLY (Ipv4Addr_new 8 8 8 8) (Ipv4Addr_new 203 0 113 5) 6 443 (Z.lxor port 0x5555);
  status ← attr CTA_STATUS (to_be_bytes 4 IPS_SRC_NAT);
  let attrs := [orig; reply; status] in
  attrs ← (if counted then
             c_orig ← counters CTA_COUNTERS_ORIG 12 4096;
             c_reply ← counters CTA_COUNTERS_REPLY 9 60000;
             Done (attrs ++ [c_orig; c_reply])
           else Done attrs);
  ct_event msg_type NFPROTO_IPV4 attrs.

Definition plain_event (index : Z) : outcome bytes :=
  h ← rem index 250; h ← add_w 32 h 2; host ← u8_try_from h;
  p ← rem index 60000; p ← add_w 32 1024 p; port ← u16_try_from p;
  orig ← tuple CTA_TUPLE_ORIG (Ipv4Addr_new 10 0 0 host) (Ipv4Addr_new 10 0 1 1) 6 port 80;
  reply ← tuple CTA_TUPLE_REPLY (Ipv4Addr_new 10 0 1 1) (Ipv4Addr_new 10 0 0 host) 6 80 port;
  status ← attr CTA_STATUS (to_be_bytes 4 IPS_ESTABLISHED_NO_NAT);
  ct_event IPCTNL_MSG_CT_NEW NFPROTO_IPV4 [orig; reply; status].

(** One message of the [for] loop of [datagram]. *)
Definition nth_message (nat_in : option Z) (index : Z) : outcome bytes :=
  match nat_in with
  | None => plain_event index
  | Some nat_in =>
      r ← rem index nat_in;
      if r =? 0 then
        msg_type ← (q ← (if nat_in =? 0 then Panic DivisionByZero else Done (index / nat_in));
                    half ← rem q 2;
                    Done (if half =? 0 then IPCTNL_MSG_CT_NEW else IPCTNL_MSG_CT_DELETE));
        nat_event index msg_type
      else plain_event index
  end.

Definition datagram (events : Z) (nat_in : option Z) : outcome bytes :=
  n ← u32_try_from events;
  foldM (fun buf index => m ← nth_message nat_in index; Done (buf ++ m)) [] (seqZ 0 n).

Definition sample_event : ConntrackEvent := {|
  Event.nat_event := Delete; protocol := 6;
  src_ip := Ipv4Addr_new 192 168 1 10; dst_ip := Ipv4Addr_new 8 8 8 8; src_port := 51234; dst_port := 443;
  post_nat_src_ip := Ipv4Addr_new 203 0 113 5; post_nat_src_port := 40000;
  post_nat_dst_ip := Ipv4Addr_new 8 8 8 8; post_nat_dst_port := 443;
  orig_bytes := 4096; orig_packets := 12; reply_bytes := 60000; reply_packets := 9 |}.

Definition template_for (protocol : Protocol) (profile : Profile) (width : CounterWidth) : outcome Template :=
  r ← resolve protocol profile width DEFAULT_TEMPLATE_ID;
  match r with Ok t => Done t | Err _ => Panic ExpectFailed end.

(** ** The work that is timed *)

(** [encode_batch], whose [finalize] reads the clock for each message. *)
Definition batch_step (clock : Z -> Clock) (s : Encoder * Z) (event : ConntrackEvent) : outcome (Encoder * Z) :=
  let '(encoder, messages) := s in
  '(encoder, added) ← add_record encoder event;
  if (added : bool) then Done (encoder, messages)
  else
    '(encoder, _, _) ← finalize encoder (clock messages);
    messages ← add_w 32 messages 1;
    encoder ← begin_message encoder false;
    '(encoder, added) ← add_record encoder event;
    _ ← guard_panic AssertFailed added;
    Done (encoder, messages).

Definition encode_batch (clock : Z -> Clock) (encoder : Encoder) (events : list ConntrackEvent) : outcome (Encoder * Z) :=
  encoder ← begin_message encoder false;
  '(encoder, messages) ← foldM (batch_step clock) (encoder, 1) events;
  '(encoder, _, _) ← finalize encoder (clock messages);
  Done (encoder, messages).

(** An iteration of [encode], of [decode], of [encode_template] and of [pipeline]. *)
Definition encode (clock : Z -> Clock) (encoder : Encoder) : outcome (Encoder * Z) :=
  encode_batch clock encoder (replicate 256 sample_event).

Definition decode (buf : bytes) : outcome Z :=
  parse_conntrack_messages buf (fun decoded _ => add_w 32 decoded 1) 0.

Definition encode_template (encoder : Encoder) (now : Clock) : outcome (Encoder * Z) :=
  encoder ← begin_message encoder true;
  '(encoder, bytes, _) ← finalize encoder now;
  Done (encoder, zlen bytes).

Definition iteration (clock : Z -> Clock) (encoder : Encoder) (buf : bytes) : outcome (Encoder * Z) :=
  decoded ← parse_conntrack_messages buf (fun decoded event => Done (decoded ++ [event])) [];
  encode_batch clock encoder decoded.

(** ** What the fixtures hold *)

(** The session that message number [index] is about. *)
Definition host_of (index : Z) : Z := index mod 250 + 2.
Definition port_of (index : Z) : Z := 1024 + index mod 60000.

Definition nat_session (index : Z) (torn_down : bool) : ConntrackEvent := {|
  Event.nat_event := if torn_down then Delete else Create; protocol := 6;
  src_ip := Ipv4Addr_new 192 168 1 (host_of index); dst_ip := Ipv4Addr_new 8 8 8 8;
  src_port := port_of index; dst_port := 443;
  post_nat_src_ip := Ipv4Addr_new 203 0 113 5; post_nat_src_port := Z.lxor (port_of index) 0x5555;
  post_nat_dst_ip := Ipv4Addr_new 8 8 8 8; post_nat_dst_port := 443;
  orig_bytes := if torn_down then 4096 else 0; orig_packets := if torn_down then 12 else 0;
  reply_bytes := if torn_down then 60000 else 0; reply_packets := if torn_down then 9 else 0 |}.

Definition plain_session (index : Z) : ConntrackEvent := {|
  Event.nat_event := Create; protocol := 6;
  src_ip := Ipv4Addr_new 10 0 0 (host_of index); dst_ip := Ipv4Addr_new 10 0 1 1;
  src_port := port_of index; dst_port := 80;
  post_nat_src_ip := Ipv4Addr_new 10 0 0 (host_of index); post_nat_src_port := port_of index;
  post_nat_dst_ip := Ipv4Addr_new 10 0 1 1; post_nat_dst_port := 80;
  orig_bytes := 0; orig_packets := 0; reply_bytes := 0; reply_packets := 0 |}.

Lemma host_bounds (index : Z) : 0 <= host_of index < 2 ^ 8.
Proof. unfold host_of. pose proof (Z.mod_pos_bound index 250 ltac:(lia)). lia. Qed.

Lemma port_bounds (index : Z) : 0 <= port_of index < 2 ^ 16.
Proof. unfold port_of. pose proof (Z.mod_pos_bound index 60000 ltac:(lia)). lia. Qed.

Lemma lxor_u16 (a b : Z) : is_u16 a -> is_u16 b -> is_u16 (Z.lxor a b).
Proof.
  unfold is_u16. intros Ha Hb. split; [apply Z.lxor_nonneg; lia|].
  destruct (Z.eq_dec (Z.lxor a b) 0) as [->|Hne]; [lia|]. assert (0 <= Z.lxor a b) by (apply Z.lxor_nonneg; lia).
  apply Z.log2_lt_pow2; [lia|]. eapply Z.le_lt_trans; [apply Z.log2_lxor; lia|].
  assert (Hlog : forall x, 0 <= x < 2 ^ 16 -> Z.log2 x < 16).
  { intros x Hx. destruct (Z.eq_dec x 0) as [->|]; [done|]. apply Z.log2_lt_pow2; lia. }
  pose proof (Hlog a Ha). pose proof (Hlog b Hb). lia.
Qed.

Lemma addr_new_ok (a b c d : Z) : is_u8 a -> is_u8 b -> is_u8 c -> is_u8 d -> addr_ok (Ipv4Addr_new a b c d).
Proof. intros. unfold addr_ok, bytes_ok. do 4 (apply Forall_cons_2; [done|]). apply Forall_nil_2. Qed.

Lemma nat_session_ok (index : Z) (torn_down : bool) : event_ok (nat_session index torn_down).
Proof.
  split; cbn [nat_session protocol src_ip dst_ip src_port dst_port post_nat_src_ip post_nat_src_port post_nat_dst_ip
    post_nat_dst_port orig_bytes orig_packets reply_bytes reply_packets].
  - closed_bounds.
  - apply addr_new_ok; [closed_bounds..|apply host_bounds].
  - closed_bounds.
  - apply port_bounds.
  - closed_bounds.
  - closed_bounds.
  - apply lxor_u16; [apply port_bounds|closed_bounds].
  - closed_bounds.
  - closed_bounds.
  - destruct torn_down; closed_bounds.
  - destruct torn_down; closed_bounds.
  - destruct torn_down; closed_bounds.
  - destruct torn_down; closed_bounds.
Qed.

Lemma plain_session_ok (index : Z) : event_ok (plain_session index).
Proof.
  split; cbn [plain_session protocol src_ip dst_ip src_port dst_port post_nat_src_ip post_nat_src_port post_nat_dst_ip
    post_nat_dst_port orig_bytes orig_packets reply_bytes reply_packets].
  2, 6: apply addr_new_ok; [closed_bounds..|apply host_bounds].
  3, 5: apply port_bounds.
  all: closed_bounds.
Qed.

Lemma fit_u32 (a b : Z) : 0 <= a + b <= u32_max -> add_w 32 a b = Done (a + b).
Proof. intros H. unfold add_w. apply fit_w_done. unfold u32_max in H. lia. Qed.

Lemma rem_done (a b : Z) : b <> 0 -> rem a b = Done (a mod b).
Proof. intros Hb. unfold rem. by apply Z.eqb_neq in Hb as ->. Qed.

(** The host and the port are computed without a panic. *)
Lemma host_port_done {A : Type} (index : Z) (f : Z -> Z -> outcome A) :
  (h ← rem index 250; h ← add_w 32 h 2; host ← u8_try_from h;
   p ← rem index 60000; p ← add_w 32 1024 p; port ← u16_try_from p; f host port) = f (host_of index) (port_of index).
Proof.
  pose proof (host_bounds index) as Hh. pose proof (port_bounds index) as Hp. unfold host_of, port_of in *.
  pose proof (Z.mod_pos_bound index 250 ltac:(lia)). pose proof (Z.mod_pos_bound index 60000 ltac:(lia)).
  rewrite (rem_done index 250), bind_done, fit_u32, bind_done by (done || unfold u32_max; lia).
  unfold u8_try_from. destruct (Z.leb_spec (index mod 250 + 2) (2 ^ 8 - 1)); [|lia]. rewrite bind_done.
  rewrite (rem_done index 60000), bind_done, fit_u32, bind_done by (done || unfold u32_max; lia).
  by rewrite u16_try_from_done, bind_done by (unfold u16_max; lia).
Qed.

Lemma nat_event_done (index : Z) (torn_down : bool) :
  nat_event index (if torn_down then IPCTNL_MSG_CT_DELETE else IPCTNL_MSG_CT_NEW) =
  Done (session_bytes torn_down IPS_SRC_NAT (nat_session index torn_down)).
Proof.
  unfold nat_event. rewrite (host_port_done index (fun host port => _)). cbv zeta beta.
  rewrite !tuple_done, !bind_done. rewrite attr_done by (by vm_compute). rewrite bind_done.
  destruct torn_down.
  - change (IPCTNL_MSG_CT_DELETE =? IPCTNL_MSG_CT_DELETE) with true. cbv iota.
    rewrite !counters_done, !bind_done. cbn [app].
    apply (message_done _ _ (session_attrs true IPS_SRC_NAT (nat_session index true))). by rewrite zlen_session_attrs.
  - change (IPCTNL_MSG_CT_NEW =? IPCTNL_MSG_CT_DELETE) with false. cbv iota. rewrite bind_done.
    apply (message_done _ _ (session_attrs false IPS_SRC_NAT (nat_session index false))). by rewrite zlen_session_attrs.
Qed.

Lemma plain_event_done (index : Z) :
  plain_event index = Done (session_bytes false IPS_ESTABLISHED_NO_NAT (plain_session index)).
Proof.
  unfold plain_event. rewrite (host_port_done index (fun host port => _)). cbv beta.
  rewrite !tuple_done, !bind_done. rewrite attr_done by (by vm_compute). rewrite bind_done.
  apply (message_done _ _ (session_attrs false IPS_ESTABLISHED_NO_NAT (plain_session index))). by rewrite zlen_session_attrs.
Qed.

(** The NAT session message number [index] announces, if it does. *)
Definition announced (nat_in : option Z) (index : Z) : option ConntrackEvent :=
  match nat_in with
  | Some k => if index mod k =? 0 then Some (nat_session index (negb ((index / k) mod 2 =? 0))) else None
  | None => None
  end.

Lemma nth_message_done (nat_in : option Z) (index : Z) : nat_in <> Some 0 ->
  exists m, nth_message nat_in index = Done m /\ bytes_ok m /\ zlen m <= 188 /\
    forall rest, conntrack_events (m ++ rest) = option_list (announced nat_in index) ++ conntrack_events rest.
Proof.
  intros Hk. assert (Hplain : exists m, plain_event index = Done m /\ bytes_ok m /\ zlen m <= 188 /\
    forall rest, conntrack_events (m ++ rest) = conntrack_events rest).
  { rewrite plain_event_done. eexists. split; [done|]. pose proof (plain_session_ok index) as Hok.
    destruct (session_bytes_ok false IPS_ESTABLISHED_NO_NAT _ Hok) as [Hb Hz]. split; [done|]. split; [done|].
    intros rest. by rewrite conntrack_events_session by (done || closed_bounds). }
  destruct nat_in as [k|]; [|exact Hplain]. unfold nth_message, announced.
  destruct (Z.eqb_spec k 0) as [->|Hk0]; [done|]. rewrite rem_done, bind_done by done. destruct (index mod k =? 0); [|exact Hplain].
  rewrite bind_done, rem_done, !bind_done by done. set (half := (index / k) mod 2 =? 0).
  replace (if half then IPCTNL_MSG_CT_NEW else IPCTNL_MSG_CT_DELETE)
    with (if negb half then IPCTNL_MSG_CT_DELETE else IPCTNL_MSG_CT_NEW) by (by destruct half).
  rewrite nat_event_done. eexists. split; [done|]. pose proof (nat_session_ok index (negb half)) as Hok.
  destruct (session_bytes_ok (negb half) IPS_SRC_NAT _ Hok) as [Hb Hz]. split; [done|]. split; [done|].
  intros rest. rewrite conntrack_events_session; [done|done|closed_bounds|]. by intros ->.
Qed.

(** The NAT sessions of a datagram. *)
Definition sessions (events : Z) (nat_in : option Z) : list ConntrackEvent := omap (announced nat_in) (seqZ 0 events).

Lemma messages_done (nat_in : option Z) (l : list Z) (buf : bytes) : nat_in <> Some 0 ->
  exists more, foldM (fun buf index => m ← nth_message nat_in index; Done (buf ++ m)) buf l = Done (buf ++ more) /\
    bytes_ok more /\ zlen more <= 188 * zlen l /\
    forall rest, conntrack_events (more ++ rest) = omap (announced nat_in) l ++ conntrack_events rest.
Proof.
  intros Hk. revert buf. induction l as [|index l IH]; intros buf; cbn [foldM].
  { exists []. rewrite app_nil_r. split; [done|]. split; [apply Forall_nil_2|]. split; [done|]. done. }
  destruct (nth_message_done nat_in index Hk) as (m & Hm & Hb & Hz & Hev). rewrite Hm, !bind_done.
  destruct (IH (buf ++ m)) as (more & -> & Hb' & Hz' & Hev'). exists (m ++ more). rewrite app_assoc.
  split; [done|]. split; [by apply bytes_ok_app|]. split; [rewrite zlen_app, zlen_cons; lia|].
  intros rest. rewrite <- app_assoc, Hev, Hev'. cbn [omap list_omap]. by destruct (announced nat_in index).
Qed.

Lemma datagram_built (events : Z) (nat_in : option Z) :
  pointer_width = 64 -> 0 <= events <= u32_max -> nat_in <> Some 0 ->
  exists buf, datagram events nat_in = Done buf /\ input_ok buf /\ conntrack_events buf = sessions events nat_in.
Proof.
  intros H64 Hn Hk. unfold datagram, u32_try_from. destruct (Z.leb_spec events u32_max); [|lia]. rewrite bind_done.
  destruct (messages_done nat_in (seqZ 0 events) [] Hk) as (buf & -> & Hb & Hz & Hev). exists buf.
  split; [done|]. split.
  - split; [done|]. unfold zlen in Hz at 2. rewrite length_seqZ, Z2Nat.id in Hz by lia.
    unfold isize_max, u32_max in *. rewrite H64. lia.
  - specialize (Hev []). rewrite app_nil_r in Hev. rewrite Hev. change (conntrack_events []) with (@nil ConntrackEvent).
    by rewrite app_nil_r.
Qed.

(** One message in [k] is about a NAT session. *)
Lemma ceil_succ (n k : Z) : 0 < k -> (n + 1 + k - 1) / k = (n + k - 1) / k + (if n mod k =? 0 then 1 else 0).
Proof.
  intros Hk. pose proof (Z.div_mod n k ltac:(lia)) as Hn. pose proof (Z.mod_pos_bound n k Hk) as Hr.
  set (q := n / k) in *. set (r := n mod k) in *.
  replace (n + 1 + k - 1) with (r + (q + 1) * k) by lia. rewrite Z.div_add, (Z.div_small r) by lia.
  destruct (Z.eqb_spec r 0) as [->|Hne].
  - replace (n + k - 1) with ((k - 1) + q * k) by lia. rewrite Z.div_add, Z.div_small by lia. lia.
  - replace (n + k - 1) with ((r - 1) + (q + 1) * k) by lia. rewrite Z.div_add, Z.div_small by lia. lia.
Qed.

Lemma sessions_count (n k : Z) : 0 < k -> 0 <= n -> zlen (sessions n (Some k)) = (n + k - 1) / k.
Proof.
  intros Hk. revert n. apply natlike_ind.
  - change (sessions 0 (Some k)) with (@nil ConntrackEvent). rewrite Z.div_small by lia. done.
  - intros n Hn IH. rewrite <- Z.add_1_r, ceil_succ, <- IH by done. unfold sessions.
    rewrite seqZ_app, omap_app, zlen_app by lia. f_equal. change (seqZ (0 + n) 1) with [n]. cbn [omap list_omap].
    unfold announced. by destruct (n mod k =? 0).
Qed.

Lemma sessions_none (n : Z) : sessions n None = [].
Proof. unfold sessions. induction (seqZ 0 n) as [|i l IH]; [done|exact IH]. Qed.

(** ** Encoding a batch *)

(** After the records [done]: all messages but the open one, which holds [buf], are full. *)
Record batched (t : Template) (sat : Z) (done : list ConntrackEvent) (e : Encoder) (messages : Z) (buf : list ConntrackEvent) : Prop := {
  bt_building : building e false buf;
  bt_template : template e = t;
  bt_messages : 1 <= messages;
  bt_count : (messages - 1) * capacity t false + zlen buf = zlen done;
  bt_room : zlen buf <= capacity t false;
  bt_last : done = [] \/ buf <> [];
  bt_saturated : saturated_counters e <= sat + 14 * zlen done
}.

Lemma add_record_fits (e : Encoder) (buf : list ConntrackEvent) (ev : ConntrackEvent) :
  building e false buf -> zlen buf < capacity (template e) false -> saturated_counters e + 14 <= u64_max ->
  exists e', add_record e ev = Done (e', true) /\ building e' false (buf ++ [ev]) /\ template e' = template e /\
    saturated_counters e' <= saturated_counters e + 14.
Proof.
  intros Hb Hroom Hsat. pose proof Hb as [[Ht _ _ _ _] _ _ _ _ _ _ _]. pose proof (to_count _ Ht) as Hc.
  assert (Hf : fits (template e) false (zlen buf + 1) = true) by (rewrite fits_capacity by done; apply Z.leb_le; lia).
  rewrite (add_record_check _ false buf), Hf by done.
  destruct (append_record_done e false buf ev Hb Hf) as (e' & -> & Hb' & (Ht' & _) & Hs); [lia|].
  exists e'. split; [done|]. split; [done|]. split; [done|].
  pose proof (clamped_counters_bound (fields (template e)) ev). lia.
Qed.

Lemma batch_step_done (clock : Z -> Clock) (t : Template) (sat : Z) (done : list ConntrackEvent) (e : Encoder)
    (messages : Z) (buf : list ConntrackEvent) (ev : ConntrackEvent) :
  batched t sat done e messages buf -> sat + 14 * (zlen done + 1) <= u64_max -> zlen done + 1 <= u32_max ->
  exists e' messages' buf', batch_step clock (e, messages) ev = Done (e', messages') /\
    batched t sat (done ++ [ev]) e' messages' buf'.
Proof.
  intros [Hb Ht Hm Hc Hr Hl Hs] Hsat Hlen. unfold batch_step. pose proof Hb as [[Htok _ _ _ _] _ _ _ _ _ _ _].
  pose proof (capacity_bounds _ false Htok) as Hcap. pose proof (zlen_nonneg buf).
  assert (Hsnoc : forall l : list ConntrackEvent, zlen (l ++ [ev]) = zlen l + 1) by (intros; by rewrite zlen_app).
  rewrite Ht in *. destruct (Z.lt_ge_cases (zlen buf) (capacity t false)) as [Hroom|Hfull].
  - destruct (add_record_fits e buf ev Hb) as (e' & -> & Hb' & Ht' & Hs'); [by rewrite Ht|lia|].
    rewrite bind_done. exists e', messages, (buf ++ [ev]). split; [done|]. split; rewrite ?Hsnoc; try done; try lia.
    + congruence.
    + right. by destruct buf.
  - rewrite (add_record_check _ false buf) by done.
    assert (Hf : fits (template e) false (zlen buf + 1) = false)
      by (rewrite Ht, fits_capacity by done; apply Z.leb_gt; lia).
    rewrite Hf, bind_done. cbv iota beta.
    destruct (finalize_done e false buf (clock messages) Hb) as (e1 & -> & Hok1 & Ht1 & _ & _ & _ & Hs1).
    rewrite bind_done, fit_u32, bind_done by (unfold u32_max in *; nia).
    destruct (begin_message_done e1 false Hok1) as (e2 & -> & Hb2 & (Ht2 & _) & Hs2). rewrite bind_done.
    destruct (add_record_fits e2 [] ev Hb2) as (e3 & -> & Hb3 & Ht3 & Hs3);
      [change (zlen []) with 0; rewrite Ht2, Ht1, Ht; lia|lia|].
    rewrite bind_done. cbn [guard_panic]. rewrite bind_done. exists e3, (messages + 1), [ev].
    split; [done|]. split; rewrite ?Hsnoc; try done; try (change (zlen [ev]) with 1); try lia; [congruence|by right].
Qed.

Lemma batch_done (clock : Z -> Clock) (t : Template) (sat : Z) (l done : list ConntrackEvent) (e : Encoder)
    (messages : Z) (buf : list ConntrackEvent) :
  batched t sat done e messages buf -> sat + 14 * zlen (done ++ l) <= u64_max -> zlen (done ++ l) <= u32_max ->
  exists e' messages' buf', foldM (batch_step clock) (e, messages) l = Done (e', messages') /\
    batched t sat (done ++ l) e' messages' buf'.
Proof.
  revert done e messages buf. induction l as [|ev l IH]; intros done e messages buf Hb Hs Hn; cbn [foldM].
  { rewrite app_nil_r. by exists e, messages, buf. }
  rewrite zlen_app, zlen_cons in Hs, Hn. pose proof (zlen_nonneg l).
  destruct (batch_step_done clock t sat done e messages buf ev Hb) as (e1 & m1 & buf1 & -> & Hb1); [lia|lia|].
  rewrite bind_done. destruct (IH (done ++ [ev]) e1 m1 buf1 Hb1) as (e2 & m2 & buf2 & -> & Hb2);
    [rewrite !zlen_app; change (zlen [ev]) with 1; lia..|].
  rewrite <- app_assoc in Hb2. by exists e2, m2, buf2.
Qed.

(** The messages that [n] records take, at least one. *)
Definition messages_for (t : Template) (n : Z) : Z := Z.max 1 ((n + capacity t false - 1) / capacity t false).

Lemma encode_batch_done (clock : Z -> Clock) (e : Encoder) (evs : list ConntrackEvent) :
  encoder_ok e -> saturated_counters e + 14 * zlen evs <= u64_max -> zlen evs <= u32_max ->
  exists e', encode_batch clock e evs = Done (e', messages_for (template e) (zlen evs)) /\
    encoder_ok e' /\ template e' = template e.
Proof.
  intros Hok Hs Hn. unfold encode_batch.
  destruct (begin_message_done e false Hok) as (e1 & -> & Hb1 & (Ht1 & _) & Hs1). rewrite bind_done.
  pose proof Hok as [Htok _ _ _ _]. pose proof (capacity_bounds _ false Htok) as Hcap.
  destruct (batch_done clock (template e) (saturated_counters e) evs [] e1 1 []) as (e2 & m & buf & -> & Hb2); [|done|done|].
  { split; change (zlen (@nil ConntrackEvent)) with 0; try done; try lia. by left. }
  rewrite bind_done. cbv beta iota. destruct Hb2 as [Hb Ht Hm Hc Hr Hl _].
  destruct (finalize_done e2 false buf (clock m) Hb) as (e3 & -> & Hok3 & Ht3 & _). rewrite bind_done.
  exists e3. split; [|split; [done|congruence]]. do 2 f_equal. unfold messages_for. cbn [app] in Hc, Hl.
  set (c := capacity (template e) false) in *. destruct Hl as [->|Hne].
  - change (zlen (@nil ConntrackEvent)) with 0 in *. pose proof (zlen_nonneg buf).
    rewrite (Z.div_small (0 + c - 1)) by lia. assert (m = 1) by nia. lia.
  - assert (1 <= zlen buf) by (destruct buf; [done|rewrite zlen_cons; pose proof (zlen_nonneg buf); lia]).
    replace (zlen evs + c - 1) with ((zlen buf - 1) + m * c) by (rewrite <- Hc; ring). rewrite Z.div_add, Z.div_small by lia. lia.
Qed.

Lemma decode_done (buf : bytes) : pointer_width = 64 -> input_ok buf -> zlen (conntrack_events buf) <= u32_max ->
  decode buf = Done (zlen (conntrack_events buf)).
Proof.
  intros H64 Hok Hn. unfold decode. rewrite parse_messages_done by done. revert Hn. generalize (conntrack_events buf) as l.
  intros l Hn. assert (Hgo : forall acc, 0 <= acc -> acc + zlen l <= u32_max ->
    foldM (fun d (_ : ConntrackEvent) => add_w 32 d 1) acc l = Done (acc + zlen l)).
  { clear Hn. induction l as [|ev l IH]; intros acc H0 Ha; cbn [foldM]; [change (zlen []) with 0; by rewrite Z.add_0_r|].
    rewrite zlen_cons in Ha |- *. pose proof (zlen_nonneg l). rewrite fit_u32, bind_done, IH by lia. f_equal. lia. }
  rewrite Hgo by lia. done.
Qed.

(** ** The benchmarks *)

Lemma template_for_done (protocol : Protocol) (profile : Profile) (width : CounterWidth) :
  exists t, template_for protocol profile width = Done t /\ template_ok t.
Proof.
  unfold template_for. rewrite resolve_eq. change (DEFAULT_TEMPLATE_ID <? MIN_TEMPLATE_ID) with false.
  rewrite bind_done. eexists. split; [done|]. by apply resolved_ok.
Qed.

(** C40: the whole path that is timed, on a 64-bit target: from a datagram in which one message in [nat_in] is
    about a NAT session, exactly those sessions are decoded, and they are encoded in as
    few messages as they fit in; nothing panics, in particular no record fails to fit
    a fresh message. *)
Theorem pipeline_exports_every_session (clock : Z -> Clock) (now : Clock) (protocol : Protocol) (profile : Profile)
    (width : CounterWidth) (events nat_in : Z) :
  pointer_width = 64 -> 0 <= events <= u32_max -> 0 < nat_in ->
  let n := (events + nat_in - 1) / nat_in in
  exists t buf e, template_for protocol profile width = Done t /\ datagram events (Some nat_in) = Done buf /\
    parse buf = Done (sessions events (Some nat_in)) /\ decode buf = Done n /\
    iteration clock (new 0 t now) buf = Done (e, messages_for t n).
Proof.
  intros H64 He Hk n. destruct (template_for_done protocol profile width) as (t & Ht & Htok).
  destruct (datagram_built events (Some nat_in) H64 He) as (buf & Hbuf & Hok & Hev); [intros [= ->]; lia|].
  pose proof (sessions_count events nat_in Hk ltac:(lia)) as Hn. fold n in Hn.
  assert (Hle : n <= u32_max).
  { unfold n. destruct (Z.eq_dec events 0) as [->|]; [rewrite Z.div_small by lia; by vm_compute|].
    transitivity events; [apply Z.div_le_upper_bound; nia|lia]. }
  destruct (encode_batch_done clock (new 0 t now) (sessions events (Some nat_in))) as (e & Henc & _).
  { by apply new_ok. }
  { rewrite Hn. change (saturated_counters (new 0 t now)) with 0. unfold u32_max, u64_max in *. lia. }
  { by rewrite Hn. }
  exists t, buf, e. split; [done|]. split; [done|].
  assert (Hparse : parse buf = Done (sessions events (Some nat_in))) by (by rewrite parse_done, Hev).
  split; [done|]. split; [by rewrite decode_done, Hev, Hn by (rewrite ?Hev, ?Hn; done)|].
  unfold iteration. unfold parse in Hparse. by rewrite Hparse, bind_done, Henc, Hn.
Qed.

(** The batches of [encode], on every configuration. *)
Lemma encode_done (clock : Z -> Clock) (e : Encoder) : encoder_ok e -> saturated_counters e <= 2 ^ 63 ->
  exists e', encode clock e = Done (e', messages_for (template e) 256) /\ encoder_ok e'.
Proof.
  intros Hok Hs. destruct (encode_batch_done clock e (replicate 256 sample_event) Hok) as (e' & Henc & Hok' & _).
  - change (zlen (replicate 256 sample_event)) with 256. unfold u64_max. lia.
  - by vm_compute.
  - by exists e'.
Qed.

(** The assertion of [decode]: the fixture without NAT sessions decodes to nothing. *)
Lemma no_nat_decodes_nothing (events : Z) : pointer_width = 64 -> 0 <= events <= u32_max ->
  exists buf, datagram events None = Done buf /\ decode buf = Done 0.
Proof.
  intros H64 He. destruct (datagram_built events None H64 He) as (buf & Hbuf & Hok & Hev); [done|].
  exists buf. split; [done|]. rewrite sessions_none in Hev. by rewrite decode_done, Hev by (rewrite ?Hev; done).
Qed.

(** A retransmission fits a datagram, on every configuration. *)
Lemma encode_template_done (e : Encoder) (now : Clock) : encoder_ok e ->
  exists e', encode_template e now =
    Done (e', header_len (template_protocol (template e)) + set_size (template e)) /\ encoder_ok e'.
Proof.
  intros Hok. unfold encode_template. destruct (begin_message_done e true Hok) as (e1 & -> & Hb1 & (Ht1 & _) & _).
  rewrite bind_done. destruct (finalize_done e1 true [] now Hb1) as (e2 & -> & Hok2 & _). rewrite bind_done.
  exists e2. split; [|done]. do 2 f_equal. unfold message_bytes, body_bytes. pose proof Hok as [Htok _ _ _ _].
  rewrite Ht1, !zlen_app, zlen_header_bytes, zlen_template_set_bytes by done.
  rewrite zlen_data_set_bytes, bool_decide_true by done. lia.
Qed.

End Fixtures.

(** Ten notifications, every fourth of them of a NAT session. *)
Lemma pipeline_exports_every_session_witness :
  exists t buf e, template_for (T := x86_64_debug) Ipfix Full Eight = Done t /\
    datagram (T := x86_64_debug) 10 (Some 4) = Done buf /\
    parse (T := x86_64_debug) buf = Done [nat_session 0 false; nat_session 4 true; nat_session 8 false] /\
    decode (T := x86_64_debug) buf = Done 3 /\
    iteration (T := x86_64_debug) (fun _ => at_noon) (new 0 t at_noon) buf = Done (e, messages_for t 3).
Proof.
  destruct (@pipeline_exports_every_session x86_64_debug (fun _ => at_noon) at_noon Ipfix Full Eight 10 4)
    as (t & buf & e & Ht & Hb & Hp & Hd & Hi).
  - reflexivity.
  - closed_bounds.
  - lia.
  - exists t, buf, e. exact (conj Ht (conj Hb (conj Hp (conj Hd Hi)))).
Defined.

End pipeline.
