(* ===== verification/Collector.v ===== *)
(** * The reference collector

    [tests/e2e/flowdecode.py]: the collector the end-to-end tests decode the
    exporter's datagrams with.  Python's integers are unbounded and its slices
    clamp, as [sub] does.  A [DecodeError] is an [Err]; the dictionary of
    templates is updated in place, so it is returned with an error too. *)

From stdpp Require Import base list numbers strings pretty gmap.
From Stdlib Require Import ZArith Lia.
From S2P Require Import Prelude.
Local Open Scope Z_scope.

Module flowdecode.

Definition IPFIX_VERSION : Z := 10.
Definition NETFLOW9_VERSION : Z := 9.
Definition IPFIX_HEADER_LEN : Z := 16.
Definition NETFLOW9_HEADER_LEN : Z := 20.
Definition IPFIX_TEMPLATE_SET_ID : Z := 2.
Definition NETFLOW9_TEMPLATE_FLOWSET_ID : Z := 0.
Definition ENTERPRISE_BIT : Z := 0x8000.
Definition REVERSE_PEN : Z := 29305.

Definition IPFIX_ELEMENTS : list (option Z * Z * string) := [
  (None, 1, "octetDeltaCount");
  (None, 2, "packetDeltaCount");
  (None, 4, "protocolIdentifier");
  (None, 7, "sourceTransportPort");
  (None, 8, "sourceIPv4Address");
  (None, 11, "destinationTransportPort");
  (None, 12, "destinationIPv4Address");
  (None, 225, "postNATSourceIPv4Address");
  (None, 226, "postNATDestinationIPv4Address");
  (None, 227, "postNAPTSourceTransportPort");
  (None, 228, "postNAPTDestinationTransportPort");
  (None, 230, "natEvent");
  (Some REVERSE_PEN, 1, "reverseOctetDeltaCount");
  (Some REVERSE_PEN, 2, "reversePacketDeltaCount")]%string.

Definition NETFLOW9_ELEMENTS : list (Z * string) :=
  [(23, "reverseOctetDeltaCount"); (24, "reversePacketDeltaCount")]%string.

Definition ADDRESS_FIELDS : list string :=
  ["sourceIPv4Address"; "destinationIPv4Address"; "postNATSourceIPv4Address";
   "postNATDestinationIPv4Address"]%string.

(** [d.get(k)] of a dictionary written out as a literal with distinct keys. *)
Fixpoint dict_get {K V : Type} `{EqDecision K} (k : K) (d : list (K * V)) : option V :=
  match d with
  | [] => None
  | (k', v) :: d' => if decide (k = k') then Some v else dict_get k d'
  end.

Inductive DecodeError :=
  | ShortDatagram (len : Z)
  | ShortHeader
  | LengthMismatch (claimed actual : Z)
  | UnknownVersion (version : Z)
  | SetTooShort (set_id set_length : Z)
  | SetPastEnd (set_id : Z)
  | ReservedSet (set_id : Z)
  | TemplatePastEnd
  | EnterprisePastEnd
  | EnterpriseUnderV9 (raw_id : Z)
  | ZeroByteRecord (template_id : Z)
  | BadAddress (name : string) (len : Z).

Record Field := { name : string; length : Z; element_id : Z; pen : option Z }.
Record Template := { template_id : Z; fields : list Field }.

Definition record_size (self : Template) : Z := foldr Z.add 0 (map length (fields self)).

Inductive Value := Str (s : string) | Int (v : Z).

#[export] Instance Value_eq_dec : EqDecision Value.
Proof. solve_decision. Defined.

Record Message := {
  version : Z; sequence_number : Z; domain_id : Z; export_time : Z; count : option Z;
  templates : list Template; records : list (gmap string Value); raw : bytes
}.

Definition _element_name (element_id : Z) (pen : option Z) (version : Z) : string :=
  match (if version =? NETFLOW9_VERSION then dict_get element_id NETFLOW9_ELEMENTS else None) with
  | Some name => name
  | None =>
      match dict_get (pen, element_id) IPFIX_ELEMENTS with
      | Some name => name
      | None =>
          match pen with
          | Some pen => "enterprise(" +:+ pretty pen +:+ "):" +:+ pretty element_id
          | None => "element(" +:+ pretty element_id +:+ ")"
          end
      end
  end.

(** [".".join(str(b) for b in raw)] *)
Fixpoint dotted (raw : bytes) : string :=
  match raw with
  | [] => ""
  | [b] => pretty b
  | b :: raw' => pretty b +:+ "." +:+ dotted raw'
  end.

Definition _decode_value (name : string) (raw : bytes) : result DecodeError Value :=
  if bool_decide (name ∈ ADDRESS_FIELDS) then
    if negb (zlen raw =? 4) then Err (BadAddress name (zlen raw))
    else Ok (Str (dotted raw))
  else Ok (Int (from_be_bytes raw)).

(** [struct.unpack_from("!H", data, offset)] and ["!I"], within bounds. *)
Definition unpack_H (data : bytes) (offset : Z) : Z := from_be_bytes (sub data offset (offset + 2)).
Definition unpack_I (data : bytes) (offset : Z) : Z := from_be_bytes (sub data offset (offset + 4)).

(** The [for _ in range(field_count)] loop of a template record. *)
Fixpoint parse_specifiers (n : nat) (payload : bytes) (version offset : Z) (fs : list Field)
    : result DecodeError (Z * list Field) :=
  match n with
  | O => Ok (offset, fs)
  | S n' =>
      if zlen payload <? offset + 4 then Err TemplatePastEnd
      else
        let raw_id := unpack_H payload offset in
        let length := unpack_H payload (offset + 2) in
        let offset := offset + 4 in
        if (version =? IPFIX_VERSION) && negb (Z.land raw_id ENTERPRISE_BIT =? 0) then
          if zlen payload <? offset + 4 then Err EnterprisePastEnd
          else
            let element_id := Z.land raw_id (Z.lnot ENTERPRISE_BIT) in
            let pen := Some (unpack_I payload offset) in
            parse_specifiers n' payload version (offset + 4)
              (fs ++ [{| name := _element_name element_id pen version; length := length;
                         element_id := element_id; pen := pen |}])
        else if (version =? NETFLOW9_VERSION) && negb (Z.land raw_id ENTERPRISE_BIT =? 0) then
          Err (EnterpriseUnderV9 raw_id)
        else
          parse_specifiers n' payload version offset
            (fs ++ [{| name := _element_name raw_id None version; length := length;
                       element_id := raw_id; pen := None |}])
  end.

(** One pass of the [while] over template records. *)
Definition template_record (payload : bytes) (version : Z) (st : Z * list Template)
    : outcome (flow (Z * list Template) (result DecodeError (list Template))) :=
  let '(offset, ts) := st in
  if (offset + 4 <=? zlen payload) &&
     negb (bool_decide (sub payload offset (offset + 4) = replicate 4 0)) then
    let template_id := unpack_H payload offset in
    let field_count := unpack_H payload (offset + 2) in
    match parse_specifiers (Z.to_nat field_count) payload version (offset + 4) [] with
    | Err e => Done (Break (Err e))
    | Ok (offset, fs) =>
        Done (Continue (offset, ts ++ [{| template_id := template_id; fields := fs |}]))
    end
  else Done (Break (Ok ts)).

Definition _parse_template_set (payload : bytes) (version : Z)
    : outcome (result DecodeError (list Template)) :=
  loop (S (Datatypes.length payload)) (template_record payload version) (0, []).

(** The [for field in template.fields] loop of a record. *)
Fixpoint parse_record (payload : bytes) (fs : list Field) (offset : Z) (record : gmap string Value)
    : result DecodeError (Z * gmap string Value) :=
  match fs with
  | [] => Ok (offset, record)
  | f :: fs' =>
      match _decode_value (name f) (sub payload offset (offset + length f)) with
      | Err e => Err e
      | Ok v => parse_record payload fs' (offset + length f) (<[name f := v]> record)
      end
  end.

Definition data_record (payload : bytes) (t : Template) (st : Z * list (gmap string Value))
    : outcome (flow (Z * list (gmap string Value)) (result DecodeError (list (gmap string Value)))) :=
  let '(offset, rs) := st in
  if record_size t <=? zlen payload - offset then
    match parse_record payload (fields t) offset ∅ with
    | Err e => Done (Break (Err e))
    | Ok (offset, record) => Done (Continue (offset, rs ++ [record]))
    end
  else Done (Break (Ok rs)).

Definition _parse_data_set (payload : bytes) (t : Template)
    : outcome (result DecodeError (list (gmap string Value))) :=
  if record_size t =? 0 then Done (Err (ZeroByteRecord (template_id t)))
  else loop (S (Datatypes.length payload)) (data_record payload t) (0, []).

Abbreviation known := (gmap Z Template) (only parsing).

(** What the loop over the sets carries: the offset, the dictionary, and the
    new templates and records so far. *)
Definition set_state : Type := Z * gmap Z Template * list Template * list (gmap string Value).
Definition set_result : Type :=
  gmap Z Template * result DecodeError (list Template * list (gmap string Value)).

Definition learn (ts : known) (new : list Template) : gmap Z Template :=
  foldl (fun m t => <[template_id t := t]> m) ts new.

Definition decode_set (datagram : bytes) (version template_set_id : Z) (st : set_state)
    : outcome (flow set_state set_result) :=
  let '(offset, ts, new, rs) := st in
  if offset + 4 <=? zlen datagram then
    let set_id := unpack_H datagram offset in
    let set_length := unpack_H datagram (offset + 2) in
    if set_length <? 4 then Done (Break (ts, Err (SetTooShort set_id set_length)))
    else if zlen datagram <? offset + set_length then Done (Break (ts, Err (SetPastEnd set_id)))
    else
      let payload := sub datagram (offset + 4) (offset + set_length) in
      if set_id =? template_set_id then
        parsed ← _parse_template_set payload version;
        match parsed with
        | Err e => Done (Break (ts, Err e))
        | Ok l => Done (Continue (offset + set_length, learn ts l, new ++ l, rs))
        end
      else if set_id <? 256 then Done (Break (ts, Err (ReservedSet set_id)))
      else
        match ts !! set_id with
        | None => Done (Continue (offset + set_length, ts, new, rs))
        | Some t =>
            parsed ← _parse_data_set payload t;
            match parsed with
            | Err e => Done (Break (ts, Err e))
            | Ok l => Done (Continue (offset + set_length, ts, new, rs ++ l))
            end
        end
  else Done (Break (ts, Ok (new, rs))).

Definition decode_sets (datagram : bytes) (version template_set_id offset : Z) (ts : known)
    : outcome set_result :=
  loop (S (Datatypes.length datagram)) (decode_set datagram version template_set_id)
    (offset, ts, [], []).

(** [decode(datagram, templates)]: the dictionary after the call and its result. *)
Definition decode (datagram : bytes) (ts : known)
    : outcome (gmap Z Template * result DecodeError Message) :=
  if zlen datagram <? 4 then Done (ts, Err (ShortDatagram (zlen datagram)))
  else
    let version := unpack_H datagram 0 in
    if version =? IPFIX_VERSION then
      if zlen datagram <? IPFIX_HEADER_LEN then Done (ts, Err ShortHeader)
      else
        let len := unpack_H datagram 2 in
        if negb (len =? zlen datagram) then Done (ts, Err (LengthMismatch len (zlen datagram)))
        else
          '(ts, res) ← decode_sets datagram version IPFIX_TEMPLATE_SET_ID IPFIX_HEADER_LEN ts;
          Done (ts, match res with
                    | Err e => Err e
                    | Ok (new, rs) => Ok {|
                        version := version; sequence_number := unpack_I datagram 8;
                        domain_id := unpack_I datagram 12; export_time := unpack_I datagram 4;
                        count := None; templates := new; records := rs; raw := datagram |}
                    end)
    else if version =? NETFLOW9_VERSION then
      if zlen datagram <? NETFLOW9_HEADER_LEN then Done (ts, Err ShortHeader)
      else
        '(ts, res) ← decode_sets datagram version NETFLOW9_TEMPLATE_FLOWSET_ID NETFLOW9_HEADER_LEN ts;
        Done (ts, match res with
                  | Err e => Err e
                  | Ok (new, rs) => Ok {|
                      version := version; sequence_number := unpack_I datagram 12;
                      domain_id := unpack_I datagram 16; export_time := unpack_I datagram 8;
                      count := Some (unpack_H datagram 2); templates := new; records := rs;
                      raw := datagram |}
                  end)
    else Done (ts, Err (UnknownVersion version)).

End flowdecode.
