(* ===== verification/CollectorProps.v ===== *)
(** * Export and collection round trip

    What the reference collector reads out of the exporter's messages: the
    template as it was resolved, and for every record the values of the event it
    was written from, under the collector's names. *)

From stdpp Require Import base list numbers strings pretty gmap.
From Stdlib Require Import ZArith Lia.
From S2P Require Import Prelude Elements Event Template Record Encoder EncoderSpec EncoderProps Collector.
Local Open Scope Z_scope.

(** ** What the collector should see *)

(** The collector's name for what a field carries, the same for both protocols. *)
Definition logical_name (source : FieldSource.t) : string :=
  match source with
  | FieldSource.NatEvent => "natEvent"
  | FieldSource.Protocol => "protocolIdentifier"
  | FieldSource.SrcIp => "sourceIPv4Address"
  | FieldSource.DstIp => "destinationIPv4Address"
  | FieldSource.SrcPort => "sourceTransportPort"
  | FieldSource.DstPort => "destinationTransportPort"
  | FieldSource.PostNatSrcIp => "postNATSourceIPv4Address"
  | FieldSource.PostNatSrcPort => "postNAPTSourceTransportPort"
  | FieldSource.PostNatDstIp => "postNATDestinationIPv4Address"
  | FieldSource.PostNatDstPort => "postNAPTDestinationTransportPort"
  | FieldSource.OrigBytes => "octetDeltaCount"
  | FieldSource.OrigPackets => "packetDeltaCount"
  | FieldSource.ReplyBytes => "reverseOctetDeltaCount"
  | FieldSource.ReplyPackets => "reversePacketDeltaCount"
  end.

(** The value it should show: addresses dotted, the NAT event as its registered number,
    ports and the protocol as they are, counters at most what their width can
    hold. *)
Definition shown (ev : ConntrackEvent) (f : ResolvedField) : flowdecode.Value :=
  let counter n := flowdecode.Int (Z.min n (2 ^ (8 * rf_length f) - 1)) in
  match rf_source f with
  | FieldSource.NatEvent => flowdecode.Int match nat_event ev with Create => 4 | Delete => 5 end
  | FieldSource.Protocol => flowdecode.Int (protocol ev)
  | FieldSource.SrcIp => flowdecode.Str (Ipv4Addr_fmt (src_ip ev))
  | FieldSource.DstIp => flowdecode.Str (Ipv4Addr_fmt (dst_ip ev))
  | FieldSource.SrcPort => flowdecode.Int (src_port ev)
  | FieldSource.DstPort => flowdecode.Int (dst_port ev)
  | FieldSource.PostNatSrcIp => flowdecode.Str (Ipv4Addr_fmt (post_nat_src_ip ev))
  | FieldSource.PostNatSrcPort => flowdecode.Int (post_nat_src_port ev)
  | FieldSource.PostNatDstIp => flowdecode.Str (Ipv4Addr_fmt (post_nat_dst_ip ev))
  | FieldSource.PostNatDstPort => flowdecode.Int (post_nat_dst_port ev)
  | FieldSource.OrigBytes => counter (orig_bytes ev)
  | FieldSource.OrigPackets => counter (orig_packets ev)
  | FieldSource.ReplyBytes => counter (reply_bytes ev)
  | FieldSource.ReplyPackets => counter (reply_packets ev)
  end.

Definition collected (t : Template) (ev : ConntrackEvent) : gmap string flowdecode.Value :=
  list_to_map (map (fun f => (logical_name (rf_source f), shown ev f)) (fields t)).

Definition py_field (f : ResolvedField) : flowdecode.Field :=
  {| flowdecode.name := logical_name (rf_source f); flowdecode.length := rf_length f;
     flowdecode.element_id := rf_id f; flowdecode.pen := rf_pen f |}.

Definition py_template (t : Template) : flowdecode.Template :=
  {| flowdecode.template_id := template_id t; flowdecode.fields := map py_field (fields t) |}.

(** ** Reading at a position *)

Record at_cursor (d : bytes) (o : Z) (rest : bytes) : Prop := {
  ac_pos : 0 <= o;
  ac_len : o + zlen rest = zlen d;
  ac_rest : drop (Z.to_nat o) d = rest
}.

Lemma cursor_after (x rest : bytes) (o : Z) : o = zlen x -> at_cursor (x ++ rest) o rest.
Proof.
  intros ->. split; [apply zlen_nonneg | by rewrite zlen_app | by apply drop_app_zlen].
Qed.

Lemma cursor_next (d : bytes) (o o' : Z) (x rest : bytes) :
  at_cursor d o (x ++ rest) -> o' = o + zlen x -> at_cursor d o' rest.
Proof.
  intros [Hpos Hlen Hrest] ->. pose proof (zlen_nonneg x). split; [lia|rewrite zlen_app in Hlen; lia|].
  rewrite Z2Nat.inj_add, <- drop_drop, Hrest by lia. by apply drop_app_zlen.
Qed.

Lemma cursor_sub (d : bytes) (o o' : Z) (x rest : bytes) :
  at_cursor d o (x ++ rest) -> o' = o + zlen x -> sub d o o' = x.
Proof.
  intros [Hpos Hlen Hrest] ->. unfold sub. rewrite Hrest. apply take_app_zlen. lia.
Qed.

Lemma cursor_H (d : bytes) (o v : Z) (rest : bytes) :
  at_cursor d o (to_be_bytes 2 v ++ rest) -> is_u16 v -> flowdecode.unpack_H d o = v.
Proof.
  intros Hc Hv. unfold flowdecode.unpack_H. rewrite (cursor_sub _ _ _ _ _ Hc) by sizes.
  by apply from_to_be_bytes_small.
Qed.

Lemma cursor_I (d : bytes) (o v : Z) (rest : bytes) :
  at_cursor d o (to_be_bytes 4 v ++ rest) -> is_u32 v -> flowdecode.unpack_I d o = v.
Proof.
  intros Hc Hv. unfold flowdecode.unpack_I. rewrite (cursor_sub _ _ _ _ _ Hc) by sizes.
  by apply from_to_be_bytes_small.
Qed.

(** Moving past the first piece. *)
Ltac past H name := pose proof (cursor_next _ _ _ _ _ H eq_refl) as name; rewrite ?zlen_to_be_bytes in name;
  change (Z.of_nat 2) with 2 in name; change (Z.of_nat 4) with 4 in name; rewrite <- ?Z.add_assoc in name;
  change (2 + 2) with 4 in name; change (4 + 4) with 8 in name.

(** ** Field specifiers *)

Lemma land_enterprise (id : Z) : 0 <= id < ENTERPRISE_BIT -> Z.land id ENTERPRISE_BIT = 0.
Proof.
  intros Hid. change ENTERPRISE_BIT with (2 ^ 15) in *. apply Z.bits_inj'. intros n Hn.
  rewrite Z.land_spec, Z.bits_0, Z.pow2_bits_eqb by lia.
  destruct (Z.eqb_spec 15 n) as [<-|]; [|apply andb_false_r]. rewrite andb_true_r.
  destruct (Z.eq_dec id 0) as [->|]; [apply Z.testbit_0_l|].
  apply Z.bits_above_log2; [lia|]. apply Z.log2_lt_pow2; lia.
Qed.

(** The enterprise bit can be set and taken off again. *)
Lemma enterprise_round_trip (id : Z) : 0 <= id < ENTERPRISE_BIT ->
  let raw := Z.lor id ENTERPRISE_BIT in
  is_u16 raw /\ Z.land raw ENTERPRISE_BIT = ENTERPRISE_BIT /\
  Z.land raw (Z.lnot ENTERPRISE_BIT) = id.
Proof.
  intros Hid raw. pose proof (land_enterprise id Hid) as Hland. unfold raw. split_and!.
  - unfold is_u16. rewrite <- Z.lxor_lor, <- Z.add_nocarry_lxor by done.
    unfold ENTERPRISE_BIT in *. lia.
  - by rewrite Z.land_lor_distr_l, Hland.
  - rewrite Z.land_lor_distr_l, <- !Z.ldiff_land, Z.ldiff_diag, Z.lor_0_r.
    rewrite <- (Z.lor_ldiff_and id ENTERPRISE_BIT) at 2. by rewrite Hland, Z.lor_0_r.
Qed.

(** What makes a field readable by the collector: its element has the name of
    its source. *)
Definition named (p : Protocol) (f : ResolvedField) : Prop :=
  field_ok p f /\ flowdecode._element_name (rf_id f) (rf_pen f) (version p) = logical_name (rf_source f).

Lemma resolved_named (p : Protocol) (pr : Profile) (w : CounterWidth) (id : Z) :
  Forall (named p) (fields (resolved p pr w id)).
Proof.
  destruct p, pr, w; repeat (apply Forall_cons_2; [split; [split; by_evaluation|by vm_compute]|]);
    apply Forall_nil_2.
Qed.

Lemma parse_specifiers_done (p : Protocol) (payload : bytes) (fs : list ResolvedField) (o : Z)
    (acc : list flowdecode.Field) (rest : bytes) :
  Forall (named p) fs -> at_cursor payload o (concat (map specifier_bytes fs) ++ rest) ->
  flowdecode.parse_specifiers (length fs) payload (version p) o acc =
  Ok (o + sum_z (map specifier_len fs), acc ++ map py_field fs).
Proof.
  intros Hfs. revert o acc. induction Hfs as [|f fs [Hf Hname] _ IH]; intros o acc Hc.
  { cbn. by rewrite app_nil_r, Z.add_0_r. }
  cbn [map concat] in Hc. rewrite <- app_assoc in Hc.
  pose proof (cursor_next _ _ _ _ _ Hc eq_refl) as Hnext. rewrite zlen_specifier_bytes in Hnext.
  pose proof (ac_len _ _ _ Hc) as Hlen. rewrite zlen_app, zlen_specifier_bytes in Hlen.
  pose proof (zlen_nonneg (concat (map specifier_bytes fs) ++ rest)).
  change (sum_z (map specifier_len (f :: fs))) with (specifier_len f + sum_z (map specifier_len fs)).
  specialize (IH (o + specifier_len f) (acc ++ [py_field f]) Hnext).
  rewrite <- app_assoc, <- Z.add_assoc in IH. cbn [length flowdecode.parse_specifiers].
  change (map py_field (f :: fs)) with ([py_field f] ++ map py_field fs).
  pose proof (specifier_len_pos f). destruct (Z.ltb_spec (zlen payload) (o + 4)); [lia|].
  destruct Hf as [Hid Hl _ Hpen]. unfold specifier_bytes, specifier_len, py_field in *.
  destruct (rf_pen f) as [pen|]; rewrite <- ?app_assoc in Hc.
  - destruct Hpen as [Hsup Hpen]. destruct p; [|done].
    destruct (enterprise_round_trip (rf_id f) Hid) as (Hraw & Hbit & Hback).
    past Hc Hc2. past Hc2 Hc4.
    rewrite (cursor_H _ _ _ _ Hc) by done. rewrite (cursor_H _ _ _ _ Hc2) by (unfold is_u16; lia).
    change flowdecode.ENTERPRISE_BIT with ENTERPRISE_BIT.
    rewrite (cursor_I _ _ _ _ Hc4) by done. rewrite Hbit, Hback. cbn [negb andb].
    change (version Ipfix =? flowdecode.IPFIX_VERSION) with true.
    change (ENTERPRISE_BIT =? 0) with false. cbn [negb andb].
    destruct (Z.ltb_spec (zlen payload) (o + 4 + 4));
      [unfold FIELD_SPECIFIER_LEN, ENTERPRISE_NUMBER_LEN in *; lia|].
    rewrite Hname. replace (o + 4 + 4) with (o + (FIELD_SPECIFIER_LEN + ENTERPRISE_NUMBER_LEN))
      by (unfold FIELD_SPECIFIER_LEN, ENTERPRISE_NUMBER_LEN; lia). exact IH.
  - past Hc Hc2. rewrite (cursor_H _ _ _ _ Hc) by (unfold is_u16, ENTERPRISE_BIT in *; lia).
    rewrite (cursor_H _ _ _ _ Hc2) by (unfold is_u16; lia).
    change flowdecode.ENTERPRISE_BIT with ENTERPRISE_BIT.
    rewrite land_enterprise by done. cbn [Z.eqb negb]. rewrite !andb_false_r, Hname. exact IH.
Qed.

Lemma loop_continue {S R : Type} (body : S -> outcome (flow S R)) (fuel : nat) (s s' : S) :
  body s = Done (Continue s') -> loop (Datatypes.S fuel) body s = loop fuel body s'.
Proof. intros H. cbn [loop]. by rewrite H. Qed.

Lemma loop_break {S R : Type} (body : S -> outcome (flow S R)) (fuel : nat) (s : S) (r : R) :
  body s = Done (Break r) -> loop (Datatypes.S fuel) body s = Done r.
Proof. intros H. cbn [loop]. by rewrite H. Qed.

(** A template record with the padding after it, as the set's payload. *)
Definition template_record_bytes (t : Template) : bytes :=
  to_be_bytes 2 (template_id t) ++ to_be_bytes 2 (zlen (fields t)) ++
  concat (map specifier_bytes (fields t)).

Lemma zlen_specifiers (fs : list ResolvedField) :
  zlen (concat (map specifier_bytes fs)) = sum_z (map specifier_len fs).
Proof. apply zlen_concat_map. intros. apply zlen_specifier_bytes. Qed.

Lemma parse_template_set_done (t : Template) (pad : bytes) :
  template_ok t -> Forall (named (template_protocol t)) (fields t) -> zlen pad < 4 ->
  flowdecode._parse_template_set (template_record_bytes t ++ pad) (version (template_protocol t)) =
  Done (Ok [py_template t]).
Proof.
  intros Ht Hnamed Hpad. set (payload := template_record_bytes t ++ pad).
  set (specs := concat (map specifier_bytes (fields t))).
  assert (Hc : at_cursor payload 0 (to_be_bytes 2 (template_id t) ++ to_be_bytes 2 (zlen (fields t)) ++
                                    specs ++ pad)).
  { unfold payload, template_record_bytes. rewrite <- !app_assoc. by apply (cursor_after []). }
  past Hc Hc2. past Hc2 Hc4. rewrite Z.add_0_l in Hc2, Hc4.
  pose proof (ac_len _ _ _ Hc4) as Hlen. rewrite zlen_app in Hlen. unfold specs in Hlen.
  rewrite zlen_specifiers in Hlen. pose proof (specifiers_len_nonneg (fields t)).
  pose proof (zlen_nonneg pad). pose proof (to_id _ Ht) as Hid. pose proof (to_count _ Ht).
  unfold flowdecode._parse_template_set.
  destruct (length payload) as [|n] eqn:Hn; [unfold zlen in Hlen; lia|].
  rewrite (loop_continue _ _ _ (4 + sum_z (map specifier_len (fields t)), [py_template t])).
  - apply loop_break. unfold flowdecode.template_record.
    by destruct (Z.leb_spec (4 + sum_z (map specifier_len (fields t)) + 4) (zlen payload)); [lia|].
  - unfold flowdecode.template_record. change (0 + 4) with 4. change (0 + 2) with 2.
    destruct (Z.leb_spec 4 (zlen payload)); [|lia].
    rewrite (cursor_H _ _ _ _ Hc) by (unfold is_u16, MIN_TEMPLATE_ID in *; lia).
    rewrite (cursor_H _ _ _ _ Hc2) by (unfold is_u16; lia).
    rewrite bool_decide_false; cbn [andb negb].
    + unfold zlen at 1. rewrite Nat2Z.id.
      by rewrite (parse_specifiers_done _ _ _ _ _ _ Hnamed Hc4).
    + intros Hz. rewrite app_assoc in Hc. rewrite (cursor_sub _ _ _ _ _ Hc) in Hz by sizes.
      apply (f_equal (fun l => from_be_bytes (take 2 l))) in Hz.
      rewrite take_app_length' in Hz by (symmetry; apply length_to_be_bytes).
      rewrite from_to_be_bytes_small in Hz by (unfold MIN_TEMPLATE_ID in *; lia).
      change (from_be_bytes (take 2 (replicate 4 0))) with 0 in Hz. unfold MIN_TEMPLATE_ID in *. lia.
Qed.

(** ** Records *)

Lemma dotted_octets (a : Ipv4Addr) : flowdecode.dotted (octets a) = Ipv4Addr_fmt a.
Proof. done. Qed.

Lemma decode_value_done (p : Protocol) (ev : ConntrackEvent) (f : ResolvedField) :
  field_ok p f -> event_ok ev ->
  flowdecode._decode_value (logical_name (rf_source f)) (field_bytes ev f) = Ok (shown ev f).
Proof.
  intros Hf Hev. pose proof (from_field_bytes p ev f Hf Hev) as Hv. unfold field_max in Hv.
  destruct Hf as [_ _ Hnat _]. destruct Hev. unfold is_u8, is_u16 in *.
  unfold flowdecode._decode_value, shown.
  destruct (rf_source f) eqn:Hs; cbn [logical_name value_of value_number FieldSource.natural_len] in *;
    match goal with |- context [bool_decide ?P] =>
      let b := eval vm_compute in (bool_decide P) in change (bool_decide P) with b end.
  all: try by rewrite Hv.
  all: try (rewrite Hv, Hnat, Z.min_l by lia; done).
  all: try (unfold field_bytes; rewrite Hs; cbn [value_of]; rewrite zlen_octets; cbn [Z.eqb negb];
            by rewrite dotted_octets).
  rewrite Hv, Hnat. by destruct (nat_event ev).
Qed.

Definition insert_field (ev : ConntrackEvent) (m : gmap string flowdecode.Value) (f : ResolvedField)
    : gmap string flowdecode.Value :=
  <[logical_name (rf_source f) := shown ev f]> m.

Lemma parse_record_done (p : Protocol) (ev : ConntrackEvent) (payload : bytes)
    (fs : list ResolvedField) (o : Z) (acc : gmap string flowdecode.Value) (rest : bytes) :
  Forall (named p) fs -> event_ok ev -> at_cursor payload o (record_bytes fs ev ++ rest) ->
  flowdecode.parse_record payload (map py_field fs) o acc =
  Ok (o + sum_z (map rf_length fs), foldl (insert_field ev) acc fs).
Proof.
  intros Hfs Hev. revert o acc. induction Hfs as [|f fs [Hf _] Hfs IH]; intros o acc Hc.
  { cbn. by rewrite Z.add_0_r. }
  change (record_bytes (f :: fs) ev) with (field_bytes ev f ++ record_bytes fs ev) in Hc.
  rewrite <- app_assoc in Hc. pose proof (zlen_field_bytes p ev f Hf) as Hlen.
  cbn [map flowdecode.parse_record py_field flowdecode.name flowdecode.length].
  rewrite (cursor_sub _ _ _ _ _ Hc) by lia. rewrite (decode_value_done p) by done.
  change (sum_z (rf_length f :: map rf_length fs)) with (rf_length f + sum_z (map rf_length fs)).
  rewrite Z.add_assoc. cbn [foldl]. apply IH. by apply (cursor_next _ _ _ _ _ Hc); lia.
Qed.

(** Distinct names: inserting the fields in order is the map of all of them. *)
Definition field_names (t : Template) : list string := map (fun f => logical_name (rf_source f)) (fields t).

Lemma insert_fields_collected (t : Template) (ev : ConntrackEvent) :
  NoDup (field_names t) -> foldl (insert_field ev) ∅ (fields t) = collected t ev.
Proof.
  unfold field_names, collected. generalize (fields t) as fs. intros fs.
  induction fs as [|f fs IH] using rev_ind; intros Hnd; [done|].
  rewrite map_app in Hnd. apply NoDup_app in Hnd as (Hnd & Hnew & _).
  rewrite foldl_app, IH, map_app, list_to_map_app by done. cbn [foldl map].
  unfold insert_field. rewrite list_to_map_cons, list_to_map_nil, insert_empty.
  rewrite insert_union_singleton_l. apply map_union_comm, map_disjoint_singleton_l.
  apply not_elem_of_list_to_map. intros Hin. rewrite <- list_fmap_compose in Hin.
  apply (Hnew (logical_name (rf_source f))); [exact Hin|by left].
Qed.

(** A template the collector can work with. *)
Record readable (t : Template) : Prop := {
  rd_ok : template_ok t;
  rd_named : Forall (named (template_protocol t)) (fields t);
  rd_distinct : NoDup (field_names t)
}.

Lemma resolved_readable (p : Protocol) (pr : Profile) (w : CounterWidth) (id : Z) :
  MIN_TEMPLATE_ID <= id < 2 ^ 16 -> readable (resolved p pr w id).
Proof.
  intros Hid. split; [by apply resolved_ok|apply resolved_named|].
  apply (bool_decide_unpack _). destruct p, pr, w; by vm_compute.
Qed.

Section Decoding.
Context (t : Template) (Hread : readable t).

Lemma py_record_size : flowdecode.record_size (py_template t) = record_size t.
Proof using Hread.
  destruct Hread as [[_ _ Hsize _ _ _ _] _ _]. rewrite Hsize. unfold flowdecode.record_size, sum_z.
  cbn [py_template flowdecode.fields]. f_equal. rewrite map_map. done.
Qed.

Lemma data_records_done (payload : bytes) (evs : list ConntrackEvent) (o : Z)
    (acc : list (gmap string flowdecode.Value)) (pad : bytes) (fuel : nat) :
  Forall event_ok evs -> zlen pad < record_size t -> (length evs < fuel)%nat ->
  at_cursor payload o (concat (map (record_bytes (fields t)) evs) ++ pad) ->
  loop fuel (flowdecode.data_record payload (py_template t)) (o, acc) =
  Done (Ok (acc ++ map (collected t) evs)).
Proof using Hread.
  pose proof (rd_ok _ Hread) as Ht. pose proof (to_size_bounds _ Ht).
  intros Hevs Hpad. revert o acc fuel. induction Hevs as [|ev evs Hev Hevs IH]; intros o acc fuel Hfuel Hc.
  - destruct fuel as [|fuel]; [lia|]. cbn [map concat app] in *. rewrite app_nil_r.
    pose proof (ac_len _ _ _ Hc) as Hlen. apply loop_break. unfold flowdecode.data_record.
    rewrite py_record_size. by destruct (Z.leb_spec (record_size t) (zlen payload - o)); [lia|].
  - destruct fuel as [|fuel]; [cbn in Hfuel; lia|]. cbn [map concat] in Hc. rewrite <- app_assoc in Hc.
    pose proof (ac_len _ _ _ Hc) as Hlen. rewrite zlen_app, zlen_record in Hlen by done.
    pose proof (zlen_nonneg (concat (map (record_bytes (fields t)) evs) ++ pad)).
    rewrite (loop_continue _ _ _ (o + record_size t, acc ++ [collected t ev])).
    + rewrite IH; [by rewrite <- app_assoc|cbn in Hfuel; lia|].
      apply (cursor_next _ _ _ _ _ Hc). by rewrite zlen_record.
    + unfold flowdecode.data_record. rewrite py_record_size.
      destruct (Z.leb_spec (record_size t) (zlen payload - o)); [|lia].
      cbn [py_template flowdecode.fields].
      rewrite (parse_record_done _ ev _ _ _ _ _ (rd_named _ Hread) Hev Hc).
      by rewrite <- (to_size _ Ht), insert_fields_collected by apply (rd_distinct _ Hread).
Qed.

Lemma parse_data_set_done (evs : list ConntrackEvent) (pad : bytes) :
  Forall event_ok evs -> zlen pad < record_size t ->
  flowdecode._parse_data_set (concat (map (record_bytes (fields t)) evs) ++ pad) (py_template t) =
  Done (Ok (map (collected t) evs)).
Proof using Hread.
  intros Hevs Hpad. pose proof (rd_ok _ Hread) as Ht. pose proof (to_size_bounds _ Ht).
  unfold flowdecode._parse_data_set. rewrite py_record_size.
  destruct (Z.eqb_spec (record_size t) 0); [lia|].
  rewrite (data_records_done _ evs _ _ pad); [done|done|done| |by apply (cursor_after [])].
  assert (zlen evs <= zlen (concat (map (record_bytes (fields t)) evs) ++ pad)); [|unfold zlen in *; lia].
  rewrite zlen_app, zlen_records by done. pose proof (zlen_nonneg evs). pose proof (zlen_nonneg pad). nia.
Qed.

(** Padding is shorter than what it aligns to. *)
Lemma zlen_padding (a : Z) (bs : bytes) : 0 < a ->
  0 <= align_up (zlen bs) a - zlen bs < a.
Proof using Type. intros Ha. pose proof (align_up_spec (zlen bs) a Ha (zlen_nonneg bs)). lia. Qed.

Definition set_id_of (p : Protocol) : Z :=
  match p with
  | Ipfix => flowdecode.IPFIX_TEMPLATE_SET_ID
  | Netflow9 => flowdecode.NETFLOW9_TEMPLATE_FLOWSET_ID
  end.

(** One set at the cursor: its header, and the payload the collector cuts out. *)
Lemma set_at_cursor (d : bytes) (o id len : Z) (payload rest : bytes) :
  is_u16 id -> is_u16 len -> len = 4 + zlen payload ->
  at_cursor d o (to_be_bytes 2 id ++ to_be_bytes 2 len ++ payload ++ rest) ->
  flowdecode.unpack_H d o = id /\ flowdecode.unpack_H d (o + 2) = len /\
  sub d (o + 4) (o + len) = payload /\ o + len <= zlen d /\ at_cursor d (o + len) rest.
Proof using Type.
  intros Hid Hlen -> Hc. past Hc Hc2. past Hc2 Hc4.
  pose proof (cursor_next _ _ _ _ _ Hc4 eq_refl) as Hend. rewrite <- Z.add_assoc in Hend.
  pose proof (ac_len _ _ _ Hend). pose proof (zlen_nonneg rest).
  split_and!; [by eapply cursor_H|by eapply cursor_H|eapply cursor_sub; [exact Hc4|lia]|lia|done].
Qed.

Lemma decode_template_set (d : bytes) (o : Z) (ts : gmap Z flowdecode.Template)
    (new : list flowdecode.Template) (rs : list (gmap string flowdecode.Value)) (rest : bytes) :
  at_cursor d o (template_set_bytes t ++ rest) ->
  flowdecode.decode_set d (version (template_protocol t)) (set_id_of (template_protocol t))
    (o, ts, new, rs) =
  Done (Continue (o + set_size t, <[template_id t := py_template t]> ts, new ++ [py_template t], rs)) /\
  at_cursor d (o + set_size t) rest.
Proof using Hread.
  intros Hc. destruct Hread as [Ht Hnamed _]. pose proof (to_set _ Ht) as Hset.
  pose proof (zlen_template_set_bytes t) as Hz.
  assert (Hsid : template_set_id (template_protocol t) = set_id_of (template_protocol t))
    by (by destruct (template_protocol t)).
  unfold template_set_bytes, pad_to in Hc, Hz. fold (template_record_bytes t) in Hc, Hz.
  set (pad := replicate _ 0) in *. rewrite <- !app_assoc in Hc. rewrite (app_assoc (template_record_bytes t)) in Hc.
  rewrite !zlen_app, !zlen_to_be_bytes in Hz.
  destruct (set_at_cursor d o (template_set_id (template_protocol t)) (set_size t)
    (template_record_bytes t ++ pad) rest) as (Hi & Hl & Hp & Hroom & Hend);
    [by destruct (template_protocol t)|unfold is_u16; lia|rewrite zlen_app; lia|exact Hc|].
  assert (Hpad : zlen pad < 4).
  { unfold pad. rewrite zlen_replicate.
    match goal with |- context [align_up (zlen ?b) ?a] =>
      pose proof (zlen_padding a b (set_alignment_pos _)) end.
    destruct (set_alignment_cases (template_protocol t)); lia. }
  split; [|done]. unfold flowdecode.decode_set. rewrite Hi, Hl, Hp.
  destruct (Z.leb_spec (o + 4) (zlen d)); [|lia]. destruct (Z.ltb_spec (set_size t) 4); [lia|].
  destruct (Z.ltb_spec (zlen d) (o + set_size t)); [lia|]. rewrite Hsid, Z.eqb_refl.
  by rewrite parse_template_set_done, bind_done by done.
Qed.

(** What is read from data records: nothing, if the template is not known. *)
Definition read_out (ts : gmap Z flowdecode.Template) (evs : list ConntrackEvent)
    : list (gmap string flowdecode.Value) :=
  match ts !! template_id t with Some _ => map (collected t) evs | None => [] end.

(** A dictionary with no other template under this one's number. *)
Definition no_other (ts : gmap Z flowdecode.Template) : Prop :=
  ts !! template_id t = None \/ ts !! template_id t = Some (py_template t).

Lemma decode_data_set (d : bytes) (o : Z) (ts : gmap Z flowdecode.Template)
    (new : list flowdecode.Template) (rs : list (gmap string flowdecode.Value)) (rest : bytes)
    (evs : list ConntrackEvent) :
  evs <> [] -> Forall event_ok evs -> is_u16 (data_set_size t (zlen evs)) -> no_other ts ->
  at_cursor d o (data_set_bytes t evs ++ rest) ->
  flowdecode.decode_set d (version (template_protocol t)) (set_id_of (template_protocol t))
    (o, ts, new, rs) =
  Done (Continue (o + data_set_size t (zlen evs), ts, new, rs ++ read_out ts evs)) /\
  at_cursor d (o + data_set_size t (zlen evs)) rest.
Proof using Hread.
  intros Hne Hevs Hu16 Hknown Hc. pose proof (rd_ok _ Hread) as Ht. pose proof (to_id _ Ht) as Hid.
  pose proof (to_size_bounds _ Ht). pose proof (zlen_data_set_bytes t Ht evs) as Hz.
  rewrite bool_decide_false in Hz by done. set (len := data_set_size t (zlen evs)) in *.
  assert (Hopen : open_set_bytes t len evs = to_be_bytes 2 (template_id t) ++ to_be_bytes 2 len ++
                  concat (map (record_bytes (fields t)) evs)) by (by destruct evs).
  unfold data_set_bytes, pad_to in Hc, Hz. fold len in Hc, Hz. rewrite Hopen in Hc at 1.
  rewrite Hopen in Hz at 1. set (pad := replicate _ 0) in *. set (recs := concat _) in *.
  rewrite <- !app_assoc in Hc. rewrite (app_assoc recs) in Hc. rewrite !zlen_app, !zlen_to_be_bytes in Hz.
  destruct (set_at_cursor d o (template_id t) len (recs ++ pad) rest) as (Hi & Hl & Hp & Hroom & Hend);
    [unfold is_u16, MIN_TEMPLATE_ID in *; lia|done|rewrite zlen_app; lia|exact Hc|].
  pose proof (zlen_nonneg recs). pose proof (zlen_nonneg pad).
  assert (Hpad : zlen pad < record_size t).
  { unfold pad. rewrite zlen_replicate.
    match goal with |- context [align_up (zlen ?b) ?a] =>
      pose proof (zlen_padding a b (set_alignment_pos _)) end.
    destruct (set_alignment_cases (template_protocol t)); lia. }
  split; [|done]. unfold flowdecode.decode_set. rewrite Hi, Hl, Hp.
  destruct (Z.leb_spec (o + 4) (zlen d)); [|lia]. destruct (Z.ltb_spec len 4); [lia|].
  destruct (Z.ltb_spec (zlen d) (o + len)); [lia|].
  destruct (Z.eqb_spec (template_id t) (set_id_of (template_protocol t))) as [He|].
  { assert (set_id_of (template_protocol t) <= 2) by (by destruct (template_protocol t)).
    unfold MIN_TEMPLATE_ID in Hid. lia. }
  unfold MIN_TEMPLATE_ID in Hid. destruct (Z.ltb_spec (template_id t) 256); [lia|].
  unfold read_out. destruct Hknown as [-> | ->]; [by rewrite app_nil_r|].
  unfold recs. by rewrite parse_data_set_done, bind_done by done.
Qed.

(** The dictionary after a message with or without the template. *)
Definition learned (incl : bool) (ts : gmap Z flowdecode.Template) : gmap Z flowdecode.Template :=
  if incl then <[template_id t := py_template t]> ts else ts.

Definition announced (incl : bool) : list flowdecode.Template := if incl then [py_template t] else [].

Lemma decode_end (d : bytes) (v sid o : Z) (ts : gmap Z flowdecode.Template)
    (new : list flowdecode.Template) (rs : list (gmap string flowdecode.Value)) (fuel : nat) :
  at_cursor d o [] -> loop (S fuel) (flowdecode.decode_set d v sid) (o, ts, new, rs) =
  Done (ts, Ok (new, rs)).
Proof using Type.
  intros Hc. pose proof (ac_len _ _ _ Hc) as Hlen. change (zlen []) with 0 in Hlen.
  apply loop_break. unfold flowdecode.decode_set. by destruct (Z.leb_spec (o + 4) (zlen d)); [lia|].
Qed.

Lemma decode_data_sets (d : bytes) (o : Z) (ts : gmap Z flowdecode.Template)
    (new : list flowdecode.Template) (fuel : nat) (evs : list ConntrackEvent) :
  Forall event_ok evs -> is_u16 (data_set_size t (zlen evs)) -> no_other ts ->
  at_cursor d o (data_set_bytes t evs) ->
  loop (S (S fuel)) (flowdecode.decode_set d (version (template_protocol t))
                       (set_id_of (template_protocol t))) (o, ts, new, []) =
  Done (ts, Ok (new, read_out ts evs)).
Proof using Hread.
  intros Hevs Hu16 Hknown Hc. destruct (decide (evs = [])) as [->|Hne].
  - replace (read_out ts []) with (@nil (gmap string flowdecode.Value)) by (unfold read_out; by destruct (ts !! _)).
    apply decode_end. unfold data_set_bytes in Hc. cbn [open_set_bytes] in Hc.
    by destruct (template_protocol t).
  - rewrite <- (app_nil_r (data_set_bytes t evs)) in Hc.
    destruct (decode_data_set d o ts new [] [] evs Hne Hevs Hu16 Hknown Hc) as [Hstep Hend].
    rewrite (loop_continue _ _ _ _ Hstep). by apply decode_end.
Qed.

Lemma decode_sets_done (d : bytes) (o : Z) (ts : gmap Z flowdecode.Template) (incl : bool)
    (evs : list ConntrackEvent) :
  Forall event_ok evs -> is_u16 (data_set_size t (zlen evs)) -> 2 <= zlen d ->
  incl = true \/ no_other ts ->
  at_cursor d o (body_bytes t incl evs) ->
  flowdecode.decode_sets d (version (template_protocol t)) (set_id_of (template_protocol t)) o ts =
  Done (learned incl ts, Ok (announced incl, read_out (learned incl ts) evs)).
Proof using Hread.
  intros Hevs Hu16 Hlen Hknown Hc. unfold flowdecode.decode_sets.
  destruct (length d) as [|[|n]] eqn:Hn; [unfold zlen in Hlen; lia..|].
  unfold body_bytes in Hc. destruct incl; cbn [learned announced].
  - destruct (decode_template_set d o ts [] [] (data_set_bytes t evs) Hc) as [Hstep Hend].
    rewrite (loop_continue _ _ _ _ Hstep). apply decode_data_sets; try done. right. apply lookup_insert_eq.
  - destruct Hknown as [|Hknown]; [done|]. by apply decode_data_sets.
Qed.

(** The message the collector shows, with the records it could read. *)
Definition decoded_with (incl : bool) (evs : list ConntrackEvent) (h : header_info)
    (rs : list (gmap string flowdecode.Value)) : flowdecode.Message := {|
  flowdecode.version := version (template_protocol t);
  flowdecode.sequence_number := hi_seq h;
  flowdecode.domain_id := hi_domain h;
  flowdecode.export_time := hi_secs h;
  flowdecode.count := match template_protocol t with
                      | Ipfix => None
                      | Netflow9 => Some (zlen evs + if incl then 1 else 0)
                      end;
  flowdecode.templates := announced incl;
  flowdecode.records := rs;
  flowdecode.raw := message_bytes t incl evs h
|}.

Definition decoded_message (incl : bool) (evs : list ConntrackEvent) (h : header_info) : flowdecode.Message :=
  decoded_with incl evs h (map (collected t) evs).

(** What fits in a message is few records, in a set whose length fits its field. *)
Lemma set_is_small (incl : bool) (evs : list ConntrackEvent) :
  evs = [] \/ fits t incl (zlen evs) = true -> zlen evs <= 50 /\ is_u16 (data_set_size t (zlen evs)).
Proof using Hread.
  intros Hfits. pose proof (rd_ok _ Hread) as Ht. pose proof (zlen_nonneg evs) as H0.
  pose proof (data_set_size_bounds t (zlen evs) Ht H0) as Hds. pose proof (to_size_bounds _ Ht).
  assert (Hn : zlen evs <= 50).
  { destruct Hfits as [->|Hf]; [by vm_compute|]. by destruct (fits_bound _ _ (zlen evs) Ht H0 Hf). }
  split; [done|]. unfold is_u16. nia.
Qed.

Lemma decode_message_any (incl : bool) (evs : list ConntrackEvent) (h : header_info)
    (ts : gmap Z flowdecode.Template) :
  Forall event_ok evs -> evs = [] \/ fits t incl (zlen evs) = true ->
  is_u32 (hi_seq h) -> is_u32 (hi_domain h) -> is_u32 (hi_secs h) -> is_u32 (hi_uptime h) ->
  incl = true \/ no_other ts ->
  flowdecode.decode (message_bytes t incl evs h) ts =
  Done (learned incl ts, Ok (decoded_with incl evs h (read_out (learned incl ts) evs))).
Proof using Hread.
  intros Hevs Hfits Hseq Hdom Hsecs Hup Hknown. pose proof (rd_ok _ Hread) as Ht.
  pose proof (message_size_bound t incl evs Ht Hfits) as Hms. unfold MAX_MSG_SIZE in Hms.
  destruct (set_is_small incl evs Hfits) as [Hn Hu16]. pose proof (zlen_nonneg evs).
  assert (Hlen : zlen (message_bytes t incl evs h) = message_size t incl evs).
  { unfold message_bytes, message_size. by rewrite zlen_app, zlen_header_bytes. }
  pose proof (cursor_after (header_bytes t incl evs h) (body_bytes t incl evs) _ eq_refl) as Hbody.
  fold (message_bytes t incl evs h) in Hbody. rewrite zlen_header_bytes in Hbody.
  pose proof (ac_len _ _ _ Hbody) as Hsz. pose proof (zlen_nonneg (body_bytes t incl evs)).
  pose proof (header_len_cases (template_protocol t)).
  pose proof (decode_sets_done (message_bytes t incl evs h) _ ts incl evs Hevs Hu16 ltac:(lia) Hknown Hbody) as Hsets.
  unfold decoded_with.
  assert (Hc : at_cursor (message_bytes t incl evs h) 0 (header_bytes t incl evs h ++ body_bytes t incl evs))
    by (by apply (cursor_after [])).
  unfold header_bytes in Hc. unfold flowdecode.decode. set (msg := message_bytes t incl evs h) in *.
  assert (Hver : is_u16 (version (template_protocol t))) by (by destruct (template_protocol t)).
  rewrite <- app_assoc in Hc. rewrite (cursor_H _ _ _ _ Hc) by done.
  destruct (Z.ltb_spec (zlen msg) 4); [lia|]. past Hc Hc2.
  destruct (template_protocol t); rewrite <- !app_assoc in Hc2; past Hc2 Hc4; past Hc4 Hc8;
    past Hc8 Hc12; change (version Ipfix) with 10 in *; change (version Netflow9) with 9 in *;
    change (header_len Ipfix) with 16 in *; change (header_len Netflow9) with 20 in *;
    change (0 + 2) with 2 in *; change (0 + 4) with 4 in *; change (0 + 8) with 8 in *; change (8 + 4) with 12 in *;
    change (0 + 12) with 12 in *.
  - change (10 =? flowdecode.IPFIX_VERSION) with true. cbv beta match.
    unfold flowdecode.IPFIX_HEADER_LEN. destruct (Z.ltb_spec (zlen msg) 16); [lia|].
    rewrite (cursor_H _ _ _ _ Hc2) by (unfold is_u16; lia). rewrite Hlen, Z.eqb_refl. cbn [negb].
    change flowdecode.IPFIX_TEMPLATE_SET_ID with (set_id_of Ipfix).
    rewrite Hsets, bind_done. cbv beta match.
    by rewrite (cursor_I _ _ _ _ Hc4), (cursor_I _ _ _ _ Hc8), (cursor_I _ _ _ _ Hc12) by done.
  - change (9 =? flowdecode.IPFIX_VERSION) with false.
    change (9 =? flowdecode.NETFLOW9_VERSION) with true. cbv beta match.
    unfold flowdecode.NETFLOW9_HEADER_LEN. destruct (Z.ltb_spec (zlen msg) 20); [lia|].
    change flowdecode.NETFLOW9_TEMPLATE_FLOWSET_ID with (set_id_of Netflow9).
    rewrite Hsets, bind_done. cbv beta match. past Hc12 Hc16. change (12 + 4) with 16 in Hc16.
    rewrite (cursor_H _ _ _ _ Hc2) by (unfold is_u16; destruct incl; lia).
    by rewrite (cursor_I _ _ _ _ Hc8), (cursor_I _ _ _ _ Hc12), (cursor_I _ _ _ _ Hc16) by done.
Qed.

Lemma read_out_known (ts : gmap Z flowdecode.Template) (incl : bool) (evs : list ConntrackEvent) :
  incl = true \/ ts !! template_id t = Some (py_template t) -> read_out (learned incl ts) evs = map (collected t) evs.
Proof using Type.
  unfold read_out, learned. intros [->|Hk]; [by rewrite lookup_insert_eq|].
  destruct incl; [by rewrite lookup_insert_eq|by rewrite Hk].
Qed.

Lemma decode_message_done (incl : bool) (evs : list ConntrackEvent) (h : header_info)
    (ts : gmap Z flowdecode.Template) :
  Forall event_ok evs -> evs = [] \/ fits t incl (zlen evs) = true ->
  is_u32 (hi_seq h) -> is_u32 (hi_domain h) -> is_u32 (hi_secs h) -> is_u32 (hi_uptime h) ->
  incl = true \/ ts !! template_id t = Some (py_template t) ->
  flowdecode.decode (message_bytes t incl evs h) ts =
  Done (learned incl ts, Ok (decoded_message incl evs h)).
Proof using Hread.
  intros Hevs Hfits Hq Hd Hs Hu Hk. rewrite decode_message_any by (unfold no_other; tauto).
  by rewrite read_out_known.
Qed.

End Decoding.

(** ** Encoding and decoding *)

Lemma accepted_fits (t : Template) (incl : bool) (evs : list ConntrackEvent) : template_ok t ->
  accepted t incl evs = [] \/ fits t incl (zlen (accepted t incl evs)) = true.
Proof.
  intros Ht. right. rewrite fits_capacity by done. pose proof (capacity_bounds t incl Ht).
  apply Z.leb_le. unfold accepted, zlen in *. rewrite length_take. lia.
Qed.

Lemma accepted_ok (t : Template) (incl : bool) (evs : list ConntrackEvent) :
  Forall event_ok evs -> Forall event_ok (accepted t incl evs).
Proof. apply Forall_take. Qed.

Lemma unix_secs_u32 (now : Clock) : is_u32 (unix_secs now).
Proof. apply Z.mod_pos_bound. done. Qed.

Lemma uptime_u32 (now : Clock) (s : Z) : is_u32 (uptime_ms now s).
Proof. apply Z.mod_pos_bound. done. Qed.

(** C9: export round trip.  For every configuration [resolve] accepts, what an
    encoder makes of a list of conntrack events decodes, in a collector that
    gets the template in the message or has it from before, without error, to
    the sequence number, domain and export time of the header and to one record
    per accepted event, in order, which holds exactly the event's values under the
    collector's names ([shown] lists them field by field): the NAT event as its
    registered number, the protocol, the four addresses dotted, the four ports, and
    the counters of both directions, clamped to their width. *)
Theorem collector_reads_what_was_exported {T : Target} (p : Protocol) (pr : Profile)
    (w : CounterWidth) (id : Z) (e : Encoder) (incl : bool) (evs : list ConntrackEvent) (now : Clock)
    (ts : gmap Z flowdecode.Template) :
  is_u16 id -> resolve p pr w id = Done (Ok (template e)) -> encoder_ok e ->
  saturated_counters e + 14 * (zlen evs + 1) <= u64_max -> Forall event_ok evs ->
  incl = true \/ ts !! id = Some (py_template (template e)) ->
  let t := template e in
  let sent := accepted t incl evs in
  exists e' out,
    encode_message e incl evs now = Done (e', out, zlen sent, answers_for t incl (length evs)) /\
    flowdecode.decode out ts =
      Done (learned t incl ts, Ok (decoded_message t incl sent (header_of e now))).
Proof.
  intros Hid Hres Hok Hsat Hevs Hknown t sent.
  destruct (resolve_ok _ _ _ _ _ Hid Hres) as [Ht Htok].
  destruct (encode_message_done e incl evs now Hok Hsat) as (e' & Hrun & _).
  exists e', (message_bytes t incl sent (header_of e now)). split; [exact Hrun|].
  assert (Hread : readable t).
  { unfold t. rewrite Ht. apply resolved_readable.
    pose proof (to_id _ Htok) as Hb. rewrite Ht in Hb. exact Hb. }
  pose proof (eo_seq _ Hok). pose proof (eo_domain _ Hok).
  apply decode_message_done; try done; [by apply accepted_ok|by apply accepted_fits|
    apply unix_secs_u32|apply uptime_u32|].
  unfold t. by rewrite Ht in *.
Qed.

Lemma collector_reads_what_was_exported_witness :
  exists e' out,
    encode_message (T := x86_64_debug) default_encoder true [fixture_event 17] at_noon =
      Done (e', out, 1, [true]) /\
    exists ts msg, flowdecode.decode out ∅ = Done (ts, Ok msg) /\
      map (fun r => r !! "reverseOctetDeltaCount"%string) (flowdecode.records msg) =
        [Some (flowdecode.Int 900)] /\
      map (fun r => r !! "postNATSourceIPv4Address"%string) (flowdecode.records msg) =
        [Some (flowdecode.Str "203.0.113.5")] /\
      map (fun r => r !! "postNAPTSourceTransportPort"%string) (flowdecode.records msg) =
        [Some (flowdecode.Int 40000)] /\
      map (fun r => r !! "destinationTransportPort"%string) (flowdecode.records msg) =
        [Some (flowdecode.Int 53)].
Proof.
  destruct (@collector_reads_what_was_exported x86_64_debug Ipfix Full Eight 256 default_encoder true
              [fixture_event 17] at_noon ∅) as (e' & out & Hrun & Hdec).
  - closed_bounds.
  - vm_compute. reflexivity.
  - apply default_encoder_ok.
  - vm_compute. discriminate.
  - constructor; [apply fixture_event_ok; closed_bounds|constructor].
  - left. reflexivity.
  - exists e', out. split; [exact Hrun|]. eexists _, _. split; [exact Hdec|].
    split_and!; vm_compute; reflexivity.
Defined.

(** ** A session, collected *)

(** A collector that decodes one datagram after the other, from what it knows.  A
    datagram that does not decode is dropped
    and the collector goes on, as the main loop of [tests/e2e/flowdecode.py] does (data for a
    template it does not have is no error, but gives no records); its
    [collect_until], modelled in [Collector], lets the error out instead. *)
Definition collect_step (st : gmap Z flowdecode.Template * list (gmap string flowdecode.Value))
    (d : bytes) : outcome (gmap Z flowdecode.Template * list (gmap string flowdecode.Value)) :=
  '(ts, res) ← flowdecode.decode d st.1;
  Done (ts, match res with Ok m => st.2 ++ flowdecode.records m | Err _ => st.2 end).

Definition collect (ds : list bytes)
    : outcome (gmap Z flowdecode.Template * list (gmap string flowdecode.Value)) :=
  foldM collect_step (∅, []) ds.

(** A datagram that is the message of given contents, with some header. *)
Definition message_of (t : Template) (m : bool * list ConntrackEvent) (d : bytes) : Prop :=
  Forall event_ok m.2 /\ (m.2 = [] \/ fits t m.1 (zlen m.2) = true) /\
  exists h, is_u32 (hi_seq h) /\ is_u32 (hi_domain h) /\ is_u32 (hi_secs h) /\ is_u32 (hi_uptime h) /\
    d = message_bytes t m.1 m.2 h.

(** The contents of a list of messages. *)
Definition contents (ms : list (bool * list ConntrackEvent)) : list ConntrackEvent :=
  concat (map snd ms).

(** The first message carries the template. *)
Definition template_first (ms : list (bool * list ConntrackEvent)) : Prop :=
  match ms with [] => False | m :: _ => m.1 = true end.

Lemma collect_messages_done (t : Template) (ms : list (bool * list ConntrackEvent)) (ds : list bytes)
    (ts : gmap Z flowdecode.Template) (rs : list (gmap string flowdecode.Value)) :
  readable t -> Forall2 (message_of t) ms ds ->
  ts !! template_id t = Some (py_template t) \/ template_first ms \/ ms = [] ->
  exists ts', foldM collect_step (ts, rs) ds = Done (ts', rs ++ map (collected t) (contents ms)).
Proof.
  intros Hread Hds. revert ts rs. induction Hds as [|m d ms ds Hd Hds IH]; intros ts rs Hknown.
  { exists ts. cbn. by rewrite app_nil_r. }
  destruct Hd as (Hev & Hfits & h & Hq & Hdm & Hs & Hu & ->).
  pose proof (rd_ok _ Hread) as Ht.
  assert (Hk : m.1 = true \/ ts !! template_id t = Some (py_template t)).
  { destruct Hknown as [Hk|[Hk|Hk]]; [by right|by left|done]. }
  assert (Hstep : collect_step (ts, rs) (message_bytes t m.1 m.2 h) =
    Done (learned t m.1 ts, rs ++ map (collected t) m.2)).
  { unfold collect_step. cbn [fst snd]. by rewrite decode_message_done by done. }
  cbn [foldM]. rewrite Hstep, bind_done.
  edestruct (IH (learned t m.1 ts)) as [ts' Hrest].
  { left. unfold learned. destruct m.1; [apply lookup_insert_eq|by destruct Hk]. }
  exists ts'. rewrite Hrest. unfold contents. cbn [map concat]. by rewrite map_app, app_assoc.
Qed.

(** The messages from the first one that carries the template on. *)
Fixpoint from_template (ms : list (bool * list ConntrackEvent)) : list (bool * list ConntrackEvent) :=
  match ms with
  | [] => []
  | m :: rest => if m.1 then ms else from_template rest
  end.

Lemma from_template_first (ms : list (bool * list ConntrackEvent)) :
  template_first ms \/ ms = [] -> from_template ms = ms.
Proof. intros [Hf| ->]; [|done]. destruct ms as [|m ms]; [done|]. cbn in *. by rewrite Hf. Qed.

(** A collector with nothing to begin with reads exactly the records of the messages
    from the first template on. *)
Lemma collect_from_template (t : Template) (ms : list (bool * list ConntrackEvent)) (ds : list bytes)
    (ts : gmap Z flowdecode.Template) (rs : list (gmap string flowdecode.Value)) :
  readable t -> Forall2 (message_of t) ms ds -> ts !! template_id t = None ->
  exists ts', foldM collect_step (ts, rs) ds = Done (ts', rs ++ map (collected t) (contents (from_template ms))).
Proof.
  intros Hread Hds. revert ts rs. induction Hds as [|m d ms ds Hd Hds IH]; intros ts rs Hnone.
  { exists ts. cbn. by rewrite app_nil_r. }
  cbn [from_template]. destruct m as [incl evs]. cbn [fst]. destruct incl.
  { apply collect_messages_done; [done|by constructor|]. by right; left. }
  destruct Hd as (Hev & Hfits & h & Hq & Hdm & Hs & Hu & ->). cbn [fst snd] in *. cbn [foldM].
  assert (Hstep : collect_step (ts, rs) (message_bytes t false evs h) = Done (ts, rs)).
  { unfold collect_step. cbn [fst snd]. rewrite decode_message_any by (done || by right; left). rewrite bind_done.
    cbn [learned decoded_with flowdecode.records]. unfold read_out. by rewrite Hnone, app_nil_r. }
  rewrite Hstep, bind_done. by apply IH.
Qed.

(** What a session sends. *)
Definition sent_messages (t : Template) (ms : list message_request) : list (bool * list ConntrackEvent) :=
  map (fun m => (m.1.1, accepted t m.1.1 m.1.2)) ms.

(** C8: a session reaches the collector.  When the first message of a session
    carries the template, as the worker's does, a collector that starts with
    nothing and decodes the datagrams in order ends up with exactly the accepted
    records of all messages, in order; none is dropped for want of a template
    and none is read through a wrong one. *)
Theorem session_reaches_the_collector {T : Target} (p : Protocol) (pr : Profile) (w : CounterWidth)
    (id : Z) (e : Encoder) (evs : list ConntrackEvent) (now : Clock) (ms : list message_request) :
  is_u16 id -> resolve p pr w id = Done (Ok (template e)) -> encoder_ok e ->
  saturated_counters e + 14 * offered ((true, evs, now) :: ms) <= u64_max ->
  Forall (fun m => Forall event_ok m.1.2) ((true, evs, now) :: ms) ->
  exists e' outs ts,
    encode_session e ((true, evs, now) :: ms) = Done (e', outs) /\
    collect outs =
      Done (ts, map (collected (template e)) (contents (sent_messages (template e) ((true, evs, now) :: ms)))).
Proof.
  intros Hid Hres Hok Hsat Hevs. set (all := (true, evs, now) :: ms) in *. set (t := template e) in *.
  destruct (resolve_ok _ _ _ _ _ Hid Hres) as [Ht Htok].
  destruct (encode_session_done e all Hok Hsat)
    as (e' & outs & Hrun & _ & _ & _ & _ & _ & _ & Hlen & Houts).
  assert (Hread : readable t).
  { rewrite Ht. apply resolved_readable. pose proof (to_id _ Htok) as Hb. rewrite Ht in Hb. exact Hb. }
  assert (Hmsgs : Forall2 (message_of t) (sent_messages t all) outs).
  { apply Forall2_fmap_l, Forall2_same_length_lookup. split; [done|]. intros i m d Hm Hd.
    rewrite (Houts i m Hm) in Hd. injection Hd as <-.
    split; [apply accepted_ok; exact (Forall_lookup_1 _ _ _ _ Hevs Hm)|].
    split; [by apply accepted_fits|]. eexists. split_and!; [| | | |reflexivity]; cbn.
    - apply Z.mod_pos_bound. done.
    - apply (eo_domain _ Hok).
    - apply unix_secs_u32.
    - apply uptime_u32. }
  destruct (collect_messages_done t _ outs ∅ [] Hread Hmsgs) as [ts Hcollect]; [by right; left|].
  exists e', outs, ts. split; [exact Hrun|exact Hcollect].
Qed.

Lemma session_reaches_the_collector_witness :
  exists e' outs ts,
    encode_session (T := x86_64_debug) default_encoder a_session = Done (e', outs) /\
    collect outs = Done (ts, map (collected (resolved Ipfix Full Eight 256))
                               [fixture_event 6; fixture_event 17; fixture_event 6]).
Proof.
  apply (@session_reaches_the_collector x86_64_debug Ipfix Full Eight 256 default_encoder [] at_noon
           [(false, [fixture_event 6; fixture_event 17], at_noon); (true, [fixture_event 6], at_noon)]).
  - closed_bounds.
  - vm_compute. reflexivity.
  - apply default_encoder_ok.
  - vm_compute. discriminate.
  - repeat (apply Forall_cons_2;
      [cbn [fst snd]; repeat (apply Forall_cons_2; [apply fixture_event_ok; closed_bounds|]);
       apply Forall_nil_2|]). apply Forall_nil_2.
Defined.

(** ** What a record determines *)

Lemma to_be_bytes_inj (n : nat) (v w : Z) :
  0 <= v < 2 ^ (8 * Z.of_nat n) -> 0 <= w < 2 ^ (8 * Z.of_nat n) ->
  to_be_bytes n v = to_be_bytes n w -> v = w.
Proof.
  intros Hv Hw Heq. apply (f_equal from_be_bytes) in Heq. by rewrite !from_to_be_bytes_small in Heq.
Qed.

Lemma octets_inj (a b : Ipv4Addr) : octets a = octets b -> a = b.
Proof. destruct a, b. unfold octets. cbn. by intros [= -> -> -> ->]. Qed.

(** The bytes of a record determine the bytes of each of its fields. *)
Lemma record_bytes_fields (p : Protocol) (fs : list ResolvedField) (e1 e2 : ConntrackEvent) :
  Forall (field_ok p) fs -> record_bytes fs e1 = record_bytes fs e2 ->
  Forall (fun f => field_bytes e1 f = field_bytes e2 f) fs.
Proof.
  intros Hfs Heq. apply Forall_lookup_2. intros i f Hi.
  by rewrite <- !(record_field p _ fs i f Hfs Hi), Heq.
Qed.

Lemma counter_bytes_inj (v w : Z) : is_u64 v -> is_u64 w ->
  to_be_bytes (Z.to_nat 8) (Z.min v (counter_max 8)) =
  to_be_bytes (Z.to_nat 8) (Z.min w (counter_max 8)) -> v = w.
Proof.
  unfold is_u64. intros Hv Hw. change (counter_max 8) with (2 ^ 64 - 1).
  rewrite !Z.min_l by lia. by apply (to_be_bytes_inj 8).
Qed.

(** C33: the full profile with eight-byte counters is lossless.  Under either
    protocol, two conntrack events with the same record on the wire are the same
    event. *)
Theorem full_record_is_lossless (p : Protocol) (id : Z) (e1 e2 : ConntrackEvent) :
  event_ok e1 -> event_ok e2 ->
  record_bytes (fields (resolved p Full Eight id)) e1 =
  record_bytes (fields (resolved p Full Eight id)) e2 -> e1 = e2.
Proof.
  intros H1 H2 Heq. apply (record_bytes_fields p) in Heq; [|apply resolved_fields_ok].
  assert (Heq' : Forall2 eq (map (field_bytes e1) (fields (resolved p Full Eight id)))
                            (map (field_bytes e2) (fields (resolved p Full Eight id))))
    by (apply Forall2_fmap_2, Forall_Forall2_diag; exact Heq).
  clear Heq. destruct H1, H2, p; cbn in Heq'; unfold field_bytes in Heq'; cbn in Heq'.
  all: repeat match type of Heq' with Forall2 _ (_ :: _) _ =>
         let H := fresh "E" in apply Forall2_cons_1 in Heq' as [H Heq'] end.
  all: destruct e1, e2; cbn [Event.nat_event Event.protocol Event.src_ip Event.dst_ip
    Event.src_port Event.dst_port Event.post_nat_src_ip Event.post_nat_src_port Event.post_nat_dst_ip
    Event.post_nat_dst_port Event.orig_bytes Event.orig_packets Event.reply_bytes
    Event.reply_packets] in *.
  all: f_equal; first [by apply nat_event_code_inj; congruence | congruence | by apply octets_inj
    | by apply (to_be_bytes_inj 2) | by apply counter_bytes_inj].
Qed.

Lemma full_record_is_lossless_witness :
  record_bytes (fields (resolved Netflow9 Full Eight 256)) (fixture_event 6) =
  record_bytes (fields (resolved Netflow9 Full Eight 256)) (fixture_event (2 * 3)) /\
  fixture_event 6 = fixture_event (2 * 3).
Proof.
  split; [vm_compute; reflexivity|]. apply (full_record_is_lossless Netflow9 256).
  - apply fixture_event_ok. closed_bounds.
  - apply fixture_event_ok. closed_bounds.
  - vm_compute. reflexivity.
Defined.
