(* ===== verification/System.v ===== *)
(** * The system the program runs on

    The program's effects are system calls.  The kernel is a parameter: a state
    of any type and, for each call, its answer and the next state ([Kernel]).
    Code with effects threads that state together with a log of every call made
    and its answer ([world]), so what the program does to the system is a
    property of the log.  Nothing is assumed of the answers except, in the laws
    of the class, what the interfaces document of their shape. *)

From stdpp Require Import base list numbers strings.
From Stdlib Require Import ZArith Lia.
From S2P Require Import Prelude Encoder.
Local Open Scope Z_scope.

(** ** System calls and their answers *)

(** [io::Error] by the kinds the program distinguishes. *)
Inductive io_error := WouldBlock | Interrupted | OtherError (errno : Z).

#[export] Instance io_error_eq_dec : EqDecision io_error.
Proof. solve_decision. Defined.

(** The counts of a drop report. *)
Record drop_counts := {
  nl_recv : Z;
  udp_send : Z;
  truncated : Z;
  foreign : Z;
  clamped_count : Z
}.

(** The calls, and the one log line that the program owes its operator. *)
Inductive syscall :=
  | ClockNow
  | UdpBind
  | UdpConnect (fd : Z) (collector : string)
  | UdpSend (data : bytes)
  | Socket
  | Bind (fd : Z)
  | SetSockOpt (fd level name value : Z)
  | GetMeminfo (fd : Z)
  | Recvmmsg (fd vlen : Z)
  | Poll (fds : list Z) (timeout : Z)
  | SigBlock (signals : list Z)
  | SigUnblockAll
  | Signalfd (signals : list Z)
  | ReadSignal (fd : Z)
  | Close (fd : Z)
  | Fork
  | Setsid
  | Waitpid (pid : Z)
  | Kill (pid sig : Z)
  | Exit (rc : Z)
  | Open (path : string) (flags mode : Z)
  | Dup2 (fd target : Z)
  | ReadFile (path : string)
  | WriteFile (path contents : string)
  | WarnDrops (fresh total : drop_counts).

(** A datagram as the kernel holds it: the sender's port and all its bytes. *)
Abbreviation packet := (Z * bytes)%type (only parsing).

(** What each call answers; a negative return is an [Err]. *)
Definition answer (c : syscall) : Type :=
  match c with
  | ClockNow => Clock
  | UdpBind | UdpSend _ => result io_error Z
  | Socket | Signalfd _ | Fork | Setsid | Open _ _ _ => result io_error Z
  | GetMeminfo _ => result io_error (list Z)
  | Recvmmsg _ _ => result io_error (list (Z * bytes))
  | Poll _ _ => result io_error (Z * list Z)        (* the count, each [revents] *)
  | ReadSignal _ => result io_error (option Z)      (* [None] at the end of file *)
  | Waitpid _ => result io_error (Z * Z)            (* the process, its status *)
  | ReadFile _ => result io_error string
  | Close _ | Kill _ _ | Exit _ | WarnDrops _ _ => unit             (* answers the program ignores *)
  | UdpConnect _ _ | Bind _ | SetSockOpt _ _ _ _ | SigBlock _ | SigUnblockAll | Dup2 _ _
  | WriteFile _ _ => result io_error unit
  end.

Class Kernel (W : Type) := {
  k_call : forall c : syscall, W -> answer c * W;
  (** [recvmmsg] fills at most the slots it is given, with bytes. *)
  k_recvmmsg_ok : forall fd vlen w l,
    fst (k_call (Recvmmsg fd vlen) w) = Ok l ->
    zlen l <= vlen /\ Forall (fun d => bytes_ok d.2 /\ zlen d.2 < 2 ^ 32) l
}.

(** ** The log *)

Definition call : Type := {c : syscall & answer c}.
Definition called (c : syscall) (a : answer c) : call := existT c a.

Record world (W : Type) := { kernel : W; log : list call }.
Arguments kernel {W} w.
Arguments log {W} w.

Definition sys (W A : Type) : Type := world W -> outcome (A * world W).

#[export] Instance sys_ret (W : Type) : MRet (sys W) := fun A a w => Done (a, w).
#[export] Instance sys_bind (W : Type) : MBind (sys W) := fun A B f m w =>
  match m w with
  | Done (a, w') => f a w'
  | Panic why => Panic why
  | Exhausted => Exhausted
  end.

(** Code without effects. *)
Definition lift {W A : Type} (m : outcome A) : sys W A := fun w => a ← m; Done (a, w).

Definition request {W : Type} {K : Kernel W} (c : syscall) : sys W (answer c) := fun w =>
  let '(a, k) := k_call c (kernel w) in
  Done (a, {| kernel := k; log := log w ++ [called c a] |}).

(** Loops with effects, with fuel as the pure ones have. *)
Fixpoint sys_loop {W S R : Type} (fuel : nat) (body : S -> sys W (flow S R)) (s : S) : sys W R :=
  match fuel with
  | O => fun _ => Exhausted
  | Datatypes.S fuel' => fun w =>
      match body s w with
      | Done (Continue s', w') => sys_loop fuel' body s' w'
      | Done (Break r, w') => Done (r, w')
      | Panic why => Panic why
      | Exhausted => Exhausted
      end
  end.

(** ** Reasoning about effectful code *)

(** Running [m] from [w] does not panic, and where it ends, its result and the
    world satisfy [Q].  Only loops can run out of fuel, and [stuck] says whether
    that is allowed. *)
Definition run {W A : Type} (stuck : Prop) (m : sys W A) (w : world W) (Q : A -> world W -> Prop) : Prop :=
  match m w with
  | Done (a, w') => Q a w'
  | Panic _ => False
  | Exhausted => stuck
  end.

(** For every fuel, what is reached is right; and: the code ends, rightly. *)
Abbreviation runs := (run True).
Abbreviation ends := (run False).

Section Rules.
Context {W : Type} {K : Kernel W} (stuck : Prop).

Lemma run_ret {A : Type} (a : A) (w : world W) (Q : A -> world W -> Prop) :
  Q a w -> run stuck (mret a) w Q.
Proof. done. Qed.

Lemma run_bind {A B : Type} (m : sys W A) (f : A -> sys W B) (w : world W)
    (P : A -> world W -> Prop) (Q : B -> world W -> Prop) :
  run stuck m w P -> (forall a w', P a w' -> run stuck (f a) w' Q) -> run stuck (m ≫= f) w Q.
Proof.
  unfold run, mbind, sys_bind. intros Hm Hf. destruct (m w) as [[a w']| |]; [|done..].
  by apply (Hf a w').
Qed.

Lemma run_conseq {A : Type} (m : sys W A) (w : world W) (P Q : A -> world W -> Prop) :
  run stuck m w P -> (forall a w', P a w' -> Q a w') -> run stuck m w Q.
Proof. unfold run. intros Hm HPQ. destruct (m w) as [[a w']| |]; auto. Qed.

Lemma run_lift {A : Type} (m : outcome A) (a : A) (w : world W) (Q : A -> world W -> Prop) :
  m = Done a -> Q a w -> run stuck (lift m) w Q.
Proof. intros -> HQ. exact HQ. Qed.

Lemma run_lift_bind {A B : Type} (m : outcome A) (a : A) (f : A -> sys W B) (w : world W)
    (Q : B -> world W -> Prop) :
  m = Done a -> run stuck (f a) w Q -> run stuck (lift m ≫= f) w Q.
Proof. intros -> HQ. exact HQ. Qed.

Lemma run_ret_bind {A B : Type} (a : A) (f : A -> sys W B) (w : world W) (Q : B -> world W -> Prop) :
  run stuck (f a) w Q -> run stuck (mret a ≫= f) w Q.
Proof. done. Qed.

(** A call logs itself with its answer, which the kernel gives. *)
Lemma run_request (c : syscall) (w : world W) (Q : answer c -> world W -> Prop) :
  (forall a k, k_call c (kernel w) = (a, k) ->
     Q a {| kernel := k; log := log w ++ [called c a] |}) ->
  run stuck (request c) w Q.
Proof.
  unfold run, request. intros HQ. destruct (k_call c (kernel w)) as [a k] eqn:E. by apply HQ.
Qed.

Lemma run_request_bind {B : Type} (c : syscall) (f : answer c -> sys W B) (w : world W)
    (Q : B -> world W -> Prop) :
  (forall a w', log w' = log w ++ [called c a] -> run stuck (f a) w' Q) ->
  run stuck (request c ≫= f) w Q.
Proof.
  intros Hf. eapply run_bind; [|exact Hf]. apply run_request. intros. done.
Qed.

End Rules.

Lemma runs_loop {W S R : Type} (body : S -> sys W (flow S R)) (I : S -> world W -> Prop)
    (Q : R -> world W -> Prop) :
  (forall s w, I s w -> runs (body s) w (fun step w' =>
     match step with Continue s' => I s' w' | Break r => Q r w' end)) ->
  forall fuel s w, I s w -> runs (sys_loop fuel body s) w Q.
Proof.
  intros Hbody fuel. induction fuel as [|fuel IH]; intros s w HI; [done|].
  specialize (Hbody s w HI). unfold run in *. cbn [sys_loop].
  destruct (body s w) as [[[s'|r] w']| |]; try done. by apply IH.
Qed.

(** A loop whose invariant may depend on the passes left. *)
Lemma runs_loop_budget {W S R : Type} (body : S -> sys W (flow S R)) (I : nat -> S -> world W -> Prop)
    (Q : R -> world W -> Prop) :
  (forall n s w, I (Datatypes.S n) s w -> runs (body s) w (fun step w' =>
     match step with Continue s' => I n s' w' | Break r => Q r w' end)) ->
  forall fuel s w, I fuel s w -> runs (sys_loop fuel body s) w Q.
Proof.
  intros Hbody fuel. induction fuel as [|fuel IH]; intros s w HI; [done|].
  specialize (Hbody fuel s w HI). unfold run in *. cbn [sys_loop].
  destruct (body s w) as [[[s'|r] w']| |]; try done. by apply IH.
Qed.

(** A loop that ends: each pass that goes round again decreases a measure. *)
Lemma ends_loop {W S R : Type} (body : S -> sys W (flow S R)) (I : S -> world W -> Prop)
    (Q : R -> world W -> Prop) (mu : S -> world W -> nat) :
  (forall s w, I s w -> ends (body s) w (fun step w' =>
     match step with Continue s' => I s' w' /\ (mu s' w' < mu s w)%nat | Break r => Q r w' end)) ->
  forall fuel s w, I s w -> (mu s w < fuel)%nat -> ends (sys_loop fuel body s) w Q.
Proof.
  intros Hbody fuel. induction fuel as [|fuel IH]; intros s w HI Hmu; [lia|].
  specialize (Hbody s w HI). unfold run in *. cbn [sys_loop].
  destruct (body s w) as [[[s'|r] w']| |]; try done. destruct Hbody as [HI' Hlt]. apply IH; [done|lia].
Qed.

(** Both: the passes left bound the invariant, and a measure falls. *)
Lemma ends_loop_budget {W S R : Type} (body : S -> sys W (flow S R)) (I : nat -> S -> world W -> Prop)
    (Q : R -> world W -> Prop) (mu : world W -> nat) :
  (forall n s w, I (Datatypes.S n) s w -> ends (body s) w (fun step w' =>
     match step with Continue s' => I n s' w' /\ (mu w' < mu w)%nat | Break r => Q r w' end)) ->
  forall fuel s w, I fuel s w -> (mu w < fuel)%nat -> ends (sys_loop fuel body s) w Q.
Proof.
  intros Hbody fuel. induction fuel as [|fuel IH]; intros s w HI Hmu; [lia|].
  specialize (Hbody fuel s w HI). unfold run in *. cbn [sys_loop].
  destruct (body s w) as [[[s'|r] w']| |]; try done. destruct Hbody as [HI' Hlt]. apply IH; [done|lia].
Qed.

(** Left-to-right iteration with effects. *)
Fixpoint sys_foldM {W A S : Type} (f : S -> A -> sys W S) (s : S) (l : list A) : sys W S :=
  match l with
  | [] => mret s
  | x :: l' => s ← f s x; sys_foldM f s l'
  end.

(** [call_with a w H] runs the next system call: its answer [a], the world [w]
    after it, and in [H] the log. *)
Ltac next_call :=
  lazymatch goal with
  | |- run ?s (@mbind _ _ _ ?B ?f (@request ?W ?K ?c)) ?w ?Q =>
      refine (@run_request_bind W K s B c f w Q _)
  end.
Tactic Notation "call_with" simple_intropattern(a) ident(w) ident(H) :=
  next_call; intros a w H; cbn beta in H.

(** What ends, whatever the fuel of its loops, is right whenever it is reached. *)
Lemma ends_runs {W A : Type} (m : sys W A) (w : world W) (Q : A -> world W -> Prop) :
  ends m w Q -> runs m w Q.
Proof. unfold run. destruct (m w) as [[a w']| |]; done. Qed.

(** The log only grows: [grows w w' Q] when the calls made in between satisfy [Q]. *)
Definition grows {W : Type} (w w' : world W) (Q : list call -> Prop) : Prop :=
  exists calls, log w' = log w ++ calls /\ Q calls.

(** ** A small machine

    A kernel to run the program on: a queue of packets, a list of signals that
    become pending once the queue is empty, and a 40-bit clock that advances a
    millisecond at each reading. *)

Record machine := { queue : list (Z * bytes); pending : list Z; clock_ms : Z }.

Definition byte_okb (v : Z) : bool := (0 <=? v) && (v <? 2 ^ 8).
Definition packet_okb (p : Z * bytes) : bool := forallb byte_okb p.2 && (zlen p.2 <? 2 ^ 32).

Definition machine_recv (vlen : Z) (m : machine) : result io_error (list (Z * bytes)) * machine :=
  let ps := take (Z.to_nat vlen) (queue m) in
  if (0 <=? vlen) && negb (bool_decide (ps = [])) && forallb packet_okb ps then
    (Ok ps, {| queue := drop (Z.to_nat vlen) (queue m); pending := pending m; clock_ms := clock_ms m |})
  else (Err WouldBlock, m).

Definition machine_call (c : syscall) (m : machine) : answer c * machine :=
  match c return answer c * machine with
  | ClockNow =>
      ({| system_time := (clock_ms m mod 2 ^ 40) * 10 ^ 6;
          instant := (clock_ms m mod 2 ^ 40) * 10 ^ 6 |},
       {| queue := queue m; pending := pending m; clock_ms := clock_ms m + 1 |})
  | UdpSend d => (Ok (zlen d), m)
  | Socket => (Ok 3, m)
  | Signalfd _ => (Ok 4, m)
  | Fork => (Ok 100, m)
  | Setsid => (Ok 1, m)
  | Open _ _ _ => (Ok 5, m)
  | GetMeminfo _ => (Ok [0; 0; 0; 0; 0; 0; 0; 0; 7], m)
  | Recvmmsg _ vlen => machine_recv vlen m
  | Poll fds _ =>
      let nl := if bool_decide (queue m = []) then 0 else 1 in
      let sig := if bool_decide (pending m = []) then 0 else 1 - nl in
      (Ok (nl + sig, match fds with [_] => [sig] | _ => [nl; sig] end), m)
  | ReadSignal _ =>
      match pending m with
      | [] => (Err WouldBlock, m)
      | s :: ss => (Ok (Some s), {| queue := queue m; pending := ss; clock_ms := clock_ms m |})
      end
  | Waitpid pid => (Ok (pid, 0), m)
  | ReadFile _ => (Ok "1"%string, m)
  | Close _ => (tt, m)
  | Kill _ _ => (tt, m)
  | Exit _ => (tt, m)
  | UdpBind => (Ok 6, m)
  | UdpConnect _ _ => (Ok tt, m)
  | Bind _ => (Ok tt, m)
  | SetSockOpt _ _ _ _ => (Ok tt, m)
  | SigBlock _ => (Ok tt, m)
  | SigUnblockAll => (Ok tt, m)
  | Dup2 _ _ => (Ok tt, m)
  | WriteFile _ _ => (Ok tt, m)
  | WarnDrops _ _ => (tt, m)
  end.

Lemma packet_okb_ok (p : Z * bytes) : packet_okb p = true -> bytes_ok p.2 /\ zlen p.2 < 2 ^ 32.
Proof.
  unfold packet_okb. rewrite andb_true_iff, Z.ltb_lt, forallb_forall. intros [Hb Hl]. split; [|done].
  apply Forall_forall. intros v Hv. apply list_elem_of_In in Hv. specialize (Hb v Hv). unfold byte_okb in Hb.
  apply andb_true_iff in Hb as [H0 H1]. apply Z.leb_le in H0. apply Z.ltb_lt in H1. done.
Qed.

#[export] Instance machine_kernel : Kernel machine.
Proof.
  refine {| k_call := machine_call |}. intros fd vlen m l. unfold machine_call, machine_recv.
  destruct (Z.leb_spec 0 vlen); [|done].
  destruct (forallb packet_okb (take (Z.to_nat vlen) (queue m))) eqn:Hok;
    rewrite ?andb_false_r; [|done]. rewrite andb_true_r. cbn [andb].
  destruct (negb _); [|done]. cbn [fst]. intros [= <-]. split.
  - unfold zlen. rewrite length_take. lia.
  - rewrite forallb_forall in Hok. apply Forall_forall. intros p Hp. by apply packet_okb_ok, Hok, list_elem_of_In.
Defined.
