(* ===== verification/Machine.v ===== *)
(** * Labelled machines and the logs that implement them

    What the abstract specifications share: runs of a labelled transition system
    with silent steps, induction over them, and what it means for the system calls
    of a program to be such a run. *)

From stdpp Require Import base list numbers.
From Stdlib Require Import ZArith Lia.
From S2P Require Import Prelude System.

Section Machine.
Context {S L : Type} (step : S -> list L -> S -> Prop).

(** Several steps, with the labels of all. *)
Inductive steps : S -> list L -> S -> Prop :=
  | steps_none s : steps s [] s
  | steps_more s1 l1 s2 l2 s3 : step s1 l1 s2 -> steps s2 l2 s3 -> steps s1 (l1 ++ l2) s3.

Lemma steps_one (s s' : S) (l : list L) : step s l s' -> steps s l s'.
Proof. intros H. rewrite <- (app_nil_r l). eapply steps_more; [exact H|apply steps_none]. Qed.

Lemma steps_trans (s1 s2 s3 : S) (l1 l2 : list L) :
  steps s1 l1 s2 -> steps s2 l2 s3 -> steps s1 (l1 ++ l2) s3.
Proof.
  induction 1 as [|s1 l s1' l' s2 Hs _ IH]; intros H; [done|]. rewrite <- app_assoc.
  eapply steps_more; [exact Hs|by apply IH].
Qed.

(** What holds at the start and is kept by every step, with the labels so far. *)
Lemma steps_invariant (I : list L -> S -> Prop) (s s' : S) (ls : list L) :
  (forall pre s l s', I pre s -> step s l s' -> I (pre ++ l) s') -> I [] s -> steps s ls s' -> I ls s'.
Proof.
  intros Hstep Hs Hrun. change ls with ([] ++ ls). revert Hs. generalize (@nil L) as pre.
  induction Hrun as [s|s1 l1 s2 l2 s3 H _ IH]; intros pre HI; [by rewrite app_nil_r|].
  rewrite app_assoc. apply IH. by eapply Hstep.
Qed.

(** ** Logs as runs *)

Context (observed : call -> list L).

Definition labels_of (calls : list call) : list L := concat (map observed calls).

Lemma labels_app (l1 l2 : list call) : labels_of (l1 ++ l2) = labels_of l1 ++ labels_of l2.
Proof. unfold labels_of. by rewrite map_app, concat_app. Qed.

(** Calls that the machine does not see. *)
Definition hidden (c : call) : Prop := observed c = [].

Lemma labels_hidden (calls : list call) : Forall hidden calls -> labels_of calls = [].
Proof. induction 1 as [|c calls Hc _ IH]; [done|]. unfold labels_of in *. cbn. by rewrite Hc, IH. Qed.

Context {W : Type}.

(** The calls between two worlds are a run of the machine. *)
Definition simulates (s : S) (w : world W) (s' : S) (w' : world W) : Prop :=
  exists calls, log w' = log w ++ calls /\ steps s (labels_of calls) s'.

Lemma simulates_refl (s : S) (w : world W) : simulates s w s w.
Proof. exists []. rewrite app_nil_r. split; [done|apply steps_none]. Qed.

Lemma simulates_trans (s1 s2 s3 : S) (w1 w2 w3 : world W) :
  simulates s1 w1 s2 w2 -> simulates s2 w2 s3 w3 -> simulates s1 w1 s3 w3.
Proof.
  intros (c1 & L1 & S1) (c2 & L2 & S2). exists (c1 ++ c2). split; [by rewrite L2, L1, app_assoc|].
  rewrite labels_app. by eapply steps_trans.
Qed.

(** Calls that are one step; a silent step; calls that are not seen. *)
Lemma simulates_calls (s s' : S) (w w' : world W) (calls : list call) :
  log w' = log w ++ calls -> step s (labels_of calls) s' -> simulates s w s' w'.
Proof. intros H Hs. exists calls. split; [done|]. by apply steps_one. Qed.

Lemma simulates_call (s s' : S) (w w' : world W) (c : call) :
  log w' = log w ++ [c] -> step s (observed c) s' -> simulates s w s' w'.
Proof. intros H Hs. eapply simulates_calls; [exact H|]. unfold labels_of. cbn. by rewrite app_nil_r. Qed.

Lemma simulates_silent (s s' : S) (w : world W) : step s [] s' -> simulates s w s' w.
Proof. intros Hs. apply (simulates_calls s s' w w []); [by rewrite app_nil_r|done]. Qed.

Lemma simulates_hidden (s : S) (w w' : world W) (calls : list call) :
  log w' = log w ++ calls -> Forall hidden calls -> simulates s w s w'.
Proof. intros H F. exists calls. split; [done|]. rewrite labels_hidden by done. apply steps_none. Qed.

End Machine.
