(* ===== verification/ExporterSpec.v ===== *)
(** * What an exporter promises

    The worker's contract with the kernel and with the collector, as a machine that
    knows nothing of buffers, offsets, descriptors or system calls: events wait in a
    queue, go one by one into an open message, and the message is sent when the next
    event does not fit or when nothing waits.  A labelled transition system, with
    silent steps; what it guarantees is proved by induction on its steps.  The
    worker is shown elsewhere to be an implementation of it. *)

From stdpp Require Import base list numbers.
From Stdlib Require Import ZArith Lia.
From S2P Require Import Prelude Event Template Record Encoder EncoderSpec EncoderProps Collector CollectorProps System Machine.
Local Open Scope Z_scope.

Module Exporter.

(** The template, the observation domain, the instant the exporter was started and
    the retransmission interval, which do not change. *)
Record Setup := { layout : Template; domain : Z; epoch : Z; period : Z }.

(** The events waiting; the open message (whether it carries the template, and its
    records); the sequence number of the next message; whether the next message has
    to carry the template; when the template was last sent; the last two readings of
    the clocks. *)
Record State := {
  queue : list ConntrackEvent;
  message : option (bool * list ConntrackEvent);
  sequence : Z;
  due : bool;
  template_at : Z;
  clock : Clock;
  earlier : Clock
}.

(** What can be observed: a reading of the clocks, a batch of events from the
    kernel, a datagram to the collector. *)
Inductive label :=
  | Reads (c : Clock)
  | Receives (evs : list ConntrackEvent)
  | Sends (d : bytes).

(** Field assignments. *)
Definition with_queue (s : State) (q : list ConntrackEvent) (m : option (bool * list ConntrackEvent)) : State :=
  {| queue := q; message := m; sequence := sequence s; due := due s; template_at := template_at s;
     clock := clock s; earlier := earlier s |}.

Definition with_due (s : State) : State :=
  {| queue := queue s; message := message s; sequence := sequence s; due := true;
     template_at := template_at s; clock := clock s; earlier := earlier s |}.

Definition with_clock (s : State) (c : Clock) : State :=
  {| queue := queue s; message := message s; sequence := sequence s; due := due s;
     template_at := template_at s; clock := c; earlier := clock s |}.

(** The message [(incl, evs)] is out. *)
Definition after_sending (p : Setup) (s : State) (incl : bool) (evs : list ConntrackEvent) : State :=
  {| queue := queue s; message := None; sequence := next_sequence (layout p) (sequence s) evs;
     due := if incl then false else due s;
     template_at := if incl then instant (earlier s) else template_at s;
     clock := clock s; earlier := earlier s |}.

Definition header (p : Setup) (s : State) : header_info :=
  {| hi_seq := sequence s; hi_domain := domain p; hi_secs := unix_secs (clock s);
     hi_uptime := uptime_ms (clock s) (epoch p) |}.

Inductive step (p : Setup) : State -> list label -> State -> Prop :=
  | reads s c : step p s [Reads c] (with_clock s c)
  | receives s evs : queue s = [] -> step p s [Receives evs] (with_queue s evs (message s))
  (* the interval has passed since the template was sent *)
  | falls_due s : queue s = [] -> period p <= Z.max 0 (instant (clock s) - template_at s) ->
      step p s [] (with_due s)
  | opens s : message s = None -> step p s [] (with_queue s (queue s) (Some (due s, [])))
  | takes s incl evs ev rest :
      queue s = ev :: rest -> message s = Some (incl, evs) -> fits (layout p) incl (zlen evs + 1) = true ->
      step p s [] (with_queue s rest (Some (incl, evs ++ [ev])))
  (* a message with something in it, that is full or that nothing waits for *)
  | sends s incl evs :
      message s = Some (incl, evs) -> incl = true \/ evs <> [] ->
      queue s = [] \/ fits (layout p) incl (zlen evs + 1) = false ->
      step p s [Sends (message_bytes (layout p) incl evs (header p s))] (after_sending p s incl evs)
  (* a message that stayed empty *)
  | drops s : message s = Some (false, []) -> queue s = [] -> step p s [] (with_queue s [] None).

(** Several steps, with the labels of all. *)
Definition steps (p : Setup) : State -> list label -> State -> Prop := Machine.steps (step p).

(** ** What is in a trace *)

Definition received_in (l : label) : list ConntrackEvent := match l with Receives evs => evs | _ => [] end.
Definition received (ls : list label) : list ConntrackEvent := concat (map received_in ls).

Definition datagram_in (l : label) : option bytes := match l with Sends d => Some d | _ => None end.
Definition datagrams (ls : list label) : list bytes := omap datagram_in ls.

Lemma received_app (l1 l2 : list label) : received (l1 ++ l2) = received l1 ++ received l2.
Proof. unfold received. by rewrite map_app, concat_app. Qed.

Lemma datagrams_app (l1 l2 : list label) : datagrams (l1 ++ l2) = datagrams l1 ++ datagrams l2.
Proof. apply omap_app. Qed.

(** ** What it guarantees *)

(** What the sequence number counts of the messages [ms]. *)
Definition exports (t : Template) (ms : list (bool * list ConntrackEvent)) : Z :=
  match template_protocol t with
  | Ipfix => zlen (contents ms)
  | Netflow9 => zlen ms
  end.

(** [d] is the message [m], numbered [n], from domain [dom]. *)
Definition numbered (t : Template) (dom : Z) (n : Z) (m : bool * list ConntrackEvent) (d : bytes) : Prop :=
  (m.1 = true \/ m.2 <> []) /\ (m.2 = [] \/ fits t m.1 (zlen m.2) = true) /\
  exists c up, d = message_bytes t m.1 m.2 {| hi_seq := n mod 2 ^ 32; hi_domain := dom; hi_secs := unix_secs c; hi_uptime := up |}.

Definition held (s : State) : list ConntrackEvent := match message s with Some (_, evs) => evs | None => [] end.

(** At the start: nothing waits, no message is open, numbers start at 0 and the
    template is due. *)
Record starts (s : State) : Prop := {
  st_queue : queue s = [];
  st_message : message s = None;
  st_sequence : sequence s = 0;
  st_due : due s = true
}.

(** The trace [ls] that led to [s] consists of the messages [ms]. *)
Record account (p : Setup) (ls : list label) (s : State) (ms : list (bool * list ConntrackEvent)) : Prop := {
  ac_length : length (datagrams ls) = length ms;
  ac_numbered : forall i m d, ms !! i = Some m -> datagrams ls !! i = Some d ->
    numbered (layout p) (domain p) (exports (layout p) (take i ms)) m d;
  ac_sequence : sequence s = exports (layout p) ms mod 2 ^ 32;
  ac_contents : contents ms ++ held s ++ queue s = received ls;
  ac_first : template_first ms \/ ms = [] /\ due s = true /\ (forall m, message s = Some m -> m.1 = true);
  ac_fits : forall incl evs, message s = Some (incl, evs) -> evs = [] \/ fits (layout p) incl (zlen evs) = true
}.

Lemma contents_snoc (ms : list (bool * list ConntrackEvent)) (m : bool * list ConntrackEvent) :
  contents (ms ++ [m]) = contents ms ++ m.2.
Proof. unfold contents. rewrite map_app, concat_app. cbn. by rewrite app_nil_r. Qed.

Lemma exports_snoc (t : Template) (ms : list (bool * list ConntrackEvent)) (m : bool * list ConntrackEvent) :
  next_sequence t (exports t ms mod 2 ^ 32) m.2 = exports t (ms ++ [m]) mod 2 ^ 32.
Proof.
  unfold next_sequence, wrapping_add_u32, exports. rewrite Z.add_mod_idemp_l by done. f_equal.
  destruct (template_protocol t); [by rewrite contents_snoc, zlen_app|by rewrite zlen_app].
Qed.

(** Steps that send nothing keep the account, if they keep the balance. *)
Lemma account_keep (p : Setup) (ls l : list label) (s s' : State) (ms : list (bool * list ConntrackEvent)) :
  account p ls s ms -> datagrams l = [] -> sequence s' = sequence s -> (due s = true -> due s' = true) ->
  held s' ++ queue s' = held s ++ queue s ++ received l ->
  (forall m, message s' = Some m -> message s = None /\ m = (due s, []) \/
     exists evs, message s = Some (m.1, evs) /\ (m.2 = evs \/ fits (layout p) m.1 (zlen m.2) = true)) ->
  account p (ls ++ l) s' ms.
Proof.
  intros [Hl Hn Hs Hc Hf Hfit] Hd Hs' Hdue Hbal Hm. split; rewrite ?datagrams_app, ?Hd, ?app_nil_r; try done.
  - by rewrite Hs'.
  - rewrite received_app, Hbal, <- Hc, !app_assoc. done.
  - destruct Hf as [Hf|(-> & Hdu & Hinc)]; [by left|]. right. split; [done|]. split; [auto|].
    intros m H. apply Hm in H as [[_ ->]|(evs & H & _)]; [done|]. by apply Hinc in H.
  - intros incl evs H. apply Hm in H as [[_ [= _ ->]]|(evs' & H & [H'|H'])]; [by left| |by right].
    cbn in H, H'. subst evs'. by eapply Hfit.
Qed.

Lemma account_sends (p : Setup) (ls : list label) (s : State) (ms : list (bool * list ConntrackEvent))
    (incl : bool) (evs : list ConntrackEvent) :
  account p ls s ms -> message s = Some (incl, evs) -> incl = true \/ evs <> [] ->
  account p (ls ++ [Sends (message_bytes (layout p) incl evs (header p s))]) (after_sending p s incl evs)
    (ms ++ [(incl, evs)]).
Proof.
  intros [Hl Hn Hs Hc Hf Hfit] Hm Hne. rewrite <- (app_nil_r (ls ++ _)).
  split; rewrite ?app_nil_r, ?datagrams_app; try done.
  - rewrite !length_app. cbn. lia.
  - intros i m d Hi Hd. apply lookup_app_Some in Hi as [Hi|[Hge Hi]].
    + pose proof (lookup_lt_Some _ _ _ Hi). rewrite lookup_app_l in Hd by lia.
      rewrite take_app_le by lia. by apply Hn.
    + rewrite lookup_app_r, Hl in Hd by lia. destruct (i - length ms)%nat as [|j] eqn:Hj; [|by destruct j].
      injection Hi as <-. injection Hd as <-. rewrite take_app_ge, Hj by lia. cbn [take]. rewrite app_nil_r.
      split; [done|]. split; [by eapply Hfit|]. exists (clock s), (uptime_ms (clock s) (epoch p)).
      unfold header. by rewrite Hs.
  - cbn [sequence after_sending]. rewrite Hs. apply (exports_snoc _ _ (incl, evs)).
  - rewrite received_app, contents_snoc, <- Hc. unfold held. rewrite Hm. cbn. by rewrite !app_nil_r, <- app_assoc.
  - left. destruct Hf as [Hf|(-> & _ & Hinc)]; [by destruct ms|]. cbn. by apply Hinc in Hm.
Qed.

Lemma step_account (p : Setup) (ls l : list label) (s s' : State) (ms : list (bool * list ConntrackEvent)) :
  account p ls s ms -> step p s l s' -> exists ms', account p (ls ++ l) s' ms'.
Proof.
  intros Ha Hs. pose proof (ac_fits _ _ _ _ Ha) as Hfit.
  destruct Hs as [s c|s evs Hq|s Hq _|s Hm|s incl evs ev rest Hq Hm Hf|s incl evs Hm Hne _|s Hm Hq].
  - exists ms. apply (account_keep p ls _ s); try done; [cbn; by rewrite app_nil_r|].
    intros [b evs] H. right. by exists evs; split; [|left].
  - exists ms. apply (account_keep p ls _ s); try done; [unfold held, received; cbn; by rewrite Hq, app_nil_r|].
    intros [b evs'] H. right. by exists evs'; split; [|left].
  - exists ms. apply (account_keep p ls _ s); try done; [unfold held, received; cbn; by rewrite app_nil_r|].
    intros [b evs'] H. right. by exists evs'; split; [|left].
  - exists ms. apply (account_keep p ls _ s); try done; [unfold held, received; cbn; by rewrite Hm, app_nil_r|].
    intros m [= <-]. by left.
  - exists ms. apply (account_keep p ls _ s); try done.
    + unfold held, received. cbn. by rewrite Hm, Hq, app_nil_r, <- app_assoc.
    + intros m [= <-]. right. exists evs. split; [done|]. right. cbn. by rewrite zlen_app.
  - eexists. by apply account_sends.
  - exists ms. apply (account_keep p ls _ s); try done. unfold held, received. cbn. by rewrite Hm, Hq.
Qed.

Lemma starts_account (p : Setup) (s : State) : starts s -> account p [] s [].
Proof.
  intros [Hq Hm Hs Hd]. split; try done.
  - rewrite Hs. unfold exports. by destruct (template_protocol _).
  - unfold held. by rewrite Hm, Hq.
  - right. split; [done|]. split; [done|]. by rewrite Hm.
  - by rewrite Hm.
Qed.

(** Every run from the start is accounted for. *)
Lemma steps_account (p : Setup) (s s' : State) (ls : list label) :
  starts s -> steps p s ls s' -> exists ms, account p ls s' ms.
Proof.
  intros Hst. apply (steps_invariant (step p) (fun ls s => exists ms, account p ls s ms)).
  - intros pre s1 l s2 [ms Ha] Hs. by eapply step_account.
  - exists []. by apply starts_account.
Qed.

End Exporter.
