(* ===== verification/Socket.v ===== *)
(** * The netlink socket

    [src/netlink/socket.rs]: the batch of receive buffers and the calls on the
    conntrack socket.  The pointers that wire a batch up are indices into its
    vectors; [deliver] is what [recvmmsg] writes through them. *)

From stdpp Require Import base list numbers.
From Stdlib Require Import ZArith Lia.
From S2P Require Import Prelude Constants System.
Local Open Scope Z_scope.

(** [size_of::<libc::sockaddr_nl>()] *)
Definition sockaddr_nl_len : Z := 12.
Definition POLLIN : Z := 1.
Definition SOL_SOCKET : Z := 1.
Definition SOL_NETLINK : Z := 270.
Definition SO_RCVBUF : Z := 8.
Definition SO_RCVBUFFORCE : Z := 33.

Record Datagram := { len : Z; datagram_len : Z; sender_portid : Z }.

Record iovec := { iov_base : Z; iov_len : Z }.

Record mmsghdr := {
  msg_name : Z; msg_namelen : Z; msg_iov : Z; msg_iovlen : Z; msg_control : option Z;
  msg_controllen : Z; msg_flags : Z; msg_len : Z
}.

Definition zeroed_iovec : iovec := {| iov_base := 0; iov_len := 0 |}.
Definition zeroed_header : mmsghdr :=
  {| msg_name := 0; msg_namelen := 0; msg_iov := 0; msg_iovlen := 0; msg_control := None;
     msg_controllen := 0; msg_flags := 0; msg_len := 0 |}.

(** An address is the port it holds. *)
Record ReceiveBatch := {
  storage : bytes;
  slot_len : Z;
  addresses : list Z;
  iovecs : list iovec;
  headers : list mmsghdr;
  filled : Z
}.

Definition set_filled (b : ReceiveBatch) (hs : list mmsghdr) (n : Z) : ReceiveBatch :=
  {| storage := storage b; slot_len := slot_len b; addresses := addresses b; iovecs := iovecs b;
     headers := hs; filled := n |}.

Section Batch.
Context {T : Target}.

(** What [wire_up] stores for one slot. *)
Definition wired_iovec (slot_len index : Z) : iovec :=
  {| iov_base := index * slot_len; iov_len := slot_len |}.
Definition wired_header (index : Z) : mmsghdr :=
  {| msg_name := index; msg_namelen := sockaddr_nl_len; msg_iov := index; msg_iovlen := 1;
     msg_control := None; msg_controllen := 0; msg_flags := 0; msg_len := 0 |}.

Definition wire_slot (b : ReceiveBatch) (index : Z) : outcome ReceiveBatch :=
  iovs ← set_index (iovecs b) index (wired_iovec (slot_len b) index);
  hs ← set_index (headers b) index (wired_header index);
  Done {| storage := storage b; slot_len := slot_len b; addresses := addresses b; iovecs := iovs;
          headers := hs; filled := filled b |}.

Definition wire_up (b : ReceiveBatch) : outcome ReceiveBatch :=
  foldM wire_slot b (seqZ 0 (zlen (headers b))).

Definition ReceiveBatch_new (slots slot_len : Z) : outcome ReceiveBatch :=
  _ ← guard_panic AssertFailed (0 <? slots);
  _ ← guard_panic AssertFailed (0 <? slot_len);
  size ← usize_mul slots slot_len;
  wire_up {| storage := replicate (Z.to_nat size) 0; slot_len := slot_len;
             addresses := replicate (Z.to_nat slots) 0;
             iovecs := replicate (Z.to_nat slots) zeroed_iovec;
             headers := replicate (Z.to_nat slots) zeroed_header; filled := 0 |}.

Definition capacity (b : ReceiveBatch) : Z := zlen (headers b).

(** [c_uint::try_from(self.capacity()).expect(..)] *)
Definition capacity_as_c_uint (b : ReceiveBatch) : outcome Z :=
  if capacity b <=? u32_max then Done (capacity b) else Panic ExpectFailed.

Definition reset_header (h : mmsghdr) : mmsghdr :=
  {| msg_name := msg_name h; msg_namelen := sockaddr_nl_len; msg_iov := msg_iov h;
     msg_iovlen := msg_iovlen h; msg_control := msg_control h; msg_controllen := msg_controllen h;
     msg_flags := 0; msg_len := 0 |}.

Definition reset (b : ReceiveBatch) : ReceiveBatch := set_filled b (map reset_header (headers b)) 0.

Definition datagram (b : ReceiveBatch) (i : Z) : outcome (Datagram * bytes) :=
  _ ← guard_panic AssertFailed (i <? filled b);
  header ← index (headers b) i;
  let datagram_len := msg_len header in
  let len := Z.min datagram_len (slot_len b) in
  start ← usize_mul i (slot_len b);
  portid ← index (addresses b) i;
  last ← usize_add start len;
  data ← slice (storage b) start last;
  Done ({| len := len; datagram_len := datagram_len; sender_portid := portid |}, data).

(** What [recvmmsg] with [MSG_TRUNC] writes for the datagram in slot [i]: as much
    of it as the slot holds, its sender, and its real length. *)
Definition deliver (b : ReceiveBatch) (i : Z) (p : packet) : outcome ReceiveBatch :=
  header ← index (headers b) i;
  iov ← index (iovecs b) (msg_iov header);
  let kept := take (Z.to_nat (iov_len iov)) p.2 in
  store ← copy_from_slice (storage b) (iov_base iov) (iov_base iov + zlen kept) kept;
  addrs ← set_index (addresses b) (msg_name header) p.1;
  hs ← set_index (headers b) i
         {| msg_name := msg_name header; msg_namelen := sockaddr_nl_len; msg_iov := msg_iov header;
            msg_iovlen := msg_iovlen header; msg_control := msg_control header;
            msg_controllen := msg_controllen header; msg_flags := msg_flags header;
            msg_len := zlen p.2 |};
  Done {| storage := store; slot_len := slot_len b; addresses := addrs; iovecs := iovecs b;
          headers := hs; filled := filled b |}.

Fixpoint deliver_all (b : ReceiveBatch) (i : Z) (ps : list packet) : outcome ReceiveBatch :=
  match ps with
  | [] => Done b
  | p :: ps' => b ← deliver b i p; deliver_all b (i + 1) ps'
  end.

End Batch.

(** ** Calls on the socket *)

(** What [NetlinkSocket::open] fails with. *)
Inductive open_error :=
  | CreateFailed (e : io_error)
  | BindFailed (e : io_error)
  | MembershipFailed (group : Z) (e : io_error).

Section Calls.
Context {T : Target} {W : Type} {K : Kernel W}.

Definition recv_batch (fd : Z) (b : ReceiveBatch) : sys W (result io_error Z * ReceiveBatch) :=
  let b := reset b in
  vlen ← lift (capacity_as_c_uint b);
  received ← request (Recvmmsg fd vlen);
  match received with
  | Err e => mret (Err e, set_filled b (headers b) 0)
  | Ok ps =>
      b ← lift (deliver_all b 0 ps);
      mret (Ok (zlen ps), set_filled b (headers b) (zlen ps))
  end.

Definition SK_MEMINFO_VARS : Z := 9.
Definition SK_MEMINFO_DROPS : Z := 8.

(** The kernel overwrites as much of the zeroed array as it has. *)
Definition get_drops (fd : Z) : sys W Z :=
  ret ← request (GetMeminfo fd);
  match ret with
  | Err _ => mret 0
  | Ok vars =>
      let meminfo := patch (replicate (Z.to_nat SK_MEMINFO_VARS) 0) 0
                       (take (Z.to_nat SK_MEMINFO_VARS) vars) in
      lift (index meminfo SK_MEMINFO_DROPS)
  end.

Definition readable (revents : list Z) (i : nat) : bool :=
  negb (Z.land (default 0 (revents !! i)) POLLIN =? 0).

Definition poll_with (fd aux_fd timeout_ms : Z) : sys W (result io_error (bool * bool)) :=
  ret ← request (Poll [fd; aux_fd] timeout_ms);
  mret match ret with
       | Err e => Err e
       | Ok (_, revents) => Ok (readable revents 0, readable revents 1)
       end.

Definition add_membership (fd group : Z) : sys W (result open_error unit) :=
  ret ← request (SetSockOpt fd SOL_NETLINK NETLINK_ADD_MEMBERSHIP group);
  mret match ret with Err e => Err (MembershipFailed group e) | Ok _ => Ok tt end.

(** [Drop]: also run when [open] returns early with the socket in hand. *)
Definition drop_socket (fd : Z) : sys W unit := request (Close fd).

Definition fail_open (fd : Z) (e : open_error) : sys W (result open_error Z) :=
  _ ← drop_socket fd; mret (Err e).

Definition set_recv_buf (fd buf_size : Z) : sys W unit :=
  forced ← request (SetSockOpt fd SOL_SOCKET SO_RCVBUFFORCE buf_size);
  match forced with
  | Ok _ => mret tt
  | Err _ => _ ← request (SetSockOpt fd SOL_SOCKET SO_RCVBUF buf_size); mret tt
  end.

Definition open (recv_buf_size : Z) : sys W (result open_error Z) :=
  created ← request Socket;
  match created with
  | Err e => mret (Err (CreateFailed e))
  | Ok fd =>
      _ ← set_recv_buf fd (buffer_size recv_buf_size);
      bound ← request (Bind fd);
      match bound with
      | Err e => fail_open fd (BindFailed e)
      | Ok _ =>
          joined ← add_membership fd NFNLGRP_CONNTRACK_NEW;
          match joined with
          | Err e => fail_open fd e
          | Ok _ =>
              joined ← add_membership fd NFNLGRP_CONNTRACK_DESTROY;
              match joined with
              | Err e => fail_open fd e
              | Ok _ =>
                  _ ← request (SetSockOpt fd SOL_NETLINK NETLINK_NO_ENOBUFS 1);
                  mret (Ok fd)
              end
          end
      end
  end.

End Calls.

(** ** The batch's invariant *)

Lemma patch_insert {A : Type} (l : list A) (i : Z) (v : A) : 0 <= i < zlen l ->
  patch l i [v] = <[Z.to_nat i := v]> l.
Proof.
  intros Hi. unfold patch. change (zlen [v]) with 1.
  replace (Z.to_nat (i + 1)) with (S (Z.to_nat i)) by lia.
  rewrite insert_take_drop by (unfold zlen in *; lia). done.
Qed.

(** Writing past a range does not change it. *)
Lemma sub_patch_before {A : Type} (l x : list A) (at_ a b : Z) :
  0 <= a <= b -> b <= at_ -> at_ <= zlen l -> sub (patch l at_ x) a b = sub l a b.
Proof.
  intros Ha Hb Hl. rewrite <- (sub_prefix l a b at_) by lia.
  unfold patch. set (pre := take (Z.to_nat at_) l).
  assert (Hpre : zlen pre = at_) by (apply zlen_take; lia).
  rewrite <- (sub_prefix (pre ++ _) a b at_) by (rewrite ?zlen_app; pose proof (zlen_nonneg x);
    rewrite ?zlen_app; pose proof (zlen_nonneg (drop (Z.to_nat (at_ + zlen x)) l)); lia).
  by rewrite take_app_zlen.
Qed.

Lemma sub_patch_here {A : Type} (l x : list A) (a b : Z) :
  0 <= a -> a <= zlen l -> b = a + zlen x -> sub (patch l a x) a b = x.
Proof.
  intros Ha Hl ->. unfold patch. apply sub_middle; rewrite zlen_take by lia; lia.
Qed.

Record batch_ok (n sl : Z) (b : ReceiveBatch) : Prop := {
  bo_slots : 0 < n <= u32_max;
  bo_slot_len : slot_len b = sl /\ 0 < sl;
  bo_storage : zlen (storage b) = n * sl;
  bo_addresses : zlen (addresses b) = n;
  bo_iovecs : zlen (iovecs b) = n;
  bo_headers : zlen (headers b) = n;
  bo_wired : forall i, 0 <= i < n ->
    iovecs b !! Z.to_nat i = Some (wired_iovec sl i) /\
    exists h, headers b !! Z.to_nat i = Some h /\ msg_name h = i /\ msg_iov h = i
}.

(** Slot [i] holds packet [p]. *)
Definition slot_holds (b : ReceiveBatch) (i : Z) (p : packet) : Prop :=
  addresses b !! Z.to_nat i = Some p.1 /\
  (exists h, headers b !! Z.to_nat i = Some h /\ msg_len h = zlen p.2) /\
  let kept := take (Z.to_nat (slot_len b)) p.2 in
  sub (storage b) (i * slot_len b) (i * slot_len b + zlen kept) = kept.

Lemma zlen_kept (sl : Z) (data : bytes) : 0 <= sl ->
  zlen (take (Z.to_nat sl) data) = Z.min (zlen data) sl.
Proof. intros. unfold zlen. rewrite length_take. lia. Qed.

Lemma zlen_insert {A : Type} (l : list A) (i : nat) (v : A) : zlen (<[i := v]> l) = zlen l.
Proof. unfold zlen. by rewrite length_insert. Qed.

Lemma deliver_done (n sl : Z) (b : ReceiveBatch) (i : Z) (p : packet) :
  batch_ok n sl b -> 0 <= i < n ->
  exists b', deliver b i p = Done b' /\ batch_ok n sl b' /\ slot_holds b' i p /\
    forall j q, 0 <= j < i -> slot_holds b j q -> slot_holds b' j q.
Proof.
  intros [Hn [Hsl Hsl0] Hst Had Hio Hhd Hwired] Hi.
  destruct (Hwired i Hi) as (Hiov & h & Hh & Hname & Hmi).
  pose proof (zlen_kept sl p.2 ltac:(lia)) as Hk. pose proof (zlen_nonneg p.2).
  unfold deliver. rewrite (index_lookup (headers b) i h), bind_done, Hmi by (done || lia).
  rewrite (index_lookup (iovecs b) i (wired_iovec sl i)), bind_done by (done || lia). cbn [wired_iovec iov_base iov_len].
  rewrite copy_from_slice_done, bind_done by (done || nia). rewrite Hname.
  rewrite (set_index_done (addresses b)), bind_done by lia.
  rewrite (set_index_done (headers b)), bind_done by lia.
  rewrite !patch_insert by lia. eexists; split; [done|].
  split; [|split].
  - split; cbn [storage slot_len addresses iovecs headers]; rewrite ?zlen_insert; try done.
    + rewrite zlen_patch; [done|nia|nia].
    + intros j Hj. destruct (Hwired j Hj) as (Hjo & hj & Hhj & Hjn & Hjm). split; [done|].
      destruct (decide (j = i)) as [->|Hne].
      * eexists. rewrite list_lookup_insert_eq by (unfold zlen in *; lia). split; [done|]. done.
      * exists hj. rewrite list_lookup_insert_ne by lia. done.
  - unfold slot_holds. cbn [storage slot_len addresses iovecs headers]. rewrite Hsl.
    split; [by rewrite list_lookup_insert_eq by (unfold zlen in *; lia)|].
    split; [eexists; rewrite list_lookup_insert_eq by (unfold zlen in *; lia); done|].
    apply sub_patch_here; [nia|nia|done].
  - intros j q Hj (Hja & (hj & Hjh & Hjl) & Hjs). unfold slot_holds in *.
    cbn [storage slot_len addresses iovecs headers]. rewrite Hsl in *.
    pose proof (zlen_kept sl q.2 ltac:(lia)). pose proof (zlen_nonneg q.2).
    split; [by rewrite list_lookup_insert_ne by lia|].
    split; [exists hj; by rewrite list_lookup_insert_ne by lia|].
    rewrite sub_patch_before; [done|nia|nia|nia].
Qed.

Lemma deliver_all_done (n sl : Z) (ps : list packet) (b : ReceiveBatch) (i : Z) (before : list packet) :
  batch_ok n sl b -> i = zlen before -> i + zlen ps <= n ->
  (forall j q, before !! j = Some q -> slot_holds b (Z.of_nat j) q) ->
  exists b', deliver_all b i ps = Done b' /\ batch_ok n sl b' /\
    forall j q, (before ++ ps) !! j = Some q -> slot_holds b' (Z.of_nat j) q.
Proof.
  revert b i before. induction ps as [|p ps IH]; intros b i before Hb Hi Hroom Hbefore.
  { exists b. split; [done|]. split; [done|]. by rewrite app_nil_r. }
  rewrite zlen_cons in Hroom. pose proof (zlen_nonneg ps). pose proof (zlen_nonneg before).
  destruct (deliver_done n sl b i p Hb ltac:(lia)) as (b1 & Hd & Hb1 & Hhere & Hold).
  cbn [deliver_all]. rewrite Hd, bind_done.
  destruct (IH b1 (i + 1) (before ++ [p]) Hb1) as (b2 & Hd2 & Hb2 & Hslots).
  - rewrite zlen_app. change (zlen [p]) with 1. lia.
  - lia.
  - intros j q Hq. apply lookup_app_Some in Hq as [Hq|[Hge Hq]].
    + apply Hold; [|by apply Hbefore]. apply lookup_lt_Some in Hq. unfold zlen in *. lia.
    + apply list_lookup_singleton_Some in Hq as [Hz <-].
      replace (Z.of_nat j) with i by (unfold zlen in *; lia). done.
  - exists b2. split; [done|]. split; [done|]. by rewrite <- app_assoc in Hslots.
Qed.

Section BatchOps.
Context {T : Target}.

Lemma wire_up_done (sl n : Z) (b : ReceiveBatch) :
  zlen (headers b) = n -> zlen (iovecs b) = n -> slot_len b = sl ->
  exists b', wire_up b = Done b' /\ storage b' = storage b /\ slot_len b' = sl /\
    addresses b' = addresses b /\ filled b' = filled b /\
    zlen (iovecs b') = n /\ zlen (headers b') = n /\
    forall i, 0 <= i < n ->
      iovecs b' !! Z.to_nat i = Some (wired_iovec sl i) /\
      headers b' !! Z.to_nat i = Some (wired_header i).
Proof.
  intros Hh Hi Hsl. unfold wire_up. rewrite Hh.
  assert (Hgen : forall m : nat, Z.of_nat m <= n ->
    exists b', foldM wire_slot b (seqZ 0 (Z.of_nat m)) = Done b' /\ storage b' = storage b /\
      slot_len b' = sl /\ addresses b' = addresses b /\ filled b' = filled b /\
      zlen (iovecs b') = n /\ zlen (headers b') = n /\
      forall i, 0 <= i < Z.of_nat m ->
        iovecs b' !! Z.to_nat i = Some (wired_iovec sl i) /\
        headers b' !! Z.to_nat i = Some (wired_header i)).
  2: { assert (Hn : n = Z.of_nat (length (headers b))) by (by rewrite <- Hh).
       rewrite Hn. rewrite Hn in Hgen. by apply Hgen. }
  intros m. induction m as [|m IH].
  - intros _. exists b. repeat split; try done; lia.
  - intros Hle. destruct IH as (b1 & Hrun & Hst & Hs & Had & Hf & Hlo & Hlh & Hw); [lia|].
    rewrite seqZ_S, foldM_app, Hrun, bind_done. cbn [foldM]. unfold wire_slot.
    rewrite Z.add_0_l, (set_index_done (iovecs b1)), bind_done by lia.
    rewrite (set_index_done (headers b1)), !bind_done, !patch_insert by lia.
    eexists; split; [done|]. cbn [storage slot_len addresses iovecs headers filled].
    rewrite !zlen_insert, Hs. split_and!; try done. intros i Hi'.
    destruct (decide (i = Z.of_nat m)) as [->|Hne].
    + by rewrite !list_lookup_insert_eq by (unfold zlen in *; lia).
    + rewrite !list_lookup_insert_ne by lia. apply Hw. lia.
Qed.

Lemma ReceiveBatch_new_done (slots sl : Z) :
  0 < slots <= u32_max -> 0 < sl -> slots * sl <= isize_max ->
  exists b, ReceiveBatch_new slots sl = Done b /\ batch_ok slots sl b /\ filled b = 0.
Proof.
  intros Hs Hsl Hsize. pose proof isize_usize. unfold ReceiveBatch_new, guard_panic.
  destruct (Z.ltb_spec 0 slots); [|lia]. destruct (Z.ltb_spec 0 sl); [|lia]. rewrite !bind_done.
  rewrite usize_mul_done, bind_done by nia.
  match goal with |- context [wire_up ?x] =>
    destruct (wire_up_done sl slots x) as (b & -> & Hst & Hsl' & Had & Hf & Hlo & Hlh & Hw) end;
    cbn [headers iovecs slot_len]; rewrite ?zlen_replicate; try lia; try done.
  exists b. split; [done|]. cbn [storage addresses filled] in *. split; [|done]. split; try done.
  - rewrite Hst, zlen_replicate. lia.
  - rewrite Had, zlen_replicate. lia.
  - intros i Hi. destruct (Hw i Hi) as [Hwi Hwh]. split; [done|]. eexists; split; [exact Hwh|]. done.
Qed.

Lemma reset_ok (n sl : Z) (b : ReceiveBatch) : batch_ok n sl b -> batch_ok n sl (reset b).
Proof.
  intros [Hn Hsl Hst Had Hio Hhd Hw]. split; try done; cbn [headers reset set_filled].
  - unfold zlen in *. by rewrite length_map.
  - intros i Hi. destruct (Hw i Hi) as (H1 & h & Hh & Hname & Hmi). split; [done|].
    exists (reset_header h). rewrite list_lookup_fmap, Hh. done.
Qed.

(** The datagram in a filled slot is what the kernel put there, cut to the slot. *)
Lemma datagram_done (n sl : Z) (b : ReceiveBatch) (i : Z) (p : packet) :
  batch_ok n sl b -> n * sl <= isize_max -> 0 <= i < n -> i < filled b -> slot_holds b i p ->
  datagram b i =
  Done ({| len := Z.min (zlen p.2) sl; datagram_len := zlen p.2; sender_portid := p.1 |},
        take (Z.to_nat sl) p.2).
Proof.
  intros [Hn [Hsl Hsl0] Hst Had Hio Hhd _] Hsize Hi Hfill (Hadr & (h & Hh & Hlen) & Hkept).
  cbv zeta in Hkept. rewrite Hsl in Hkept. pose proof isize_usize. pose proof (zlen_nonneg p.2).
  rewrite zlen_kept in Hkept by lia. unfold datagram, guard_panic.
  destruct (Z.ltb_spec i (filled b)); [|lia]. rewrite bind_done.
  rewrite (index_lookup (headers b) i h), bind_done by (done || lia). cbv zeta. rewrite Hlen, Hsl.
  rewrite usize_mul_done, bind_done by nia.
  rewrite (index_lookup (addresses b) i p.1), bind_done by (done || lia).
  rewrite usize_add_done, bind_done by nia. rewrite slice_done, bind_done by nia.
  by rewrite Hkept.
Qed.

End BatchOps.

Section ReceiveProps.
Context {T : Target} {W : Type} {K : Kernel W}.

(** What one receive leaves in the log and in the batch. *)
Lemma recv_batch_ends (stuck : Prop) (fd n sl : Z) (b : ReceiveBatch) (w : world W) : batch_ok n sl b ->
  run stuck (recv_batch fd b) w (fun out w' =>
    let '(r, b') := out in
    batch_ok n sl b' /\
    exists a, a = (k_call (Recvmmsg fd n) (kernel w)).1 /\
      log w' = log w ++ [called (Recvmmsg fd n) a] /\
      match a with
      | Err e => r = Err e /\ filled b' = 0
      | Ok ps => r = Ok (zlen ps) /\ filled b' = zlen ps /\ zlen ps <= n /\
                 Forall (fun p => bytes_ok p.2 /\ zlen p.2 < 2 ^ 32) ps /\
                 forall j q, ps !! j = Some q -> slot_holds b' (Z.of_nat j) q
      end).
Proof.
  intros Hb. pose proof (reset_ok _ _ _ Hb) as Hr. pose proof Hr as [Hn _ _ _ _ Hhd _].
  unfold recv_batch. apply (run_lift_bind _ _ n).
  { unfold capacity_as_c_uint, capacity. rewrite Hhd. destruct (Z.leb_spec n u32_max); [done|lia]. }
  eapply run_bind.
  { apply (run_request _ _ _ (fun a w' => a = (k_call (Recvmmsg fd n) (kernel w)).1 /\
      log w' = log w ++ [called (Recvmmsg fd n) a] /\
      forall ps, a = Ok ps -> zlen ps <= n /\ Forall (fun p => bytes_ok p.2 /\ zlen p.2 < 2 ^ 32) ps)).
    intros a k Ha. rewrite Ha. split; [done|]. split; [done|]. intros ps ->. apply (k_recvmmsg_ok fd n (kernel w)). by rewrite Ha. }
  intros a w' (Hans & Hlog & Hps). destruct a as [ps|e].
  - destruct (Hps ps eq_refl) as [Hle Hok].
    destruct (deliver_all_done n sl ps (reset b) 0 []) as (b' & Hd & Hb' & Hslots); try done.
    apply (run_lift_bind _ _ b'); [done|]. apply run_ret. split; [by destruct Hb'|]. exists (Ok ps).
    do 6 (split; [done|]). exact Hslots.
  - apply run_ret. split; [by destruct Hr|]. by exists (Err e).
Qed.

End ReceiveProps.

(** ** The batch, from the outside *)

(** What a caller sees of a received packet. *)
Definition seen (sl : Z) (p : packet) : Datagram * bytes :=
  ({| len := Z.min (zlen p.2) sl; datagram_len := zlen p.2; sender_portid := p.1 |},
   take (Z.to_nat sl) p.2).

(** C27: a batched receive is faithful.  On a batch made by [ReceiveBatch::new],
    whatever it was used for before, [recv_batch] ends; on success the slots it
    reports are exactly the datagrams the kernel delivered, in order, each with
    its sender, its full length and as many of its bytes as a slot holds; on an
    error no slot reads as filled. *)
Theorem batch_shows_what_was_received {T : Target} {W : Type} {K : Kernel W} (fd n sl : Z)
    (b : ReceiveBatch) (w : world W) :
  batch_ok n sl b -> n * sl <= isize_max ->
  ends (recv_batch fd b) w (fun out w' =>
    batch_ok n sl out.2 /\
    let a := (k_call (Recvmmsg fd n) (kernel w)).1 in
    log w' = log w ++ [called (Recvmmsg fd n) a] /\
      match a with
      | Err e => out.1 = Err e /\ forall i, datagram out.2 (Z.of_nat i) = Panic AssertFailed
      | Ok ps => out.1 = Ok (zlen ps) /\
          (forall i p, ps !! i = Some p -> datagram out.2 (Z.of_nat i) = Done (seen sl p)) /\
          (forall i, zlen ps <= i -> datagram out.2 i = Panic AssertFailed)
      end).
Proof.
  intros Hb Hsize. eapply run_conseq; [apply recv_batch_ends, Hb|].
  intros [r b'] w' (Hb' & a & Hans & Hlog & Ha). split; [done|]. cbv zeta. rewrite <- Hans.
  split; [done|]. cbn [fst snd].
  assert (Hpast : forall i, filled b' <= i -> datagram b' i = Panic AssertFailed).
  { intros i Hi. unfold datagram, guard_panic. by destruct (Z.ltb_spec i (filled b')); [lia|]. }
  destruct a as [ps|e].
  - destruct Ha as (Hr & Hf & Hn & _ & Hslots). split; [done|]. split.
    + intros i p Hi. pose proof (lookup_lt_Some _ _ _ Hi). apply (datagram_done n); try done.
      * unfold zlen in *. lia.
      * unfold zlen in *. lia.
      * by apply Hslots.
    + intros i Hi. apply Hpast. lia.
  - destruct Ha as [Hr Hf]. split; [done|]. intros i. apply Hpast. lia.
Qed.

Definition two_packets : machine :=
  {| queue := [(0, [1; 2; 3; 4; 5]); (77, [6])]; pending := []; clock_ms := 0 |}.

Lemma batch_shows_what_was_received_witness :
  exists b, ReceiveBatch_new (T := x86_64_debug) 3 4 = Done b /\
    ends (recv_batch 3 b) {| kernel := two_packets; log := [] |} (fun out w' =>
      out.1 = Ok 2 /\
      (forall i p, queue two_packets !! i = Some p ->
         datagram (T := x86_64_debug) out.2 (Z.of_nat i) = Done (seen 4 p))).
Proof.
  destruct (ReceiveBatch_new_done (T := x86_64_debug) 3 4) as (b & Hnew & Hb & _);
    [vm_compute; split; congruence|lia|vm_compute; congruence|].
  exists b. split; [exact Hnew|].
  pose proof (batch_shows_what_was_received (T := x86_64_debug) 3 3 4 b
                {| kernel := two_packets; log := [] |} Hb ltac:(vm_compute; congruence)) as H.
  vm_compute in Hnew. injection Hnew as <-.
  destruct H as (_ & _ & Hr & Hd & _). exact (conj Hr Hd).
Defined.

(** ** Opening the socket *)

Definition is_close (c : call) : bool :=
  match projT1 c with Close _ => true | _ => false end.

Lemma log_two {A : Type} (l1 l2 l3 x y : list A) : l2 = l1 ++ x -> l3 = l2 ++ y -> l3 = l1 ++ (x ++ y).
Proof. intros -> ->. by rewrite app_assoc. Qed.

(** The receive buffer is set by one call or two, neither of which matters. *)
Lemma set_recv_buf_run {W : Type} {K : Kernel W} (stuck : Prop) (fd size : Z) (w : world W) :
  run stuck (set_recv_buf fd size) w (fun _ w' => exists calls, log w' = log w ++ calls /\
    Forall (fun c => is_close c = false) calls).
Proof.
  unfold set_recv_buf. call_with a w1 H1. destruct a as [?|e].
  - apply run_ret. eexists. split; [exact H1|]. by repeat constructor.
  - call_with a w2 H2. apply run_ret. eexists.
    split; [exact (log_two _ _ _ _ _ H1 H2)|]. by repeat constructor.
Qed.

(** Calls after which a failure closes the socket [fd] made among them. *)
Definition opened (fd : Z) (calls : list call) : Prop :=
  In (called Socket (Ok fd)) calls /\ Forall (fun c => is_close c = false) calls.

Lemma opened_snoc (fd : Z) (calls : list call) (c : call) :
  opened fd calls -> is_close c = false -> opened fd (calls ++ [c]).
Proof.
  intros [Hin Hall] Hc. split; [apply in_app_iff; by left|].
  apply Forall_app. split; [done|]. by repeat constructor.
Qed.

Lemma fail_open_run {W : Type} {K : Kernel W} (stuck : Prop) (fd : Z) (e : open_error)
    (w0 w : world W) (calls : list call) (Q : result open_error Z -> world W -> Prop) :
  log w = log w0 ++ calls -> opened fd calls ->
  (forall w', (exists fd before, log w' = log w0 ++ (before ++ [called (Close fd) tt]) /\
               In (called Socket (Ok fd)) before /\
               Forall (fun c => is_close c = false) before) -> Q (Err e) w') ->
  run stuck (fail_open fd e) w Q.
Proof.
  intros Hlog [Hin Hall] HQ. unfold fail_open, drop_socket. call_with [] w' H'. apply run_ret, HQ. exists fd, calls.
  split; [exact (log_two _ _ _ _ _ Hlog H')|done].
Qed.

Definition joined (fd group : Z) (a : result io_error unit) : call :=
  called (SetSockOpt fd SOL_NETLINK NETLINK_ADD_MEMBERSHIP group) a.

Lemma add_membership_run {W : Type} {K : Kernel W} (stuck : Prop) (fd group : Z) (w0 w : world W)
    (calls : list call) {B : Type} (f : result open_error unit -> sys W B) (Q : B -> world W -> Prop) :
  log w = log w0 ++ calls -> opened fd calls ->
  (forall w', log w' = log w0 ++ (calls ++ [joined fd group (Ok tt)]) ->
     opened fd (calls ++ [joined fd group (Ok tt)]) -> run stuck (f (Ok tt)) w' Q) ->
  (forall e w', log w' = log w0 ++ (calls ++ [joined fd group (Err e)]) ->
     opened fd (calls ++ [joined fd group (Err e)]) ->
     run stuck (f (Err (MembershipFailed group e))) w' Q) ->
  run stuck (add_membership fd group ≫= f) w Q.
Proof.
  intros Hlog Ho Hok Herr.
  apply (run_bind _ _ _ _ (fun r w' => exists a, log w' = log w0 ++ (calls ++ [joined fd group a]) /\
    r = match a with Err e => Err (MembershipFailed group e) | Ok _ => Ok tt end)).
  - unfold add_membership. call_with a w' H. apply run_ret. exists a.
    split; [exact (log_two _ _ _ _ _ Hlog H)|done].
  - intros r w' ([[]|e] & H & ->); [apply Hok|apply Herr]; try done; by apply opened_snoc.
Qed.

(** C28: opening the conntrack socket.  [open] ends.  When it succeeds, the socket
    has joined both the group of new and the group of destroyed sessions and has
    not been closed; when it fails after creating the socket, closing that
    socket is the last thing it does, and the only close. *)
Theorem open_joins_both_groups_or_closes {W : Type} {K : Kernel W} (size : Z) (w : world W) :
  ends (open size) w (fun r w' => exists calls, log w' = log w ++ calls /\
    match r with
    | Ok fd =>
        In (called Socket (Ok fd)) calls /\
        In (called (SetSockOpt fd SOL_NETLINK NETLINK_ADD_MEMBERSHIP NFNLGRP_CONNTRACK_NEW) (Ok tt)) calls /\
        In (called (SetSockOpt fd SOL_NETLINK NETLINK_ADD_MEMBERSHIP NFNLGRP_CONNTRACK_DESTROY) (Ok tt)) calls /\
        Forall (fun c => is_close c = false) calls
    | Err (CreateFailed e) => calls = [called Socket (Err e)]
    | Err _ => exists fd before, calls = before ++ [called (Close fd) tt] /\
        In (called Socket (Ok fd)) before /\ Forall (fun c => is_close c = false) before
    end).
Proof.
  unfold open. call_with a w1 H1. destruct a as [fd|e].
  2: { apply run_ret. by eexists. }
  eapply run_bind; [apply set_recv_buf_run|]. intros [] w2 (bufs & H2 & Hb).
  assert (Ho : opened fd ([called Socket (Ok fd)] ++ bufs)).
  { split; [by left|]. apply Forall_cons_2; done. }
  pose proof (log_two _ _ _ _ _ H1 H2) as H3. clear H1 H2.
  call_with a w3 H. pose proof (log_two _ _ _ _ _ H3 H) as H4. clear H3 H.
  apply (opened_snoc _ _ (called (Bind fd) a)) in Ho; [|done]. destruct a as [[]|e].
  2: { eapply fail_open_run; [exact H4|exact Ho|]. intros w' (fd' & before & H' & ?).
       eexists. split; [exact H'|]. by exists fd', before. }
  eapply add_membership_run; [exact H4|exact Ho| |]; clear H4 Ho.
  2: { intros e w4 H5 Ho. eapply fail_open_run; [exact H5|exact Ho|]. intros w' (fd' & before & H' & ?).
       eexists. split; [exact H'|]. by exists fd', before. }
  intros w4 H5 Ho. eapply add_membership_run; [exact H5|exact Ho| |]; clear H5 Ho.
  2: { intros e w5 H6 Ho. eapply fail_open_run; [exact H6|exact Ho|]. intros w' (fd' & before & H' & ?).
       eexists. split; [exact H'|]. by exists fd', before. }
  intros w5 H6 Ho. call_with a w6 H. apply run_ret.
  pose proof (log_two _ _ _ _ _ H6 H) as H7. eexists. split; [exact H7|].
  pose proof (opened_snoc _ _ (called (SetSockOpt fd SOL_NETLINK NETLINK_NO_ENOBUFS 1) a) Ho eq_refl)
    as [Hin Hall]. split; [exact Hin|]. split; [|split; [|exact Hall]].
  - apply in_app_iff; left. apply in_app_iff; left. apply in_app_iff; right. by left.
  - apply in_app_iff; left. apply in_app_iff; right. by left.
Qed.

Lemma open_joins_both_groups_or_closes_witness :
  ends (open 4096) {| kernel := two_packets; log := [] |} (fun r w' =>
    exists calls, log w' = calls /\ match r with Ok fd => opened fd calls | Err _ => True end).
Proof.
  eapply run_conseq; [apply (open_joins_both_groups_or_closes 4096)|].
  intros r w' (calls & Hlog & Hr). exists calls. split; [exact Hlog|].
  destruct r as [fd|e]; [|exact I]. destruct Hr as (Hin & _ & _ & Hall). exact (conj Hin Hall).
Defined.
