(* ===== verification/Signals.v ===== *)
(** * Signals through a descriptor

    [src/signals.rs]: blocking the signals of interest, reading the pending ones
    from a signalfd, and waiting for it to become readable. *)

From stdpp Require Import base list numbers.
From Stdlib Require Import ZArith Lia.
From S2P Require Import Prelude System Socket.
Local Open Scope Z_scope.

Definition SIGINT : Z := 2.
Definition SIGKILL : Z := 9.
Definition SIGTERM : Z := 15.
Definition SIGCHLD : Z := 17.

Section Signals.
Context {W : Type} {K : Kernel W}.

(** [SignalFd::new]: the descriptor. *)
Definition SignalFd_new (signals : list Z) : sys W (result io_error Z) :=
  blocked ← request (SigBlock signals);
  match blocked with
  | Err e => mret (Err e)
  | Ok _ => request (Signalfd signals)
  end.

(** One pass of the [loop] of [read_pending]. *)
Definition read_one (fd : Z) (signals : list Z)
    : sys W (flow (list Z) (result io_error (list Z))) :=
  n ← request (ReadSignal fd);
  mret match n with
       | Err WouldBlock => Break (Ok signals)
       | Err Interrupted => Continue signals
       | Err e => Break (Err e)
       | Ok None => Break (Ok signals)
       | Ok (Some signo) => Continue (signals ++ [signo])
       end.

Definition read_pending (fuel : nat) (fd : Z) : sys W (result io_error (list Z)) :=
  sys_loop fuel (read_one fd) [].

Definition close_in_child (fd : Z) : sys W unit := request (Close fd).

Definition SignalFd_drop (fd : Z) : sys W unit := request (Close fd).

Definition unblock_all : sys W (result io_error unit) := request SigUnblockAll.

Definition poll_readable (fd timeout_ms : Z) : sys W (result io_error bool) :=
  ret ← request (Poll [fd] timeout_ms);
  mret match ret with
       | Err e => Err e
       | Ok (count, revents) => Ok ((0 <? count) && readable revents 0)
       end.

(** The signals a stretch of the log read, in order. *)
Definition signal_read (c : call) : option Z :=
  match c with
  | existT (ReadSignal _) (Ok (Some signo)) => Some signo
  | _ => None
  end.

Definition signals_read (calls : list call) : list Z := omap signal_read calls.

Definition is_read (fd : Z) (c : call) : Prop := projT1 c = ReadSignal fd.

Lemma read_one_run (stuck : Prop) (fd : Z) (signals : list Z) (w0 w : world W) (before : list call) :
  log w = log w0 ++ before -> Forall (is_read fd) before -> signals_read before = signals ->
  run stuck (read_one fd signals) w (fun step w' => exists calls,
    log w' = log w0 ++ calls /\ Forall (is_read fd) calls /\
    match step with
    | Continue signals' => signals_read calls = signals'
    | Break (Ok l) => signals_read calls = l
    | Break (Err _) => True
    end).
Proof.
  intros Hlog Hall Hsig. unfold read_one. call_with a w' H. apply run_ret.
  exists (before ++ [called (ReadSignal fd) a]). split; [exact (log_two _ _ _ _ _ Hlog H)|].
  split; [apply Forall_app; split; [done|by repeat constructor]|].
  assert (Hread : signals_read (before ++ [called (ReadSignal fd) a]) =
                  signals ++ signals_read [called (ReadSignal fd) a])
    by (unfold signals_read; rewrite omap_app, <- Hsig; done).
  destruct a as [[signo|]|[| |errno]]; try done; rewrite Hread; try done; cbn; by rewrite app_nil_r.
Qed.

Lemma read_pending_run (fuel : nat) (fd : Z) (w : world W) :
  runs (read_pending fuel fd) w (fun r w' => exists calls,
    log w' = log w ++ calls /\ Forall (is_read fd) calls /\
    match r with Ok l => l = signals_read calls | Err _ => True end).
Proof.
  unfold read_pending.
  apply (runs_loop _ (fun signals w' => exists calls,
    log w' = log w ++ calls /\ Forall (is_read fd) calls /\ signals_read calls = signals)).
  - intros signals w1 (before & Hlog & Hall & Hsig).
    eapply run_conseq; [by eapply read_one_run|]. intros [s|[l|e]] w2 (calls & H1 & H2 & H3);
      exists calls; auto.
  - exists []. by rewrite app_nil_r.
Qed.

(** Draining the signal descriptor.  On a kernel that has only so many signals and
    interruptions to give ([mu] bounds them), [read_pending] ends; it only reads the
    descriptor, and when it returns a list, that is every signal it read, in order:
    interrupted reads lose none. *)
Lemma read_pending_ends (mu : W -> nat) (fuel : nat) (fd : Z) (w : world W) :
  (forall k a k', k_call (ReadSignal fd) k = (a, k') ->
     a = Err Interrupted \/ (exists signo, a = Ok (Some signo)) -> (mu k' < mu k)%nat) ->
  (mu (kernel w) < fuel)%nat ->
  ends (read_pending fuel fd) w (fun r w' => exists calls,
    log w' = log w ++ calls /\ Forall (is_read fd) calls /\
    match r with Ok l => l = signals_read calls | Err _ => True end).
Proof.
  intros Hmu Hfuel. unfold read_pending.
  apply (ends_loop _ (fun signals w' => exists calls,
    log w' = log w ++ calls /\ Forall (is_read fd) calls /\ signals_read calls = signals) _
    (fun _ w => mu (kernel w))); [|exists []; by rewrite app_nil_r|done].
  intros signals w1 (before & Hlog & Hall & Hsig).
  pose proof (read_one_run False fd signals w w1 before Hlog Hall Hsig) as Hrun.
  unfold run, read_one, mbind, sys_bind, request in *.
  destruct (k_call (ReadSignal fd) (kernel w1)) as [a k'] eqn:Ha. specialize (Hmu _ _ _ Ha).
  cbn in Hrun |- *. destruct Hrun as (calls & H1 & H2 & H3).
  destruct a as [[signo|]|[| |errno]]; try (exists calls; by auto).
  - split; [by exists calls|]. cbn. apply Hmu. right. by eexists.
  - split; [by exists calls|]. cbn. apply Hmu. by left.
Qed.

(** What a kernel promises whose signal descriptors never have more than [limit]
    signals and interruptions to give, [pend] of them at present. *)
Record finitely_pending (pend : W -> nat) (limit : nat) : Prop := {
  fp_read : forall fd k a k', k_call (ReadSignal fd) k = (a, k') ->
    a = Err Interrupted \/ (exists signo, a = Ok (Some signo)) -> (pend k' < pend k)%nat;
  fp_limit : forall k, (pend k <= limit)%nat
}.

End Signals.
