(* ===== verification/Worker.v ===== *)
(** * The worker

    [src/main.rs]: [run_worker], its event loop and [flush_message], with the
    setup around it ([set_send_buf], the sysctls).  The variables of the loop
    are the fields of [loop_state]; those [flush_message] is handed are grouped
    in [exporter].  Times are nanoseconds; [Instant] arithmetic panics where
    Rust's does.  Log lines ([info!], [warn!], ...) are not modelled. *)

From stdpp Require Import base list numbers strings.
From Stdlib Require Import ZArith Lia.
From S2P Require Import Prelude Constants Elements Event Parser Template Record Encoder System Socket Signals.
Local Open Scope Z_scope.

Definition FLUSH_TIMEOUT_MS : Z := 100.
Definition STATS_INTERVAL_SECS : Z := 10.
Definition MAX_BATCHES_PER_POLL : nat := 64.
Definition CONNTRACK_ACCT_SYSCTL : string := "/proc/sys/net/netfilter/nf_conntrack_acct".
Definition CONNTRACK_EVENTS_SYSCTL : string := "/proc/sys/net/netfilter/nf_conntrack_events".
Definition SO_SNDBUF : Z := 7.
Definition SO_SNDBUFFORCE : Z := 32.

Record Args := {
  collector : string;
  recv_buf : Z;
  send_buf : Z;
  domain_id : Z;
  arg_protocol : Protocol;
  arg_profile : Profile;
  arg_counter_width : Z;
  arg_template_id : Z;
  template_interval : Z;
  verbose : bool;
  daemon : bool;
  log_file : option string;
  no_sysctl : bool
}.

(** What [run_worker] fails with. *)
Inductive worker_error :=
  | BadTemplateInterval
  | BadWidth (e : config_error)
  | BadConfiguration (e : config_error)
  | SysctlReadFailed (path : string) (e : io_error)
  | SysctlWriteFailed (path value : string) (e : io_error)
  | SignalSetupFailed (e : io_error)
  | UdpBindFailed (e : io_error)
  | UdpConnectFailed (e : io_error)
  | NetlinkOpenFailed (e : open_error)
  | PollFailed (e : io_error)
  | SignalReadFailed (e : io_error).

(** The context each error is given where it arises; a bad counter width is passed on
    without one, so its own message is the outermost. *)
Definition worker_error_context (e : worker_error) : string :=
  match e with
  | BadTemplateInterval => "--template-interval must be at least 1 second"
  | BadWidth e => config_error_fmt e
  | BadConfiguration _ => "Invalid export configuration"
  | SysctlReadFailed path _ => "failed to read sysctl " +:+ path
  | SysctlWriteFailed path value _ => "failed to write sysctl " +:+ path +:+ "=" +:+ value
  | SignalSetupFailed _ => "Failed to set up signal handling"
  | UdpBindFailed _ => "Failed to bind UDP socket"
  | UdpConnectFailed _ => "Failed to connect UDP socket to collector"
  | NetlinkOpenFailed _ => "Failed to open netlink socket"
  | PollFailed _ => "poll() on netlink socket failed"
  | SignalReadFailed _ => "failed to read signalfd"
  end.

(** ** Time *)

Definition secs (n : Z) : Z := n * 10 ^ 9.

(** [Instant + Duration], which panics past the last representable second. *)
Definition instant_add (t d : Z) : outcome Z :=
  if (t + d) / 10 ^ 9 <? 2 ^ 63 then Done (t + d) else Panic ArithmeticOverflow.

(** [later.duration_since(earlier)], which saturates at zero. *)
Definition duration_since (later earlier : Z) : Z := Z.max 0 (later - earlier).

(** [u64::saturating_sub] *)
Definition saturating_sub (a b : Z) : Z := Z.max 0 (a - b).

Definition i32_max : Z := 2 ^ 31 - 1.

Definition ms_until (deadline now : Z) : Z :=
  let millis := duration_since deadline now / 10 ^ 6 in
  if millis <=? i32_max then millis else i32_max.

(** ** Text *)

Definition newline : string := String (Ascii.ascii_of_nat 10) EmptyString.

(** A string of bytes, as they are in memory. *)
Definition of_bytes (bs : list nat) : string := String.string_of_list_ascii (map Ascii.ascii_of_nat bs).

(** The characters with the Unicode property White_Space, in UTF-8. *)
Definition WHITE_SPACE : list string := map of_bytes (
  [[9]; [10]; [11]; [12]; [13]; [32]; [0xC2; 0x85]; [0xC2; 0xA0]; [0xE1; 0x9A; 0x80]] ++
  map (fun n => [0xE2; 0x80; n]) (seq 0x80 11) ++
  [[0xE2; 0x80; 0xA8]; [0xE2; 0x80; 0xA9]; [0xE2; 0x80; 0xAF]; [0xE2; 0x81; 0x9F]; [0xE3; 0x80; 0x80]])%nat.

Definition is_white (c : string) : bool := existsb (String.eqb c) WHITE_SPACE.

(** How many bytes the character has that starts with a byte. *)
Definition char_len (lead : Ascii.ascii) : nat :=
  let n := Ascii.nat_of_ascii lead in
  if Nat.ltb n 0x80 then 1 else if Nat.ltb n 0xE0 then 2 else if Nat.ltb n 0xF0 then 3 else 4.

(** [str::chars]; a string that was cut off, which is no [str], is taken byte by byte. *)
Fixpoint chars (s : string) : list string :=
  match s with
  | EmptyString => []
  | String a s1 =>
      match char_len a, s1 with
      | 2%nat, String b s2 => String a (String b EmptyString) :: chars s2
      | 3%nat, String b (String c s3) => String a (String b (String c EmptyString)) :: chars s3
      | 4%nat, String b (String c (String d s4)) =>
          String a (String b (String c (String d EmptyString))) :: chars s4
      | _, _ => String a EmptyString :: chars s1
      end
  end.

Fixpoint skip_white (l : list string) : list string :=
  match l with
  | c :: l' => if is_white c then skip_white l' else l
  | [] => []
  end.

(** [str::trim] *)
Definition trim (s : string) : string :=
  String.concat EmptyString (reverse (skip_white (reverse (skip_white (chars s))))).

(** ** State *)

(** What [flush_message] works on. *)
Record exporter := {
  encoder : Encoder;
  send_errors : Z;
  include_template : bool;
  last_template_time : Z
}.

Definition set_encoder (x : exporter) (e : Encoder) : exporter :=
  {| encoder := e; send_errors := send_errors x; include_template := include_template x;
     last_template_time := last_template_time x |}.

Definition set_include (x : exporter) (b : bool) : exporter :=
  {| encoder := encoder x; send_errors := send_errors x; include_template := b;
     last_template_time := last_template_time x |}.

(** The counters of the statistics. *)
Record stats := {
  last_stats_time : Z;
  prev_nl_drops : Z;
  prev_send_errors : Z;
  prev_truncated_msgs : Z;
  prev_foreign_msgs : Z;
  prev_saturated : Z
}.

Record loop_state := {
  exp : exporter;
  message_active : bool;
  truncated_msgs : Z;
  foreign_msgs : Z;
  reported : stats;
  batch : ReceiveBatch
}.

Definition set_exp (s : loop_state) (x : exporter) : loop_state :=
  {| exp := x; message_active := message_active s; truncated_msgs := truncated_msgs s;
     foreign_msgs := foreign_msgs s; reported := reported s; batch := batch s |}.

Definition set_active (s : loop_state) (b : bool) : loop_state :=
  {| exp := exp s; message_active := b; truncated_msgs := truncated_msgs s;
     foreign_msgs := foreign_msgs s; reported := reported s; batch := batch s |}.

Definition set_counts (s : loop_state) (truncated foreign : Z) : loop_state :=
  {| exp := exp s; message_active := message_active s; truncated_msgs := truncated;
     foreign_msgs := foreign; reported := reported s; batch := batch s |}.

Definition set_reported (s : loop_state) (r : stats) : loop_state :=
  {| exp := exp s; message_active := message_active s; truncated_msgs := truncated_msgs s;
     foreign_msgs := foreign_msgs s; reported := r; batch := batch s |}.

Definition set_batch (s : loop_state) (b : ReceiveBatch) : loop_state :=
  {| exp := exp s; message_active := message_active s; truncated_msgs := truncated_msgs s;
     foreign_msgs := foreign_msgs s; reported := reported s; batch := b |}.

(** What the loop does not change. *)
Record config := { nl_fd : Z; sig_fd : Z; interval : Z }.

Section Worker.
Context {T : Target} {W : Type} {K : Kernel W}.

(** [Instant::now()] *)
Definition now : sys W Z := c ← request ClockNow; mret (instant c).

(** ** Sending *)

(** A message with the template settles the retransmit schedule. *)
Definition settle_schedule (x : exporter) : sys W exporter :=
  if template_included (encoder x) then
    t ← now;
    mret {| encoder := encoder x; send_errors := send_errors x; include_template := false;
            last_template_time := t |}
  else mret x.

Definition send_message (x : exporter) : sys W exporter :=
  clock ← request ClockNow;
  '(e, data, _) ← lift (finalize (encoder x) clock);
  sent ← request (UdpSend data);
  match sent with
  | Ok _ => mret (set_encoder x e)
  | Err _ =>
      n ← lift (add_w 64 (send_errors x) 1);
      mret {| encoder := e; send_errors := n; include_template := include_template x;
              last_template_time := last_template_time x |}
  end.

Definition flush_message (x : exporter) : sys W exporter :=
  if negb (has_pending_output (encoder x)) then mret x
  else x ← settle_schedule x; send_message x.

(** The callback given to the parser. *)
Definition handle_event (x : exporter) (ev : ConntrackEvent) : sys W exporter :=
  '(e, added) ← lift (add_record (encoder x) ev);
  if (added : bool) then mret (set_encoder x e)
  else
    x ← flush_message (set_encoder x e);
    e ← lift (begin_message (encoder x) (include_template x));
    '(e, _) ← lift (add_record e ev);
    mret (set_encoder x e).

(** [parse_conntrack_messages(bytes, |event| ...)]: the callback's effects are
    threaded through the parser. *)
Definition parse_into (x : exporter) (data : bytes) : sys W exporter := fun w =>
  parse_conntrack_messages data (fun st ev => handle_event st.1 ev st.2) (x, w).

(** One pass of [for index in 0..received]. *)
Definition handle_datagram (s : loop_state) (i : Z) : sys W loop_state :=
  '(d, data) ← lift (datagram (batch s) i);
  if negb (sender_portid d =? 0) then
    n ← lift (add_w 64 (foreign_msgs s) 1);
    mret (set_counts s (truncated_msgs s) n)
  else
    s ← (if len d <? datagram_len d then
           n ← lift (add_w 64 (truncated_msgs s) 1);
           mret (set_counts s n (foreign_msgs s))
         else mret s);
    if len d =? 0 then mret s
    else
      s ← (if negb (message_active s) then
             e ← lift (begin_message (encoder (exp s)) (include_template (exp s)));
             mret (set_active (set_exp s (set_encoder (exp s) e)) true)
           else mret s);
      x ← parse_into (exp s) data;
      mret (set_exp s x).

(** [for _ in 0..MAX_BATCHES_PER_POLL] *)
Fixpoint drain (passes : nat) (fd : Z) (s : loop_state) : sys W loop_state :=
  match passes with
  | O => mret s
  | S passes' =>
      '(received, b) ← recv_batch fd (batch s);
      let s := set_batch s b in
      match received with
      | Err _ => mret s
      | Ok received =>
          if received =? 0 then mret s
          else
            s ← sys_foldM handle_datagram s (seqZ 0 received);
            if received <? Socket.capacity (batch s) then mret s
            else drain passes' fd s
      end
  end.

(** ** One pass of the event loop *)

(** The counters now, given the kernel's drop counter. *)
Definition totals (s : loop_state) (nl_drops : Z) : drop_counts :=
  {| nl_recv := nl_drops; udp_send := send_errors (exp s); truncated := truncated_msgs s;
     foreign := foreign_msgs s; clamped_count := saturated_counters (encoder (exp s)) |}.

(** What is new since the last report. *)
Definition new_counts (prev : stats) (now : drop_counts) : drop_counts :=
  {| nl_recv := saturating_sub (nl_recv now) (prev_nl_drops prev);
     udp_send := saturating_sub (udp_send now) (prev_send_errors prev);
     truncated := saturating_sub (truncated now) (prev_truncated_msgs prev);
     foreign := saturating_sub (foreign now) (prev_foreign_msgs prev);
     clamped_count := saturating_sub (clamped_count now) (prev_saturated prev) |}.

Definition any_new (d : drop_counts) : bool :=
  (0 <? nl_recv d) || (0 <? udp_send d) || (0 <? truncated d) || (0 <? foreign d) ||
  (0 <? clamped_count d).

(** The statistics: what is new is reported, and remembered as reported. *)
Definition report_stats (cfg : config) (t : Z) (s : loop_state) : sys W loop_state :=
  if secs STATS_INTERVAL_SECS <=? duration_since t (last_stats_time (reported s)) then
    nl_drops ← get_drops (nl_fd cfg);
    let total := totals s nl_drops in
    let fresh := new_counts (reported s) total in
    _ ← (if any_new fresh then request (WarnDrops fresh total) else mret tt);
    mret (set_reported s {| last_stats_time := t; prev_nl_drops := nl_drops;
            prev_send_errors := send_errors (exp s); prev_truncated_msgs := truncated_msgs s;
            prev_foreign_msgs := foreign_msgs s;
            prev_saturated := saturated_counters (encoder (exp s)) |})
  else mret s.

Definition check_template_due (cfg : config) (t : Z) (s : loop_state) : loop_state :=
  if interval cfg <=? duration_since t (last_template_time (exp s))
  then set_exp s (set_include (exp s) true) else s.

(** A template that is due goes out alone when nothing is buffered. *)
Definition send_template (s : loop_state) : sys W loop_state :=
  if include_template (exp s) && negb (message_active s) then
    e ← lift (begin_message (encoder (exp s)) true);
    x ← flush_message (set_encoder (exp s) e);
    mret (set_exp s x)
  else mret s.

Definition poll_timeout (cfg : config) (s : loop_state) : sys W Z :=
  if message_active s then mret FLUSH_TIMEOUT_MS
  else
    template_due ← lift (instant_add (last_template_time (exp s)) (interval cfg));
    stats_due ← lift (instant_add (last_stats_time (reported s)) (secs STATS_INTERVAL_SECS));
    t ← now;
    mret (ms_until (Z.min template_due stats_due) t).

(** The signals, when the descriptor is readable: whether to go on. *)
Definition check_signals (fuel : nat) (cfg : config) (signalled : bool)
    : sys W (result worker_error bool) :=
  if signalled then
    pending ← read_pending fuel (sig_fd cfg);
    mret match pending with
         | Err e => Err (SignalReadFailed e)
         | Ok l => Ok (bool_decide (l = []))
         end
  else mret (Ok true).

(** What a wakeup leads to: a timeout sends what is open, a readable socket is drained. *)
Definition handle_poll (cfg : config) (ready : bool) (s : loop_state)
    : sys W (flow loop_state (result worker_error loop_state)) :=
  if negb ready then
    if message_active s then
      x ← flush_message (exp s);
      mret (Continue (set_active (set_exp s x) false))
    else mret (Continue s)
  else
    s ← drain MAX_BATCHES_PER_POLL (nl_fd cfg) s;
    mret (Continue s).

(** From the answer of the poll to the end of the pass. *)
Definition after_poll (fuel : nat) (cfg : config) (s : loop_state) (polled : result io_error (bool * bool))
    : sys W (flow loop_state (result worker_error loop_state)) :=
  match polled with
  | Err Interrupted => mret (Continue s)
  | Err e => mret (Break (Err (PollFailed e)))
  | Ok (ready, signalled) =>
      go_on ← check_signals fuel cfg signalled;
      match go_on with
      | Err e => mret (Break (Err e))
      | Ok false => mret (Break (Ok s))
      | Ok true => handle_poll cfg ready s
      end
  end.

Definition worker_pass (fuel : nat) (cfg : config) (s : loop_state)
    : sys W (flow loop_state (result worker_error loop_state)) :=
  t ← now;
  let s := check_template_due cfg t s in
  s ← report_stats cfg t s;
  s ← send_template s;
  timeout ← poll_timeout cfg s;
  polled ← poll_with (nl_fd cfg) (sig_fd cfg) timeout;
  after_poll fuel cfg s polled.

(** The flush at shutdown. *)
Definition flush_at_shutdown (s : loop_state) : sys W loop_state :=
  if message_active s then x ← flush_message (exp s); mret (set_exp s x) else mret s.

(** The loop, and what follows it when it ended by a signal. *)
Definition event_loop (fuel : nat) (cfg : config) (s : loop_state)
    : sys W (result worker_error loop_state) :=
  ended ← sys_loop fuel (worker_pass fuel cfg) s;
  match ended with
  | Err e => mret (Err e)
  | Ok s => s ← flush_at_shutdown s; mret (Ok s)
  end.

(** ** Setting up *)

Definition set_send_buf (fd size : Z) : sys W unit :=
  forced ← request (SetSockOpt fd SOL_SOCKET SO_SNDBUFFORCE (buffer_size size));
  match forced with
  | Ok _ => mret tt
  | Err _ => _ ← request (SetSockOpt fd SOL_SOCKET SO_SNDBUF (buffer_size size)); mret tt
  end.

Definition set_proc_sysctl (path value : string) : sys W (result worker_error unit) :=
  let desired := (value +:+ newline)%string in
  read ← request (ReadFile path);
  match read with
  | Err e => mret (Err (SysctlReadFailed path e))
  | Ok contents =>
      let current := trim contents in
      if negb (String.eqb current value) then
        written ← request (WriteFile path desired);
        mret match written with Err e => Err (SysctlWriteFailed path value e) | Ok _ => Ok tt end
      else mret (Ok tt)
  end.

Definition apply_conntrack_sysctl_settings (args : Args) : sys W (result worker_error unit) :=
  if no_sysctl args then mret (Ok tt)
  else
    events ← set_proc_sysctl CONNTRACK_EVENTS_SYSCTL "1";
    match events with
    | Err e => mret (Err e)
    | Ok _ => _ ← set_proc_sysctl CONNTRACK_ACCT_SYSCTL "1"; mret (Ok tt)
    end.

(** The configuration, validated before anything is touched. *)
Definition configure (args : Args) : outcome (result worker_error Template) :=
  if template_interval args =? 0 then Done (Err BadTemplateInterval)
  else
    match CounterWidth_from_bytes (arg_counter_width args) with
    | Err e => Done (Err (BadWidth e))
    | Ok width =>
        resolved ← resolve (arg_protocol args) (arg_profile args) width (arg_template_id args);
        match resolved with
        | Err e => Done (Err (BadConfiguration e))
        | Ok template => _ ← max_records_per_message template; Done (Ok template)
        end
    end.

(** The locals of [run_worker] are dropped in the reverse of their order. *)
Definition close_all (fds : list Z) {A : Type} (r : A) : sys W A :=
  _ ← sys_foldM (fun _ fd => request (Close fd)) tt fds; mret r.

(** The variables at the top of the loop. *)
Definition initial_state (args : Args) (template : Template) (nl_fd : Z) : sys W loop_state :=
  clock ← request ClockNow;
  let enc := new (domain_id args) template clock in
  template_time ← now;
  stats_time ← now;
  drops ← get_drops nl_fd;
  b ← lift (ReceiveBatch_new RECV_BATCH_SIZE RECV_SLOT_SIZE);
  mret {| exp := {| encoder := enc; send_errors := 0; include_template := true;
                    last_template_time := template_time |};
          message_active := false; truncated_msgs := 0; foreign_msgs := 0;
          reported := {| last_stats_time := stats_time; prev_nl_drops := drops;
                         prev_send_errors := 0; prev_truncated_msgs := 0; prev_foreign_msgs := 0;
                         prev_saturated := 0 |};
          batch := b |}.

(** From the netlink socket on: the loop, and the sockets closed after it. *)
Definition work (fuel : nat) (args : Args) (template : Template) (sig_fd udp_fd nl_fd : Z)
    : sys W (result worker_error unit) :=
  s ← initial_state args template nl_fd;
  ended ← event_loop fuel {| nl_fd := nl_fd; sig_fd := sig_fd; interval := secs (template_interval args) |} s;
  close_all [nl_fd; udp_fd; sig_fd] match ended with Err e => Err e | Ok _ => Ok tt end.

Definition run_worker (fuel : nat) (args : Args) : sys W (result worker_error unit) :=
  configured ← lift (configure args);
  match configured with
  | Err e => mret (Err e)
  | Ok template =>
      sysctls ← apply_conntrack_sysctl_settings args;
      match sysctls with
      | Err e => mret (Err e)
      | Ok _ =>
          signals ← SignalFd_new [SIGTERM; SIGINT];
          match signals with
          | Err e => mret (Err (SignalSetupFailed e))
          | Ok sig_fd =>
              bound ← request UdpBind;
              match bound with
              | Err e => close_all [sig_fd] (Err (UdpBindFailed e))
              | Ok udp_fd =>
                  connected ← request (UdpConnect udp_fd (collector args));
                  match connected with
                  | Err e => close_all [udp_fd; sig_fd] (Err (UdpConnectFailed e))
                  | Ok _ =>
                      _ ← set_send_buf udp_fd (send_buf args);
                      opened ← open (recv_buf args);
                      match opened with
                      | Err e => close_all [udp_fd; sig_fd] (Err (NetlinkOpenFailed e))
                      | Ok nl_fd => work fuel args template sig_fd udp_fd nl_fd
                      end
                  end
              end
          end
      end
  end.

End Worker.
