(* ===== verification/WorkerLog.v ===== *)
(** * Reading the worker's log

    What a stretch of the log of system calls says: the datagrams sent, the packets
    received and the events in them, what the drop statistics have to count, and
    what the drop reports said. *)

From stdpp Require Import base list numbers strings.
From Stdlib Require Import ZArith Lia.
From S2P Require Import Prelude Constants Elements Event Parser ParserSpec Template Record Encoder EncoderSpec EncoderProps System Socket Worker.
Local Open Scope Z_scope.

(** ** What was sent and received *)

(** The datagrams handed to [send], whether or not the call succeeded. *)
Definition sent_in (c : call) : option bytes :=
  match c with
  | existT (UdpSend d) _ => Some d
  | _ => None
  end.

Definition sent (calls : list call) : list bytes := omap sent_in calls.

(** Whether each of them was taken by the system, and those that were.  The others are
    lost; the worker counts them. *)
Definition taken_in (c : call) : option bool :=
  match c with
  | existT (UdpSend _) (Ok _) => Some true
  | existT (UdpSend _) (Err _) => Some false
  | _ => None
  end.

Definition taken (calls : list call) : list bool := omap taken_in calls.

Definition delivered_in (c : call) : option bytes :=
  match c with
  | existT (UdpSend d) (Ok _) => Some d
  | _ => None
  end.

Definition delivered (calls : list call) : list bytes := omap delivered_in calls.

Definition packets_in (c : call) : list packet :=
  match c with
  | existT (Recvmmsg _ _) (Ok ps) => ps
  | _ => []
  end.

Definition packets (calls : list call) : list packet := concat (map packets_in calls).

(** The events in a packet: those the parser finds in what a slot holds of it,
    if it comes from the kernel. *)
Definition events_of {T : Target} (p : packet) : list ConntrackEvent :=
  if p.1 =? 0 then conntrack_events (take (Z.to_nat RECV_SLOT_SIZE) p.2) else [].

Definition events {T : Target} (ps : list packet) : list ConntrackEvent := concat (map events_of ps).

Lemma sent_app (l1 l2 : list call) : sent (l1 ++ l2) = sent l1 ++ sent l2.
Proof. apply omap_app. Qed.

Lemma packets_app (l1 l2 : list call) : packets (l1 ++ l2) = packets l1 ++ packets l2.
Proof. unfold packets. by rewrite map_app, concat_app. Qed.

Lemma events_app {T : Target} (l1 l2 : list packet) : events (l1 ++ l2) = events l1 ++ events l2.
Proof. unfold events. by rewrite map_app, concat_app. Qed.

(** ** What is counted *)

(** What the drop statistics count: failed sends, datagrams of the kernel that did
    not fit a slot, datagrams that are not the kernel's ([clamped_total] counts the counters
    clamped in the records of events). *)
Definition send_failed (c : call) : Z :=
  match c with
  | existT (UdpSend _) (Err _) => 1
  | _ => 0
  end.

Definition failures (calls : list call) : Z := sum_z (map send_failed calls).

Definition cut (p : packet) : Z := if (p.1 =? 0) && (RECV_SLOT_SIZE <? zlen p.2) then 1 else 0.
Definition cuts (ps : list packet) : Z := sum_z (map cut ps).

Definition stray (p : packet) : Z := if p.1 =? 0 then 0 else 1.
Definition strays (ps : list packet) : Z := sum_z (map stray ps).

Definition is_report (c : call) : bool :=
  match projT1 c with
  | WarnDrops _ _ => true
  | _ => false
  end.

Definition unreported (calls : list call) : Prop := Forall (fun c => is_report c = false) calls.

Lemma failures_app (l1 l2 : list call) : failures (l1 ++ l2) = failures l1 + failures l2.
Proof. unfold failures. by rewrite map_app, sum_z_app. Qed.

Lemma cuts_app (l1 l2 : list packet) : cuts (l1 ++ l2) = cuts l1 + cuts l2.
Proof. unfold cuts. by rewrite map_app, sum_z_app. Qed.

Lemma strays_app (l1 l2 : list packet) : strays (l1 ++ l2) = strays l1 + strays l2.
Proof. unfold strays. by rewrite map_app, sum_z_app. Qed.

Lemma clamped_total_app (t : Template) (l1 l2 : list ConntrackEvent) : clamped_total t (l1 ++ l2) = clamped_total t l1 + clamped_total t l2.
Proof. unfold clamped_total. by rewrite map_app, sum_z_app. Qed.

(** The elements of a list at which [marks] is [true]. *)
Fixpoint pick {A : Type} (marks : list bool) (l : list A) : list A :=
  match marks, l with
  | mark :: marks', x :: l' => if mark : bool then x :: pick marks' l' else pick marks' l'
  | _, _ => []
  end.

Lemma delivered_pick (calls : list call) : delivered calls = pick (taken calls) (sent calls).
Proof.
  unfold delivered, taken, sent. induction calls as [|[c a] calls IH]; [done|].
  destruct c; cbn; try exact IH. destruct a; cbn; by rewrite IH.
Qed.

Lemma length_taken (calls : list call) : length (taken calls) = length (sent calls).
Proof.
  unfold taken, sent. induction calls as [|[c a] calls IH]; [done|].
  destruct c; cbn; try exact IH. destruct a; cbn; by rewrite IH.
Qed.

Lemma Forall2_pick {A B : Type} (P : A -> B -> Prop) (marks : list bool) (l : list A) (k : list B) :
  Forall2 P l k -> Forall2 P (pick marks l) (pick marks k).
Proof.
  intros Hall. revert marks. induction Hall as [|x y l k Hxy Hall IH]; intros [|[] marks]; cbn; auto.
Qed.

(** The failed sends are the datagrams that were not taken. *)
Lemma failures_pick {A : Type} (calls : list call) (l : list A) :
  length l = length (sent calls) -> failures calls = zlen l - zlen (pick (taken calls) l).
Proof.
  unfold failures, taken, sent. revert l. induction calls as [|[c a] calls IH]; intros l Hl.
  { destruct l; [done|]. done. }
  change (sum_z (map send_failed (existT c a :: calls)))
    with (send_failed (existT c a) + sum_z (map send_failed calls)).
  destruct c; cbn in Hl |- *; try (rewrite (IH l Hl); lia).
  destruct l as [|x l]; [done|]. injection Hl as Hl. destruct a; cbn; rewrite (IH l Hl), ?zlen_cons; lia.
Qed.

Lemma pick_all {A : Type} (marks : list bool) (l : list A) :
  length marks = length l -> zlen (pick marks l) = zlen l -> pick marks l = l.
Proof.
  assert (Hle : forall marks l, (length (@pick A marks l) <= length l)%nat).
  { clear. induction marks as [|[] marks IH]; intros [|x l]; cbn; try lia; specialize (IH l); lia. }
  revert l. induction marks as [|[] marks IH]; intros [|x l] Hlen Hz; try done; cbn in *.
  - f_equal. apply IH; [lia|]. rewrite !zlen_cons in Hz. lia.
  - specialize (Hle marks l). unfold zlen in Hz. cbn in Hz. lia.
Qed.

(** When no send failed, everything was delivered. *)
Lemma pick_no_failures {A : Type} (calls : list call) (l : list A) :
  length l = length (sent calls) -> failures calls = 0 -> pick (taken calls) l = l.
Proof.
  intros Hl Hf. rewrite (failures_pick calls l Hl) in Hf. apply pick_all; [by rewrite length_taken|lia].
Qed.

(** ** What is reported *)

Definition fresh_in (c : call) : option drop_counts :=
  match c with
  | existT (WarnDrops fresh _) _ => Some fresh
  | _ => None
  end.

(** The sum of a count over the reports. *)
Definition said (f : drop_counts -> Z) (calls : list call) : Z := sum_z (map f (omap fresh_in calls)).

Lemma said_app (f : drop_counts -> Z) (l1 l2 : list call) : said f (l1 ++ l2) = said f l1 + said f l2.
Proof. unfold said. by rewrite omap_app, map_app, sum_z_app. Qed.

Lemma unreported_fresh (calls : list call) : unreported calls -> omap fresh_in calls = [].
Proof.
  induction 1 as [|[c a] calls Hc _ IH]; [done|]. cbn. rewrite IH. by destruct c.
Qed.

Lemma said_unreported (f : drop_counts -> Z) (calls : list call) : unreported calls -> said f calls = 0.
Proof. intros Hu. unfold said. by rewrite unreported_fresh. Qed.

(** The counts that [calls] make, under the template [t]; the kernel's own drop
    counter is not among them. *)
Record counts_to {T : Target} (t : Template) (calls : list call) (send trunc foreign clamp : Z) : Prop := {
  ct_send : send = failures calls;
  ct_truncated : trunc = cuts (packets calls);
  ct_foreign : foreign = strays (packets calls);
  ct_clamped : clamp = clamped_total t (events (packets calls))
}.

(** A report is right after [before]: it has something new, its totals are the
    counts so far, and all that was ever reported as new, with it, adds up to them. *)
Record report_right {T : Target} (t : Template) (before : list call) (fresh total : drop_counts) : Prop := {
  rr_new : any_new fresh = true;
  rr_total : counts_to t before (udp_send total) (truncated total) (foreign total) (clamped_count total);
  rr_send : said udp_send before + udp_send fresh = udp_send total;
  rr_truncated : said truncated before + truncated fresh = truncated total;
  rr_foreign : said foreign before + foreign fresh = foreign total;
  rr_clamped : said clamped_count before + clamped_count fresh = clamped_count total
}.

Definition reports_right {T : Target} (t : Template) (calls : list call) : Prop :=
  forall before after fresh total a,
    calls = before ++ called (WarnDrops fresh total) a :: after -> report_right t before fresh total.

Lemma reports_right_app {T : Target} (t : Template) (calls more : list call) :
  reports_right t calls -> unreported more -> reports_right t (calls ++ more).
Proof.
  intros Hr Hu before after fresh total a Heq. apply app_eq_inv in Heq as [(k & Hc & Hk)|(k & Hb & Hm)].
  - destruct k as [|c k]; [|injection Hk as <- ->; by eapply Hr].
    cbn in Hk. subst more. by apply Forall_cons_1 in Hu as [Hu _].
  - subst more. apply Forall_app in Hu as [_ Hu]. by apply Forall_cons_1 in Hu as [Hu _].
Qed.

Lemma reports_right_snoc {T : Target} (t : Template) (calls : list call) (fresh total : drop_counts) (a : unit) :
  reports_right t calls -> report_right t calls fresh total ->
  reports_right t (calls ++ [called (WarnDrops fresh total) a]).
Proof.
  intros Hr Hone before after fresh' total' a' Heq.
  destruct after as [|c after] using rev_ind.
  - apply app_inj_tail in Heq as [<- Heq]. injection Heq as -> ->. exact Hone.
  - clear IHafter. rewrite app_comm_cons, app_assoc in Heq. apply app_inj_tail in Heq as [-> _]. by eapply Hr.
Qed.

(** What the statistics count never falls. *)
Lemma counted_nonneg {T : Target} (t : Template) (calls : list call) :
  0 <= failures calls /\ 0 <= cuts (packets calls) /\ 0 <= strays (packets calls) /\
  0 <= clamped_total t (events (packets calls)).
Proof.
  assert (Hsum : forall (A : Type) (f : A -> Z) l, (forall x, 0 <= f x) -> 0 <= sum_z (map f l)).
  { intros A f l Hf. apply sum_z_nonneg, Forall_map, Forall_true. exact Hf. }
  split_and!; apply Hsum; intros x.
  - unfold send_failed. destruct x as [[] a]; cbn; try lia. by destruct a.
  - unfold cut. destruct (_ && _); lia.
  - unfold stray. destruct (_ =? _); lia.
  - apply clamped_counters_bound.
Qed.
