(* ===== verification/WorkerFrame.v ===== *)
(** * Which calls a pass of the worker makes

    A frame for effectful code: [only P m] says that every system call [m] makes
    satisfies [P], whatever its result.  With it, the event loop is shown to make
    no call but those of an exporter, and to end exactly when a shutdown signal
    was read. *)

From stdpp Require Import base list numbers strings.
From Stdlib Require Import ZArith Lia.
From S2P Require Import Prelude Constants Elements Event Parser Template Record Encoder System Socket Signals Worker.
Local Open Scope Z_scope.

(** ** The frame *)

Section Frame.
Context {W : Type} {K : Kernel W} (R : relation (world W)) {HR : PreOrder R}.

(** Whatever [m] returns, it moves the world along [R]. *)
Definition keeps {A : Type} (m : sys W A) : Prop := forall w a w', m w = Done (a, w') -> R w w'.

Lemma keeps_ret {A : Type} (a : A) : keeps (mret a).
Proof using HR. intros w a' w' [= <- <-]. reflexivity. Qed.

Lemma keeps_bind {A B : Type} (m : sys W A) (f : A -> sys W B) :
  keeps m -> (forall a, keeps (f a)) -> keeps (m ≫= f).
Proof using HR.
  intros Hm Hf w b w' H. unfold mbind, sys_bind in H. destruct (m w) as [[a w1]| |] eqn:E; [|done..].
  transitivity w1; [exact (Hm _ _ _ E)|exact (Hf _ _ _ _ H)].
Qed.

Lemma keeps_lift {A : Type} (m : outcome A) : keeps (lift m).
Proof using HR.
  intros w a w' H. unfold lift in H. destruct m; [|done..]. rewrite bind_done in H.
  injection H as <- <-. reflexivity.
Qed.

Lemma keeps_foldM {A S : Type} (f : S -> A -> sys W S) (l : list A) :
  (forall s x, keeps (f s x)) -> forall s, keeps (sys_foldM f s l).
Proof using HR.
  intros Hf. induction l as [|x l IH]; intros s; cbn [sys_foldM]; [apply keeps_ret|].
  by apply keeps_bind.
Qed.

Lemma keeps_loop {S B : Type} (body : S -> sys W (flow S B)) :
  (forall s, keeps (body s)) -> forall fuel s, keeps (sys_loop fuel body s).
Proof using HR.
  intros Hb fuel. induction fuel as [|fuel IH]; intros s w r w' H; cbn [sys_loop] in H; [done|].
  destruct (body s w) as [[[s'|r'] w1]| |] eqn:E; [| |done..]; apply Hb in E.
  - transitivity w1; [exact E|exact (IH _ _ _ _ H)].
  - injection H as <- <-. exact E.
Qed.

End Frame.

(** Following the syntax of a program. *)
Ltac frame_step R :=
  first
    [ apply (keeps_ret R) | apply (keeps_lift R) | apply (keeps_bind R); [|intros ?] | assumption
    | match goal with
      | |- keeps _ (if ?b then _ else _) => destruct b
      | |- keeps _ (match ?x with _ => _ end) => destruct x
      | |- keeps _ (let _ := _ in _) => cbv zeta
      end ].

(** What a program keeps can be added to what is known of its run. *)
Lemma run_keeps {W A : Type} (R : relation (world W)) (stuck : Prop) (m : sys W A) (w : world W)
    (Q : A -> world W -> Prop) :
  run stuck m w Q -> keeps R m -> run stuck m w (fun a w' => Q a w' /\ R w w').
Proof. unfold run. intros H Hk. destruct (m w) as [[a w']| |] eqn:E; [|done..]. split; [done|]. by eapply Hk. Qed.

(** The relation of worlds that carries a property along. *)
Definition carries {W : Type} (G : world W -> Prop) (w w' : world W) : Prop := G w -> G w'.

#[export] Instance carries_preorder {W : Type} (G : world W -> Prop) : PreOrder (carries G).
Proof. split; [intros w H; exact H|]. intros w1 w2 w3 H1 H2 H. exact (H2 (H1 H)). Qed.

(** The relation of worlds between which only calls that satisfy [P] were made. *)
Definition extends {W : Type} (P : call -> Prop) (w w' : world W) : Prop :=
  exists calls, log w' = log w ++ calls /\ Forall P calls.

#[export] Instance extends_preorder {W : Type} (P : call -> Prop) : PreOrder (extends (W := W) P).
Proof.
  split.
  - intros w. exists []. rewrite app_nil_r. split; [done|apply Forall_nil_2].
  - intros w1 w2 w3 (c1 & L1 & F1) (c2 & L2 & F2). exists (c1 ++ c2). split; [by rewrite L2, L1, app_assoc|].
    by apply Forall_app.
Qed.

Abbreviation only P := (keeps (extends P)).

Lemma only_request {W : Type} {K : Kernel W} (P : call -> Prop) (c : syscall) :
  (forall a, P (called c a)) -> only P (request c).
Proof.
  intros Hc w a w' H. unfold request in H. destruct (k_call c (kernel w)) as [a1 k].
  injection H as <- <-. exists [called c a1]. split; [done|]. apply Forall_cons_2; [done|apply Forall_nil_2].
Qed.

(** ** The parser and its callback *)

(** A loop that returns has kept what its body keeps. *)
Lemma loop_keeps {S R : Type} (body : S -> outcome (flow S R)) (I : S -> Prop) (Q : R -> Prop) :
  (forall s step, I s -> body s = Done step -> match step with Continue s' => I s' | Break r => Q r end) ->
  forall fuel s r, I s -> loop fuel body s = Done r -> Q r.
Proof.
  intros Hb fuel. induction fuel as [|fuel IH]; intros s r HI; cbn [loop]; [done|].
  destruct (body s) as [[s'|r']| |] eqn:E; [|intros [= <-]|done..]; specialize (Hb s _ HI E); [by apply IH|done].
Qed.

(** What the callback keeps, parsing keeps. *)
Lemma parse_keeps {T : Target} {S : Type} (data : bytes) (callback : S -> ConntrackEvent -> outcome S)
    (I : S -> Prop) (s s' : S) :
  (forall s ev s', I s -> callback s ev = Done s' -> I s') -> I s ->
  parse_conntrack_messages data callback s = Done s' -> I s'.
Proof.
  intros Hcb Hs. apply (loop_keeps _ (fun st => I st.2) I); [|exact Hs].
  intros [offset st] step Hst Hbody. unfold message_body in Hbody.
  repeat first
    [ apply bind_inv in Hbody as (? & ? & Hbody)
    | match type of Hbody with
      | (if ?b then _ else _) = _ => destruct b
      | match ?o with Some _ => _ | None => _ end = _ => destruct o
      end ].
  all: injection Hbody as <-; try exact Hst.
  match goal with H : match ?o with Some e => _ | None => _ end = Done _ |- _ =>
    destruct o; [by eapply Hcb|by injection H as <-] end.
Qed.

(** ** The event loop *)

Section Worker.
Context {T : Target} {W : Type} {K : Kernel W} (R : relation (world W)) {HR : PreOrder R} (cfg : config).
Context (Rclock : keeps R (request ClockNow)) (Rsend : forall d, keeps R (request (UdpSend d))).
Context (Rmem : keeps R (request (GetMeminfo (nl_fd cfg)))).
Context (Rwarn : forall fresh total, keeps R (request (WarnDrops fresh total))).
Context (Rrecv : forall n, keeps R (request (Recvmmsg (nl_fd cfg) n))).
Context (Rpoll : forall timeout, keeps R (request (Poll [nl_fd cfg; sig_fd cfg] timeout))).

Ltac framed :=
  repeat first [frame_step R | exact Rclock | apply Rsend | exact Rmem | apply Rwarn | apply Rrecv | apply Rpoll].

Lemma now_keeps : keeps R now.
Proof using HR Rclock. unfold now. framed. Qed.

Lemma flush_message_keeps (x : exporter) : keeps R (flush_message x).
Proof using HR Rclock Rsend.
  pose proof now_keeps. unfold flush_message, settle_schedule, send_message. framed.
Qed.

Lemma handle_event_keeps (x : exporter) (ev : ConntrackEvent) : keeps R (handle_event x ev).
Proof using HR Rclock Rsend.
  pose proof flush_message_keeps as Hf. unfold handle_event. framed. apply Hf.
Qed.

Lemma parse_into_keeps (x : exporter) (data : bytes) : keeps R (parse_into x data).
Proof using HR Rclock Rsend.
  intros w x' w' H.
  apply (parse_keeps data (fun st ev => handle_event st.1 ev st.2) (fun st => R w st.2) (x, w) (x', w'));
    [|reflexivity|exact H].
  intros [x1 w1] ev [x2 w2] H1 H2. transitivity w1; [exact H1|exact (handle_event_keeps _ _ _ _ _ H2)].
Qed.

Lemma handle_datagram_keeps (s : loop_state) (i : Z) : keeps R (handle_datagram s i).
Proof using HR Rclock Rsend.
  pose proof parse_into_keeps as Hp. unfold handle_datagram. framed. apply Hp.
Qed.

Lemma drain_keeps (passes : nat) (s : loop_state) : keeps R (drain passes (nl_fd cfg) s).
Proof using HR Rclock Rsend Rrecv.
  pose proof handle_datagram_keeps as Hd. revert s. induction passes as [|passes IH]; intros s; cbn [drain]; [framed|].
  unfold recv_batch. framed; [|apply IH]. by apply (keeps_foldM R).
Qed.

Lemma report_stats_keeps (tm : Z) (s : loop_state) : keeps R (report_stats cfg tm s).
Proof using HR Rmem Rwarn. unfold report_stats, get_drops. framed. Qed.

Lemma send_template_keeps (s : loop_state) : keeps R (send_template s).
Proof using HR Rclock Rsend. pose proof flush_message_keeps as Hf. unfold send_template. framed. apply Hf. Qed.

Lemma poll_timeout_keeps (s : loop_state) : keeps R (poll_timeout cfg s).
Proof using HR Rclock. pose proof now_keeps. unfold poll_timeout. framed. Qed.

Lemma poll_keeps (timeout : Z) : keeps R (poll_with (nl_fd cfg) (sig_fd cfg) timeout).
Proof using HR Rpoll. unfold poll_with. framed. Qed.

Lemma read_one_keeps (fd : Z) (l : list Z) : keeps R (request (ReadSignal fd)) -> keeps R (read_one fd l).
Proof using HR. intros Hr. unfold read_one. framed. Qed.

Lemma check_signals_keeps (fuel : nat) (signalled : bool) :
  keeps R (request (ReadSignal (sig_fd cfg))) -> keeps R (check_signals fuel cfg signalled).
Proof using HR.
  intros Hr. unfold check_signals, read_pending. destruct signalled; [|framed].
  apply (keeps_bind R); [apply (keeps_loop R); intros; by apply read_one_keeps|intros; framed].
Qed.

(** What a pass does once the signals are checked. *)
Lemma handle_poll_keeps (ready : bool) (s : loop_state) : keeps R (handle_poll cfg ready s).
Proof using HR Rclock Rsend Rrecv.
  unfold handle_poll. destruct ready; cbn [negb]; [apply (keeps_bind R); [apply drain_keeps|intros ?; apply (keeps_ret R)]|].
  destruct (message_active s); [|apply (keeps_ret R)].
  apply (keeps_bind R); [apply flush_message_keeps|intros ?; apply (keeps_ret R)].
Qed.

(** What it does once it has polled. *)
Lemma after_poll_keeps (fuel : nat) (s : loop_state) (polled : result io_error (bool * bool)) :
  keeps R (request (ReadSignal (sig_fd cfg))) -> keeps R (after_poll fuel cfg s polled).
Proof using HR Rclock Rsend Rrecv.
  intros Hr. unfold after_poll. destruct polled as [[ready signalled]|[]]; try apply (keeps_ret R).
  apply (keeps_bind R); [by apply check_signals_keeps|].
  intros [[]|e]; [apply handle_poll_keeps|apply (keeps_ret R)..].
Qed.

End Worker.

(** The calls of the loop: the clock, sending, reporting, and the two descriptors. *)
Definition loop_call (cfg : config) (c : call) : Prop :=
  match projT1 c with
  | ClockNow | UdpSend _ | WarnDrops _ _ => True
  | GetMeminfo fd | Recvmmsg fd _ => fd = nl_fd cfg
  | Poll fds _ => fds = [nl_fd cfg; sig_fd cfg]
  | ReadSignal fd => fd = sig_fd cfg
  | _ => False
  end.

(** Those of them that read no signal. *)
Definition deaf_call (cfg : config) (c : call) : Prop := loop_call cfg c /\ signal_read c = None.

Ltac deaf := intros; apply only_request; done.

Lemma deaf_calls (cfg : config) (calls : list call) : Forall (deaf_call cfg) calls ->
  Forall (loop_call cfg) calls /\ signals_read calls = [].
Proof.
  induction 1 as [|c calls [Hc Hs] _ [IHc IHs]]; [split; [apply Forall_nil_2|done]|].
  split; [by apply Forall_cons_2|]. unfold signals_read in *. cbn. by rewrite Hs.
Qed.

Lemma sys_bind_inv {W A B : Type} (m : sys W A) (f : A -> sys W B) (w w' : world W) (b : B) :
  (m ≫= f) w = Done (b, w') -> exists a w1, m w = Done (a, w1) /\ f a w1 = Done (b, w').
Proof. unfold mbind, sys_bind. destruct (m w) as [[a w1]| |]; [|done..]. by exists a, w1. Qed.

(** A loop that ended: what its passes keep leads to what the last one gives. *)
Lemma sys_loop_inv {W S R : Type} (body : S -> sys W (flow S R)) (I : S -> world W -> Prop) (Q : R -> world W -> Prop) :
  (forall s w step w', I s w -> body s w = Done (step, w') ->
     match step with Continue s' => I s' w' | Break r => Q r w' end) ->
  forall fuel s w r w', I s w -> sys_loop fuel body s w = Done (r, w') -> Q r w'.
Proof.
  intros Hb fuel. induction fuel as [|fuel IH]; intros s w r w' HI H; cbn [sys_loop] in H; [done|].
  destruct (body s w) as [[step w1]| |] eqn:E; [|done..]. specialize (Hb _ _ _ _ HI E).
  destruct step as [s'|r']; [exact (IH _ _ _ _ Hb H)|]. injection H as <- <-. exact Hb.
Qed.

(** Code without effects, and a call, undone. *)
Lemma lift_done_bind {W A B : Type} (a : A) (f : A -> sys W B) (w : world W) : (lift (Done a) ≫= f) w = f a w.
Proof. reflexivity. Qed.

Lemma lift_inv {W A : Type} (m : outcome A) (a : A) (w w' : world W) :
  lift m w = Done (a, w') -> m = Done a /\ w' = w.
Proof. unfold lift. destruct m; [|done..]. rewrite bind_done. by intros [= <- <-]. Qed.

Lemma request_inv {W : Type} {K : Kernel W} (c : syscall) (a : answer c) (w w' : world W) :
  request c w = Done (a, w') -> log w' = log w ++ [called c a].
Proof. unfold request. destruct (k_call c (kernel w)) as [a' k]. by intros [= <- <-]. Qed.

Lemma now_inv {W : Type} {K : Kernel W} (tm : Z) (w w' : world W) :
  now w = Done (tm, w') -> exists c, tm = instant c /\ log w' = log w ++ [called ClockNow c].
Proof.
  unfold now. intros H. apply sys_bind_inv in H as (c & w1 & H1 & H). injection H as <- <-.
  exists c. split; [done|]. by apply (request_inv ClockNow).
Qed.

(** Reporting leaves everything but the report alone. *)
Lemma report_stats_same {T : Target} {W : Type} {K : Kernel W} (cfg : config) (tm : Z) (s s' : loop_state) (w w' : world W) :
  report_stats cfg tm s w = Done (s', w') ->
  exp s' = exp s /\ message_active s' = message_active s /\ truncated_msgs s' = truncated_msgs s /\
  foreign_msgs s' = foreign_msgs s /\ batch s' = batch s.
Proof.
  unfold report_stats. intros H. destruct (_ <=? _); [|by injection H as <- <-].
  apply sys_bind_inv in H as (d & w1 & _ & H). apply sys_bind_inv in H as (? & w2 & _ & H). by injection H as <- <-.
Qed.

Section Signals.
Context {T : Target} {W : Type} {K : Kernel W} (cfg : config).

Lemma check_signals_done (fuel : nat) (signalled : bool) (w w' : world W) (r : result worker_error bool) :
  check_signals fuel cfg signalled w = Done (r, w') ->
  exists calls, log w' = log w ++ calls /\ Forall (loop_call cfg) calls /\
    match r with Ok go_on => go_on = bool_decide (signals_read calls = []) | Err _ => True end.
Proof using Type.
  unfold check_signals. destruct signalled.
  - intros H. apply sys_bind_inv in H as (l & w1 & Hr & H). injection H as <- <-.
    pose proof (read_pending_run fuel (sig_fd cfg) w) as Hrun. unfold run in Hrun. rewrite Hr in Hrun.
    destruct Hrun as (calls & Hl & Hall & Hsig). exists calls. split; [done|]. split.
    + eapply Forall_impl; [exact Hall|]. intros [c a] Hc. unfold is_read, loop_call in *. cbn in Hc |- *. by subst c.
    + destruct l as [l|e]; [|done]. by subst l.
  - intros [= <- <-]. exists []. rewrite app_nil_r. split; [done|]. split; [apply Forall_nil_2|done].
Qed.

End Signals.

(** A pass that returned, call by call. *)
Lemma worker_pass_inv {T : Target} {W : Type} {K : Kernel W} (fuel : nat) (cfg : config)
    (s : loop_state) (w w' : world W) (step : flow loop_state (result worker_error loop_state)) :
  worker_pass fuel cfg s w = Done (step, w') ->
  exists tm w1 s2 w2 s3 w3 tmo w4 polled w5,
    now w = Done (tm, w1) /\ report_stats cfg tm (check_template_due cfg tm s) w1 = Done (s2, w2) /\
    send_template s2 w2 = Done (s3, w3) /\ poll_timeout cfg s3 w3 = Done (tmo, w4) /\
    poll_with (nl_fd cfg) (sig_fd cfg) tmo w4 = Done (polled, w5) /\
    after_poll fuel cfg s3 polled w5 = Done (step, w').
Proof.
  unfold worker_pass. intros H.
  apply sys_bind_inv in H as (tm & w1 & H1 & H). apply sys_bind_inv in H as (s2 & w2 & H2 & H).
  apply sys_bind_inv in H as (s3 & w3 & H3 & H). apply sys_bind_inv in H as (tmo & w4 & H4 & H).
  apply sys_bind_inv in H as (polled & w5 & H5 & H). by exists tm, w1, s2, w2, s3, w3, tmo, w4, polled, w5.
Qed.

(** Handling the poll always goes round again. *)
Lemma handle_poll_continues {T : Target} {W : Type} {K : Kernel W} (cfg : config) (ready : bool)
    (s : loop_state) (w w' : world W) (step : flow loop_state (result worker_error loop_state)) :
  handle_poll cfg ready s w = Done (step, w') -> exists s', step = Continue s'.
Proof.
  unfold handle_poll. destruct (negb ready); [destruct (message_active s)|]; intros H.
  - apply sys_bind_inv in H as (x & w1 & _ & H). injection H as <- _. by eexists.
  - injection H as <- _. by eexists.
  - apply sys_bind_inv in H as (s' & w1 & _ & H). injection H as <- _. by eexists.
Qed.

Lemma worker_pass_calls {T : Target} {W : Type} {K : Kernel W} (fuel : nat) (cfg : config)
    (s : loop_state) (w w' : world W) (step : flow loop_state (result worker_error loop_state)) :
  worker_pass fuel cfg s w = Done (step, w') ->
  exists calls, log w' = log w ++ calls /\ Forall (loop_call cfg) calls /\
    match step with
    | Continue _ => signals_read calls = []
    | Break (Ok _) => signals_read calls <> []
    | Break (Err _) => True
    end.
Proof.
  intros H. apply worker_pass_inv in H as (tm & w1 & s2 & w2 & s3 & w3 & tmo & w4 & polled & w5 & H1 & H2 & H3 & H4 & H5 & H).
  assert (Hpre : extends (deaf_call cfg) w w5).
  { apply (now_keeps (extends (deaf_call cfg))) in H1; [|deaf].
    apply (report_stats_keeps (extends (deaf_call cfg))) in H2; [|deaf..].
    apply (send_template_keeps (extends (deaf_call cfg))) in H3; [|deaf..].
    apply (poll_timeout_keeps (extends (deaf_call cfg))) in H4; [|deaf].
    apply (poll_keeps (extends (deaf_call cfg))) in H5; [|deaf].
    by repeat (etransitivity; [eassumption|]). }
  destruct Hpre as (pre & Hlpre & Hpre). apply deaf_calls in Hpre as [Hpre Hspre].
  destruct polled as [[ready signalled]|e].
  2: { destruct e; injection H as <- <-; by exists pre. }
  apply sys_bind_inv in H as (go_on & w6 & H6 & H). apply check_signals_done in H6 as (mid & Hlmid & Hmid & Hgo).
  pose proof (log_two _ _ _ _ _ Hlpre Hlmid) as Hl6.
  assert (Hsig : signals_read (pre ++ mid) = signals_read mid) by (unfold signals_read in *; by rewrite omap_app, Hspre).
  assert (Hall : Forall (loop_call cfg) (pre ++ mid)) by (by apply Forall_app).
  destruct go_on as [[]|e]; [|injection H as <- <-; exists (pre ++ mid)..].
  - symmetry in Hgo. apply bool_decide_eq_true in Hgo.
    assert (Hpost : extends (deaf_call cfg) w6 w') by (eapply (handle_poll_keeps (extends (deaf_call cfg)) cfg); [deaf..|exact H]).
    destruct Hpost as (post & Hlpost & Hpost). apply deaf_calls in Hpost as [Hpost Hspost].
    exists ((pre ++ mid) ++ post). split; [exact (log_two _ _ _ _ _ Hl6 Hlpost)|].
    split; [by apply Forall_app|].
    assert (Hnone : signals_read ((pre ++ mid) ++ post) = [])
      by (unfold signals_read in *; rewrite omap_app, Hsig, Hgo; done).
    by destruct (handle_poll_continues _ _ _ _ _ _ H) as [s' ->].
  - split; [done|]. split; [done|]. rewrite Hsig. symmetry in Hgo. by apply bool_decide_eq_false in Hgo.
  - split; [done|]. by split.
Qed.

Lemma worker_pass_extends {T : Target} {W : Type} {K : Kernel W} (cfg : config) (fuel : nat) (s : loop_state)
    (w w' : world W) (step : flow loop_state (result worker_error loop_state)) :
  worker_pass fuel cfg s w = Done (step, w') -> exists calls, log w' = log w ++ calls.
Proof. intros H. apply worker_pass_calls in H as (calls & Hl & _). by exists calls. Qed.

(** C18: the loop ends exactly on a shutdown signal.  Whatever the kernel answers, a
    pass that goes round again has read no signal, and one that ends the loop
    normally has read one; and a pass makes no other calls than reading the clock,
    sending datagrams, reporting drops and using its own two descriptors. *)
Theorem loop_ends_exactly_on_a_signal {T : Target} {W : Type} {K : Kernel W} (fuel : nat) (cfg : config)
    (s : loop_state) (w w' : world W) (step : flow loop_state (result worker_error loop_state)) :
  worker_pass fuel cfg s w = Done (step, w') ->
  exists calls, log w' = log w ++ calls /\ Forall (loop_call cfg) calls /\
    match step with
    | Continue _ => signals_read calls = []
    | Break (Ok _) => signals_read calls <> []
    | Break (Err _) => True
    end.
Proof. apply worker_pass_calls. Qed.

(** ** A pass *)

Definition demo_template : Template := resolved Ipfix Full Eight 256.
Definition demo_config : config := {| nl_fd := 3; sig_fd := 4; interval := secs 30 |}.

Definition demo_state (b : ReceiveBatch) : loop_state := {|
  exp := {| encoder := new 7 demo_template {| system_time := 0; instant := 0 |}; send_errors := 0;
            include_template := true; last_template_time := 0 |};
  message_active := false; truncated_msgs := 0; foreign_msgs := 0;
  reported := {| last_stats_time := 0; prev_nl_drops := 0; prev_send_errors := 0;
                 prev_truncated_msgs := 0; prev_foreign_msgs := 0; prev_saturated := 0 |};
  batch := b |}.

Definition no_batch : ReceiveBatch :=
  {| storage := []; slot_len := 0; addresses := []; iovecs := []; headers := []; filled := 0 |}.

Definition signalled_world : world machine :=
  {| kernel := {| queue := []; pending := [SIGINT]; clock_ms := 1 |}; log := [] |}.

Lemma loop_ends_exactly_on_a_signal_witness :
  exists s' w' calls,
    worker_pass (T := x86_64_debug) 5 demo_config (demo_state no_batch) signalled_world = Done (Break (Ok s'), w') /\
    log w' = calls /\ Forall (loop_call demo_config) calls /\ signals_read calls <> [].
Proof.
  do 2 eexists.
  destruct (@loop_ends_exactly_on_a_signal x86_64_debug machine machine_kernel 5 demo_config
              (demo_state no_batch) signalled_world _ _ ltac:(vm_compute; reflexivity)) as (calls & H).
  exists calls. split; [vm_compute; reflexivity|]. exact H.
Defined.
