(* ===== verification/WorkerProps.v ===== *)
(** * What the worker sends is what it received

    The invariant of the worker's event loop: the messages sent so far, followed
    by the records still buffered, are exactly the NAT events of the kernel's
    datagrams received so far, in order; the first message carries the template;
    nothing panics.  The rules follow the calls: flushing, one event, one
    datagram, draining the socket, one pass of the loop. *)

From stdpp Require Import base list numbers strings gmap.
From Stdlib Require Import ZArith Lia.
From S2P Require Import Prelude Constants Elements Event Parser ParserSpec NetlinkProps Template Record Encoder EncoderSpec EncoderProps Collector CollectorProps System Socket Signals Worker WorkerLog WorkerFrame.
Local Open Scope Z_scope.

(** ** The counters of the exporter *)

(** Between two worlds nothing was reported, and the exporter's counters moved by
    the sends that failed and by the counters clamped in the events [evs]. *)
Definition tallied {W : Type} (t : Template) (x x' : exporter) (evs : list ConntrackEvent)
    (w w' : world W) : Prop :=
  exists calls, log w' = log w ++ calls /\ unreported calls /\
    send_errors x' = send_errors x + failures calls /\
    saturated_counters (encoder x') = saturated_counters (encoder x) + clamped_total t evs.

Lemma tallied_none {W : Type} (t : Template) (x x' : exporter) (w : world W) :
  send_errors x' = send_errors x -> saturated_counters (encoder x') = saturated_counters (encoder x) ->
  tallied t x x' [] w w.
Proof.
  intros He Hs. exists []. rewrite app_nil_r. split; [done|]. split; [constructor|].
  rewrite He, Hs. change (failures []) with 0. change (clamped_total t []) with 0. lia.
Qed.

Lemma tallied_trans {W : Type} (t : Template) (x1 x2 x3 : exporter) (e1 e2 : list ConntrackEvent)
    (w1 w2 w3 : world W) :
  tallied t x1 x2 e1 w1 w2 -> tallied t x2 x3 e2 w2 w3 -> tallied t x1 x3 (e1 ++ e2) w1 w3.
Proof.
  intros (c1 & L1 & U1 & S1 & N1) (c2 & L2 & U2 & S2 & N2). exists (c1 ++ c2).
  split; [exact (log_two _ _ _ _ _ L1 L2)|]. split; [by apply Forall_app|].
  rewrite failures_app, clamped_total_app. lia.
Qed.

(** ** Progress *)

(** Between two worlds, messages of the contents [ms] were sent and nothing was
    received; with [buf] buffered before and [buf'] after, the events [evs] were
    taken in. *)
Definition progress {W : Type} (t : Template) (buf buf' evs : list ConntrackEvent)
    (ms : list (bool * list ConntrackEvent)) (w w' : world W) : Prop :=
  exists calls, log w' = log w ++ calls /\ packets calls = [] /\
    Forall2 (message_of t) ms (sent calls) /\ contents ms ++ buf' = buf ++ evs.

Lemma contents_app (l1 l2 : list (bool * list ConntrackEvent)) :
  contents (l1 ++ l2) = contents l1 ++ contents l2.
Proof. unfold contents. by rewrite map_app, concat_app. Qed.

Lemma progress_none {W : Type} (t : Template) (buf : list ConntrackEvent) (w : world W) :
  progress t buf buf [] [] w w.
Proof. exists []. rewrite !app_nil_r. by split_and!. Qed.

Lemma progress_trans {W : Type} (t : Template) (b1 b2 b3 e1 e2 : list ConntrackEvent)
    (m1 m2 : list (bool * list ConntrackEvent)) (w1 w2 w3 : world W) :
  progress t b1 b2 e1 m1 w1 w2 -> progress t b2 b3 e2 m2 w2 w3 ->
  progress t b1 b3 (e1 ++ e2) (m1 ++ m2) w1 w3.
Proof.
  intros (c1 & L1 & P1 & F1 & E1) (c2 & L2 & P2 & F2 & E2). exists (c1 ++ c2).
  split; [by rewrite L2, L1, app_assoc|]. split; [by rewrite packets_app, P1, P2|].
  split; [rewrite sent_app; by apply Forall2_app|].
  by rewrite contents_app, <- app_assoc, E2, !app_assoc, E1.
Qed.

(** Calls that neither send nor receive nor report. *)
Definition silent (c : call) : Prop := sent_in c = None /\ packets_in c = [] /\ is_report c = false.

Lemma silent_calls (calls : list call) : Forall silent calls -> sent calls = [] /\ packets calls = [].
Proof.
  induction 1 as [|c calls (Hs & Hp & _) _ [IHs IHp]]; [done|].
  unfold sent, packets in *. cbn [omap list_omap map concat]. by rewrite Hs, Hp, IHs, IHp.
Qed.

Lemma silent_tally (calls : list call) : Forall silent calls -> failures calls = 0 /\ unreported calls.
Proof.
  induction 1 as [|c calls (Hs & _ & Hr) _ [IHf IHu]]; [split; [done|constructor]|].
  split; [|by constructor]. unfold failures in *. cbn [map sum_z foldr]. fold (sum_z (map send_failed calls)).
  rewrite IHf. destruct c as [[] a]; done.
Qed.

Lemma progress_silent {W : Type} (t : Template) (buf : list ConntrackEvent) (w w' : world W)
    (calls : list call) :
  log w' = log w ++ calls -> Forall silent calls -> progress t buf buf [] [] w w'.
Proof.
  intros Hlog Hall. destruct (silent_calls calls Hall) as [Hs Hp]. exists calls.
  rewrite Hs, app_nil_r. by split_and!.
Qed.

(** ** How much a datagram can hold *)

Lemma nl_messages_length {T : Target} (buf : bytes) : (length (nl_messages buf) <= length buf)%nat.
Proof.
  remember (length buf) as n eqn:Hn. revert buf Hn. induction n as [n IH] using lt_wf_ind. intros buf Hn.
  rewrite nl_messages_eq. destruct (decide (message_fits buf)) as [[Hl Hm]|]; cbn [length]; [|lia].
  unfold NLMSG_HDRLEN, NFGENMSG_LEN in *. pose proof (align4_bounds (ParserSpec.message_len buf)).
  set (rest := drop (Z.to_nat (align4 (ParserSpec.message_len buf))) buf) in *.
  assert (Hrest : (length rest < n)%nat) by (unfold rest; rewrite length_drop; unfold zlen in *; lia).
  specialize (IH _ Hrest rest eq_refl). lia.
Qed.

Lemma omap_length {A B : Type} (f : A -> option B) (l : list A) : (length (omap f l) <= length l)%nat.
Proof. induction l as [|x l IH]; cbn; [lia|]. destruct (f x); cbn; lia. Qed.

Lemma conntrack_events_length {T : Target} (buf : bytes) : zlen (conntrack_events buf) <= zlen buf.
Proof.
  pose proof (nl_messages_length buf). unfold conntrack_events, zlen.
  pose proof (omap_length event_of_message (nl_messages buf)). lia.
Qed.

(** ** Flushing *)

(** What is left of the 64-bit counters. *)
Definition room (x : exporter) (n : Z) : Prop :=
  0 <= send_errors x /\ send_errors x + n <= u64_max /\
  saturated_counters (encoder x) + 14 * n <= u64_max.

Section Worker.
Context {T : Target} {W : Type} {K : Kernel W}.
Context (t : Template) (stuck : Prop).

(** The message in the making holds what it says it holds. *)
Definition making (x : exporter) (incl : bool) (buf : list ConntrackEvent) : Prop :=
  building (encoder x) incl buf /\ template (encoder x) = t /\ Forall event_ok buf.

(** An exporter with no message to send, or none begun. *)
Definition idle (x : exporter) : Prop := encoder_ok (encoder x) /\ template (encoder x) = t.

Lemma has_pending_building (e : Encoder) (incl : bool) (buf : list ConntrackEvent) :
  building e incl buf -> has_pending_output e = incl || negb (bool_decide (buf = [])).
Proof.
  intros [_ Hincl Hcount _ _ _ _ _]. unfold has_pending_output. rewrite Hincl, Hcount, orb_comm.
  f_equal. destruct buf as [|ev buf]; [done|]. rewrite bool_decide_false by done.
  apply Z.ltb_lt. rewrite zlen_cons. pose proof (zlen_nonneg buf). lia.
Qed.

Lemma message_of_building (e : Encoder) (incl : bool) (buf : list ConntrackEvent) (clock : Clock) :
  building e incl buf -> template e = t -> Forall event_ok buf ->
  message_of t (incl, buf) (message_bytes t incl buf (header_of e clock)).
Proof.
  intros Hb Ht Hev. pose proof Hb as [[_ _ Hseq Hdom _] _ _ _ _ _ Hfits _]. rewrite Ht in Hfits.
  split; [done|]. split; [done|]. exists (header_of e clock). split_and!; try done; cbn.
  - apply unix_secs_u32.
  - apply uptime_u32.
Qed.

(** After flushing: one message with what was buffered, if there was anything. *)
Definition flushed (x : exporter) (incl : bool) (buf : list ConntrackEvent) (w : world W)
    (x' : exporter) (w' : world W) : Prop :=
  idle x' /\ (forall n, room x (n + 1) -> room x' n) /\
  include_template x' = (if incl then false else include_template x) /\
  (if incl then exists k, last_template_time x' = instant (k_call ClockNow k).1
   else last_template_time x' = last_template_time x) /\
  exists ms, progress t buf [] [] ms w w' /\
    ms = (if incl || negb (bool_decide (buf = [])) then [(incl, buf)] else []) /\ tallied t x x' [] w w'.

(** Settling the template's schedule: at most a reading of the clock. *)
Lemma settle_schedule_run (x : exporter) (incl : bool) (w : world W) : template_included (encoder x) = incl ->
  run stuck (settle_schedule x) w (fun x' w' =>
    (exists calls, log w' = log w ++ calls /\ Forall silent calls) /\ encoder x' = encoder x /\
    send_errors x' = send_errors x /\ include_template x' = (if incl then false else include_template x) /\
    (if incl then exists k, last_template_time x' = instant (k_call ClockNow k).1
     else last_template_time x' = last_template_time x)).
Proof.
  intros Hincl. unfold settle_schedule, now. rewrite Hincl. destruct incl.
  2: { apply run_ret. split; [|done]. exists []. by rewrite app_nil_r. }
  apply (run_bind _ _ _ _ (fun tm w' => (exists k, tm = instant (k_call ClockNow k).1) /\
    exists a, log w' = log w ++ [called ClockNow a])).
  - eapply run_bind; [apply (run_request _ _ _ (fun a w' =>
      a = (k_call ClockNow (kernel w)).1 /\ log w' = log w ++ [called ClockNow a]));
      intros a k Ha; by rewrite Ha|].
    intros a w' [-> Hl]. apply run_ret. split; eauto.
  - intros tm w' [Hk [a Hl]]. apply run_ret. split; [|done]. exists [called ClockNow a]. split; [done|]. by repeat constructor.
Qed.

Lemma silent_clock (a : answer ClockNow) : silent (called ClockNow a).
Proof. done. Qed.

(** What a message that was sent, or not, leaves in the log. *)
Lemma sent_one (incl : bool) (buf : list ConntrackEvent) (c1 : list call) (clock : Clock) (d : bytes)
    (a : answer (UdpSend d)) (x x' : exporter) (w w' : world W) :
  log w' = log w ++ c1 ++ [called ClockNow clock; called (UdpSend d) a] -> Forall silent c1 ->
  message_of t (incl, buf) d ->
  send_errors x' = send_errors x + failures [called (UdpSend d) a] ->
  saturated_counters (encoder x') = saturated_counters (encoder x) ->
  progress t buf [] [] [(incl, buf)] w w' /\ tallied t x x' [] w w'.
Proof.
  intros Hl Hc Hm He Hs. destruct (silent_calls c1 Hc) as [Hs1 Hp1]. destruct (silent_tally c1 Hc) as [Hf1 Hu1].
  split; eexists; (split; [exact Hl|]).
  - rewrite packets_app, sent_app, Hp1, Hs1. split; [done|].
    split; [cbn; constructor; [exact Hm|constructor]|]. unfold contents. cbn. by rewrite !app_nil_r.
  - rewrite failures_app, Hf1. change (clamped_total t []) with 0.
    split; [apply Forall_app; split; [done|by repeat constructor]|]. split; [exact He|lia].
Qed.

Lemma send_message_run (x x1 : exporter) (incl : bool) (buf : list ConntrackEvent) (w w1 : world W) (c1 : list call) :
  making x incl buf -> room x 1 -> log w1 = log w ++ c1 -> Forall silent c1 ->
  encoder x1 = encoder x -> send_errors x1 = send_errors x ->
  run stuck (send_message x1) w1 (fun x' w' => idle x' /\ (forall n, room x (n + 1) -> room x' n) /\
    include_template x' = include_template x1 /\ last_template_time x' = last_template_time x1 /\
    progress t buf [] [] [(incl, buf)] w w' /\ tallied t x x' [] w w').
Proof.
  intros (Hb & Ht & Hev) (Hr0 & Hr1 & Hr2) Hl1 Hc1 He1 Hs1. unfold send_message. call_with clock w2 Hl2.
  destruct (finalize_done (encoder x) incl buf clock Hb) as (e' & Hfin & Hok' & Ht' & _ & _ & _ & Hsat').
  rewrite He1. eapply run_lift_bind; [exact Hfin|]. cbv beta match. rewrite Ht. call_with a w3 Hl3.
  pose proof (message_of_building (encoder x) incl buf clock Hb Ht Hev) as Hm.
  assert (Hl : log w3 = log w ++ c1 ++ [called ClockNow clock; called (UdpSend _) a])
    by (rewrite Hl3, Hl2, Hl1, <- !app_assoc; done).
  destruct a as [n|e].
  - apply run_ret. split; [split; [done|cbn; congruence]|].
    split; [intros n' (?&?&?); unfold room; cbn [send_errors encoder set_encoder]; rewrite Hs1, Hsat'; lia|].
    split; [done|]. split; [done|]. apply (sent_one incl buf c1 clock _ _ _ _ _ _ Hl); [done|done|cbn; lia|done].
  - eapply run_lift_bind; [unfold add_w; apply fit_w_done; rewrite Hs1; unfold u64_max in *; lia|].
    apply run_ret. split; [split; [done|cbn; congruence]|].
    split; [intros n' (?&?&?); unfold room; cbn [send_errors encoder]; rewrite Hs1, Hsat'; lia|].
    split; [done|]. split; [done|]. apply (sent_one incl buf c1 clock _ _ _ _ _ _ Hl); [done|done|cbn; lia|done].
Qed.

Lemma flush_message_run (x : exporter) (incl : bool) (buf : list ConntrackEvent) (w : world W) :
  making x incl buf -> room x 1 -> run stuck (flush_message x) w (flushed x incl buf w).
Proof.
  intros Hmaking Hroom. pose proof Hmaking as (Hb & Ht & _).
  unfold flush_message. rewrite (has_pending_building _ _ _ Hb). unfold flushed.
  destruct (incl || negb (bool_decide (buf = []))) eqn:Hpend; cbn [negb].
  2: { apply orb_false_iff in Hpend as [-> Hnil]. apply negb_false_iff, bool_decide_eq_true in Hnil as ->.
       apply run_ret. split; [split; [apply (bd_ok _ _ _ Hb)|done]|]. split; [intros n (?&?&?); unfold room; lia|].
       split; [done|]. split; [done|]. exists []. split; [apply progress_none|]. split; [done|]. by apply tallied_none. }
  eapply run_bind; [apply settle_schedule_run, (bd_incl _ _ _ Hb)|].
  intros x1 w1 ((c1 & Hl1 & Hc1) & He1 & Hs1 & Hi1 & Ht1).
  eapply run_conseq; [by apply (send_message_run x x1 incl buf w w1 c1)|].
  intros x' w' (Hidle & Hr & Hi & Hlt & Hp & Htal). split; [done|]. split; [done|]. rewrite Hi, Hlt.
  split; [done|]. split; [done|]. by exists [(incl, buf)].
Qed.

(** ** One event *)

Context (Hclock : forall k, instant (k_call ClockNow k).1 < secs (2 ^ 62)).

Definition stamped (x : exporter) : Prop := last_template_time x < secs (2 ^ 62).

(** The events [evs] were taken in, from [x] with [buf] buffered. *)
Definition took (x : exporter) (buf evs : list ConntrackEvent) (w : world W)
    (x' : exporter) (w' : world W) : Prop :=
  exists incl' buf' ms, making x' incl' buf' /\ progress t buf buf' evs ms w w' /\
    (forall n, room x (n + 2 * zlen evs) -> room x' n) /\ (stamped x -> stamped x') /\
    tallied t x x' evs w w'.

Lemma flushed_stamped (x : exporter) (incl : bool) (buf : list ConntrackEvent) (w : world W)
    (x' : exporter) (w' : world W) : flushed x incl buf w x' w' -> stamped x -> stamped x'.
Proof using Hclock.
  intros (_ & _ & _ & Ht & _) Hx. unfold stamped in *. destruct incl; [|by rewrite Ht].
  destruct Ht as [k ->]. apply Hclock.
Qed.

Lemma append_record_took (x : exporter) (incl : bool) (buf : list ConntrackEvent) (ev : ConntrackEvent) :
  making x incl buf -> event_ok ev -> room x 1 -> fits t incl (zlen buf + 1) = true ->
  exists e', add_record (encoder x) ev = Done (e', true) /\ making (set_encoder x e') incl (buf ++ [ev]) /\
    (forall n, room x (n + 1) -> room (set_encoder x e') n) /\
    saturated_counters e' = saturated_counters (encoder x) + clamped_total t [ev].
Proof using Type.
  intros (Hb & Ht & Hev) Hok Hroom Hfits. pose proof Hb as [[Htok _ _ _ _] _ _ _ _ _ _ _].
  rewrite (add_record_check _ incl buf) by done. rewrite Ht, Hfits. pose proof (to_count _ Htok) as Hc.
  destruct Hroom as (_ & _ & Hs). rewrite <- Ht in Hfits.
  destruct (append_record_done (encoder x) incl buf ev Hb Hfits) as (e' & -> & Hb' & Hsame & Hsat); [lia|].
  exists e'. split; [done|]. split.
  - split; [done|]. split; [cbn; destruct Hsame; congruence|].
    apply Forall_app. split; [done|by constructor].
  - split.
    + intros n (?&?&?). unfold room. cbn [send_errors encoder set_encoder]. rewrite Hsat.
      pose proof (clamped_counters_bound (fields (template (encoder x))) ev). lia.
    + rewrite Hsat, Ht. unfold clamped_total. cbn [map]. by rewrite sum_z_singleton.
Qed.

Lemma handle_event_run (x : exporter) (incl : bool) (buf : list ConntrackEvent) (ev : ConntrackEvent)
    (w : world W) :
  making x incl buf -> event_ok ev -> room x 2 ->
  run stuck (handle_event x ev) w (took x buf [ev] w).
Proof using Hclock.
  intros Hm Hok Hroom. assert (Hroom1 : room x 1) by (unfold room in *; lia).
  unfold handle_event. destruct (fits t incl (zlen buf + 1)) eqn:Hfits.
  - destruct (append_record_took _ _ _ _ Hm Hok Hroom1 Hfits) as (e' & Hadd & Hm' & Hr' & Hsat).
    eapply run_lift_bind; [exact Hadd|]. apply run_ret. exists incl, (buf ++ [ev]), [].
    split; [done|]. split; [exists []; rewrite app_nil_r; by split_and!|]. split; [|split; [done|]].
    + change (zlen [ev]) with 1. intros n Hn. apply Hr'. unfold room in *. lia.
    + exists []. rewrite app_nil_r. split; [done|]. split; [constructor|]. split; [cbn; lia|exact Hsat].
  - pose proof Hm as (Hb & Ht & Hev). pose proof Hb as [[Htok _ _ _ _] _ _ _ _ _ _ _].
    eapply run_lift_bind.
    { rewrite (add_record_check _ incl buf) by done. rewrite Ht, Hfits. reflexivity. }
    cbv beta match. eapply run_bind; [apply (flush_message_run _ incl buf); by destruct x|].
    intros x1 w1 Hfl. pose proof (flushed_stamped _ _ _ _ _ _ Hfl) as Hst.
    destruct Hfl as ((Hok1 & Ht1) & Hr1 & _ & _ & ms & Hprog & _ & Htal).
    destruct (begin_message_done (encoder x1) (include_template x1) Hok1)
      as (e1 & Hbegin & Hb1 & (Ht2 & _) & Hs1).
    eapply run_lift_bind; [exact Hbegin|]. rewrite Ht in Htok.
    destruct (append_record_took (set_encoder x1 e1) (include_template x1) [] ev) as (e2 & Hadd & Hm2 & Hr2 & Hsat2).
    + split; [done|]. split; [cbn; congruence|constructor].
    + done.
    + assert (Hr : room x1 1) by (apply Hr1; unfold room in *; by destruct x). unfold room in *.
      cbn [send_errors encoder set_encoder]. rewrite Hs1. exact Hr.
    + rewrite fits_capacity by done. apply Z.leb_le. pose proof (capacity_bounds t (include_template x1) Htok).
      change (zlen []) with 0. lia.
    + eapply run_lift_bind; [exact Hadd|]. apply run_ret. exists (include_template x1), [ev], ms.
      split; [exact Hm2|]. split.
      { destruct Hprog as (calls & Hl & Hp & Hf & Hc). exists calls. split_and!; try done.
        rewrite !app_nil_r in Hc. by rewrite Hc. }
      split; [|split; [by destruct x|]].
      * change (zlen [ev]) with 1. intros n Hn. apply Hr2.
        assert (Hr : room x1 (n + 1)) by (apply Hr1; unfold room in *; destruct x; cbn in *; lia).
        unfold room in *. cbn [send_errors encoder set_encoder]. rewrite Hs1. exact Hr.
      * destruct Htal as (calls & Hl & Hu & Hse & Hsa). change (clamped_total t []) with 0 in Hsa.
        exists calls. split; [done|]. split; [done|]. cbn [send_errors encoder set_encoder] in *.
        split; [done|]. rewrite Hsat2, Hs1. lia.
Qed.

(** ** The events of one datagram *)

Context (H64 : pointer_width = 64).

Lemma handle_events_run (evs : list ConntrackEvent) (x : exporter) (incl : bool)
    (buf : list ConntrackEvent) (w : world W) :
  making x incl buf -> Forall event_ok evs -> room x (2 * zlen evs) ->
  run stuck (fun w => foldM (fun st ev => handle_event st.1 ev st.2) (x, w) evs) w (took x buf evs w).
Proof using Hclock.
  intros Hm Hevs. revert x incl buf w Hm. induction Hevs as [|ev evs Hev Hevs IH];
    intros x incl buf w Hm Hroom.
  { exists incl, buf, []. split; [done|]. split; [apply progress_none|]. split; [|split; [done|by apply tallied_none]].
    change (2 * zlen []) with 0. intros n. by rewrite Z.add_0_r. }
  rewrite zlen_cons in Hroom. pose proof (zlen_nonneg evs).
  assert (Hroom2 : room x 2) by (unfold room in *; lia).
  pose proof (handle_event_run x incl buf ev w Hm Hev Hroom2) as Hstep.
  unfold run in *. cbn [foldM fst snd].
  destruct (handle_event x ev w) as [[x1 w1]| |]; [|done|done]. rewrite bind_done.
  destruct Hstep as (incl1 & buf1 & ms1 & Hm1 & Hp1 & Hr1 & Hs1 & Ht1).
  change (zlen [ev]) with 1 in Hr1.
  assert (Hroom1 : room x1 (2 * zlen evs)) by (apply Hr1; unfold room in *; lia).
  specialize (IH x1 incl1 buf1 w1 Hm1 Hroom1).
  destruct (foldM _ (x1, w1) evs) as [[x2 w2]| |]; [|done|done].
  destruct IH as (incl2 & buf2 & ms2 & Hm2 & Hp2 & Hr2 & Hs2 & Ht2).
  exists incl2, buf2, (ms1 ++ ms2). split; [done|].
  split; [exact (progress_trans _ _ _ _ [ev] _ _ _ _ _ _ Hp1 Hp2)|].
  split; [|split; [tauto|exact (tallied_trans _ _ _ _ _ _ _ _ _ Ht1 Ht2)]].
  intros n Hn. apply Hr2, Hr1. rewrite zlen_cons in Hn. unfold room in *. lia.
Qed.

Lemma parse_into_run (x : exporter) (incl : bool) (buf : list ConntrackEvent) (data : bytes)
    (w : world W) :
  making x incl buf -> input_ok data -> room x (2 * zlen (conntrack_events data)) ->
  run stuck (parse_into x data) w (took x buf (conntrack_events data) w).
Proof using Hclock H64.
  intros Hm Hok Hroom. unfold parse_into, run. rewrite parse_messages_done by done.
  apply (handle_events_run _ x incl buf w); try done. by apply conntrack_events_ok.
Qed.

(** ** One datagram *)

(** Between datagrams: [buf] is what the active message holds. *)
Definition holding (s : loop_state) (buf : list ConntrackEvent) : Prop :=
  if message_active s then exists incl, making (exp s) incl buf else idle (exp s) /\ buf = [].

Definition roomy (s : loop_state) (n : Z) : Prop :=
  room (exp s) n /\ 0 <= truncated_msgs s /\ truncated_msgs s + n <= u64_max /\
  0 <= foreign_msgs s /\ foreign_msgs s + n <= u64_max.

Lemma roomy_less (s : loop_state) (n m : Z) : roomy s n -> m <= n -> roomy s m.
Proof using Type. unfold roomy, room. lia. Qed.

(** The packets [ps] were taken in, at the cost of [cost] of the counters. *)
Definition took_in (s : loop_state) (buf : list ConntrackEvent) (ps : list packet) (cost : Z) (w : world W)
    (s' : loop_state) (w' : world W) : Prop :=
  exists buf' ms, holding s' buf' /\ progress t buf buf' (events ps) ms w w' /\
    (forall n, roomy s (n + cost) -> roomy s' n) /\ (stamped (exp s) -> stamped (exp s')) /\
    batch s' = batch s /\ reported s' = reported s /\ tallied t (exp s) (exp s') (events ps) w w' /\
    truncated_msgs s' = truncated_msgs s + cuts ps /\ foreign_msgs s' = foreign_msgs s + strays ps.

Lemma took_in_none (s : loop_state) (buf : list ConntrackEvent) (ps : list packet) (cost n m : Z) (w : world W) :
  holding s buf -> events ps = [] -> n = truncated_msgs s + cuts ps -> m = foreign_msgs s + strays ps ->
  0 <= cuts ps <= cost -> 0 <= strays ps <= cost -> took_in s buf ps cost w (set_counts s n m) w.
Proof using Type.
  intros Hh He -> -> Hc Hs. exists buf, []. rewrite He. split; [done|]. split; [apply progress_none|].
  split; [intros k Hk; unfold roomy, room in *; cbn; lia|]. split; [done|]. split; [done|]. split; [done|].
  split; [by apply tallied_none|done].
Qed.

Definition packet_ok (p : packet) : Prop := bytes_ok p.2 /\ zlen p.2 < 2 ^ 32.
Definition packet_cost : Z := 2 ^ 18.

(** The message a datagram's events go into is begun if need be. *)
Lemma ensure_active_run (s : loop_state) (buf : list ConntrackEvent) (w : world W)
    {B : Type} (f : loop_state -> sys W B) (Q : B -> world W -> Prop) :
  holding s buf ->
  (forall s', (exists incl, making (exp s') incl buf) -> message_active s' = true ->
     send_errors (exp s') = send_errors (exp s) ->
     saturated_counters (encoder (exp s')) = saturated_counters (encoder (exp s)) ->
     last_template_time (exp s') = last_template_time (exp s) ->
     truncated_msgs s' = truncated_msgs s -> foreign_msgs s' = foreign_msgs s ->
     batch s' = batch s -> reported s' = reported s -> run stuck (f s') w Q) ->
  run stuck ((if negb (message_active s) then
               e ← lift (begin_message (encoder (exp s)) (include_template (exp s)));
               mret (set_active (set_exp s (set_encoder (exp s) e)) true)
             else mret s) ≫= f) w Q.
Proof using Type.
  intros Hh HQ. unfold holding in Hh. destruct (message_active s) eqn:Ha; cbn [negb].
  - apply run_ret_bind. by apply HQ.
  - destruct Hh as [[Hok Ht] ->].
    destruct (begin_message_done _ (include_template (exp s)) Hok) as (e & Hbegin & Hb & (Ht' & _) & Hs).
    apply (run_bind _ _ _ _ (fun s' w' =>
      s' = set_active (set_exp s (set_encoder (exp s) e)) true /\ w' = w));
      [eapply run_lift_bind; [exact Hbegin|]; by apply run_ret|].
    intros s' w' [-> ->]. apply HQ; try done.
    exists (include_template (exp s)). split; [done|]. split; [cbn; congruence|constructor].
Qed.

Lemma zlen_slot (p : packet) : zlen (take (Z.to_nat RECV_SLOT_SIZE) p.2) <= 65536.
Proof using Type. unfold zlen. rewrite length_take. unfold RECV_SLOT_SIZE. lia. Qed.

Lemma slot_input_ok (p : packet) : packet_ok p -> input_ok (take (Z.to_nat RECV_SLOT_SIZE) p.2).
Proof using Type.
  intros [Hb _]. split; [auto with wire|]. pose proof (zlen_slot p).
  assert (65536 <= isize_max); [|lia].
  unfold isize_max. destruct pointer_width_cases as [-> | ->]; by apply Z.leb_le.
Qed.

(** Counting a truncated datagram. *)
Lemma count_truncated_run (d : Datagram) (s : loop_state) (w : world W) {B : Type}
    (f : loop_state -> sys W B) (Q : B -> world W -> Prop) :
  roomy s 1 ->
  run stuck (f (set_counts s (truncated_msgs s + (if len d <? datagram_len d then 1 else 0)) (foreign_msgs s))) w Q ->
  run stuck ((if len d <? datagram_len d then
                n ← lift (add_w 64 (truncated_msgs s) 1); mret (set_counts s n (foreign_msgs s))
              else mret s) ≫= f) w Q.
Proof using Type.
  intros Hr HQ. destruct (len d <? datagram_len d).
  - apply (run_bind _ _ _ _ (fun s' w' => s' = set_counts s (truncated_msgs s + 1) (foreign_msgs s) /\ w' = w)).
    + eapply run_lift_bind; [unfold add_w; apply fit_w_done; unfold roomy, u64_max in *; lia|]. by apply run_ret.
    + by intros s' w' [-> ->].
  - apply run_ret_bind. rewrite Z.add_0_r in HQ. by destruct s.
Qed.

Lemma handle_datagram_run (s : loop_state) (buf : list ConntrackEvent) (i : Z) (p : packet) (w : world W) :
  holding s buf -> batch_ok RECV_BATCH_SIZE RECV_SLOT_SIZE (batch s) -> 0 <= i < RECV_BATCH_SIZE ->
  i < filled (batch s) -> slot_holds (batch s) i p -> packet_ok p -> roomy s packet_cost ->
  run stuck (handle_datagram s i) w (took_in s buf [p] packet_cost w).
Proof using Hclock H64.
  intros Hh Hb Hi Hf Hslot Hp Hroom. unfold handle_datagram, packet_cost in *.
  eapply run_lift_bind.
  { apply (datagram_done RECV_BATCH_SIZE RECV_SLOT_SIZE); try done.
    unfold isize_max. rewrite H64. by apply Z.leb_le. }
  cbv beta match. cbn [sender_portid].
  assert (Hev : events [p] = events_of p) by (unfold events; cbn; by rewrite app_nil_r).
  assert (Hcut : cuts [p] = cut p) by apply sum_z_singleton.
  assert (Hstray : strays [p] = stray p) by apply sum_z_singleton.
  unfold events_of, cut, stray in *. destruct (Z.eqb_spec p.1 0) as [Hpid|Hpid]; cbn [negb andb] in *.
  2: { eapply run_lift_bind; [unfold add_w; apply fit_w_done; unfold roomy, u64_max in *; lia|].
       apply run_ret, took_in_none; try done; lia. }
  assert (Hr1 : roomy s 1) by (eapply roomy_less; [exact Hroom|lia]).
  apply count_truncated_run; [done|]. cbn [len datagram_len].
  replace (if Z.min (zlen p.2) RECV_SLOT_SIZE <? zlen p.2 then 1 else 0) with (cuts [p])
    by (rewrite Hcut; destruct (Z.ltb_spec RECV_SLOT_SIZE (zlen p.2)), (Z.ltb_spec (Z.min (zlen p.2) RECV_SLOT_SIZE) (zlen p.2)); lia).
  assert (Hcuts : 0 <= cuts [p] <= 1) by (rewrite Hcut; destruct (_ <? _); lia).
  destruct (Z.eqb_spec (Z.min (zlen p.2) RECV_SLOT_SIZE) 0) as [Hz|Hz].
  { assert (Hnil : take (Z.to_nat RECV_SLOT_SIZE) p.2 = []).
    { destruct p.2; [done|]. rewrite zlen_cons in Hz. pose proof (zlen_nonneg l). unfold RECV_SLOT_SIZE in Hz. lia. }
    apply run_ret, took_in_none; try done; try lia.
    rewrite Hev, Hnil. unfold conntrack_events. by rewrite nl_messages_eq. }
  set (data := take (Z.to_nat RECV_SLOT_SIZE) p.2) in *.
  pose proof (conntrack_events_length data). pose proof (zlen_slot p) as Hslotlen. fold data in Hslotlen.
  pose proof (zlen_nonneg (conntrack_events data)).
  apply (ensure_active_run _ buf); [exact Hh|].
  intros s2 (incl & Hm) Ha He Hs Hl Htr Hfo Hba Hre. cbn [exp truncated_msgs foreign_msgs batch reported set_counts] in *.
  eapply run_bind; [apply (parse_into_run _ incl buf); [done|by apply slot_input_ok|]|].
  { unfold roomy, room in *. rewrite He, Hs. lia. }
  intros x w' (incl' & buf' & ms & Hm' & Hprog & Hr' & Hst' & Htal). apply run_ret. exists buf', ms.
  split; [unfold holding; cbn; rewrite Ha; by exists incl'|]. rewrite Hev. split; [done|].
  split; [|split; [unfold stamped in *; rewrite <- Hl; tauto|split; [done|split; [done|]]]].
  - intros n Hn. unfold roomy in *. cbn [exp truncated_msgs foreign_msgs set_exp]. rewrite Htr, Hfo.
    split; [apply Hr'; unfold room in *; rewrite He, Hs; lia|]. lia.
  - cbn [exp truncated_msgs foreign_msgs set_exp]. split; [|split; [done|lia]].
    unfold tallied in *. by rewrite He, Hs in Htal.
Qed.

(** ** A batch *)

Lemma seqZ_zlen_cons {A : Type} (i : Z) (x : A) (l : list A) :
  seqZ i (zlen (x :: l)) = i :: seqZ (i + 1) (zlen l).
Proof using Type.
  unfold zlen. cbn [length]. rewrite seqZ_cons by lia. f_equal. f_equal; lia.
Qed.

Lemma handle_datagrams_run (ps : list packet) (s : loop_state) (buf : list ConntrackEvent) (i : Z)
    (w : world W) :
  holding s buf -> batch_ok RECV_BATCH_SIZE RECV_SLOT_SIZE (batch s) -> 0 <= i ->
  i + zlen ps <= filled (batch s) -> filled (batch s) <= RECV_BATCH_SIZE ->
  (forall j q, ps !! j = Some q -> slot_holds (batch s) (i + Z.of_nat j) q) -> Forall packet_ok ps ->
  roomy s (zlen ps * packet_cost) ->
  run stuck (sys_foldM handle_datagram s (seqZ i (zlen ps))) w
    (took_in s buf ps (zlen ps * packet_cost) w).
Proof using Hclock H64.
  revert s buf i w. induction ps as [|p ps IH]; intros s buf i w Hh Hb Hi Hf Hf' Hslots Hps Hroom.
  { apply run_ret. destruct s. apply (took_in_none {| exp := exp |} buf []); try done; cbn; lia. }
  apply Forall_cons_1 in Hps as [Hp Hps]. rewrite seqZ_zlen_cons. rewrite zlen_cons in *.
  pose proof (zlen_nonneg ps). assert (Hcost : 0 < packet_cost) by done.
  cbn [sys_foldM]. eapply run_bind.
  { apply (handle_datagram_run s buf i p); try done; [lia|lia| |eapply roomy_less; [exact Hroom|nia]].
    specialize (Hslots 0%nat p eq_refl). by rewrite Z.add_0_r in Hslots. }
  intros s1 w1 (buf1 & ms1 & Hh1 & Hp1 & Hr1 & Hst1 & Hb1 & Hre1 & Ht1 & Hc1 & Hf1).
  eapply run_conseq; [apply (IH s1 buf1 (i + 1)); rewrite ?Hb1; try done; try lia|].
  - intros j q Hq. specialize (Hslots (S j) q Hq). by replace (i + 1 + Z.of_nat j) with (i + Z.of_nat (S j)) by lia.
  - apply Hr1. eapply roomy_less; [exact Hroom|lia].
  - intros s2 w2 (buf2 & ms2 & Hh2 & Hp2 & Hr2 & Hst2 & Hb2 & Hre2 & Ht2 & Hc2 & Hf2). exists buf2, (ms1 ++ ms2).
    change (p :: ps) with ([p] ++ ps). rewrite events_app, cuts_app, strays_app.
    split; [done|]. split; [exact (progress_trans _ _ _ _ _ _ _ _ _ _ _ Hp1 Hp2)|].
    split; [|split; [tauto|split; [congruence|split; [congruence|split; [by eapply tallied_trans|lia]]]]].
    intros n Hn. apply Hr2, Hr1. eapply roomy_less; [exact Hn|lia].
Qed.

(** ** Draining the socket *)

(** Between two worlds, what was sent and what is buffered account for what was
    buffered before and what was received. *)
Definition advance (buf buf' : list ConntrackEvent) (ms : list (bool * list ConntrackEvent))
    (w w' : world W) : Prop :=
  exists calls, log w' = log w ++ calls /\ Forall2 (message_of t) ms (sent calls) /\
    contents ms ++ buf' = buf ++ events (packets calls).

Lemma advance_trans (b1 b2 b3 : list ConntrackEvent) (m1 m2 : list (bool * list ConntrackEvent))
    (w1 w2 w3 : world W) :
  advance b1 b2 m1 w1 w2 -> advance b2 b3 m2 w2 w3 -> advance b1 b3 (m1 ++ m2) w1 w3.
Proof using Type.
  intros (c1 & L1 & F1 & E1) (c2 & L2 & F2 & E2). exists (c1 ++ c2).
  split; [by rewrite L2, L1, app_assoc|]. split; [rewrite sent_app; by apply Forall2_app|].
  by rewrite contents_app, packets_app, events_app, <- app_assoc, E2, !app_assoc, E1.
Qed.

Lemma progress_advance (buf buf' : list ConntrackEvent) (ms : list (bool * list ConntrackEvent))
    (w w' : world W) : progress t buf buf' [] ms w w' -> advance buf buf' ms w w'.
Proof using Type. intros (c & L & P & F & E). exists c. by rewrite P. Qed.

Lemma receive_advance (buf buf' : list ConntrackEvent) (ms : list (bool * list ConntrackEvent))
    (fd n : Z) (ps : list packet) (w w1 w2 : world W) :
  log w1 = log w ++ [called (Recvmmsg fd n) (Ok ps)] ->
  progress t buf buf' (events ps) ms w1 w2 -> advance buf buf' ms w w2.
Proof using Type.
  intros L1 (c & L & P & F & E). exists (called (Recvmmsg fd n) (Ok ps) :: c).
  split; [by rewrite L, L1, <- app_assoc|]. split; [done|].
  change (called (Recvmmsg fd n) (Ok ps) :: c) with ([called (Recvmmsg fd n) (Ok ps)] ++ c).
  rewrite packets_app, P, app_nil_r. unfold packets. cbn. by rewrite app_nil_r.
Qed.

(** Between two worlds nothing was reported, and the counters moved by what the
    calls in between count to. *)
Definition counted (s s' : loop_state) (w w' : world W) : Prop :=
  reported s' = reported s /\ exists calls, log w' = log w ++ calls /\ unreported calls /\
    counts_to t calls (send_errors (exp s') - send_errors (exp s)) (truncated_msgs s' - truncated_msgs s)
      (foreign_msgs s' - foreign_msgs s)
      (saturated_counters (encoder (exp s')) - saturated_counters (encoder (exp s))).

Lemma counts_to_app (c1 c2 : list call) (s1 s2 t1 t2 f1 f2 n1 n2 : Z) :
  counts_to t c1 s1 t1 f1 n1 -> counts_to t c2 s2 t2 f2 n2 ->
  counts_to t (c1 ++ c2) (s1 + s2) (t1 + t2) (f1 + f2) (n1 + n2).
Proof using Type.
  intros [-> -> -> ->] [-> -> -> ->].
  split; by rewrite ?failures_app, ?packets_app, ?cuts_app, ?strays_app, ?events_app, ?clamped_total_app.
Qed.

(** The counters and what was reported of them. *)
Definition same_counters (s s' : loop_state) : Prop :=
  send_errors (exp s') = send_errors (exp s) /\
  saturated_counters (encoder (exp s')) = saturated_counters (encoder (exp s)) /\
  truncated_msgs s' = truncated_msgs s /\ foreign_msgs s' = foreign_msgs s /\ reported s' = reported s.

Lemma counted_same (s s' : loop_state) (w w' : world W) (calls : list call) :
  log w' = log w ++ calls -> unreported calls -> failures calls = 0 -> packets calls = [] ->
  same_counters s s' -> counted s s' w w'.
Proof using Type.
  intros L U F P (H1 & H2 & H3 & H4 & H5). split; [done|]. exists calls. split; [done|]. split; [done|].
  split; rewrite ?P, ?F; [lia|change (cuts []) with 0|change (strays []) with 0|change (clamped_total t (events [])) with 0]; lia.
Qed.

Lemma counted_refl (s s' : loop_state) (w : world W) : same_counters s s' -> counted s s' w w.
Proof using Type. apply counted_same with []; [by rewrite app_nil_r|constructor|done|done]. Qed.

Lemma counted_trans (s1 s2 s3 : loop_state) (w1 w2 w3 : world W) :
  counted s1 s2 w1 w2 -> counted s2 s3 w2 w3 -> counted s1 s3 w1 w3.
Proof using Type.
  intros (R1 & c1 & L1 & U1 & C1) (R2 & c2 & L2 & U2 & C2). split; [congruence|]. exists (c1 ++ c2).
  split; [exact (log_two _ _ _ _ _ L1 L2)|]. split; [by apply Forall_app|].
  pose proof (counts_to_app _ _ _ _ _ _ _ _ _ _ C1 C2) as [H1 H2 H3 H4]. split; lia.
Qed.

(** What was tallied while nothing was received. *)
Lemma tallied_counted (s s' : loop_state) (buf buf' : list ConntrackEvent)
    (ms : list (bool * list ConntrackEvent)) (w w' : world W) :
  tallied t (exp s) (exp s') [] w w' -> progress t buf buf' [] ms w w' ->
  truncated_msgs s' = truncated_msgs s -> foreign_msgs s' = foreign_msgs s -> reported s' = reported s ->
  counted s s' w w'.
Proof using Type.
  intros (calls & L & U & S & N) (calls' & L' & P & _) Ht Hf Hr. rewrite L in L'. apply app_inv_head in L'.
  subst calls'. split; [done|]. exists calls. split; [done|]. split; [done|].
  change (clamped_total t []) with 0 in N.
  split; rewrite ?P; [lia|change (cuts []) with 0|change (strays []) with 0|change (clamped_total t (events [])) with 0]; lia.
Qed.

(** And while [ps], just received, were taken in. *)
Lemma received_counted (s s' : loop_state) (buf : list ConntrackEvent) (b : ReceiveBatch) (fd n cost : Z) (ps : list packet)
    (w w1 w2 : world W) :
  log w1 = log w ++ [called (Recvmmsg fd n) (Ok ps)] -> took_in (set_batch s b) buf ps cost w1 s' w2 ->
  counted s s' w w2.
Proof using Type.
  intros L1 (buf' & ms & _ & (calls & L & P & _) & _ & _ & _ & Hr & (calls' & L' & U & S & N) & Ht & Hf).
  rewrite L in L'. apply app_inv_head in L'. subst calls'. split; [done|].
  exists ([called (Recvmmsg fd n) (Ok ps)] ++ calls). split; [exact (log_two _ _ _ _ _ L1 L)|].
  split; [by constructor|].
  assert (Hp : packets ([called (Recvmmsg fd n) (Ok ps)] ++ calls) = ps)
    by (rewrite packets_app, P, app_nil_r; unfold packets; cbn; by rewrite app_nil_r).
  assert (Hfl : failures ([called (Recvmmsg fd n) (Ok ps)] ++ calls) = failures calls) by done.
  cbn [exp set_batch truncated_msgs foreign_msgs] in *. split; rewrite ?Hp, ?Hfl; lia.
Qed.

(** The state of the loop has moved from [s] to [s']. *)
Definition moved (s : loop_state) (buf : list ConntrackEvent) (cost : Z) (w : world W)
    (s' : loop_state) (w' : world W) : Prop :=
  exists buf' ms, holding s' buf' /\ advance buf buf' ms w w' /\
    (forall n, roomy s (n + cost) -> roomy s' n) /\ (stamped (exp s) -> stamped (exp s')) /\
    batch_ok RECV_BATCH_SIZE RECV_SLOT_SIZE (batch s') /\ counted s s' w w'.

Definition batch_cost : Z := RECV_BATCH_SIZE * packet_cost.

Lemma drain_run (passes : nat) (fd : Z) (s : loop_state) (buf : list ConntrackEvent) (w : world W) :
  holding s buf -> batch_ok RECV_BATCH_SIZE RECV_SLOT_SIZE (batch s) ->
  roomy s (Z.of_nat passes * batch_cost) ->
  run stuck (drain passes fd s) w (moved s buf (Z.of_nat passes * batch_cost) w).
Proof using Hclock H64.
  assert (Hbc : 0 < batch_cost) by done.
  revert s buf w. induction passes as [|passes IH]; intros s buf w Hh Hb Hroom.
  { apply run_ret. exists buf, []. split; [done|]. split; [apply progress_advance, progress_none|].
    split; [|split; [done|split; [done|by apply counted_refl]]].
    intros n. change (Z.of_nat 0 * batch_cost) with 0. by rewrite Z.add_0_r. }
  cbn [drain]. eapply run_bind; [by apply (recv_batch_ends stuck)|].
  intros [r b] w1 (Hb1 & a & _ & Hl1 & Ha). cbv zeta.
  assert (Hquiet : forall n, packets [called (Recvmmsg fd n) a] = [] ->
    log w1 = log w ++ [called (Recvmmsg fd n) a] ->
    run stuck (mret (set_batch s b)) w1 (moved s buf (Z.of_nat (S passes) * batch_cost) w)).
  { intros n Hp Hl. apply run_ret. exists buf, []. split; [done|]. split.
    - eexists. split; [exact Hl|]. rewrite Hp. rewrite app_nil_r. by split_and!.
    - split; [intros m Hm; eapply roomy_less; [exact Hm|]; lia|]. split; [done|]. split; [done|].
      eapply counted_same; [exact Hl|by repeat constructor|done|done|done]. }
  destruct a as [ps|e].
  2: { destruct Ha as [-> _]. by apply (Hquiet RECV_BATCH_SIZE). }
  destruct Ha as (-> & Hfill & Hle & Hps & Hslots). pose proof (zlen_nonneg ps).
  destruct (Z.eqb_spec (zlen ps) 0) as [Hz|Hz].
  { apply (Hquiet RECV_BATCH_SIZE); [|done]. destruct ps; [done|]. rewrite zlen_cons in Hz.
    pose proof (zlen_nonneg ps). lia. }
  assert (Hpc : zlen ps * packet_cost <= batch_cost) by (unfold batch_cost; assert (0 < packet_cost) by done; nia).
  eapply run_bind.
  { apply (handle_datagrams_run ps (set_batch s b) buf 0 w1); try done; cbn [batch set_batch]; try lia.
    change (roomy s (zlen ps * packet_cost)). eapply roomy_less; [exact Hroom|lia]. }
  intros s2 w2 Htook. pose proof (received_counted _ _ _ _ _ _ _ _ _ _ _ Hl1 Htook) as Hc2.
  destruct Htook as (buf2 & ms2 & Hh2 & Hp2 & Hr2 & Hst2 & Hb2 & _). cbn [batch set_batch exp] in *.
  pose proof (receive_advance _ _ _ _ _ _ _ _ _ Hl1 Hp2) as Hadv.
  assert (Hr2' : forall n, roomy s (n + batch_cost) -> roomy s2 n).
  { intros n Hn. apply Hr2. change (roomy s (n + zlen ps * packet_cost)). eapply roomy_less; [exact Hn|lia]. }
  destruct (zlen ps <? Socket.capacity (batch s2)).
  - apply run_ret. exists buf2, ms2. split; [done|]. split; [done|].
    split; [|split; [done|by rewrite Hb2]]. intros n Hn. apply Hr2'. eapply roomy_less; [exact Hn|lia].
  - eapply run_conseq; [apply (IH s2 buf2); [done|by rewrite Hb2|]|].
    + apply Hr2'. eapply roomy_less; [exact Hroom|lia].
    + intros s3 w3 (buf3 & ms3 & Hh3 & Hp3 & Hr3 & Hst3 & Hb3 & Hc3). exists buf3, (ms2 ++ ms3).
      split; [done|]. split; [by eapply advance_trans|].
      split; [|split; [tauto|split; [done|by eapply counted_trans]]].
      intros n Hn. apply Hr3, Hr2'. eapply roomy_less; [exact Hn|lia].
Qed.

End Worker.

(** ** One pass of the loop *)

Section Loop.
Context {T : Target} {W : Type} {K : Kernel W}.
Context (t : Template) (cfg : config).
Context (H64 : pointer_width = 64).
Context (Hclock : forall k, instant (k_call ClockNow k).1 < secs (2 ^ 62)).
Context (Hinterval : interval cfg <= secs (2 ^ 62)).

(** Calls that neither send nor receive, between two worlds. *)
Definition quiet (w w' : world W) : Prop := exists calls, log w' = log w ++ calls /\ Forall silent calls.

Lemma quiet_refl (w : world W) : quiet w w.
Proof using Type. exists []. by rewrite app_nil_r. Qed.

Lemma quiet_trans (w1 w2 w3 : world W) : quiet w1 w2 -> quiet w2 w3 -> quiet w1 w3.
Proof using Type.
  intros (c1 & L1 & S1) (c2 & L2 & S2). exists (c1 ++ c2). split; [by rewrite L2, L1, app_assoc|].
  by apply Forall_app.
Qed.

Lemma quiet_one (w w' : world W) (c : call) : log w' = log w ++ [c] -> silent c -> quiet w w'.
Proof using Type.
  intros L S. exists [c]. split; [done|]. apply Forall_cons_2; [done|apply Forall_nil_2].
Qed.

Lemma quiet_advance (buf : list ConntrackEvent) (w w' : world W) :
  quiet w w' -> advance t buf buf [] w w'.
Proof using Type.
  intros (c & L & S). apply progress_advance. by eapply progress_silent.
Qed.

Lemma now_run (stuck : Prop) (w : world W) :
  run stuck now w (fun tm w' => tm < secs (2 ^ 62) /\ quiet w w').
Proof using Hclock.
  unfold now. eapply run_bind.
  { apply (run_request _ ClockNow w (fun (a : answer ClockNow) w' => instant a < secs (2 ^ 62) /\ quiet w w')). intros a k Ha.
    split; [pose proof (Hclock (kernel w)) as H; by rewrite Ha in H|]. eapply quiet_one; [done|].
    apply silent_clock. }
  intros a w' [Ht Hq]. by apply run_ret.
Qed.

Lemma get_drops_run (stuck : Prop) (fd : Z) (w : world W) :
  run stuck (get_drops fd) w (fun _ w' => quiet w w').
Proof using Type.
  unfold get_drops. call_with a w1 H1.
  assert (Hq : quiet w w1) by (eapply quiet_one; [exact H1|done]).
  destruct a as [vars|e]; [|by apply run_ret].
  set (mem := patch _ _ _).
  assert (Hlen : zlen mem = 9).
  { unfold mem. change SK_MEMINFO_VARS with 9. rewrite zlen_patch; [done|done|].
    unfold zlen. rewrite length_take, length_replicate. lia. }
  destruct (index_done mem SK_MEMINFO_DROPS) as (x & _ & Hx); [rewrite Hlen; by vm_compute|].
  by eapply run_lift.
Qed.

(** The invariant at the top of a pass: since [w0], messages of the contents [ms]
    were sent and [buf] is buffered; the first message carries the template, or
    nothing was sent yet and the template is about to be. *)
Definition started_with_template (s : loop_state) (ms : list (bool * list ConntrackEvent)) : Prop :=
  template_first ms \/ (ms = [] /\ include_template (exp s) = true /\ message_active s = false).

Definition timely (s : loop_state) : Prop :=
  stamped (exp s) /\ last_stats_time (reported s) < secs (2 ^ 62).

(** The statistics: since [w0], the counters count what they should, the reports
    are right, and what was reported is remembered. *)
Definition stats_inv (w0 : world W) (s : loop_state) (w : world W) : Prop :=
  exists calls, log w = log w0 ++ calls /\
    counts_to t calls (send_errors (exp s)) (truncated_msgs s) (foreign_msgs s)
      (saturated_counters (encoder (exp s))) /\
    reports_right t calls /\
    prev_send_errors (reported s) = said udp_send calls /\ said udp_send calls <= send_errors (exp s) /\
    prev_truncated_msgs (reported s) = said truncated calls /\ said truncated calls <= truncated_msgs s /\
    prev_foreign_msgs (reported s) = said foreign calls /\ said foreign calls <= foreign_msgs s /\
    prev_saturated (reported s) = said clamped_count calls /\ said clamped_count calls <= saturated_counters (encoder (exp s)).

Lemma stats_counted (w0 w w' : world W) (s s' : loop_state) :
  stats_inv w0 s w -> counted t s s' w w' -> stats_inv w0 s' w'.
Proof using Type.
  intros (c & L & C & R & P) (Hr & c' & L' & U' & C'). exists (c ++ c').
  split; [exact (log_two _ _ _ _ _ L L')|].
  pose proof (counted_nonneg t c') as (N1 & N2 & N3 & N4). pose proof C' as [C1 C2 C3 C4].
  split; [pose proof (counts_to_app t _ _ _ _ _ _ _ _ _ _ C C') as [H1 H2 H3 H4]; split; lia|].
  split; [by apply reports_right_app|]. rewrite Hr, !said_app, !(said_unreported _ c') by done. lia.
Qed.

(** A report, or none, is in the log. *)
Definition reported_in (fresh total : drop_counts) (w w' : world W) : Prop :=
  if any_new fresh then exists a, log w' = log w ++ [called (WarnDrops fresh total) a] else log w' = log w.

Lemma stats_reported (w0 w w' : world W) (s : loop_state) (tm d : Z) :
  stats_inv w0 s w ->
  reported_in (new_counts (reported s) (totals s d)) (totals s d) w w' ->
  stats_inv w0 (set_reported s {| last_stats_time := tm; prev_nl_drops := d;
    prev_send_errors := send_errors (exp s); prev_truncated_msgs := truncated_msgs s;
    prev_foreign_msgs := foreign_msgs s; prev_saturated := saturated_counters (encoder (exp s)) |}) w'.
Proof using Type.
  intros (c & L & C & R & P). unfold reported_in.
  set (fresh := new_counts _ _). set (total := totals s d).
  assert (F : 0 <= nl_recv fresh /\ udp_send fresh = send_errors (exp s) - said udp_send c /\
    truncated fresh = truncated_msgs s - said truncated c /\ foreign fresh = foreign_msgs s - said foreign c /\
    clamped_count fresh = saturated_counters (encoder (exp s)) - said clamped_count c)
    by (unfold fresh, new_counts, saturating_sub; cbn; lia).
  destruct F as (F0 & F1 & F2 & F3 & F4). unfold stats_inv. cbn [exp truncated_msgs foreign_msgs reported set_reported
    prev_send_errors prev_truncated_msgs prev_foreign_msgs prev_saturated].
  destruct (any_new fresh) eqn:Hnew.
  - intros [a L']. exists (c ++ [called (WarnDrops fresh total) a]). split; [exact (log_two _ _ _ _ _ L L')|].
    assert (Hone : counts_to t [called (WarnDrops fresh total) a] 0 0 0 0) by (by split).
    split; [pose proof (counts_to_app t _ _ _ _ _ _ _ _ _ _ C Hone) as [H1 H2 H3 H4]; split; lia|].
    split; [apply reports_right_snoc; [done|]; split; [done|exact C|rewrite F1|rewrite F2|rewrite F3|rewrite F4]; unfold total, totals; cbn [udp_send truncated foreign clamped_count]; lia|].
    assert (Hs : forall f, said f [called (WarnDrops fresh total) a] = f fresh)
      by (intros f; unfold said; cbn; lia).
    rewrite !said_app, !Hs. lia.
  - intros L'. exists c. rewrite L'. split; [done|]. split; [done|]. split; [done|].
    unfold any_new in Hnew. rewrite !orb_false_iff, !Z.ltb_ge in Hnew. lia.
Qed.

Record loop_inv (w0 : world W) (s : loop_state) (w : world W)
    (buf : list ConntrackEvent) (ms : list (bool * list ConntrackEvent)) : Prop := {
  li_holding : holding t s buf;
  li_advance : advance t [] buf ms w0 w;
  li_first : started_with_template s ms;
  li_timely : timely s;
  li_batch : batch_ok RECV_BATCH_SIZE RECV_SLOT_SIZE (batch s);
  li_stats : stats_inv w0 s w
}.

Lemma template_first_app (m1 m2 : list (bool * list ConntrackEvent)) :
  template_first m1 -> template_first (m1 ++ m2).
Proof using Type. by destruct m1. Qed.

Lemma loop_inv_quiet (w0 w w' : world W) (s s' : loop_state) (buf : list ConntrackEvent)
    (ms : list (bool * list ConntrackEvent)) :
  loop_inv w0 s w buf ms -> quiet w w' -> encoder (exp s') = encoder (exp s) ->
  message_active s' = message_active s -> batch s' = batch s -> timely s' ->
  (include_template (exp s) = true -> include_template (exp s') = true) -> same_counters s s' ->
  loop_inv w0 s' w' buf ms.
Proof using Type.
  intros [Hh Ha Hf Ht Hb Hs] Hq He Hm Hba Ht' Hi Hsame. split; try done.
  - unfold holding, making, idle in *. by rewrite He, Hm.
  - pose proof (advance_trans _ _ _ _ _ _ _ _ _ Ha (quiet_advance buf _ _ Hq)) as H.
    by rewrite app_nil_r in H.
  - destruct Hf as [Hf|(-> & Hi' & Hm')]; [by left|]. right. split; [done|]. rewrite Hm. auto.
  - by rewrite Hba.
  - destruct Hq as (calls & Hl & Hall). destruct (silent_tally _ Hall), (silent_calls _ Hall).
    eapply stats_counted; [exact Hs|]. by eapply counted_same.
Qed.

Lemma warn_run (stuck : Prop) (fresh total : drop_counts) (w : world W) :
  run stuck (if any_new fresh then request (WarnDrops fresh total) else mret tt) w
    (fun _ w' => reported_in fresh total w w').
Proof using Type.
  unfold reported_in. destruct (any_new fresh); [|by apply run_ret].
  apply (run_request _ (WarnDrops fresh total) w). intros a k _. by exists a.
Qed.

Lemma reported_advance (fresh total : drop_counts) (buf : list ConntrackEvent) (w w' : world W) :
  reported_in fresh total w w' -> advance t buf buf [] w w'.
Proof using Type.
  unfold reported_in. destruct (any_new fresh).
  - intros [a Hl]. eexists. split; [exact Hl|]. split; [by constructor|]. by rewrite app_nil_r.
  - intros Hl. exists []. rewrite Hl, !app_nil_r. split; [done|]. by split; [constructor|].
Qed.

Lemma report_stats_run (stuck : Prop) (w0 w : world W) (tm : Z) (s : loop_state)
    (buf : list ConntrackEvent) (ms : list (bool * list ConntrackEvent)) :
  loop_inv w0 s w buf ms -> tm < secs (2 ^ 62) ->
  run stuck (report_stats cfg tm s) w (fun s' w' => loop_inv w0 s' w' buf ms /\ exp s' = exp s /\
    truncated_msgs s' = truncated_msgs s /\ foreign_msgs s' = foreign_msgs s).
Proof using Type.
  intros Hinv Htm. unfold report_stats. destruct (_ <=? _); [|by apply run_ret].
  eapply run_bind; [apply get_drops_run|]. intros d w1 Hq. cbv zeta.
  assert (Hinv1 : loop_inv w0 s w1 buf ms)
    by (eapply loop_inv_quiet; try done; apply (li_timely _ _ _ _ _ Hinv)).
  eapply run_bind; [apply warn_run|]. cbn beta. intros _ w2 Hw. apply run_ret. split; [|done].
  destruct Hinv1 as [Hh Ha Hf [Hst _] Hb Hs]. split; try done.
  - pose proof (advance_trans t _ _ _ _ _ _ _ _ Ha (reported_advance _ _ buf _ _ Hw)) as H.
    by rewrite app_nil_r in H.
  - by apply (stats_reported w0 w1 w2 s tm d).
Qed.

(** After [send_template] the first message, the one with the template, is out. *)
Lemma send_template_run (stuck : Prop) (w0 w : world W) (s : loop_state)
    (buf : list ConntrackEvent) (ms : list (bool * list ConntrackEvent)) :
  loop_inv w0 s w buf ms -> roomy s 1 ->
  run stuck (send_template s) w (fun s' w' => exists ms',
    loop_inv w0 s' w' buf ms' /\ template_first ms' /\ (forall n, roomy s (n + 1) -> roomy s' n) /\
    message_active s' = message_active s).
Proof using Hclock.
  intros Hinv Hroom. pose proof Hinv as [Hh Ha Hf [Hst Hss] Hb Hstats]. unfold send_template.
  destruct (include_template (exp s) && negb (message_active s)) eqn:Hc.
  - apply andb_true_iff in Hc as [Hi Hm]. apply negb_true_iff in Hm. unfold holding in Hh.
    rewrite Hm in Hh. destruct Hh as [[Hok Ht] ->].
    destruct (begin_message_done _ true Hok) as (e & Hbegin & Hbd & (Ht' & _) & Hs).
    eapply run_lift_bind; [exact Hbegin|].
    eapply run_bind; [apply (flush_message_run t stuck _ true [])|].
    + split; [done|]. split; [cbn; congruence|constructor].
    + destruct Hroom as [(?&?&?) _]. unfold room. cbn [send_errors encoder set_encoder]. rewrite Hs. lia.
    + intros x w1 Hfl. pose proof (flushed_stamped t Hclock _ _ _ _ _ _ Hfl Hst) as Hst'.
      destruct Hfl as (Hidle & Hr & _ & _ & ms1 & Hp & -> & Htal). cbn [orb] in Hp. apply run_ret.
      exists (ms ++ [(true, [])]). split; [|split; [|split; [|done]]].
      * split; try done.
        -- unfold holding. cbn [message_active set_exp exp]. by rewrite Hm.
        -- exact (advance_trans t _ _ _ _ _ _ _ _ Ha (progress_advance t _ _ _ _ _ Hp)).
        -- left. destruct Hf as [Hf|(-> & _)]; [by apply template_first_app|done].
        -- eapply stats_counted; [exact Hstats|]. eapply tallied_counted; [|exact Hp|done..].
           unfold tallied in *. cbn [send_errors encoder set_encoder] in Htal. by rewrite Hs in Htal.
      * destruct Hf as [Hf|(-> & _)]; [by apply template_first_app|done].
      * intros n (Hn & ? & ? & ? & ?). split; [|cbn [truncated_msgs foreign_msgs set_exp]; lia]. apply Hr. unfold room in *. cbn [send_errors encoder set_encoder].
        rewrite Hs. exact Hn.
  - apply run_ret. exists ms. split; [done|]. split; [|split; [|done]].
    + destruct Hf as [Hf|(-> & Hi & Hm)]; [done|]. by rewrite Hi, Hm in Hc.
    + intros n Hn. eapply roomy_less; [exact Hn|lia].
Qed.

Lemma instant_add_done (a b : Z) : a < secs (2 ^ 62) -> b <= secs (2 ^ 62) -> instant_add a b = Done (a + b).
Proof using Type.
  intros Ha Hb. unfold instant_add. destruct (Z.ltb_spec ((a + b) / 10 ^ 9) (2 ^ 63)) as [|Hge]; [done|].
  pose proof (Z.div_lt_upper_bound (a + b) (10 ^ 9) (2 ^ 63)). unfold secs in *. lia.
Qed.

Lemma ms_until_bounds (d n : Z) : 0 <= ms_until d n <= i32_max.
Proof using Type.
  unfold ms_until, duration_since. pose proof (Z.div_pos (Z.max 0 (d - n)) (10 ^ 6)).
  destruct (Z.leb_spec (Z.max 0 (d - n) / 10 ^ 6) i32_max); unfold i32_max in *; lia.
Qed.

(** The poll timeout: short exactly while a message is open, never negative (so
    that a due timer always wakes the loop). *)
Lemma poll_timeout_run (stuck : Prop) (s : loop_state) (w : world W) : timely s ->
  run stuck (poll_timeout cfg s) w (fun timeout w' => quiet w w' /\ 0 <= timeout <= i32_max /\
    (message_active s = true -> timeout = FLUSH_TIMEOUT_MS)).
Proof using Hclock Hinterval.
  intros [Hst Hss]. unfold poll_timeout. destruct (message_active s).
  { apply run_ret. split; [apply quiet_refl|]. by vm_compute. }
  eapply run_lift_bind; [by apply instant_add_done|].
  eapply run_lift_bind; [apply instant_add_done; [done|by vm_compute]|].
  eapply run_bind; [apply now_run|]. intros tm w' [_ Hq]. apply run_ret.
  split; [done|]. split; [apply ms_until_bounds|done].
Qed.

Lemma poll_with_run (stuck : Prop) (fd aux tmo : Z) (w : world W) :
  run stuck (poll_with fd aux tmo) w (fun _ w' => quiet w w').
Proof using Type.
  unfold poll_with. call_with a w1 H1. apply run_ret. eapply quiet_one; [exact H1|done].
Qed.

Lemma reads_quiet (fd : Z) (w w' : world W) (calls : list call) :
  log w' = log w ++ calls -> Forall (is_read fd) calls -> quiet w w'.
Proof using Type.
  intros Hl Hall. exists calls. split; [done|]. eapply Forall_impl; [exact Hall|].
  intros [c a] Hc. unfold is_read in Hc. cbn in Hc. by subst c.
Qed.

Lemma check_signals_run (fuel : nat) (signalled : bool) (w : world W) :
  runs (check_signals fuel cfg signalled) w (fun _ w' => quiet w w').
Proof using Type.
  unfold check_signals. destruct signalled; [|apply run_ret, quiet_refl].
  eapply run_bind; [apply read_pending_run|]. intros r w' (calls & Hl & Hall & _). apply run_ret.
  by eapply reads_quiet.
Qed.

Lemma check_signals_ends (pend : W -> nat) (limit fuel : nat) (signalled : bool) (w : world W) :
  finitely_pending pend limit -> (limit < fuel)%nat ->
  ends (check_signals fuel cfg signalled) w (fun _ w' => quiet w w').
Proof using Type.
  intros Hfin Hlim. unfold check_signals. destruct signalled; [|apply run_ret, quiet_refl].
  eapply run_bind.
  { apply (read_pending_ends pend fuel); [apply (fp_read _ _ Hfin)|].
    pose proof (fp_limit _ _ Hfin (kernel w)). lia. }
  intros r w' (calls & Hl & Hall & _). apply run_ret. by eapply reads_quiet.
Qed.

Definition pass_cost : Z := 1 + Z.of_nat MAX_BATCHES_PER_POLL * batch_cost.

(** Events that are in one message. *)
Definition one_message (buf : list ConntrackEvent) : Prop :=
  buf = [] \/ exists incl, fits t incl (zlen buf) = true.

Lemma holding_one_message (s : loop_state) (buf : list ConntrackEvent) : holding t s buf -> one_message buf.
Proof using Type.
  unfold holding. destruct (message_active s); [|by intros [_ ->]; left].
  intros (incl & [_ _ _ _ _ _ Hf _] & Ht & _). rewrite Ht in Hf. destruct Hf as [->|Hf]; [by left|]. right. by exists incl.
Qed.

Definition passed (w0 : world W) (s : loop_state)
    (step : flow loop_state (result worker_error loop_state)) (w' : world W) : Prop :=
  exists buf ms, template_first ms /\ advance t [] buf ms w0 w' /\
    match step with
    | Continue s' | Break (Ok s') =>
        loop_inv w0 s' w' buf ms /\ (forall n, roomy s (n + pass_cost) -> roomy s' n)
    | Break (Err _) => one_message buf
    end.

Lemma check_template_due_inv (w0 w : world W) (tm : Z) (s : loop_state) (buf : list ConntrackEvent)
    (ms : list (bool * list ConntrackEvent)) :
  loop_inv w0 s w buf ms -> loop_inv w0 (check_template_due cfg tm s) w buf ms.
Proof using Type.
  intros Hinv. unfold check_template_due. destruct (_ <=? _); [|done].
  eapply loop_inv_quiet; [exact Hinv|apply quiet_refl|done..| |done|done]. by destruct (li_timely _ _ _ _ _ Hinv).
Qed.

Lemma check_template_due_roomy (tm : Z) (s : loop_state) (n : Z) :
  roomy s n -> roomy (check_template_due cfg tm s) n.
Proof using Type. unfold check_template_due. by destruct (_ <=? _). Qed.

(** What a readable socket or a timeout leads to. *)
Lemma handle_poll_run (stuck : Prop) (w0 w : world W) (ready : bool) (s0 s : loop_state)
    (buf : list ConntrackEvent) (ms : list (bool * list ConntrackEvent)) :
  loop_inv w0 s w buf ms -> template_first ms ->
  roomy s (Z.of_nat MAX_BATCHES_PER_POLL * batch_cost) ->
  (forall n, roomy s0 (n + pass_cost) -> roomy s (n + Z.of_nat MAX_BATCHES_PER_POLL * batch_cost)) ->
  run stuck (handle_poll cfg ready s) w (passed w0 s0).
Proof using Hclock H64.
  intros Hinv Hf Hroom Hcost. pose proof Hinv as [Hh Ha _ [Hst Hss] Hb Hstats].
  assert (Hbc : 1 <= Z.of_nat MAX_BATCHES_PER_POLL * batch_cost) by (by vm_compute).
  unfold handle_poll. destruct ready; cbn [negb].
  - eapply run_bind; [apply (drain_run t stuck Hclock H64); [exact Hh|done|done]|].
    intros s' w' (buf' & ms' & Hh' & Ha' & Hr' & Hst' & Hb' & Hc'). apply run_ret.
    pose proof (advance_trans t _ _ _ _ _ _ _ _ Ha Ha') as Hadv.
    exists buf', (ms ++ ms'). split; [by apply template_first_app|]. split; [done|].
    split; [|intros n Hn; by apply Hr', Hcost]. split; try done.
    + left. by apply template_first_app.
    + split; [tauto|by rewrite (proj1 Hc')].
    + by eapply stats_counted.
  - destruct (message_active s) eqn:Hact.
    + unfold holding in Hh. rewrite Hact in Hh. destruct Hh as [incl Hm].
      assert (Hr1 : room (exp s) 1) by (destruct Hroom as [? _]; unfold room in *; lia).
      eapply run_bind; [apply (flush_message_run t stuck _ incl buf); done|].
      intros x w' Hfl. pose proof (flushed_stamped t Hclock _ _ _ _ _ _ Hfl Hst) as Hst'.
      destruct Hfl as (Hidle & Hr & _ & _ & ms' & Hp & _ & Htal). apply run_ret.
      pose proof (advance_trans t _ _ _ _ _ _ _ _ Ha (progress_advance t _ _ _ _ _ Hp)) as Hadv.
      exists [], (ms ++ ms'). split; [by apply template_first_app|]. split; [done|]. split.
      * split; try done; [left; by apply template_first_app|].
        eapply stats_counted; [exact Hstats|]. by eapply tallied_counted.
      * intros n Hn. destruct (Hcost n Hn) as (Hx & ? & ? & ? & ?).
        split; [apply Hr; unfold room in *; lia|cbn [truncated_msgs foreign_msgs set_active set_exp]; lia].
    + apply run_ret. exists buf, ms. split; [done|]. split; [done|]. split; [done|].
      intros n Hn. eapply roomy_less; [by apply Hcost|lia].
Qed.

(** Going on, or ending, with nothing done since. *)
Lemma passed_same (w0 w : world W) (s0 s : loop_state) (buf : list ConntrackEvent)
    (ms : list (bool * list ConntrackEvent)) :
  loop_inv w0 s w buf ms -> template_first ms -> (forall n, roomy s0 (n + pass_cost) -> roomy s n) ->
  passed w0 s0 (Continue s) w /\ passed w0 s0 (Break (Ok s)) w /\ forall e, passed w0 s0 (Break (Err e)) w.
Proof using Type.
  intros H' Hf Hr. pose proof (holding_one_message s buf (li_holding _ _ _ _ _ H')) as Hone.
  split_and!; [| |intros e]; exists buf, ms; (split; [done|]; split; [apply H'|done]).
Qed.

(** From the poll to the end of the pass. *)
Lemma after_poll_run (stuck : Prop) (fuel : nat) (polled : result io_error (bool * bool)) (w0 w : world W)
    (s0 s : loop_state) (buf : list ConntrackEvent) (ms : list (bool * list ConntrackEvent)) :
  (forall signalled, run stuck (check_signals fuel cfg signalled) w (fun _ w' => quiet w w')) ->
  loop_inv w0 s w buf ms -> template_first ms -> roomy s0 pass_cost ->
  (forall n, roomy s0 (n + pass_cost) -> roomy s (n + Z.of_nat MAX_BATCHES_PER_POLL * batch_cost)) ->
  run stuck (after_poll fuel cfg s polled) w (passed w0 s0).
Proof using Hclock H64.
  intros Hsig Hinv Hf Hroom Hcost.
  assert (Hbc : 1 <= Z.of_nat MAX_BATCHES_PER_POLL * batch_cost) by (by vm_compute).
  assert (Hkeep : forall w', quiet w w' -> loop_inv w0 s w' buf ms).
  { intros w' Hq. eapply loop_inv_quiet; try done. apply (li_timely _ _ _ _ _ Hinv). }
  assert (Hr : forall n, roomy s0 (n + pass_cost) -> roomy s n)
    by (intros n Hn; eapply roomy_less; [by apply Hcost|lia]).
  pose proof (fun w' Hq => passed_same w0 w' s0 s buf ms (Hkeep w' Hq) Hf Hr) as Hsame.
  unfold after_poll. destruct polled as [[ready signalled]|e].
  - eapply run_bind; [apply Hsig|]. intros go_on w1 Hq. destruct go_on as [[]|e]; [|apply run_ret, (Hsame w1 Hq)..].
    apply (handle_poll_run _ w0 w1 ready s0 s buf ms); [by apply Hkeep|done| |done].
    apply (Hcost 0). eapply roomy_less; [exact Hroom|lia].
  - destruct (Hsame w (quiet_refl w)) as (Hc & _ & He). destruct e; apply run_ret; auto.
Qed.

(** One pass, on a kernel on which checking the signals does not get stuck as long
    as [G], which every call keeps, holds. *)
Lemma worker_pass_run (stuck : Prop) (G : world W -> Prop) (fuel : nat) (w0 w : world W) (s : loop_state)
    (buf : list ConntrackEvent) (ms : list (bool * list ConntrackEvent)) :
  (forall c, keeps (carries G) (request c)) ->
  (forall signalled w', G w' -> run stuck (check_signals fuel cfg signalled) w' (fun _ w'' => quiet w' w'')) ->
  G w -> loop_inv w0 s w buf ms -> roomy s pass_cost -> run stuck (worker_pass fuel cfg s) w (passed w0 s).
Proof using Hclock H64 Hinterval.
  intros HG Hsig Gw Hinv Hroom. assert (Hpc : 1 <= pass_cost) by (by vm_compute). unfold worker_pass.
  eapply run_bind; [eapply (run_keeps (carries G)); [apply now_run|apply now_keeps; auto with typeclass_instances]|].
  intros tm w1 [[Htm Hq1] G1]. cbv zeta. set (s1 := check_template_due cfg tm s).
  assert (Hinv1 : loop_inv w0 s1 w1 buf ms).
  { apply check_template_due_inv. eapply loop_inv_quiet; try done. apply (li_timely _ _ _ _ _ Hinv). }
  eapply run_bind.
  { eapply (run_keeps (carries G)); [by apply (report_stats_run _ w0 w1 tm s1 buf ms)|].
    apply report_stats_keeps; auto with typeclass_instances. }
  intros s2 w2 [(Hinv2 & Hx2 & Ht2 & Hf2) G2].
  assert (Hr2 : forall n, roomy s n -> roomy s2 n).
  { intros n Hn. apply (check_template_due_roomy tm) in Hn. fold s1 in Hn. unfold roomy in *. by rewrite Hx2, Ht2, Hf2. }
  eapply run_bind.
  { eapply (run_keeps (carries G)); [apply (send_template_run _ w0 w2 s2 buf ms); [done|]|].
    - apply Hr2. eapply roomy_less; [exact Hroom|lia].
    - apply send_template_keeps; auto with typeclass_instances. }
  intros s3 w3 [(ms3 & Hinv3 & Hf3 & Hr3 & _) G3]. eapply run_bind.
  { eapply (run_keeps (carries G)); [apply poll_timeout_run, (li_timely _ _ _ _ _ Hinv3)|].
    apply poll_timeout_keeps; auto with typeclass_instances. }
  intros tmo w4 [(Hq4 & _) G4]. eapply run_bind.
  { eapply (run_keeps (carries G)); [apply poll_with_run|]. apply poll_keeps; auto with typeclass_instances. }
  intros polled w5 [Hq5 G5]. apply (after_poll_run stuck fuel polled w0 w5 s s3 buf ms3); try done.
  - intros signalled. apply Hsig, G5, G4, G3, G2, G1, Gw.
  - eapply loop_inv_quiet; try done; [by eapply quiet_trans|apply (li_timely _ _ _ _ _ Hinv3)].
  - intros n Hn. apply Hr3, Hr2. eapply roomy_less; [exact Hn|unfold pass_cost; lia].
Qed.

(** On any kernel, when the signals may take for ever. *)
Lemma worker_pass_runs (fuel : nat) (w0 w : world W) (s : loop_state) (buf : list ConntrackEvent)
    (ms : list (bool * list ConntrackEvent)) :
  loop_inv w0 s w buf ms -> roomy s pass_cost -> runs (worker_pass fuel cfg s) w (passed w0 s).
Proof using Hclock H64 Hinterval.
  intros Hi Hr. apply (worker_pass_run True (fun _ => True) fuel w0 w s buf ms); [done|intros; apply check_signals_run|done..].
Qed.

Lemma worker_pass_ends (pend : W -> nat) (limit fuel : nat) (w0 w : world W) (s : loop_state)
    (buf : list ConntrackEvent) (ms : list (bool * list ConntrackEvent)) :
  finitely_pending pend limit -> (limit < fuel)%nat -> loop_inv w0 s w buf ms -> roomy s pass_cost ->
  ends (worker_pass fuel cfg s) w (passed w0 s).
Proof using Hclock H64 Hinterval.
  intros Hfin Hlim Hi Hr. apply (worker_pass_run False (fun _ => True) fuel w0 w s buf ms); [done| |done..].
  intros. by eapply check_signals_ends.
Qed.

(** ** The loop *)

(** The states the loop goes through: [reachable n s w] after [n] passes. *)
Inductive reachable (fuel : nat) (s0 : loop_state) (w0 : world W) : nat -> loop_state -> world W -> Prop :=
  | reach_start : reachable fuel s0 w0 0 s0 w0
  | reach_pass n s w s' w' :
      reachable fuel s0 w0 n s w -> worker_pass fuel cfg s w = Done (Continue s', w') ->
      reachable fuel s0 w0 (S n) s' w'.

(** [n] passes of the loop, when none of them ends it. *)
Fixpoint pass_n (fuel n : nat) (s : loop_state) (w : world W) : option (loop_state * world W) :=
  match n with
  | O => Some (s, w)
  | S n' =>
      '(s1, w1) ← pass_n fuel n' s w;
      match worker_pass fuel cfg s1 w1 with
      | Done (Continue s2, w2) => Some (s2, w2)
      | _ => None
      end
  end.

Lemma pass_n_reachable (fuel n : nat) (s s' : loop_state) (w w' : world W) :
  pass_n fuel n s w = Some (s', w') -> reachable fuel s w n s' w'.
Proof using Type.
  revert s' w'. induction n as [|n IH]; intros s' w'; cbn [pass_n].
  - intros [= <- <-]. apply reach_start.
  - destruct (pass_n fuel n s w) as [[s1 w1]|]; [|done]. cbn [mbind option_bind].
    destruct (worker_pass fuel cfg s1 w1) as [[[s2|r] w2]| |] eqn:E; try done. intros [= <- <-].
    eapply reach_pass; [by apply IH|exact E].
Qed.

(** Nothing is counted or reported yet. *)
Definition fresh_counters (s : loop_state) : Prop :=
  send_errors (exp s) = 0 /\ saturated_counters (encoder (exp s)) = 0 /\
  truncated_msgs s = 0 /\ foreign_msgs s = 0 /\
  prev_send_errors (reported s) = 0 /\ prev_truncated_msgs (reported s) = 0 /\
  prev_foreign_msgs (reported s) = 0 /\ prev_saturated (reported s) = 0.

Lemma fresh_stats (s : loop_state) (w : world W) : fresh_counters s -> stats_inv w s w.
Proof using Type.
  intros (H1 & H2 & H3 & H4 & H5 & H6 & H7 & H8). exists []. rewrite app_nil_r, H1, H2, H3, H4, H5, H6, H7, H8.
  split; [done|]. split; [by split|]. split; [|done]. intros [|] ? ? ? ? ?; done.
Qed.

(** What [run_worker] enters its loop with. *)
Record initial (s : loop_state) : Prop := {
  in_idle : idle t (exp s);
  in_include : include_template (exp s) = true;
  in_active : message_active s = false;
  in_timely : timely s;
  in_batch : batch_ok RECV_BATCH_SIZE RECV_SLOT_SIZE (batch s);
  in_fresh : fresh_counters s
}.

Lemma initial_inv (s : loop_state) (w : world W) : initial s -> loop_inv w s w [] [].
Proof using Type.
  intros [Hi Hinc Hact Htm Hb Hfr]. split; try done.
  - unfold holding. by rewrite Hact.
  - apply progress_advance, progress_none.
  - by right.
  - by apply fresh_stats.
Qed.

Lemma reachable_inv (fuel n : nat) (s0 s : loop_state) (w0 w : world W) (budget : Z) :
  initial s0 -> roomy s0 (budget + Z.of_nat n * pass_cost) -> 0 <= budget ->
  reachable fuel s0 w0 n s w -> exists buf ms, loop_inv w0 s w buf ms /\ roomy s budget.
Proof using Hclock H64 Hinterval.
  intros Hi Hroom Hb Hr. assert (Hpc : 1 <= pass_cost) by (by vm_compute).
  revert budget Hb Hroom. induction Hr as [|n s w s' w' Hr IH Hpass]; intros budget Hb Hroom.
  - exists [], []. split; [by apply initial_inv|]. eapply roomy_less; [exact Hroom|lia].
  - destruct (IH (budget + pass_cost)) as (buf & ms & Hinv & Hbud); [lia| |].
    { eapply roomy_less; [exact Hroom|lia]. }
    assert (Hone : roomy s pass_cost) by (eapply roomy_less; [exact Hbud|lia]).
    pose proof (worker_pass_runs fuel w0 w s buf ms Hinv Hone) as Hrun.
    unfold run in Hrun. rewrite Hpass in Hrun. destruct Hrun as (buf' & ms' & _ & _ & Hinv' & Hr').
    exists buf', ms'. split; [done|]. by apply Hr'.
Qed.

(** What a collector would end up with that got every datagram handed to [send] in
    [calls]. *)
Definition collected_from (calls : list call) (evs : list ConntrackEvent) : Prop :=
  exists ts, collect (sent calls) = Done (ts, map (collected t) evs).

(** What [calls] did with the messages [ms]: one call of [send] for each, in order;
    those for which it failed are lost, and counted; a collector that gets the others
    ends up with exactly the records of those from the first template on, which are
    all records if no call failed.  Had none failed it would have all of them. *)
Record handed_over (calls : list call) (ms : list (bool * list ConntrackEvent)) : Prop := {
  ho_messages : Forall2 (message_of t) ms (sent calls);
  ho_lost : failures calls = zlen ms - zlen (pick (taken calls) ms);
  ho_collected : exists ts, collect (delivered calls) =
    Done (ts, map (collected t) (contents (from_template (pick (taken calls) ms))));
  ho_all : failures calls = 0 -> from_template (pick (taken calls) ms) = ms;
  ho_sent : collected_from calls (contents ms)
}.

Lemma advance_handed (w0 w : world W) (buf : list ConntrackEvent) (ms : list (bool * list ConntrackEvent)) :
  CollectorProps.readable t -> advance t [] buf ms w0 w -> template_first ms \/ ms = [] ->
  exists calls, log w = log w0 ++ calls /\ handed_over calls ms /\ contents ms ++ buf = events (packets calls).
Proof using Type.
  intros Hread (calls & Hl & Hms & He) Hf. exists calls. split; [done|]. split; [|done].
  pose proof (Forall2_length _ _ _ Hms) as Hlen. split; [done|by apply failures_pick| | |].
  - rewrite delivered_pick.
    by apply (collect_from_template t _ _ ∅ [] Hread (Forall2_pick _ (taken calls) _ _ Hms)).
  - intros H0. rewrite pick_no_failures by done. by apply from_template_first.
  - destruct (collect_messages_done t ms (sent calls) ∅ [] Hread Hms) as [ts Hts]; [by right|]. by exists ts.
Qed.

End Loop.

(** The assumptions under which the worker is studied: a 64-bit target, a
    monotonic clock below 2^62 seconds, and timers that stay below it. *)
Definition sane_clock (W : Type) {K : Kernel W} : Prop :=
  forall k : W, instant (k_call ClockNow k).1 < secs (2 ^ 62).

(** C5: the worker loses nothing and invents nothing.  In every state the event
    loop reaches, on any kernel, the NAT events of the kernel's datagrams received so
    far are, in order, those of the messages handed to [send] so far and after them those
    whose records the encoder's buffer holds (none if no message is open); of the
    messages handed to [send] a collector has the records of those for which the call
    succeeded, from the first template on, and the failed calls are counted; and the
    next pass does not panic.  The bound on the passes keeps the 64-bit error counters
    from overflowing. *)
Theorem worker_accounts_for_every_event {T : Target} {W : Type} {K : Kernel W} (p : Protocol)
    (pr : Profile) (width : CounterWidth) (id : Z) (t : Template) (cfg : config) (fuel n : nat)
    (s0 s : loop_state) (w0 w : world W) :
  pointer_width = 64 -> sane_clock W -> interval cfg <= secs (2 ^ 62) ->
  is_u16 id -> resolve p pr width id = Done (Ok t) ->
  initial t s0 -> roomy s0 (Z.of_nat (S n) * pass_cost) ->
  reachable cfg fuel s0 w0 n s w ->
  exists calls ms buf, log w = log w0 ++ calls /\ handed_over t calls ms /\
    contents ms ++ buf = events (packets calls) /\
    (if message_active s then exists incl, building (encoder (exp s)) incl buf else buf = []) /\
    send_errors (exp s) = failures calls /\
    forall why, worker_pass fuel cfg s w <> Panic why.
Proof.
  intros H64 Hclock Hint Hid Hres Hinit Hroom Hreach. assert (Hpc : 1 <= pass_cost) by (by vm_compute).
  destruct (resolve_ok _ _ _ _ _ Hid Hres) as [Ht Htok].
  assert (Hread : CollectorProps.readable t).
  { rewrite Ht. apply resolved_readable. pose proof (to_id _ Htok) as Hb. rewrite Ht in Hb. exact Hb. }
  destruct (reachable_inv t cfg H64 Hclock Hint fuel n s0 s w0 w pass_cost Hinit) as (buf & ms & Hinv & Hbud);
    [eapply roomy_less; [exact Hroom|lia]|lia|done|].
  pose proof Hinv as [Hh Ha Hf _ _ Hstats].
  destruct (advance_handed t w0 w buf ms Hread Ha) as (calls & Hl & Hc & He).
  { destruct Hf as [Hf|(-> & _)]; [by left|by right]. }
  exists calls, ms, buf. split; [done|]. split; [done|]. split; [done|]. split; [|split].
  - unfold holding in Hh. destruct (message_active s); [|apply Hh]. destruct Hh as (incl & Hb & _). by exists incl.
  - destruct Hstats as (calls' & Hl' & Hcount & _). rewrite Hl in Hl'. apply app_inv_head in Hl' as <-. apply Hcount.
  - intros why Hp. pose proof (worker_pass_runs t cfg H64 Hclock Hint fuel w0 w s buf ms Hinv Hbud) as Hrun.
    unfold run in Hrun. by rewrite Hp in Hrun.
Qed.

(** ** Shutdown *)

Section Shutdown.
Context {T : Target} {W : Type} {K : Kernel W} (t : Template) (cfg : config).
Context (H64 : pointer_width = 64) (Hclock : sane_clock W) (Hinterval : interval cfg <= secs (2 ^ 62)).

(** How the loop ends, before the flush, and how it stands after it. *)
Definition loop_ended (w : world W) (r : result worker_error loop_state) (w' : world W) : Prop :=
  exists buf ms, template_first ms /\ advance t [] buf ms w w' /\
    match r with Ok s' => loop_inv t w s' w' buf ms /\ roomy s' 1 | Err _ => one_message t buf end.

Definition shut_down (w : world W) (r : result worker_error loop_state) (w' : world W) : Prop :=
  exists buf ms, template_first ms /\ advance t [] buf ms w w' /\
    match r with Ok _ => buf = [] | Err _ => one_message t buf end.

Lemma event_loop_from (stuck : Prop) (fuel : nat) (s : loop_state) (w : world W) :
  run stuck (sys_loop fuel (worker_pass fuel cfg) s) w (loop_ended w) ->
  run stuck (event_loop fuel cfg s) w (shut_down w).
Proof using Hclock.
  intros Hloop. unfold event_loop. eapply run_bind; [exact Hloop|].
  intros [s1|e] w1 (buf & ms & Hf & Ha & Hend); [|apply run_ret; by exists buf, ms].
  destruct Hend as [[Hh _ _ [Hst _] _ _] Hr].
  apply (run_bind _ _ _ _ (fun _ w' => exists ms', template_first ms' /\ advance t [] [] ms' w w'));
    [|intros s2 w2 (ms2 & Hf2 & Ha2); apply run_ret; by exists [], ms2].
  unfold flush_at_shutdown. unfold holding in Hh. destruct (message_active s1) eqn:Hact.
  - destruct Hh as [incl Hm]. eapply run_bind; [apply (flush_message_run t stuck _ incl buf); [exact Hm|apply Hr]|].
    intros x w2 (_ & _ & _ & _ & ms2 & Hp & _). apply run_ret. exists (ms ++ ms2).
    split; [by apply template_first_app|].
    exact (advance_trans t _ _ _ _ _ _ _ _ Ha (progress_advance t _ _ _ _ _ Hp)).
  - destruct Hh as [_ ->]. apply run_ret. by exists ms.
Qed.

(** The invariant of the loop with [n] passes of fuel left, and one pass. *)
Definition loop_at (w0 : world W) (n : nat) (s : loop_state) (w : world W) : Prop :=
  exists buf ms, loop_inv t w0 s w buf ms /\ roomy s (1 + Z.of_nat n * pass_cost).

Lemma loop_at_start (n : nat) (s : loop_state) (w : world W) :
  initial t s -> roomy s (1 + Z.of_nat n * pass_cost) -> loop_at w n s w.
Proof using Type. intros Hi Hr. exists [], []. split; [by apply initial_inv|done]. Qed.

Lemma passed_on (n : nat) (s : loop_state) (w0 w' : world W)
    (step : flow loop_state (result worker_error loop_state)) :
  roomy s (1 + Z.of_nat (S n) * pass_cost) -> passed t w0 s step w' ->
  match step with Continue s' => loop_at w0 n s' w' | Break r => loop_ended w0 r w' end.
Proof using Type.
  intros Hr. assert (Hpc : 1 <= pass_cost) by (by vm_compute).
  destruct step as [s2|[s2|e]]; intros (buf2 & ms2 & Hf2 & Ha2 & Hst2); exists buf2, ms2.
  - destruct Hst2 as [Hinv2 Hr2]. split; [done|]. apply Hr2. eapply roomy_less; [exact Hr|lia].
  - destruct Hst2 as [Hinv2 Hr2]. split; [done|]. split; [done|]. split; [done|]. apply Hr2.
    eapply roomy_less; [exact Hr|lia].
  - done.
Qed.

Lemma event_loop_run (fuel : nat) (s : loop_state) (w : world W) :
  initial t s -> roomy s (1 + Z.of_nat fuel * pass_cost) ->
  runs (event_loop fuel cfg s) w (shut_down w).
Proof using H64 Hclock Hinterval.
  intros Hinit Hroom. assert (Hpc : 1 <= pass_cost) by (by vm_compute). apply event_loop_from.
  apply (runs_loop_budget _ (loop_at w)); [|by apply loop_at_start].
  intros n s1 w1 (buf & ms & Hinv & Hr).
  eapply run_conseq; [apply (worker_pass_runs t cfg H64 Hclock Hinterval fuel w w1 s1 buf ms Hinv)|].
  { eapply roomy_less; [exact Hr|lia]. }
  intros step w2. by apply passed_on.
Qed.

End Shutdown.

(** ** A run *)

(** Two sessions reported in one datagram, a forged datagram, then SIGTERM. *)
Definition demo_machine : machine :=
  {| queue := [(0, two_events (T := x86_64_debug)); (4711, two_events (T := x86_64_debug))];
     pending := [SIGTERM]; clock_ms := 1 |}.

Definition demo_world : world machine := {| kernel := demo_machine; log := [] |}.

Lemma demo_batch : exists b, ReceiveBatch_new (T := x86_64_debug) RECV_BATCH_SIZE RECV_SLOT_SIZE = Done b /\
  batch_ok RECV_BATCH_SIZE RECV_SLOT_SIZE b.
Proof.
  destruct (ReceiveBatch_new_done (T := x86_64_debug) RECV_BATCH_SIZE RECV_SLOT_SIZE) as (b & H & Hb & _);
    [by vm_compute..|]. exists b. exact (conj H Hb).
Qed.

Lemma demo_initial (b : ReceiveBatch) :
  batch_ok RECV_BATCH_SIZE RECV_SLOT_SIZE b -> initial demo_template (demo_state b).
Proof.
  intros Hb. split; [|reflexivity|reflexivity|by vm_compute|exact Hb|by vm_compute].
  split; [|reflexivity]. apply new_ok; [apply resolved_ok|]; by vm_compute.
Qed.

(** The run, evaluated: the template, then one message of two records. *)
Example demo_run_ends :
  match ReceiveBatch_new (T := x86_64_debug) RECV_BATCH_SIZE RECV_SLOT_SIZE with
  | Done b =>
      match event_loop (T := x86_64_debug) 5 demo_config (demo_state b) demo_world with
      | Done (Ok s, w) => map zlen (sent (log w)) = [88; 136] /\ foreign_msgs s = 1
      | _ => False
      end
  | _ => False
  end.
Proof. vm_compute. split; reflexivity. Qed.

Lemma machine_clock_sane : sane_clock machine.
Proof.
  intros [q ps c]. change ((c mod 2 ^ 40) * 10 ^ 6 < secs (2 ^ 62)).
  pose proof (Z.mod_pos_bound c (2 ^ 40) ltac:(done)). unfold secs. lia.
Qed.

Lemma demo_roomy (b : ReceiveBatch) : roomy (demo_state b) (2 ^ 40).
Proof.
  unfold roomy, room, demo_state. cbn [exp send_errors encoder truncated_msgs foreign_msgs saturated_counters new].
  unfold u64_max. lia.
Qed.

(** The first pass sends the template and leaves a message of two records open. *)
Lemma first_pass_buffers :
  match ReceiveBatch_new (T := x86_64_debug) RECV_BATCH_SIZE RECV_SLOT_SIZE with
  | Done b => match pass_n (T := x86_64_debug) demo_config 5 1 (demo_state b) demo_world with
              | Some (s, w) => message_active s && (record_count (encoder (exp s)) =? 2)
              | None => false
              end
  | _ => false
  end = true.
Proof. vm_compute. reflexivity. Qed.

Lemma worker_accounts_for_every_event_witness :
  exists b s w calls ms buf, ReceiveBatch_new (T := x86_64_debug) RECV_BATCH_SIZE RECV_SLOT_SIZE = Done b /\
    pass_n (T := x86_64_debug) demo_config 5 1 (demo_state b) demo_world = Some (s, w) /\
    log w = calls /\ handed_over demo_template calls ms /\
    contents ms ++ buf = events (T := x86_64_debug) (packets calls) /\ zlen buf = 2 /\
    send_errors (exp s) = failures calls /\
    forall why, worker_pass (T := x86_64_debug) 5 demo_config s w <> Panic why.
Proof.
  pose proof first_pass_buffers as H. destruct demo_batch as (b & Hnew & Hb). rewrite Hnew in H.
  destruct (pass_n (T := x86_64_debug) demo_config 5 1 (demo_state b) demo_world) as [[s w]|] eqn:Hp; [|discriminate H].
  apply andb_true_iff in H as [Hact Hcount].
  destruct (@worker_accounts_for_every_event x86_64_debug machine machine_kernel Ipfix Full Eight 256
              demo_template demo_config 5 1 (demo_state b) s demo_world w)
    as (calls & ms & buf & Hl & Hc & He & Hbuf & Hsend & Hpanic).
  - reflexivity.
  - apply machine_clock_sane.
  - vm_compute. discriminate.
  - closed_bounds.
  - vm_compute. reflexivity.
  - apply demo_initial, Hb.
  - eapply roomy_less; [apply demo_roomy|vm_compute; discriminate].
  - apply pass_n_reachable, Hp.
  - rewrite Hact in Hbuf. destruct Hbuf as [incl Hbuild]. exists b, s, w, calls, ms, buf.
    split; [exact Hnew|]. split; [exact Hp|]. split; [exact Hl|]. split; [exact Hc|]. split; [exact He|].
    split; [|exact (conj Hsend Hpanic)].
    rewrite <- (bd_count _ _ _ Hbuild). apply Z.eqb_eq, Hcount.
Defined.
