(* ===== verification/WorkerRefines.v ===== *)
(** * The worker implements the exporter

    A forward simulation between the worker's event loop and the machine of
    [ExporterSpec]: every operation of the worker, with the system calls it makes,
    is a run of that machine with the clock readings, the events and the datagrams
    of those calls as its labels.  What the machine guarantees holds of the worker:
    the messages it sends are numbered without a gap, and they hold every event. *)

From stdpp Require Import base list numbers strings.
From Stdlib Require Import ZArith Lia.
From S2P Require Import Prelude Constants Elements Event Parser ParserSpec NetlinkProps Template Record Encoder EncoderSpec EncoderProps Collector CollectorProps ExporterSpec System Machine Socket Signals Worker WorkerLog WorkerFrame WorkerProps.
Import Exporter.
Local Open Scope Z_scope.

(** ** The trace of a log *)

Section Trace.
Context {T : Target}.

Definition observed (c : call) : list label :=
  match c with
  | existT ClockNow clock => [Reads clock]
  | existT (Recvmmsg _ _) (Ok ps) => [Receives (events ps)]
  | existT (UdpSend d) _ => [Sends d]
  | _ => []
  end.

Definition trace (calls : list call) : list label := labels_of observed calls.

Lemma trace_app (l1 l2 : list call) : trace (l1 ++ l2) = trace l1 ++ trace l2.
Proof. apply labels_app. Qed.

Lemma trace_datagrams (calls : list call) : datagrams (trace calls) = sent calls.
Proof.
  induction calls as [|c calls IH]; [done|]. change (c :: calls) with ([c] ++ calls).
  rewrite trace_app, datagrams_app, IH, sent_app. f_equal. destruct c as [[] a]; try done; by destruct a.
Qed.

Lemma trace_received (calls : list call) : received (trace calls) = events (packets calls).
Proof.
  induction calls as [|c calls IH]; [done|]. change (c :: calls) with ([c] ++ calls).
  rewrite trace_app, received_app, IH, packets_app, events_app. f_equal.
  destruct c as [[] a]; try done. destruct a; [|done]. unfold packets, received. cbn. by rewrite !app_nil_r.
Qed.

(** Calls that the exporter's machine does not see. *)
Definition unseen : call -> Prop := hidden observed.

End Trace.

(** ** The simulation relation *)

Section Refines.
Context {T : Target} {W : Type} {K : Kernel W}.
Context (p : Setup).

Abbreviation t := (layout p).

(** The exporter [x], with the message [held] open and the events [q] of the batch
    still to come, is the machine's state [s]. *)
Record represents (x : exporter) (m : option (bool * list ConntrackEvent)) (q : list ConntrackEvent) (s : State) : Prop := {
  rp_template : template (encoder x) = t;
  rp_domain : observation_domain_id (encoder x) = domain p;
  rp_epoch : started (encoder x) = epoch p;
  rp_sequence : sequence_number (encoder x) = sequence s;
  rp_due : include_template x = due s;
  rp_time : last_template_time x = template_at s;
  rp_message : message s = m;
  rp_queue : queue s = q;
  rp_built : match m with
             | Some (incl, evs) => building (encoder x) incl evs /\ Forall event_ok evs
             | None => encoder_ok (encoder x)
             end
}.

(** The calls between two worlds are a run of the machine. *)
Definition simulated : State -> world W -> State -> world W -> Prop := simulates (step p) observed.

Lemma simulated_unseen (s : State) (w w' : world W) : extends unseen w w' -> simulated s w s w'.
Proof. intros (c & L & F). by eapply simulates_hidden. Qed.

Lemma represents_making (x : exporter) (incl : bool) (evs q : list ConntrackEvent) (s : State) :
  represents x (Some (incl, evs)) q s -> making t x incl evs.
Proof. intros [Ht _ _ _ _ _ _ _ [Hb He]]. by split_and!. Qed.

Lemma represents_idle (x : exporter) (q : list ConntrackEvent) (s : State) : represents x None q s -> idle t x.
Proof. intros [Ht _ _ _ _ _ _ _ Hb]. by split. Qed.

(** ** Flushing *)

Lemma reads_clock (x : exporter) (m : option (bool * list ConntrackEvent)) (q : list ConntrackEvent) (s : State)
    (c : Clock) (w w' : world W) :
  represents x m q s -> log w' = log w ++ [called ClockNow c] ->
  simulated s w (with_clock s c) w' /\ represents x m q (with_clock s c).
Proof.
  intros [] L. split; [|by split]. eapply simulates_call; [exact L|]. apply reads.
Qed.

(** Settling the template's schedule. *)
Lemma settle_schedule_simulated (x x1 : exporter) (incl : bool) (evs q : list ConntrackEvent) (s : State) (w w1 : world W) :
  represents x (Some (incl, evs)) q s -> settle_schedule x w = Done (x1, w1) ->
  exists s1, simulated s w s1 w1 /\ represents x (Some (incl, evs)) q s1 /\ encoder x1 = encoder x /\
    include_template x1 = (if incl then false else due s1) /\
    last_template_time x1 = (if incl then instant (clock s1) else template_at s1).
Proof.
  intros Hrep H. pose proof Hrep as [_ _ _ _ _ _ _ _ [Hb _]]. unfold settle_schedule in H. rewrite (bd_incl _ _ _ Hb) in H.
  destruct incl.
  - apply sys_bind_inv in H as (tm & w2 & H2 & H). apply now_inv in H2 as (c & -> & L). injection H as <- <-.
    destruct (reads_clock _ _ _ _ c _ _ Hrep L) as [Hs Hr]. by exists (with_clock s c).
  - injection H as <- <-. exists s. split; [apply simulates_refl|]. split; [done|]. split; [done|].
    split; [apply (rp_due _ _ _ _ Hrep)|apply (rp_time _ _ _ _ Hrep)].
Qed.

(** A message is flushed when nothing waits or when it is full. *)
Lemma flush_message_simulated (x x' : exporter) (incl : bool) (evs q : list ConntrackEvent) (s : State) (w w' : world W) :
  represents x (Some (incl, evs)) q s -> q = [] \/ fits t incl (zlen evs + 1) = false ->
  flush_message x w = Done (x', w') ->
  exists s', simulated s w s' w' /\ represents x' None q s'.
Proof.
  intros Hrep Hwhen H. pose proof Hrep as [Ht _ _ _ _ _ Hm Hq [Hb _]]. unfold flush_message in H.
  rewrite (has_pending_building _ _ _ Hb) in H.
  destruct (incl || negb (bool_decide (evs = []))) eqn:Hpend; cbn [negb] in H.
  2: { apply orb_false_iff in Hpend as [-> Hnil]. apply negb_false_iff, bool_decide_eq_true in Hnil as ->.
       injection H as <- <-. pose proof (bd_ok _ _ _ Hb) as Hok. pose proof (eo_template _ Hok) as Htok. rewrite Ht in Htok.
       pose proof (capacity_bounds t false Htok) as Hcap. destruct Hwhen as [->|Hfull].
       - exists (with_queue s [] None). split; [apply simulates_silent; by apply drops|]. destruct Hrep. by split.
       - rewrite fits_capacity in Hfull by done. apply Z.leb_gt in Hfull. change (zlen []) with 0 in Hfull. lia. }
  apply sys_bind_inv in H as (x1 & w1 & H1 & H). unfold send_message in H.
  destruct (settle_schedule_simulated _ _ _ _ _ _ _ _ Hrep H1) as (s1 & Hs1 & Hr1 & He1 & Hi1 & Ht1).
  apply sys_bind_inv in H as (c & w2 & H2 & H). apply (request_inv ClockNow c) in H2.
  destruct (reads_clock _ _ _ _ c _ _ Hr1 H2) as [Hs2 Hr2].
  destruct (finalize_done (encoder x) incl evs c Hb) as (e' & Hfin & Hok' & Ht' & Hd' & Hst' & Hq' & _).
  rewrite He1, Hfin, lift_done_bind in H. cbv beta iota in H.
  apply sys_bind_inv in H as (a & w3 & H3 & H). apply (request_inv (UdpSend _) a) in H3.
  assert (Hx : w' = w3 /\ encoder x' = e' /\ include_template x' = include_template x1 /\
               last_template_time x' = last_template_time x1).
  { destruct a as [n|e]; [by injection H as <- <-|]. apply sys_bind_inv in H as (n & w4 & H4 & H).
    apply lift_inv in H4 as [_ ->]. by injection H as <- <-. }
  destruct Hx as (-> & Hxe & Hxi & Hxt). pose proof Hr2 as [_ Hd Hep Hsq Hdu Htm Hms Hqu _].
  exists (after_sending p (with_clock s1 c) incl evs). split.
  - eapply simulates_trans; [exact Hs1|]. eapply simulates_trans; [exact Hs2|]. eapply simulates_call; [exact H3|].
    replace (header_of (encoder x) c) with (header p (with_clock s1 c))
      by (unfold header, header_of; by rewrite Hsq, Hd, Hep). rewrite Ht.
    apply sends; [done| |by rewrite Hqu].
    apply orb_true_iff in Hpend as [->|Hne]; [by left|]. right. by apply negb_true_iff, bool_decide_eq_false in Hne.
  - split; rewrite ?Hxe, ?Hxi, ?Hxt; try congruence.
    + rewrite Hq', Hsq, Ht. done.
    + rewrite Hi1. by destruct incl.
    + rewrite Ht1. by destruct incl.
    + done.
    + exact Hqu.
Qed.

(** ** Events *)

Lemma append_simulated (x : exporter) (incl : bool) (evs q : list ConntrackEvent) (ev : ConntrackEvent) (s : State)
    (w : world W) :
  represents x (Some (incl, evs)) (ev :: q) s -> event_ok ev -> room x 1 -> fits t incl (zlen evs + 1) = true ->
  exists e' s', add_record (encoder x) ev = Done (e', true) /\ simulated s w s' w /\
    represents (set_encoder x e') (Some (incl, evs ++ [ev])) q s'.
Proof.
  intros [Ht Hd He Hs Hdu Htm Hm Hq [Hb Hev]] Hok (_ & _ & Hroom) Hfits. pose proof (bd_ok _ _ _ Hb) as Henc.
  pose proof (to_count _ (eo_template _ Henc)) as Hc. pose proof Hfits as Hf. rewrite <- Ht in Hf.
  destruct (append_record_done (encoder x) incl evs ev Hb Hf) as (e' & Happ & Hb' & (Ht' & Hd' & Hs' & He') & _); [lia|].
  exists e', (with_queue s q (Some (incl, evs ++ [ev]))).
  split; [by rewrite (add_record_check _ incl evs), Hf, Happ by done|]. split.
  - apply simulates_silent. by eapply takes.
  - split; cbn; try congruence. split; [done|]. apply Forall_app. split; [done|by constructor].
Qed.

(** A message is begun, with the template if it is due. *)
Lemma begin_simulated (x : exporter) (q : list ConntrackEvent) (s : State) (w : world W) :
  represents x None q s ->
  exists e' s', begin_message (encoder x) (include_template x) = Done e' /\ simulated s w s' w /\
    saturated_counters e' = saturated_counters (encoder x) /\
    represents (set_encoder x e') (Some (include_template x, [])) q s'.
Proof.
  intros [Ht Hd He Hs Hdu Htm Hm Hq Hok].
  destruct (begin_message_done _ (include_template x) Hok) as (e' & Hbeg & Hb & (Ht' & Hd' & Hs' & He') & Hsat).
  exists e', (with_queue s (queue s) (Some (due s, []))). split; [done|]. split; [apply simulates_silent; by apply opens|].
  split; [done|]. rewrite Hdu in *. split; cbn; try congruence. done.
Qed.

Context (Hclock : sane_clock W).

Lemma handle_event_simulated (x x' : exporter) (incl : bool) (evs q : list ConntrackEvent) (ev : ConntrackEvent)
    (s : State) (w w' : world W) :
  represents x (Some (incl, evs)) (ev :: q) s -> event_ok ev -> room x 2 -> handle_event x ev w = Done (x', w') ->
  exists incl' evs' s', simulated s w s' w' /\ represents x' (Some (incl', evs')) q s'.
Proof.
  intros Hrep Hok Hroom H. assert (Hroom1 : room x 1) by (unfold room in *; lia).
  pose proof Hrep as [Ht _ _ _ _ _ _ _ [Hb _]]. unfold handle_event in H. destruct (fits t incl (zlen evs + 1)) eqn:Hf.
  - destruct (append_simulated _ _ _ _ _ _ w Hrep Hok Hroom1 Hf) as (e' & s' & Hadd & Hs & Hr).
    rewrite Hadd, lift_done_bind in H. injection H as <- <-. by exists incl, (evs ++ [ev]), s'.
  - rewrite (add_record_check _ incl evs), Ht, Hf, lift_done_bind in H by done. cbv beta iota in H.
    replace (set_encoder x (encoder x)) with x in H by (by destruct x).
    apply sys_bind_inv in H as (x1 & w1 & H1 & H).
    pose proof (flush_message_run t True x incl evs w (represents_making _ _ _ _ _ Hrep) Hroom1) as Hrun.
    unfold run in Hrun. rewrite H1 in Hrun. destruct Hrun as (_ & Hr1 & _).
    destruct (flush_message_simulated _ _ _ _ _ _ _ _ Hrep (or_intror Hf) H1) as (s1 & Hs1 & Hrep1).
    destruct (begin_simulated _ _ _ w1 Hrep1) as (e2 & s2 & Hbeg & Hs2 & Hsat & Hrep2).
    rewrite Hbeg, lift_done_bind in H.
    assert (Hroom2 : room (set_encoder x1 e2) 1)
      by (unfold room; cbn [send_errors encoder set_encoder]; rewrite Hsat; apply Hr1; unfold room in *; lia).
    pose proof (eo_template _ (bd_ok _ _ _ Hb)) as Htok. rewrite Ht in Htok.
    destruct (append_simulated _ _ _ _ _ _ w1 Hrep2 Hok Hroom2) as (e3 & s3 & Hadd & Hs3 & Hrep3).
    { rewrite fits_capacity by done. apply Z.leb_le. pose proof (capacity_bounds t (include_template x1) Htok).
      change (zlen []) with 0. lia. }
    cbn [encoder set_encoder] in Hadd. rewrite Hadd, lift_done_bind in H. injection H as <- <-.
    exists (include_template x1), ([] ++ [ev]), s3. split; [|exact Hrep3].
    eapply simulates_trans; [exact Hs1|]. by eapply simulates_trans.
Qed.

Lemma handle_events_simulated (es : list ConntrackEvent) (x x' : exporter) (incl : bool) (evs q : list ConntrackEvent)
    (s : State) (w w' : world W) :
  represents x (Some (incl, evs)) (es ++ q) s -> Forall event_ok es -> room x (2 * zlen es) ->
  foldM (fun st ev => handle_event st.1 ev st.2) (x, w) es = Done (x', w') ->
  exists incl' evs' s', simulated s w s' w' /\ represents x' (Some (incl', evs')) q s'.
Proof.
  intros Hrep Hes. revert x incl evs s w Hrep. induction Hes as [|ev es Hev Hes IH]; intros x incl evs s w Hrep Hroom H.
  { injection H as <- <-. exists incl, evs, s. split; [apply simulates_refl|done]. }
  rewrite zlen_cons in Hroom. pose proof (zlen_nonneg es). assert (Hroom2 : room x 2) by (unfold room in *; lia).
  cbn [foldM fst snd] in H. apply bind_inv in H as ([x1 w1] & H1 & H).
  destruct (handle_event_simulated _ _ _ _ _ _ _ _ _ Hrep Hev Hroom2 H1) as (incl1 & evs1 & s1 & Hs1 & Hrep1).
  pose proof (handle_event_run t True Hclock x incl evs ev w (represents_making _ _ _ _ _ Hrep) Hev Hroom2) as Hrun.
  unfold run in Hrun. rewrite H1 in Hrun. destruct Hrun as (_ & _ & _ & _ & _ & Hr1 & _). change (zlen [ev]) with 1 in Hr1.
  destruct (IH x1 incl1 evs1 s1 w1 Hrep1) as (incl2 & evs2 & s2 & Hs2 & Hrep2); [apply Hr1; unfold room in *; lia|done|].
  exists incl2, evs2, s2. split; [by eapply simulates_trans|done].
Qed.

(** ** Datagrams *)

(** The loop's state [ls], with the events [q] of the batch still to come, is [s]. *)
Definition mirrors (ls : loop_state) (q : list ConntrackEvent) (s : State) : Prop :=
  exists m, represents (exp ls) m q s /\ message_active ls = match m with Some _ => true | None => false end.

Lemma mirrors_holding (ls : loop_state) (q : list ConntrackEvent) (s : State) :
  mirrors ls q s -> exists buf, holding t ls buf.
Proof.
  intros ([[incl evs]|] & Hr & Ha); unfold holding; rewrite Ha.
  - exists evs, incl. by eapply represents_making.
  - exists []. split; [by eapply represents_idle|done].
Qed.

(** A state that differs only in its counts, its batch or its report. *)
Lemma mirrors_same (ls ls' : loop_state) (q : list ConntrackEvent) (s : State) :
  mirrors ls q s -> exp ls' = exp ls -> message_active ls' = message_active ls -> mirrors ls' q s.
Proof. intros (m & Hr & Ha) He Hm. exists m. by rewrite He, Hm. Qed.

(** The message a datagram's events go into is begun if need be. *)
Lemma ensure_active_simulated (ls ls' : loop_state) (q : list ConntrackEvent) (s : State) (w w' : world W) :
  mirrors ls q s ->
  (if negb (message_active ls) then
     e ← lift (begin_message (encoder (exp ls)) (include_template (exp ls)));
     mret (set_active (set_exp ls (set_encoder (exp ls) e)) true)
   else mret ls) w = Done (ls', w') ->
  w' = w /\ message_active ls' = true /\ send_errors (exp ls') = send_errors (exp ls) /\
  saturated_counters (encoder (exp ls')) = saturated_counters (encoder (exp ls)) /\
  exists incl evs s', simulated s w s' w /\ represents (exp ls') (Some (incl, evs)) q s'.
Proof.
  intros ([[incl evs]|] & Hr & Ha) H; rewrite Ha in H; cbn [negb] in H.
  - injection H as <- <-. split_and!; try done. exists incl, evs, s. split; [apply simulates_refl|done].
  - destruct (begin_simulated _ _ _ w Hr) as (e & s' & Hbeg & Hs & Hsat & Hr').
    rewrite Hbeg, lift_done_bind in H. injection H as <- <-. split_and!; try done. by exists (include_template (exp ls)), [], s'.
Qed.

Context (H64 : pointer_width = 64).

Lemma handle_datagram_simulated (ls ls' : loop_state) (i : Z) (pkt : packet) (q : list ConntrackEvent) (s : State)
    (w w' : world W) :
  mirrors ls (events_of pkt ++ q) s -> batch_ok RECV_BATCH_SIZE RECV_SLOT_SIZE (batch ls) ->
  0 <= i < RECV_BATCH_SIZE -> i < filled (batch ls) -> slot_holds (batch ls) i pkt -> packet_ok pkt ->
  roomy ls packet_cost -> handle_datagram ls i w = Done (ls', w') ->
  exists s', simulated s w s' w' /\ mirrors ls' q s'.
Proof.
  intros Hmir Hb Hi Hf Hslot Hp Hroom H. unfold handle_datagram in H.
  rewrite (datagram_done RECV_BATCH_SIZE RECV_SLOT_SIZE (batch ls) i pkt), lift_done_bind in H; try done.
  2: { unfold isize_max. rewrite H64. by apply Z.leb_le. }
  cbv beta iota in H. cbn [sender_portid len datagram_len] in H. unfold events_of in Hmir.
  destruct (pkt.1 =? 0); cbn [negb] in H.
  2: { apply sys_bind_inv in H as (n & w1 & H1 & H). apply lift_inv in H1 as [_ ->]. injection H as <- <-.
       exists s. split; [apply simulates_refl|]. by eapply mirrors_same. }
  apply sys_bind_inv in H as (ls1 & w1 & H1 & H).
  assert (Hc : w1 = w /\ exp ls1 = exp ls /\ message_active ls1 = message_active ls).
  { destruct (_ <? _); [|by injection H1 as <- <-]. apply sys_bind_inv in H1 as (n & w2 & H2 & H1).
    apply lift_inv in H2 as [_ ->]. by injection H1 as <- <-. }
  destruct Hc as (-> & He & Ha). set (data := take (Z.to_nat RECV_SLOT_SIZE) pkt.2) in *.
  destruct (Z.eqb_spec (Z.min (zlen pkt.2) RECV_SLOT_SIZE) 0) as [Hz|Hz].
  { injection H as <- <-. exists s. split; [apply simulates_refl|].
    assert (Hnil : data = []).
    { unfold data. destruct pkt.2; [done|]. rewrite zlen_cons in Hz. pose proof (zlen_nonneg l). unfold RECV_SLOT_SIZE in Hz. lia. }
    rewrite Hnil in Hmir. unfold conntrack_events in Hmir. rewrite nl_messages_eq in Hmir. by eapply mirrors_same. }
  apply sys_bind_inv in H as (ls2 & w2 & H2 & H).
  apply (ensure_active_simulated _ _ (conntrack_events data ++ q) s) in H2
    as (-> & Hact & Hse & Hsat & incl & evs & s2 & Hs2 & Hr2); [|by eapply mirrors_same].
  apply sys_bind_inv in H as (x & w3 & H3 & H). injection H as <- <-.
  pose proof (slot_input_ok pkt Hp) as Hin. fold data in Hin. unfold parse_into in H3. rewrite parse_messages_done in H3 by done.
  pose proof (conntrack_events_length data). pose proof (zlen_slot pkt) as Hlen. fold data in Hlen.
  pose proof (zlen_nonneg (conntrack_events data)).
  apply (handle_events_simulated _ _ _ incl evs q s2) in H3 as (incl' & evs' & s3 & Hs3 & Hr3); [|done|by apply conntrack_events_ok|].
  - exists s3. split; [by eapply simulates_trans|]. by exists (Some (incl', evs')).
  - unfold packet_cost in Hroom. destruct Hroom as [(?&?&?) _]. unfold room. rewrite Hse, Hsat, He. lia.
Qed.

Lemma handle_datagrams_simulated (ps : list packet) (ls ls' : loop_state) (i : Z) (s : State) (w w' : world W) :
  mirrors ls (events ps) s -> batch_ok RECV_BATCH_SIZE RECV_SLOT_SIZE (batch ls) -> 0 <= i ->
  i + zlen ps <= filled (batch ls) -> filled (batch ls) <= RECV_BATCH_SIZE ->
  (forall j q, ps !! j = Some q -> slot_holds (batch ls) (i + Z.of_nat j) q) -> Forall packet_ok ps ->
  roomy ls (zlen ps * packet_cost) ->
  sys_foldM handle_datagram ls (seqZ i (zlen ps)) w = Done (ls', w') ->
  exists s', simulated s w s' w' /\ mirrors ls' [] s'.
Proof.
  revert ls i s w. induction ps as [|pkt ps IH]; intros ls i s w Hmir Hb Hi Hf Hf' Hslots Hps Hroom H.
  { injection H as <- <-. exists s. split; [apply simulates_refl|done]. }
  apply Forall_cons_1 in Hps as [Hp Hps]. rewrite seqZ_zlen_cons in H. rewrite zlen_cons in *. pose proof (zlen_nonneg ps).
  assert (Hcost : 0 < packet_cost) by done. cbn [sys_foldM] in H. apply sys_bind_inv in H as (ls1 & w1 & H1 & H).
  assert (Hroom1 : roomy ls packet_cost) by (eapply roomy_less; [exact Hroom|nia]).
  assert (Hslot : slot_holds (batch ls) i pkt) by (specialize (Hslots 0%nat pkt eq_refl); by rewrite Z.add_0_r in Hslots).
  destruct (mirrors_holding _ _ _ Hmir) as [buf Hh].
  pose proof (handle_datagram_run t True Hclock H64 ls buf i pkt w Hh Hb ltac:(lia) ltac:(lia) Hslot Hp Hroom1) as Hrun.
  unfold run in Hrun. rewrite H1 in Hrun. destruct Hrun as (_ & _ & _ & _ & Hr1 & _ & Hb1 & _).
  apply (handle_datagram_simulated _ _ _ pkt (events ps) s) in H1 as (s1 & Hs1 & Hmir1); try done; try lia.
  apply (IH ls1 (i + 1) s1) in H as (s2 & Hs2 & Hmir2); rewrite ?Hb1; try done; try lia.
  - exists s2. split; [by eapply simulates_trans|done].
  - intros j q Hq. specialize (Hslots (S j) q Hq). by replace (i + 1 + Z.of_nat j) with (i + Z.of_nat (S j)) by lia.
  - apply Hr1. eapply roomy_less; [exact Hroom|lia].
Qed.

Lemma receives_batch (ls : loop_state) (s : State) (fd n : Z) (ps : list packet) (w w' : world W) :
  mirrors ls [] s -> log w' = log w ++ [called (Recvmmsg fd n) (Ok ps)] ->
  exists s', simulated s w s' w' /\ mirrors ls (events ps) s'.
Proof.
  intros (m & [] & Ha) L. exists (with_queue s (events ps) (message s)). split.
  - eapply simulates_call; [exact L|]. by apply receives.
  - exists m. split; [by split|done].
Qed.

Lemma drain_simulated (passes : nat) (fd : Z) (ls ls' : loop_state) (s : State) (w w' : world W) :
  mirrors ls [] s -> batch_ok RECV_BATCH_SIZE RECV_SLOT_SIZE (batch ls) -> roomy ls (Z.of_nat passes * batch_cost) ->
  drain passes fd ls w = Done (ls', w') -> exists s', simulated s w s' w' /\ mirrors ls' [] s'.
Proof.
  assert (Hbc : 0 < batch_cost) by done.
  revert ls s w. induction passes as [|passes IH]; intros ls s w Hmir Hb Hroom H.
  { injection H as <- <-. exists s. split; [apply simulates_refl|done]. }
  cbn [drain] in H. apply sys_bind_inv in H as ([r b] & w1 & H1 & H). cbv zeta in H.
  pose proof (recv_batch_ends True fd RECV_BATCH_SIZE RECV_SLOT_SIZE (batch ls) w Hb) as Hrun.
  unfold run in Hrun. rewrite H1 in Hrun. destruct Hrun as (Hb1 & a & _ & Hl1 & Ha). destruct a as [ps|e].
  2: { destruct Ha as [-> _]. injection H as <- <-. exists s. split; [|by eapply mirrors_same].
       apply simulated_unseen. eexists. split; [exact Hl1|]. by repeat constructor. }
  destruct Ha as (-> & Hfill & Hle & Hps & Hslots). pose proof (zlen_nonneg ps).
  destruct (receives_batch _ _ _ _ _ _ _ Hmir Hl1) as (s1 & Hs1 & Hmir1).
  destruct (Z.eqb_spec (zlen ps) 0) as [Hz|Hz].
  { injection H as <- <-. exists s1. split; [done|]. destruct ps; [by eapply mirrors_same|].
    rewrite zlen_cons in Hz. pose proof (zlen_nonneg ps). lia. }
  assert (Hpc : zlen ps * packet_cost <= batch_cost) by (unfold batch_cost; assert (0 < packet_cost) by done; nia).
  apply sys_bind_inv in H as (ls2 & w2 & H2 & H).
  assert (Hmir1' : mirrors (set_batch ls b) (events ps) s1) by (by eapply mirrors_same).
  assert (Hroom1 : roomy (set_batch ls b) (zlen ps * packet_cost))
    by (change (roomy ls (zlen ps * packet_cost)); eapply roomy_less; [exact Hroom|lia]).
  destruct (mirrors_holding _ _ _ Hmir1') as [buf Hh].
  pose proof (handle_datagrams_run t True Hclock H64 ps (set_batch ls b) buf 0 w1 Hh) as Hrun.
  unfold run in Hrun. rewrite H2 in Hrun. cbn [batch set_batch] in Hrun.
  destruct Hrun as (_ & _ & _ & _ & Hr2 & _ & Hb2 & _); try done; try lia. cbn [batch set_batch] in Hb2.
  apply (handle_datagrams_simulated ps _ _ 0 s1) in H2 as (s2 & Hs2 & Hmir2); try done; cbn [batch set_batch]; try lia.
  assert (Hs : simulated s w s2 w2) by (by eapply simulates_trans).
  destruct (zlen ps <? Socket.capacity (batch ls2)); [injection H as <- <-; by exists s2|].
  apply (IH ls2 s2) in H as (s3 & Hs3 & Hmir3); [exists s3; split; [by eapply simulates_trans|done]|done|by rewrite Hb2|].
  apply Hr2. change (roomy ls (Z.of_nat passes * batch_cost + zlen ps * packet_cost)). eapply roomy_less; [exact Hroom|lia].
Qed.

(** ** A pass of the loop *)

Context (cfg : config) (Hperiod : period p = interval cfg).

Lemma check_template_due_simulated (ls : loop_state) (c : Clock) (s : State) (w : world W) :
  mirrors ls [] s -> clock s = c ->
  exists s', simulated s w s' w /\ mirrors (check_template_due cfg (instant c) ls) [] s'.
Proof.
  intros (m & Hr & Ha) Hc. unfold check_template_due, duration_since. pose proof Hr as [].
  destruct (Z.leb_spec (interval cfg) (Z.max 0 (instant c - last_template_time (exp ls)))) as [Hle|_].
  - exists (with_due s). split; [apply simulates_silent, falls_due; [done|rewrite Hperiod, Hc; congruence]|].
    exists m. split; [by split|done].
  - exists s. split; [apply simulates_refl|]. by exists m.
Qed.

Lemma send_template_simulated (ls ls' : loop_state) (s : State) (w w' : world W) :
  mirrors ls [] s -> roomy ls 1 -> send_template ls w = Done (ls', w') ->
  (exists s', simulated s w s' w' /\ mirrors ls' [] s') /\ batch ls' = batch ls /\
  (forall n, roomy ls (n + 1) -> roomy ls' n).
Proof.
  intros Hmir Hroom H. unfold send_template in H.
  destruct (include_template (exp ls) && negb (message_active ls)) eqn:Hc.
  2: { injection H as <- <-. split; [exists s; split; [apply simulates_refl|done]|]. split; [done|].
       intros n Hn. eapply roomy_less; [exact Hn|lia]. }
  apply andb_true_iff in Hc as [Hi Ha]. apply negb_true_iff in Ha. destruct Hmir as (m & Hr & Hm).
  rewrite Ha in Hm. destruct m as [|]; [done|]. destruct (begin_simulated _ _ _ w Hr) as (e & s1 & Hbeg & Hs1 & Hsat & Hr1).
  rewrite Hi in Hbeg, Hr1. rewrite Hbeg, lift_done_bind in H. apply sys_bind_inv in H as (x & w1 & H1 & H). injection H as <- <-.
  assert (Hrx : forall n, roomy ls n -> room (set_encoder (exp ls) e) n)
    by (intros n [Hn _]; unfold room in *; cbn [send_errors encoder set_encoder]; rewrite Hsat; exact Hn).
  pose proof (flush_message_run t True _ true [] w (represents_making _ _ _ _ _ Hr1) (Hrx 1 Hroom)) as Hrun.
  unfold run in Hrun. rewrite H1 in Hrun. destruct Hrun as (_ & Hr' & _).
  destruct (flush_message_simulated _ _ _ _ _ _ _ _ Hr1 (or_introl eq_refl) H1) as (s2 & Hs2 & Hr2).
  split; [exists s2; split; [by eapply simulates_trans|exists None; split; [done|exact Ha]]|]. split; [done|].
  intros n Hn. pose proof (Hrx _ Hn). destruct Hn as (_ & ? & ? & ? & ?). split; [by apply Hr'|]. cbn. lia.
Qed.

Lemma poll_timeout_simulated (ls : loop_state) (timeout : Z) (s : State) (w w' : world W) :
  mirrors ls [] s -> poll_timeout cfg ls w = Done (timeout, w') -> exists s', simulated s w s' w' /\ mirrors ls [] s'.
Proof.
  intros (m & Hr & Ha) H. unfold poll_timeout in H. destruct (message_active ls) eqn:Hact.
  { injection H as <- <-. exists s. split; [apply simulates_refl|]. by exists m; rewrite Hact. }
  apply sys_bind_inv in H as (d1 & w1 & H1 & H). apply lift_inv in H1 as [_ ->].
  apply sys_bind_inv in H as (d2 & w2 & H2 & H). apply lift_inv in H2 as [_ ->].
  apply sys_bind_inv in H as (tm & w3 & H3 & H). apply now_inv in H3 as (c & _ & L). injection H as <- <-.
  destruct (reads_clock _ _ _ _ c _ _ Hr L) as [Hs Hr']. exists (with_clock s c). split; [done|]. by exists m; rewrite Hact.
Qed.

(** What a pass does once the signals are checked. *)
Lemma handle_poll_simulated (ready : bool) (ls : loop_state) (s : State) (w w' : world W)
    (next : flow loop_state (result worker_error loop_state)) :
  mirrors ls [] s -> batch_ok RECV_BATCH_SIZE RECV_SLOT_SIZE (batch ls) ->
  roomy ls (Z.of_nat MAX_BATCHES_PER_POLL * batch_cost) ->
  handle_poll cfg ready ls w = Done (next, w') ->
  exists ls' s', next = Continue ls' /\ simulated s w s' w' /\ mirrors ls' [] s'.
Proof.
  intros Hmir Hb Hroom H. unfold handle_poll in H. destruct ready; cbn [negb] in H.
  - apply sys_bind_inv in H as (ls1 & w1 & H1 & H). injection H as <- <-.
    apply (drain_simulated _ _ _ _ s) in H1 as (s1 & Hs1 & Hm1); try done. by exists ls1, s1.
  - destruct Hmir as (m & Hr & Ha). destruct (message_active ls) eqn:Hact.
    2: { injection H as <- <-. exists ls, s. split; [done|]. split; [apply simulates_refl|]. by exists m; rewrite Hact. }
    destruct m as [[incl evs]|]; [|done]. apply sys_bind_inv in H as (x & w1 & H1 & H). injection H as <- <-.
    destruct (flush_message_simulated _ _ _ _ _ _ _ _ Hr (or_introl eq_refl) H1) as (s1 & Hs1 & Hr1).
    eexists _, s1. split; [done|]. split; [done|]. by exists None.
Qed.

Lemma worker_pass_simulated (fuel : nat) (ls : loop_state) (s : State) (w w' : world W)
    (next : flow loop_state (result worker_error loop_state)) :
  mirrors ls [] s -> batch_ok RECV_BATCH_SIZE RECV_SLOT_SIZE (batch ls) -> roomy ls pass_cost ->
  worker_pass fuel cfg ls w = Done (next, w') ->
  exists s', simulated s w s' w' /\
    match next with Continue ls' | Break (Ok ls') => mirrors ls' [] s' | Break (Err _) => queue s' = [] end.
Proof.
  intros Hmir Hb Hroom H. assert (Hpc : 1 <= pass_cost) by (by vm_compute).
  apply worker_pass_inv in H as (tm & w1 & ls3 & w3 & ls4 & w4 & timeout & w5 & polled & w6 & H1 & H3 & H4 & H5 & H6 & H).
  apply now_inv in H1 as (c & -> & L1).
  destruct Hmir as (m & Hr & Ha). destruct (reads_clock _ _ _ _ c _ _ Hr L1) as [Hs1 Hr1].
  destruct (check_template_due_simulated ls c (with_clock s c) w1) as (s2 & Hs2 & Hm2); [by exists m|done|].
  pose proof (fun n => check_template_due_roomy cfg (instant c) ls n) as Hroom2.
  assert (Hb2 : batch (check_template_due cfg (instant c) ls) = batch ls) by (unfold check_template_due; by destruct (_ <=? _)).
  set (ls2 := check_template_due cfg (instant c) ls) in *.
  assert (Hs3 : simulated s2 w1 s2 w3)
    by (apply simulated_unseen; eapply (report_stats_keeps (extends unseen)); [deaf..|exact H3]).
  apply report_stats_same in H3 as (He3 & Ha3 & Ht3 & Hf3 & Hb3).
  assert (Hroom3 : forall n, roomy ls n -> roomy ls3 n)
    by (intros n Hn; apply Hroom2 in Hn; unfold roomy in *; by rewrite He3, Ht3, Hf3).
  apply (send_template_simulated _ _ s2) in H4 as ((s4 & Hs4 & Hm4) & Hb4 & Hr4);
    [|by eapply mirrors_same|apply Hroom3; eapply roomy_less; [exact Hroom|lia]].
  apply (poll_timeout_simulated _ _ s4) in H5 as (s5 & Hs5 & Hm5); [|done].
  assert (Hs6 : simulated s5 w5 s5 w6)
    by (apply simulated_unseen; eapply (poll_keeps (extends unseen) cfg); [deaf..|exact H6]).
  assert (Hs : simulated s w s5 w6) by (repeat (eapply simulates_trans; [eassumption|]); apply simulates_refl).
  assert (Hq5 : queue s5 = []) by (destruct Hm5 as (m5 & Hr5 & _); apply (rp_queue _ _ _ _ Hr5)).
  destruct polled as [[ready signalled]|[]]; try (injection H as <- <-; by exists s5).
  apply sys_bind_inv in H as (go_on & w7 & H7 & H). apply (check_signals_keeps (extends unseen)) in H7; [|deaf].
  assert (Hs7 : simulated s w s5 w7) by (eapply simulates_trans; [exact Hs|by apply simulated_unseen]).
  destruct go_on as [[]|e]; try (injection H as <- <-; by exists s5).
  apply (handle_poll_simulated _ _ s5) in H as (ls' & s' & -> & Hs' & Hm'); [|done|by rewrite Hb4, Hb3, Hb2|].
  - exists s'. split; [by eapply simulates_trans|done].
  - apply Hr4, Hroom3. eapply roomy_less; [exact Hroom|]. unfold pass_cost. lia.
Qed.

End Refines.

(** ** The loop *)

(** The machine that the loop started from [ls] implements, and where it starts. *)
Definition setup_of (t : Template) (cfg : config) (ls : loop_state) : Setup :=
  {| layout := t; domain := observation_domain_id (encoder (exp ls)); epoch := started (encoder (exp ls));
     period := interval cfg |}.

Definition start_of (ls : loop_state) (c : Clock) : State :=
  {| queue := []; message := None; sequence := sequence_number (encoder (exp ls)); due := include_template (exp ls);
     template_at := last_template_time (exp ls); clock := c; earlier := c |}.

Section Loop.
Context {T : Target} {W : Type} {K : Kernel W} (t : Template) (cfg : config).
Context (H64 : pointer_width = 64) (Hclock : sane_clock W) (Hinterval : interval cfg <= secs (2 ^ 62)).

Lemma initial_mirrors (ls : loop_state) (c : Clock) : initial t ls -> mirrors (setup_of t cfg ls) ls [] (start_of ls c).
Proof using Type. intros [[Hok Ht] _ Ha _ _ _]. exists None. split; [by split|exact Ha]. Qed.

Lemma reachable_simulated (fuel n : nat) (ls0 ls : loop_state) (c : Clock) (w0 w : world W) :
  initial t ls0 -> roomy ls0 (Z.of_nat n * pass_cost) -> reachable cfg fuel ls0 w0 n ls w ->
  exists s, simulated (setup_of t cfg ls0) (start_of ls0 c) w0 s w /\ mirrors (setup_of t cfg ls0) ls [] s.
Proof using H64 Hclock Hinterval.
  intros Hinit Hroom Hreach. assert (Hpc : 1 <= pass_cost) by (by vm_compute). revert Hroom.
  induction Hreach as [|n ls w ls' w' Hreach IH Hpass]; intros Hroom.
  { exists (start_of ls0 c). split; [apply simulates_refl|by apply initial_mirrors]. }
  destruct IH as (s & Hs & Hm); [eapply roomy_less; [exact Hroom|lia]|].
  destruct (reachable_inv t cfg H64 Hclock Hinterval fuel n ls0 ls w0 w pass_cost Hinit) as (buf & ms & Hinv & Hbud);
    [eapply roomy_less; [exact Hroom|lia]|lia|done|].
  apply (worker_pass_simulated (setup_of t cfg ls0) Hclock H64 cfg eq_refl fuel ls s) in Hpass as (s' & Hs' & Hm');
    [|done|apply (li_batch _ _ _ _ _ _ Hinv)|done].
  exists s'. split; [by eapply simulates_trans|done].
Qed.

(** A loop that ended went through passes, the last of which ended it. *)
Lemma loop_reachable (k fuel n : nat) (ls0 ls : loop_state) (w0 w w' : world W) (r : result worker_error loop_state) :
  reachable cfg fuel ls0 w0 n ls w -> sys_loop k (worker_pass fuel cfg) ls w = Done (r, w') ->
  exists m ls1 w1, (m < n + k)%nat /\ reachable cfg fuel ls0 w0 m ls1 w1 /\
    worker_pass fuel cfg ls1 w1 = Done (Break r, w').
Proof using Type.
  revert n ls w. induction k as [|k IH]; intros n ls w Hr H; cbn [sys_loop] in H; [done|].
  destruct (worker_pass fuel cfg ls w) as [[[ls'|r'] w1]| |] eqn:E; try done.
  - destruct (IH (S n) ls' w1) as (m & ls1 & w2 & Hm & H2 & H3); [by eapply reach_pass|done|].
    exists m, ls1, w2. split; [lia|done].
  - injection H as <- <-. exists n, ls, w. split; [lia|done].
Qed.

(** The loop and the flush at shutdown: at the end nothing waits. *)
Lemma event_loop_simulated (fuel : nat) (ls : loop_state) (c : Clock) (w w' : world W) (r : result worker_error loop_state) :
  initial t ls -> roomy ls (1 + Z.of_nat fuel * pass_cost) -> event_loop fuel cfg ls w = Done (r, w') ->
  exists s, simulated (setup_of t cfg ls) (start_of ls c) w s w' /\
    queue s = [] /\ match r with Ok _ => message s = None | Err _ => True end.
Proof using H64 Hclock Hinterval.
  intros Hinit Hroom H. assert (Hpc : 1 <= pass_cost) by (by vm_compute). unfold event_loop in H.
  apply sys_bind_inv in H as (ended & w1 & H1 & H).
  apply (loop_reachable _ _ 0 ls ls w) in H1 as (n & ls1 & w2 & Hn & Hr & Hpass); [|apply reach_start].
  assert (Hroom' : roomy ls (pass_cost + Z.of_nat n * pass_cost)) by (eapply roomy_less; [exact Hroom|nia]).
  destruct (reachable_inv t cfg H64 Hclock Hinterval fuel n ls ls1 w w2 pass_cost Hinit Hroom') as (buf & ms & Hinv & Hbud); [lia|done|].
  destruct (reachable_simulated fuel n ls ls1 c w w2 Hinit) as (s1 & Hs1 & Hm1); [eapply roomy_less; [exact Hroom'|lia]|done|].
  apply (worker_pass_simulated (setup_of t cfg ls) Hclock H64 cfg eq_refl fuel ls1 s1) in Hpass as (s2 & Hs2 & Hm2);
    [|done|apply (li_batch _ _ _ _ _ _ Hinv)|done].
  assert (Hs : simulated (setup_of t cfg ls) (start_of ls c) w s2 w1) by (by eapply simulates_trans).
  destruct ended as [ls2|e]; [|injection H as <- <-; by exists s2]. destruct Hm2 as (m & Hr2 & Ha2).
  apply sys_bind_inv in H as (ls3 & w4 & H4 & H). injection H as <- <-. unfold flush_at_shutdown in H4.
  destruct (message_active ls2); destruct m as [[incl evs]|]; try done.
  - apply sys_bind_inv in H4 as (x & w3 & H3 & H). injection H as <- <-.
    destruct (flush_message_simulated _ _ _ _ _ _ _ _ _ Hr2 (or_introl eq_refl) H3) as (s3 & Hs3 & Hr3).
    exists s3. split; [by eapply simulates_trans|]. split; [apply (rp_queue _ _ _ _ _ Hr3)|apply (rp_message _ _ _ _ _ Hr3)].
  - injection H4 as <- <-. exists s2. split; [done|]. split; [apply (rp_queue _ _ _ _ _ Hr2)|apply (rp_message _ _ _ _ _ Hr2)].
Qed.

End Loop.

(** C3: the worker is an exporter.  Every state the event loop reaches mirrors a
    state of the exporter's machine, which the machine reaches with exactly the
    clock readings, the received events and the sent datagrams of the worker's
    system calls; and whatever the next pass does, the machine can do too. *)
Theorem worker_refines_exporter {T : Target} {W : Type} {K : Kernel W} (t : Template) (cfg : config)
    (fuel n : nat) (ls0 ls : loop_state) (c : Clock) (w0 w : world W) :
  pointer_width = 64 -> sane_clock W -> interval cfg <= secs (2 ^ 62) ->
  initial t ls0 -> roomy ls0 (Z.of_nat (S n) * pass_cost) -> reachable cfg fuel ls0 w0 n ls w ->
  let p := setup_of t cfg ls0 in
  exists calls s, log w = log w0 ++ calls /\ steps p (start_of ls0 c) (trace calls) s /\ mirrors p ls [] s /\
    forall next w', worker_pass fuel cfg ls w = Done (next, w') ->
      exists more s', log w' = log w ++ more /\ steps p s (trace more) s' /\
        match next with Continue ls' | Break (Ok ls') => mirrors p ls' [] s' | Break (Err _) => queue s' = [] end.
Proof.
  intros H64 Hclock Hint Hinit Hroom Hreach p. assert (Hpc : 1 <= pass_cost) by (by vm_compute).
  destruct (reachable_simulated t cfg H64 Hclock Hint fuel n ls0 ls c w0 w Hinit) as (s & (calls & L & Hs) & Hm);
    [eapply roomy_less; [exact Hroom|lia]|done|].
  destruct (reachable_inv t cfg H64 Hclock Hint fuel n ls0 ls w0 w pass_cost Hinit) as (buf & ms & Hinv & Hbud);
    [eapply roomy_less; [exact Hroom|lia]|lia|done|].
  exists calls, s. split; [done|]. split; [done|]. split; [done|]. intros next w' Hpass.
  apply (worker_pass_simulated p Hclock H64 cfg eq_refl fuel ls s) in Hpass as (s' & (more & L' & Hs') & Hm');
    [|done|apply (li_batch _ _ _ _ _ _ Hinv)|done].
  by exists more, s'.
Qed.

(** The datagrams sent since [w] are messages of which number [i] carries the count of
    what was sent before it; what they hold and [rest] is what was received. *)
Definition numbered_stream {T : Target} {W : Type} (t : Template) (dom : Z) (w : world W)
    (rest : list ConntrackEvent) (w' : world W) : Prop :=
  exists calls ms, log w' = log w ++ calls /\
    length (sent calls) = length ms /\ (template_first ms \/ ms = []) /\
    (forall i m d, ms !! i = Some m -> sent calls !! i = Some d -> numbered t dom (exports t (take i ms)) m d) /\
    contents ms ++ rest = events (packets calls).

Lemma event_loop_numbered {T : Target} {W : Type} {K : Kernel W} (t : Template) (cfg : config)
    (fuel : nat) (ls : loop_state) (w : world W) :
  pointer_width = 64 -> sane_clock W -> interval cfg <= secs (2 ^ 62) ->
  initial t ls -> sequence_number (encoder (exp ls)) = 0 -> roomy ls (1 + Z.of_nat fuel * pass_cost) ->
  runs (event_loop fuel cfg ls) w (fun r w' => exists rest,
    numbered_stream t (observation_domain_id (encoder (exp ls))) w rest w' /\
    match r with Ok _ => rest = [] | Err _ => one_message t rest end).
Proof.
  intros H64 Hclock Hint Hinit Hseq Hroom.
  pose proof (event_loop_run t cfg H64 Hclock Hint fuel ls w Hinit Hroom) as Hrun. unfold run in *.
  destruct (event_loop fuel cfg ls w) as [[r w']| |] eqn:E; [|done..]. clear Hrun.
  destruct (event_loop_simulated t cfg H64 Hclock Hint fuel ls {| system_time := 0; instant := 0 |} w w' r Hinit Hroom E)
    as (s & (calls & L & Hs) & Hend).
  fold (trace calls) in Hs. apply steps_account in Hs as (ms & [Hlen Hnum _ Hcont Hfirst Hfits]); [|by split; [..|apply (in_include _ _ Hinit)]].
  rewrite trace_datagrams in Hlen, Hnum. rewrite trace_received in Hcont.
  exists (held s ++ queue s). split; [exists calls, ms; split_and!; try done|].
  - destruct Hfirst as [H|(-> & _)]; [by left|by right].
  - destruct Hend as [-> Hm]. rewrite app_nil_r. unfold held. destruct r; [by rewrite Hm|].
    destruct (message s) as [[incl evs]|]; [|by left].
    destruct (Hfits incl evs eq_refl) as [Hnil|Hfit]; [by left|]. right. by exists incl.
Qed.

(** Calls around it that neither send nor receive do not change a stream. *)
Lemma numbered_stream_around {T : Target} {W : Type} (t : Template) (dom : Z) (rest : list ConntrackEvent)
    (w w1 w2 w' : world W) :
  quiet w w1 -> numbered_stream t dom w1 rest w2 -> quiet w2 w' -> numbered_stream t dom w rest w'.
Proof.
  intros (c1 & L1 & S1) (calls & ms & L & Hlen & Hf & Hn & Hc) (c2 & L2 & S2).
  destruct (silent_calls c1 S1) as [Hs1 Hp1]. destruct (silent_calls c2 S2) as [Hs2 Hp2].
  exists (c1 ++ calls ++ c2), ms. split; [by rewrite L2, L, L1, <- !app_assoc|].
  rewrite !sent_app, !packets_app, Hs1, Hs2, Hp1, Hp2, !app_nil_r. done.
Qed.

(** ** On the small machine *)

Lemma worker_refines_exporter_witness :
  exists b calls s, ReceiveBatch_new (T := x86_64_debug) RECV_BATCH_SIZE RECV_SLOT_SIZE = Done b /\
    let p := setup_of demo_template demo_config (demo_state b) in
    steps p (start_of (demo_state b) at_noon) (trace (T := x86_64_debug) calls) s /\ mirrors p (demo_state b) [] s /\
    forall next w', worker_pass (T := x86_64_debug) 5 demo_config (demo_state b) demo_world = Done (next, w') ->
      exists more s', log w' = log demo_world ++ more /\ steps p s (trace (T := x86_64_debug) more) s' /\
        match next with Continue ls' | Break (Ok ls') => mirrors p ls' [] s' | Break (Err _) => queue s' = [] end.
Proof.
  destruct demo_batch as (b & Hnew & Hb). exists b.
  destruct (@worker_refines_exporter x86_64_debug machine machine_kernel demo_template demo_config 5 0
              (demo_state b) (demo_state b) at_noon demo_world demo_world) as (calls & s & _ & Hs & Hm & Hnext).
  - reflexivity.
  - apply machine_clock_sane.
  - vm_compute. discriminate.
  - apply demo_initial, Hb.
  - eapply roomy_less; [apply demo_roomy|vm_compute; discriminate].
  - apply reach_start.
  - exists calls, s. exact (conj Hnew (conj Hs (conj Hm Hnext))).
Defined.
