(* ===== verification/WorkerStats.v ===== *)
(** * The drop statistics

    What the operator is told: that the worker's counters count what was lost, and
    that the periodic reports state it, no loss reported twice or left out. *)

From stdpp Require Import base list numbers strings.
From Stdlib Require Import ZArith Lia.
From S2P Require Import Prelude Constants Elements Event Template Record Encoder EncoderSpec EncoderProps System Socket Signals Worker WorkerLog WorkerFrame WorkerProps.
Local Open Scope Z_scope.

(** C10: the drop statistics are right.  In every state the event loop reaches: the
    counters are the number of failed sends, of kernel datagrams cut to a slot, of
    datagrams from other senders, and of counters clamped in the records written;
    every report made has something new, states these counts as its totals as they
    were when it was made, and what all reports up to it call new adds up to its
    totals, so nothing is reported twice and nothing is left out. *)
Theorem drop_statistics_are_right {T : Target} {W : Type} {K : Kernel W} (t : Template) (cfg : config)
    (fuel n : nat) (s0 s : loop_state) (w0 w : world W) :
  pointer_width = 64 -> sane_clock W -> interval cfg <= secs (2 ^ 62) ->
  initial t s0 -> roomy s0 (Z.of_nat n * pass_cost) -> reachable cfg fuel s0 w0 n s w ->
  exists calls, log w = log w0 ++ calls /\
    counts_to t calls (send_errors (exp s)) (truncated_msgs s) (foreign_msgs s)
      (saturated_counters (encoder (exp s))) /\
    reports_right t calls.
Proof.
  intros H64 Hclock Hint Hinit Hroom Hreach.
  destruct (reachable_inv t cfg H64 Hclock Hint fuel n s0 s w0 w 0 Hinit) as (buf & ms & Hinv & _); [done|done|done|].
  destruct (li_stats _ _ _ _ _ _ Hinv) as (calls & Hl & Hc & Hr & _). by exists calls.
Qed.

(** ** A lossy run *)

(** A kernel with a long time between two readings of its clock, whose network
    refuses every datagram. *)
Record lossy := { seconds : Z; arrivals : list packet }.

Definition lossy_call (c : syscall) (k : lossy) : answer c * lossy :=
  match c return answer c * lossy with
  | ClockNow => ({| system_time := 0; instant := secs (seconds k mod 2 ^ 40) |},
                 {| seconds := seconds k + 5; arrivals := arrivals k |})
  | UdpSend _ => (Err (OtherError 101), k)
  | Poll _ _ => (Ok (1, [if bool_decide (arrivals k = []) then 0 else 1; 0]), k)
  | Recvmmsg fd vlen =>
      let '(a, m) := machine_recv vlen {| queue := arrivals k; pending := []; clock_ms := 0 |} in
      (a, {| seconds := seconds k; arrivals := queue m |})
  | c => (fst (machine_call c {| queue := []; pending := []; clock_ms := 0 |}), k)
  end.

#[export] Instance lossy_kernel : Kernel lossy.
Proof.
  refine {| k_call := lossy_call |}. intros fd vlen k l H.
  apply (k_recvmmsg_ok (W := machine) fd vlen {| queue := arrivals k; pending := []; clock_ms := 0 |}).
  cbn in H |- *. destruct (machine_recv vlen _) as [a m]. exact H.
Defined.

Lemma lossy_clock : sane_clock lossy.
Proof.
  intros [q ps]. change (secs (q mod 2 ^ 40) < secs (2 ^ 62)).
  pose proof (Z.mod_pos_bound q (2 ^ 40) ltac:(done)). unfold secs. lia.
Qed.

Definition lossy_world : world lossy :=
  {| kernel := {| seconds := 0; arrivals := [(4711, [1; 2; 3])] |}; log := [] |}.

(** The template is refused, the stray datagram counted, and both reported. *)
Definition report_made (s : loop_state) (w : world lossy) : bool :=
  (0 <? send_errors (exp s)) && (foreign_msgs s =? 1) &&
  (said udp_send (log w) =? prev_send_errors (reported s)) && (said foreign (log w) =? 1).

Lemma report_made_in_time :
  match ReceiveBatch_new (T := x86_64_debug) RECV_BATCH_SIZE RECV_SLOT_SIZE with
  | Done b => match pass_n (T := x86_64_debug) demo_config 5 4 (demo_state b) lossy_world with Some (s, w) => report_made s w | None => false end
  | _ => false
  end = true.
Proof. vm_compute. reflexivity. Qed.

Lemma drop_statistics_are_right_witness :
  exists b s w, ReceiveBatch_new (T := x86_64_debug) RECV_BATCH_SIZE RECV_SLOT_SIZE = Done b /\
    reachable (T := x86_64_debug) demo_config 5 (demo_state b) lossy_world 4 s w /\
    said foreign (log w) = 1 /\ foreign_msgs s = 1 /\
    send_errors (exp s) = failures (log w) /\ reports_right (T := x86_64_debug) demo_template (log w).
Proof.
  pose proof report_made_in_time as H.
  destruct demo_batch as (b & Hnew & Hb). rewrite Hnew in H.
  destruct (pass_n (T := x86_64_debug) demo_config 5 4 (demo_state b) lossy_world) as [[s w]|] eqn:Hp; [|discriminate H].
  apply pass_n_reachable in Hp. unfold report_made in H. rewrite !andb_true_iff, !Z.eqb_eq in H.
  destruct H as (((_ & Hf) & _) & Hsaid).
  destruct (@drop_statistics_are_right x86_64_debug lossy lossy_kernel demo_template demo_config 5 4
              (demo_state b) s lossy_world w eq_refl lossy_clock ltac:(vm_compute; discriminate)
              (demo_initial b Hb) ltac:(eapply roomy_less; [apply demo_roomy|vm_compute; discriminate]) Hp)
    as (calls & Hl & [Hs _ _ _] & Hr).
  cbn [log lossy_world app] in Hl. subst calls. exists b, s, w.
  exact (conj Hnew (conj Hp (conj Hsaid (conj Hf (conj Hs Hr))))).
Defined.
