(* ===== verification/WorkerMain.v ===== *)
(** * The worker as a whole

    [run_worker] from its arguments to its exit: what it refuses before touching
    the system, and that a whole run exports what it received. *)

From stdpp Require Import base list numbers strings gmap.
From Stdlib Require Import ZArith Lia.
From S2P Require Import Prelude Constants Elements Event Template Record Encoder EncoderSpec EncoderProps CollectorProps System Socket Signals Worker WorkerLog WorkerFrame WorkerProps.
Local Open Scope Z_scope.

(** Nothing was sent or received, and [G] still holds if it did. *)
Definition calm {W : Type} (G : world W -> Prop) (w w' : world W) : Prop := quiet w w' /\ carries G w w'.

Lemma calm_refl {W : Type} (G : world W -> Prop) (w : world W) : calm G w w.
Proof. split; [apply quiet_refl|done]. Qed.

(** One more call that neither sends nor receives. *)
Lemma calm_request {W : Type} {K : Kernel W} (stuck : Prop) (G : world W -> Prop)
    (c : syscall) (w0 w : world W) :
  (forall c, keeps (carries G) (request c)) -> calm G w0 w -> (forall a, silent (called c a)) ->
  run stuck (request c) w (fun _ w' => calm G w0 w').
Proof.
  intros HG [Hq Hg] Hs. pose proof (HG c w) as Hc. unfold run, request in *.
  destruct (k_call c (kernel w)) as [a k]. split.
  - eapply quiet_trans; [exact Hq|]. by eapply quiet_one.
  - intros H0. exact (Hc _ _ eq_refl (Hg H0)).
Qed.

Lemma calm_call {W : Type} {K : Kernel W} (stuck : Prop) (G : world W -> Prop) {B : Type}
    (c : syscall) (f : answer c -> sys W B) (w0 w : world W) (Q : B -> world W -> Prop) :
  (forall c, keeps (carries G) (request c)) -> calm G w0 w -> (forall a, silent (called c a)) ->
  (forall a w', calm G w0 w' -> run stuck (f a) w' Q) -> run stuck (request c ≫= f) w Q.
Proof. intros HG Hq Hs Hf. eapply run_bind; [by apply (calm_request stuck G c w0)|exact Hf]. Qed.

Ltac quietly a :=
  lazymatch goal with
  | HG : forall c, keeps (carries ?G) (request c),
    Hq : calm ?G ?w0 ?w |- run ?s (@mbind _ _ _ ?B ?f (@request ?W ?K ?c)) ?w ?Q =>
      refine (@calm_call W K s G B c f w0 w Q HG Hq (fun _ => conj eq_refl (conj eq_refl eq_refl)) _); clear Hq;
      let w := fresh "w" in let Hq := fresh "Hq" in intros a w Hq
  end.

Section Setup.
Context {W : Type} {K : Kernel W} (stuck : Prop) (G : world W -> Prop).
Context (HG : forall c, keeps (carries G) (request c)).

Lemma set_recv_buf_calm (fd size : Z) (w0 w : world W) : calm G w0 w ->
  run stuck (set_recv_buf fd size) w (fun _ w' => calm G w0 w').
Proof.
  intros Hq. unfold set_recv_buf. quietly a. destruct a as [?|e]; [by apply run_ret|].
  quietly a. by apply run_ret.
Qed.

Lemma set_send_buf_calm (fd size : Z) (w0 w : world W) : calm G w0 w ->
  run stuck (set_send_buf fd size) w (fun _ w' => calm G w0 w').
Proof.
  intros Hq. unfold set_send_buf. quietly a. destruct a as [?|e]; [by apply run_ret|].
  quietly a. by apply run_ret.
Qed.

Lemma add_membership_calm (fd group : Z) (w0 w : world W) : calm G w0 w ->
  run stuck (add_membership fd group) w (fun _ w' => calm G w0 w').
Proof. intros Hq. unfold add_membership. quietly a. by apply run_ret. Qed.

Lemma fail_open_calm (fd : Z) (e : open_error) (w0 w : world W) : calm G w0 w ->
  run stuck (fail_open fd e) w (fun _ w' => calm G w0 w').
Proof. intros Hq. unfold fail_open, drop_socket. quietly a. by apply run_ret. Qed.

Lemma open_calm (size : Z) (w0 w : world W) : calm G w0 w ->
  run stuck (open size) w (fun _ w' => calm G w0 w').
Proof.
  intros Hq. unfold open. quietly a. destruct a as [fd|e]; [|by apply run_ret].
  eapply run_bind; [by apply set_recv_buf_calm|]; cbn beta; clear Hq. intros _ w2 Hq. quietly a.
  destruct a as [_|e]; [|by apply fail_open_calm].
  eapply run_bind; [by apply add_membership_calm|]; cbn beta; clear Hq. intros [_|e] w4 Hq; [|by apply fail_open_calm].
  eapply run_bind; [by apply add_membership_calm|]; cbn beta; clear Hq. intros [_|e] w5 Hq; [|by apply fail_open_calm].
  quietly a. by apply run_ret.
Qed.

Lemma set_proc_sysctl_calm (path value : string) (w0 w : world W) : calm G w0 w ->
  run stuck (set_proc_sysctl path value) w (fun _ w' => calm G w0 w').
Proof.
  intros Hq. unfold set_proc_sysctl. quietly a. destruct a as [contents|e]; [|by apply run_ret].
  destruct (negb _); [|by apply run_ret]. quietly a. by apply run_ret.
Qed.

Lemma sysctls_calm (args : Args) (w0 w : world W) : calm G w0 w ->
  run stuck (apply_conntrack_sysctl_settings args) w (fun _ w' => calm G w0 w').
Proof.
  intros Hq. unfold apply_conntrack_sysctl_settings. destruct (no_sysctl args); [by apply run_ret|].
  eapply run_bind; [by apply set_proc_sysctl_calm|]; cbn beta; clear Hq. intros [_|e] w1 Hq; [|by apply run_ret].
  eapply run_bind; [by apply set_proc_sysctl_calm|]; cbn beta; clear Hq. intros _ w2 Hq. by apply run_ret.
Qed.

Lemma close_all_calm {A : Type} (fds : list Z) (r : A) (w0 w : world W) : calm G w0 w ->
  run stuck (close_all fds r) w (fun r' w' => r' = r /\ calm G w0 w').
Proof.
  intros Hq. unfold close_all. eapply run_bind; [|cbn beta; intros ? w' Hq'; apply run_ret; split; [done|exact Hq']].
  revert w Hq. induction fds as [|fd fds IH]; intros w Hq; [by apply run_ret|]. cbn [sys_foldM].
  quietly a. destruct a. by apply IH.
Qed.

Lemma SignalFd_new_calm (signals : list Z) (w0 w : world W) : calm G w0 w ->
  run stuck (SignalFd_new signals) w (fun _ w' => calm G w0 w').
Proof.
  intros Hq. unfold SignalFd_new. quietly a. destruct a as [_|e]; [|by apply run_ret].
  by apply (calm_request stuck G).
Qed.

End Setup.

(** ** The configuration *)

(** The flags [run_worker] refuses. *)
Definition bad_flags (args : Args) : Prop :=
  template_interval args = 0 \/ (arg_counter_width args <> 4 /\ arg_counter_width args <> 8) \/
  arg_template_id args < MIN_TEMPLATE_ID.

Lemma configure_cases {T : Target} (args : Args) : is_u16 (arg_template_id args) ->
  (bad_flags args /\ exists e, configure args = Done (Err e)) \/
  (~ bad_flags args /\ exists width t, configure args = Done (Ok t) /\
     resolve (arg_protocol args) (arg_profile args) width (arg_template_id args) = Done (Ok t)).
Proof.
  intros Hid. unfold configure, bad_flags, CounterWidth_from_bytes.
  destruct (Z.eqb_spec (template_interval args) 0) as [H0|H0]; [left; split; [auto|by eexists]|].
  assert (Hgo : forall width, arg_counter_width args = 4 \/ arg_counter_width args = 8 ->
    let rest := resolved ← resolve (arg_protocol args) (arg_profile args) width (arg_template_id args);
        match resolved with
        | Err e => Done (Err (BadConfiguration e))
        | Ok template => _ ← max_records_per_message template; Done (Ok template)
        end in
    (arg_template_id args < MIN_TEMPLATE_ID /\ exists e, rest = Done (Err e)) \/
    (MIN_TEMPLATE_ID <= arg_template_id args /\ exists t, rest = Done (Ok t) /\
      resolve (arg_protocol args) (arg_profile args) width (arg_template_id args) = Done (Ok t))).
  { intros width _. cbv zeta. pose proof (resolve_ok (arg_protocol args) (arg_profile args) width _
      (resolved (arg_protocol args) (arg_profile args) width (arg_template_id args)) Hid) as Hok.
    rewrite resolve_eq in Hok |- *. destruct (Z.ltb_spec (arg_template_id args) MIN_TEMPLATE_ID).
    - left. rewrite bind_done. split; [done|]. by eexists.
    - right. destruct (Hok eq_refl) as [_ Ht]. destruct (max_records_done _ Ht) as (n & Hn & _).
      rewrite bind_done, Hn, bind_done. split; [done|]. by eexists. }
  destruct (Z.eqb_spec (arg_counter_width args) 4) as [H4|H4];
    [|destruct (Z.eqb_spec (arg_counter_width args) 8) as [H8|H8]; [|left; split; [auto|by eexists]]].
  - destruct (Hgo Four ltac:(auto)) as [[? ?]|(? & t & ? & ?)]; [left; split; [auto|done]|right].
    split; [intuition lia|]. by exists Four, t.
  - destruct (Hgo Eight ltac:(auto)) as [[? ?]|(? & t & ? & ?)]; [left; split; [auto|done]|right].
    split; [intuition lia|]. by exists Eight, t.
Qed.

(** C29: a bad flag is reported before anything is touched.  A zero template
    interval, a counter width other than 4 or 8, or a reserved template id makes
    the worker return an error without a single system call; every other
    combination of flags passes validation. *)
Theorem bad_flags_touch_nothing {T : Target} {W : Type} {K : Kernel W} (fuel : nat) (args : Args)
    (w : world W) :
  is_u16 (arg_template_id args) ->
  (bad_flags args -> exists e, run_worker fuel args w = Done (Err e, w)) /\
  (~ bad_flags args -> exists t, configure args = Done (Ok t) /\ template_ok t).
Proof.
  intros Hid. destruct (configure_cases args Hid) as [[Hbad [e He]]|(Hgood & width & t & Ht & Hres)].
  - split; [|done]. intros _. exists e. unfold run_worker, lift, mbind, sys_bind. by rewrite He.
  - split; [done|]. intros _. exists t. split; [done|]. by apply (resolve_ok _ _ _ _ _ Hid) in Hres as [_ Hok].
Qed.

(** ** A whole run *)

Section Whole.
Context {T : Target} {W : Type} {K : Kernel W} (t : Template) (args : Args).
Context (H64 : pointer_width = 64) (Hclock : sane_clock W).
Context (Htok : template_ok t) (Hdomain : is_u32 (domain_id args)).

(** What the loop is entered with. *)
Definition fresh_start (s : loop_state) : Prop :=
  initial t s /\ observation_domain_id (encoder (exp s)) = domain_id args /\ sequence_number (encoder (exp s)) = 0.

Lemma initial_state_run (stuck : Prop) (fd : Z) (w : world W) :
  run stuck (initial_state args t fd) w (fun s w' => fresh_start s /\ quiet w w').
Proof using H64 Hclock Htok Hdomain.
  unfold initial_state. call_with a w1 H1.
  assert (Hq1 : quiet w w1) by (eapply quiet_one; [exact H1|done]).
  eapply run_bind; [by apply now_run|]. intros tt w2 [Htt Hq2].
  eapply run_bind; [by apply now_run|]. intros st w3 [Hst Hq3].
  eapply run_bind; [apply get_drops_run|]. intros d w4 Hq4.
  destruct (ReceiveBatch_new_done RECV_BATCH_SIZE RECV_SLOT_SIZE) as (b & Hnew & Hb & _);
    [by vm_compute|by vm_compute|unfold isize_max; rewrite H64; by vm_compute|].
  eapply run_lift_bind; [exact Hnew|]. apply run_ret. split.
  - split; [|done]. split; [split; [by apply new_ok|done]|done..].
  - exact (quiet_trans _ _ _ Hq1 (quiet_trans _ _ _ Hq2 (quiet_trans _ _ _ Hq3 Hq4))).
Qed.

Lemma fresh_roomy (s : loop_state) (n : Z) : fresh_counters s -> 0 <= n <= 2 ^ 60 -> roomy s n.
Proof using Type.
  intros (H1 & H2 & H3 & H4 & _) Hn. unfold roomy, room. rewrite H1, H2, H3, H4. unfold u64_max. lia.
Qed.

Lemma initial_state_keeps (R : relation (world W)) (HR : PreOrder R) (fd : Z) :
  (forall c, keeps R (request c)) -> keeps R (initial_state args t fd).
Proof using Type.
  intros Hc. pose proof (now_keeps R (Hc ClockNow)) as Hn. unfold initial_state, get_drops.
  repeat first [frame_step R | match goal with |- keeps _ (request ?c) => exact (Hc c) end].
Qed.

(** The loop that is run, from any state [G] allows, and how it ends. *)
Context (stuck : Prop) (fuel : nat) (G : world W -> Prop) (HG : forall c, keeps (carries G) (request c)).
Context (Q : loop_state -> world W -> result worker_error loop_state -> world W -> Prop).
Context (Hloop : forall cfg s w, interval cfg = secs (template_interval args) -> fresh_start s -> G w ->
  run stuck (event_loop fuel cfg s) w (Q s w)).

(** A run failed before its loop, or is its loop, with nothing sent or received
    around it. *)
Definition ran (w0 : world W) (r : result worker_error unit) (w' : world W) : Prop :=
  (exists e, r = Err e /\ quiet w0 w') \/
  (exists s w1 ended w2, quiet w0 w1 /\ fresh_start s /\ Q s w1 ended w2 /\ quiet w2 w' /\
     r = match ended with Err e => Err e | Ok _ => Ok tt end).

Lemma ran_failed (w0 w' : world W) (e : worker_error) : calm G w0 w' -> ran w0 (Err e) w'.
Proof using Type. intros [Hq _]. left. by exists e. Qed.

Lemma close_all_failed (fds : list Z) (e : worker_error) (w0 w : world W) : calm G w0 w ->
  run stuck (close_all fds (Err e)) w (ran w0).
Proof using HG.
  intros Hq. eapply run_conseq; [by apply (close_all_calm stuck G)|]. intros r w' [-> Hq']. by apply ran_failed.
Qed.

(** From the point where everything is open. *)
Lemma work_run (sig_fd udp_fd nl_fd : Z) (w0 w : world W) :
  G w0 -> calm G w0 w -> run stuck (work fuel args t sig_fd udp_fd nl_fd) w (ran w0).
Proof using H64 Hclock Htok Hdomain HG Hloop.
  intros G0 [Hq Hg]. unfold work. eapply run_bind.
  { eapply (run_keeps (carries G)); [apply initial_state_run|]. apply initial_state_keeps; [apply _|exact HG]. }
  intros s w1 ((Hi & Hq1) & G1). eapply run_bind; [apply Hloop; [done|exact Hi|exact (G1 (Hg G0))]|].
  intros ended w2 HQ. eapply run_conseq; [apply (close_all_calm stuck G HG _ _ w2 w2), calm_refl|].
  intros r' w3 (-> & Hq3 & _). right. exists s, w1, ended, w2. split_and!; try done. by eapply quiet_trans.
Qed.

(** Before the netlink socket is open nothing was sent or received. *)
Lemma run_worker_run (w : world W) :
  G w -> configure args = Done (Ok t) -> run stuck (run_worker fuel args) w (ran w).
Proof using H64 Hclock Htok Hdomain HG Hloop.
  intros G0 Hcfg. unfold run_worker. eapply run_lift_bind; [exact Hcfg|]. cbn beta iota.
  eapply run_bind; [apply (sysctls_calm stuck G HG), calm_refl|]. intros [_|e] w1 Hq1;
    [|by apply run_ret, ran_failed].
  eapply run_bind; [by apply (SignalFd_new_calm stuck G HG _ w)|]. intros [sig_fd|e] w2 Hq2;
    [|by apply run_ret, ran_failed].
  quietly a. destruct a as [udp_fd|e]; [|by apply close_all_failed].
  quietly a. destruct a as [_|e]; [|by apply close_all_failed].
  eapply run_bind; [by apply (set_send_buf_calm stuck G HG _ _ w)|]. cbn beta. intros _ w5 Hq5.
  eapply run_bind; [by apply (open_calm stuck G HG _ w)|]. intros [nl_fd|e] w6 Hq6; [|by apply close_all_failed].
  by apply work_run.
Qed.

End Whole.

(** A run whose loop accounts for what it received accounts for it. *)
Lemma ran_accounted {T : Target} {W : Type} (t : Template) (args : Args) (w w' : world W) (r : result worker_error unit) :
  ran t args (fun _ => shut_down t) w r w' ->
  exists buf ms, (template_first ms \/ ms = []) /\ advance t [] buf ms w w' /\
    match r with Ok _ => buf = [] | Err _ => one_message t buf end.
Proof.
  intros [(e & -> & Hq)|(s & w1 & ended & w2 & Hq1 & _ & (buf & ms & Hf & Ha & Hr) & Hq2 & ->)].
  { exists [], []. split; [by right|]. split; [by apply quiet_advance|by left]. }
  exists buf, ms. split; [by left|]. split; [|by destruct ended].
  pose proof (advance_trans t _ _ _ _ _ _ _ _ (quiet_advance t [] _ _ Hq1) Ha) as Ha1.
  pose proof (advance_trans t _ _ _ _ _ _ _ _ Ha1 (quiet_advance t buf _ _ Hq2)) as Ha2.
  by rewrite app_nil_r in Ha2.
Qed.

(** What a run exports: the messages [ms] handed to [send], which hold the NAT events
    received, in order; if it ends by an error, without the [rest], at most one
    message of them. *)
Definition exported {T : Target} {W : Type} (args : Args) (w : world W) (r : result worker_error unit)
    (w' : world W) : Prop :=
  exists t calls ms rest, configure args = Done (Ok t) /\ log w' = log w ++ calls /\ handed_over t calls ms /\
    contents ms ++ rest = events (packets calls) /\
    match r with Ok _ => rest = [] | Err _ => one_message t rest end.

(** Whichever way the loop is known to run, so is the worker. *)
Lemma run_worker_exports {T : Target} {W : Type} {K : Kernel W} (stuck : Prop) (G : world W -> Prop)
    (args : Args) (fuel : nat) (w : world W) :
  pointer_width = 64 -> sane_clock W -> is_u32 (domain_id args) -> is_u16 (arg_template_id args) ->
  ~ bad_flags args -> template_interval args <= 2 ^ 62 -> (forall c, keeps (carries G) (request c)) ->
  (forall t cfg s w', interval cfg <= secs (2 ^ 62) -> initial t s -> G w' ->
     run stuck (event_loop fuel cfg s) w' (shut_down t w')) ->
  G w -> run stuck (run_worker fuel args) w (exported args w).
Proof.
  intros H64 Hclock Hdom Hid Hgood Hint HG Hloop G0.
  destruct (configure_cases args Hid) as [[Hbad _]|(_ & width & t & Ht & Hres)]; [done|].
  destruct (resolve_ok _ _ _ _ _ Hid Hres) as [Heq Htok].
  assert (Hread : CollectorProps.readable t).
  { rewrite Heq. apply resolved_readable. pose proof (to_id _ Htok) as Hb. rewrite Heq in Hb. exact Hb. }
  eapply run_conseq; [apply (run_worker_run t args H64 Hclock Htok Hdom stuck fuel G HG (fun _ => shut_down t)); try done|].
  { intros cfg s w' Hi [Hinit _] Gw. apply Hloop; [rewrite Hi; unfold secs; lia|done..]. }
  intros r w' (buf & ms & Hf & Ha & Hr)%ran_accounted.
  destruct (advance_handed t w w' buf ms Hread Ha Hf) as (calls & Hl & Hc & He). by exists t, calls, ms, buf.
Qed.

Lemma run_worker_runs {T : Target} {W : Type} {K : Kernel W} (args : Args) (fuel : nat) (w : world W) :
  pointer_width = 64 -> sane_clock W -> is_u32 (domain_id args) -> is_u16 (arg_template_id args) ->
  ~ bad_flags args -> template_interval args <= 2 ^ 62 -> 1 + Z.of_nat fuel * pass_cost <= 2 ^ 60 ->
  runs (run_worker fuel args) w (exported args w).
Proof.
  intros H64 Hclock Hdom Hid Hgood Hint Hfuel. assert (Hpc : 1 <= pass_cost) by (by vm_compute).
  apply (run_worker_exports True (fun _ => True)); try done.
  intros t cfg s w' Hi Hinit _. apply (event_loop_run t cfg); [done|done|done|done|].
  apply fresh_roomy; [apply (in_fresh _ _ Hinit)|lia].
Qed.

(** C1: a whole run, from the arguments to the exit.  With flags that pass validation
    and a template interval of at most 2^62 seconds, on any kernel, the worker does not panic.
    Every datagram it hands to [send] is one message; the messages hold one record
    per NAT event received from the kernel, in order: of all of them when it exits on
    a signal, and of all but at most one message when it exits with an error (of
    the setup, of [poll] or of the signal descriptor).  A collector that gets the datagrams for
    which [send] succeeded holds exactly their records, from the first one with the template
    on; the others, counted by [failures], are lost; if there are none, it holds a
    record of every event in the messages. *)
Theorem run_worker_exports_everything {T : Target} {W : Type} {K : Kernel W} (args : Args)
    (fuel : nat) (w : world W) :
  pointer_width = 64 -> sane_clock W -> is_u32 (domain_id args) -> is_u16 (arg_template_id args) ->
  ~ bad_flags args -> template_interval args <= 2 ^ 62 -> 1 + Z.of_nat fuel * pass_cost <= 2 ^ 60 ->
  runs (run_worker fuel args) w (fun r w' => exists t calls ms rest ts,
    configure args = Done (Ok t) /\ log w' = log w ++ calls /\
    Forall2 (message_of t) ms (sent calls) /\
    contents ms ++ rest = events (packets calls) /\
    match r with Ok _ => rest = [] | Err _ => one_message t rest end /\
    collect (delivered calls) = Done (ts, map (collected t) (contents (from_template (pick (taken calls) ms)))) /\
    failures calls = zlen ms - zlen (pick (taken calls) ms) /\
    (failures calls = 0 -> from_template (pick (taken calls) ms) = ms)).
Proof.
  intros H64 Hclock Hdom Hid Hgood Hint Hfuel. eapply run_conseq; [by apply run_worker_runs|].
  intros r w' (t & calls & ms & rest & Ht & Hl & [Hms Hlost [ts Hc] Hall _] & He & Hr).
  by exists t, calls, ms, rest, ts.
Qed.

(** ** Runs *)

Definition demo_args (interval : Z) : Args := {|
  collector := "192.0.2.1:4739"; recv_buf := 67108864; send_buf := 4194304; domain_id := 7;
  arg_protocol := Ipfix; arg_profile := Full; arg_counter_width := 8; arg_template_id := 256;
  template_interval := interval; verbose := false; daemon := false; log_file := None;
  no_sysctl := false |}.

(** A run that ends well, with [P] of the world then. *)
Definition ends_well {W : Type} (m : sys W (result worker_error unit)) (w : world W) (P : world W -> Prop) : Prop :=
  match m w with Done (Ok _, w') => P w' | _ => False end.

Lemma runs_ends_well {W : Type} (m : sys W (result worker_error unit)) (w : world W)
    (Q : result worker_error unit -> world W -> Prop) (P : world W -> Prop) :
  ends_well m w P -> runs m w Q -> exists w', m w = Done (Ok tt, w') /\ P w' /\ Q (Ok tt) w'.
Proof.
  unfold ends_well, run. destruct (m w) as [[[[]|e] w']| |]; try done. intros HP HQ. by exists w'.
Qed.

(** A run to its end: two datagrams out, every descriptor closed. *)
Definition demo_exchange (w : world machine) : Prop :=
  map zlen (sent (log w)) = [88; 136] /\ failures (log w) = 0 /\
  omap (fun c : call => match projT1 c with Close fd => Some fd | _ => None end) (log w) = [3; 6; 4].

Example demo_worker_run : ends_well (run_worker (T := x86_64_debug) 5 (demo_args 30)) demo_world demo_exchange.
Proof. vm_compute. split_and!; reflexivity. Qed.

Lemma demo_flags_good : ~ bad_flags (demo_args 30).
Proof. unfold bad_flags. cbn. unfold MIN_TEMPLATE_ID. lia. Qed.

Lemma bad_flags_touch_nothing_witness :
  exists e, run_worker (T := x86_64_debug) 5 (demo_args 0) demo_world = Done (Err e, demo_world).
Proof.
  apply (proj1 (@bad_flags_touch_nothing x86_64_debug machine machine_kernel 5 (demo_args 0) demo_world
                  ltac:(closed_bounds))).
  left. reflexivity.
Defined.

(** The run of [demo_worker_run]: everything received is collected, as no send failed. *)
Lemma run_worker_exports_everything_witness :
  exists w' t ms ts, run_worker (T := x86_64_debug) 5 (demo_args 30) demo_world = Done (Ok tt, w') /\
    map zlen (sent (log w')) = [88; 136] /\ failures (log w') = 0 /\
    configure (T := x86_64_debug) (demo_args 30) = Done (Ok t) /\
    contents ms = events (T := x86_64_debug) (packets (log w')) /\
    collect (delivered (log w')) = Done (ts, map (collected t) (contents ms)).
Proof.
  destruct (runs_ends_well _ _ _ _ demo_worker_run
    (@run_worker_exports_everything x86_64_debug machine machine_kernel (demo_args 30) 5 demo_world
       eq_refl machine_clock_sane ltac:(closed_bounds) ltac:(closed_bounds) demo_flags_good
       ltac:(vm_compute; discriminate) ltac:(vm_compute; discriminate)))
    as (w' & Hrun & (Hsent & H0 & _) & t & calls & ms & rest & ts & Ht & Hl & _ & He & Hr & Hc & _ & Hall).
  change (log w' = calls) in Hl. subst calls. rewrite Hr, app_nil_r in He. rewrite (Hall H0) in Hc.
  exists w', t, ms, ts. exact (conj Hrun (conj Hsent (conj H0 (conj Ht (conj He Hc))))).
Defined.

(** ** The sysctls *)

(** Nothing but white space. *)
Definition all_space (s : string) : bool := forallb is_white (chars s).

(** No byte outside ASCII is white space on its own. *)
Lemma lead_not_white (a : Ascii.ascii) : char_len a <> 1%nat -> is_white (String a EmptyString) = false.
Proof. destruct a as [[] [] [] [] [] [] [] []]; vm_compute; congruence. Qed.

(** White space is whole characters, so what follows it is read as if it were not there. *)
Lemma chars_space (a s : string) : all_space a = true -> chars (a +:+ s) = chars a ++ chars s.
Proof.
  unfold all_space. remember (String.length a) as n eqn:Hn. revert a Hn.
  induction n as [n IH] using (well_founded_induction Nat.lt_wf_0). intros [|x a] -> H; [done|].
  pose proof (lead_not_white x) as Hx. cbn [chars String.append String.app] in H |- *.
  assert (Hone : char_len x <> 1%nat -> forallb is_white (String x EmptyString :: chars a) = true -> False)
    by (cbn [forallb]; intros Hne; rewrite (Hx Hne); done).
  destruct (char_len x) as [|[|[|[|[|k]]]]] eqn:Hlen.
  all: try (by destruct (Hone ltac:(lia) H)).
  - apply andb_true_iff in H as [_ H]. simpl. rewrite Hlen. f_equal. by apply (IH (String.length a)); [cbn; lia|..].
  - destruct a as [|y a]; [by destruct (Hone ltac:(lia) H)|]. apply andb_true_iff in H as [_ H].
    simpl. rewrite Hlen. f_equal. by apply (IH (String.length a)); [cbn; lia|..].
  - destruct a as [|y [|z a]]; [by destruct (Hone ltac:(lia) H)..|]. apply andb_true_iff in H as [_ H].
    simpl. rewrite Hlen. f_equal. by apply (IH (String.length a)); [cbn; lia|..].
  - destruct a as [|y [|z [|u a]]]; [by destruct (Hone ltac:(lia) H)..|]. apply andb_true_iff in H as [_ H].
    simpl. rewrite Hlen. f_equal. by apply (IH (String.length a)); [cbn; lia|..].
Qed.

Lemma skip_white_app (l k : list string) : forallb is_white l = true -> skip_white (l ++ k) = skip_white k.
Proof.
  induction l as [|c l IH]; [done|]. cbn. intros H. apply andb_true_iff in H as [-> H]. by apply IH.
Qed.

Lemma forallb_reverse (l : list string) : forallb is_white l = true -> forallb is_white (reverse l) = true.
Proof. rewrite !forallb_forall. intros H c Hc. apply H. rewrite <- list_elem_of_In in *. by apply elem_of_reverse. Qed.

(** White space around a one is not part of it. *)
Lemma trim_around (a b : string) : all_space a = true -> all_space b = true ->
  trim (a +:+ ("1" +:+ b)) = "1"%string.
Proof.
  intros Ha Hb. unfold trim. rewrite chars_space by done. rewrite skip_white_app by done.
  change (chars ("1" +:+ b)) with ("1"%string :: chars b).
  change (skip_white ("1"%string :: chars b)) with (["1"%string] ++ chars b).
  rewrite reverse_app, skip_white_app by (by apply forallb_reverse). done.
Qed.

(** One sysctl: what was done and with what result. *)
Definition sysctl_done (path value : string) (r : result worker_error unit) (calls : list call) : Prop :=
  match r with
  | Ok _ => exists contents,
      (trim contents = value /\ calls = [called (ReadFile path) (Ok contents)]) \/
      (trim contents <> value /\
       calls = [called (ReadFile path) (Ok contents); called (WriteFile path (value +:+ newline)) (Ok tt)])
  | Err (SysctlReadFailed p e) => p = path /\ calls = [called (ReadFile path) (Err e)]
  | Err (SysctlWriteFailed p v e) => p = path /\ v = value /\ exists contents, trim contents <> value /\
      calls = [called (ReadFile path) (Ok contents); called (WriteFile path (value +:+ newline)) (Err e)]
  | Err _ => False
  end.

Lemma set_proc_sysctl_run {W : Type} {K : Kernel W} (stuck : Prop) (path value : string) (w : world W) :
  run stuck (set_proc_sysctl path value) w (fun r w' => exists calls,
    log w' = log w ++ calls /\ sysctl_done path value r calls).
Proof.
  unfold set_proc_sysctl. call_with a w1 H1. destruct a as [contents|e].
  2: { apply run_ret. eexists. split; [exact H1|]. by split. }
  destruct (String.eqb_spec (trim contents) value) as [Heq|Hne]; cbn [negb].
  { apply run_ret. eexists. split; [exact H1|]. exists contents. by left. }
  call_with a w2 H2. apply run_ret. eexists. split; [exact (log_two _ _ _ _ _ H1 H2)|].
  destruct a as [[]|e]; [exists contents; by right|]. split; [done|]. split; [done|]. by exists contents.
Qed.

(** C31: the sysctls.  With [--no-sysctl] nothing is touched.  Otherwise each sysctl
    is read, and written exactly when it does not already hold the value, Unicode white
    space around it aside (so a read-only system with the right settings works);
    a failure for event delivery is an error that names the path, before the other is
    touched, and a failure for accounting is not an error. *)
Theorem sysctls_are_set {W : Type} {K : Kernel W} (args : Args) (w : world W) :
  ends (apply_conntrack_sysctl_settings args) w (fun r w' => exists calls, log w' = log w ++ calls /\
    if no_sysctl args then r = Ok tt /\ calls = []
    else match r with
         | Ok _ => exists c1 c2 r2, calls = c1 ++ c2 /\
             sysctl_done CONNTRACK_EVENTS_SYSCTL "1" (Ok tt) c1 /\ sysctl_done CONNTRACK_ACCT_SYSCTL "1" r2 c2
         | Err e => sysctl_done CONNTRACK_EVENTS_SYSCTL "1" (Err e) calls
         end) /\
  forall a b, all_space a = true -> all_space b = true -> trim (a +:+ ("1" +:+ b)) = "1"%string.
Proof.
  split; [|intros a b Ha Hb; by apply trim_around].
  unfold apply_conntrack_sysctl_settings. destruct (no_sysctl args).
  { apply run_ret. exists []. by rewrite app_nil_r. }
  eapply run_bind; [apply set_proc_sysctl_run|]. intros [[]|e] w1 (c1 & H1 & Hs1); [|apply run_ret; by exists c1].
  eapply run_bind; [apply set_proc_sysctl_run|]. intros r2 w2 (c2 & H2 & Hs2). apply run_ret.
  exists (c1 ++ c2). split; [exact (log_two _ _ _ _ _ H1 H2)|]. by exists c1, c2, r2.
Qed.

Lemma sysctls_are_set_witness : trim (" " +:+ ("1" +:+ newline)) = "1"%string.
Proof.
  apply (proj2 (@sysctls_are_set machine machine_kernel (demo_args 30) demo_world) " "%string newline).
  - reflexivity.
  - reflexivity.
Defined.
