(* ===== verification/WorkerStream.v ===== *)
(** * The stream of a whole run

    What the collector sees of a run of [run_worker] in [src/main.rs], from the
    arguments to the exit: numbered messages that hold what was received. *)

From stdpp Require Import base list numbers strings gmap.
From Stdlib Require Import ZArith Lia.
From S2P Require Import Prelude Constants Elements Event Template Record Encoder EncoderSpec EncoderProps CollectorProps ExporterSpec System Socket Signals Worker WorkerLog WorkerFrame WorkerProps WorkerRefines WorkerMain.
Import Exporter.
Local Open Scope Z_scope.

(** C4: the collector can tell what it missed.  With flags that pass validation and a
    template interval of at most 2^62 seconds, on any kernel, the worker does not panic, and the
    datagrams that it hands to [send] in its whole run are messages of the configured domain of
    which number [i] carries, modulo 2^32, the count of the records (IPFIX) or messages
    (NetFlow v9) before it, failed sends included; none is empty, none is overfull, the
    first carries the template.  They hold, in order, the events received: all of them
    if the worker exits on a signal; if it exits with an error, all but the last
    ones, which were in the open message and fit in one. *)
Theorem worker_sends_a_numbered_stream {T : Target} {W : Type} {K : Kernel W} (args : Args)
    (fuel : nat) (w : world W) :
  pointer_width = 64 -> sane_clock W -> is_u32 (domain_id args) -> is_u16 (arg_template_id args) ->
  ~ bad_flags args -> template_interval args <= 2 ^ 62 -> 1 + Z.of_nat fuel * pass_cost <= 2 ^ 60 ->
  runs (run_worker fuel args) w (fun r w' => exists t calls ms rest,
    configure args = Done (Ok t) /\ log w' = log w ++ calls /\
    length (sent calls) = length ms /\ (template_first ms \/ ms = []) /\
    (forall i m d, ms !! i = Some m -> sent calls !! i = Some d ->
       numbered t (domain_id args) (exports t (take i ms)) m d) /\
    contents ms ++ rest = events (packets calls) /\
    match r with Ok _ => rest = [] | Err _ => one_message t rest end).
Proof.
  intros H64 Hclock Hdom Hid Hgood Hint Hfuel. assert (Hpc : 1 <= pass_cost) by (by vm_compute).
  destruct (configure_cases args Hid) as [[Hbad _]|(_ & width & t & Ht & Hres)]; [done|].
  destruct (resolve_ok _ _ _ _ _ Hid Hres) as [_ Htok].
  eapply run_conseq; [apply (run_worker_run t args H64 Hclock Htok Hdom True fuel (fun _ => True) ltac:(done)
    (fun s w r w' => exists rest, numbered_stream t (domain_id args) w rest w' /\
       match r with Ok _ => rest = [] | Err _ => one_message t rest end)); try done|].
  - intros cfg s w' Hi (Hinit & Hdomain & Hseq) _. rewrite <- Hdomain. apply event_loop_numbered; try done.
    + rewrite Hi. unfold secs. lia.
    + apply fresh_roomy; [apply (in_fresh _ _ Hinit)|lia].
  - intros r w' [(e & -> & Hq)|(s & w1 & ended & w2 & Hq1 & _ & (rest & Hn & Hr) & Hq2 & ->)].
    + destruct Hq as (calls & L & S). destruct (silent_calls calls S) as [Hs Hp].
      exists t, calls, [], []. rewrite Hs, Hp. do 3 (split; [done|]). split; [by right|]. split; [done|]. split; [done|by left].
    + destruct (numbered_stream_around _ _ _ _ _ _ _ Hq1 Hn Hq2) as (calls & ms & L & Hlen & Hf & Hnum & Hc).
      exists t, calls, ms, rest. split_and!; try done. by destruct ended.
Qed.

(** The run of [demo_worker_run]: two messages, number 0 and, no record being in the
    first, again 0; between them they hold what was received. *)
Lemma worker_sends_a_numbered_stream_witness :
  exists w' t ms, run_worker (T := x86_64_debug) 5 (demo_args 30) demo_world = Done (Ok tt, w') /\
    configure (T := x86_64_debug) (demo_args 30) = Done (Ok t) /\ length ms = 2%nat /\
    (forall i m d, ms !! i = Some m -> sent (log w') !! i = Some d -> numbered t 7 (exports t (take i ms)) m d) /\
    contents ms = events (T := x86_64_debug) (packets (log w')).
Proof.
  destruct (runs_ends_well _ _ _ _ demo_worker_run
    (@worker_sends_a_numbered_stream x86_64_debug machine machine_kernel (demo_args 30) 5 demo_world
       eq_refl machine_clock_sane ltac:(closed_bounds) ltac:(closed_bounds) demo_flags_good
       ltac:(vm_compute; discriminate) ltac:(vm_compute; discriminate)))
    as (w' & Hrun & (Hsent & _) & t & calls & ms & rest & Ht & Hl & Hlen & _ & Hnum & Hc & Hr).
  change (log w' = calls) in Hl. subst calls. rewrite Hr, app_nil_r in Hc.
  exists w', t, ms. split; [exact Hrun|]. split; [exact Ht|]. split; [|exact (conj Hnum Hc)].
  rewrite <- Hlen. apply (f_equal (@length Z)) in Hsent. rewrite length_map in Hsent. exact Hsent.
Defined.
