(* ===== verification/WorkerStops.v ===== *)
(** * The worker stops

    On a kernel that delivers a shutdown signal after finitely many wakeups, the
    event loop ends, with everything exported.  The kernel's side of that is a
    measure; the worker's side is that a pass that goes round again has used up
    some of it. *)

From stdpp Require Import base list numbers strings.
From Stdlib Require Import ZArith Lia.
From S2P Require Import Prelude Constants Elements Event Template Record Encoder EncoderSpec EncoderProps CollectorProps System Socket Signals Worker WorkerLog WorkerFrame WorkerProps WorkerMain.
Local Open Scope Z_scope.

(** The kernel wakes the worker at most [mu] times before it reports a shutdown
    signal: a poll that reports none, or is interrupted, uses one up.  A
    descriptor reported readable has a signal to read; and there are never more
    than [limit] signals and interruptions to read, [pend] of them left. *)
Record brings_signal {W : Type} {K : Kernel W} (mu pend : W -> nat) (limit : nat) : Prop := {
  bs_mono : forall c k, (mu (k_call c k).2 <= mu k)%nat;
  bs_poll : forall nl sg timeout k,
    let '(polled, k') := k_call (Poll [nl; sg] timeout) k in
    match polled with
    | Ok (_, revents) => if readable revents 1
        then exists signo, (k_call (ReadSignal sg) k').1 = Ok (Some signo)
        else (mu k' < mu k)%nat
    | Err Interrupted => (mu k' < mu k)%nat
    | Err _ => True
    end;
  bs_finite : finitely_pending pend limit
}.

Section Stops.
Context {T : Target} {W : Type} {K : Kernel W} (cfg : config) (mu pend : W -> nat) (limit : nat).
Context (Hmu : brings_signal mu pend limit).

(** Worlds between which the measure does not grow. *)
Definition falls (w w' : world W) : Prop := (mu (kernel w') <= mu (kernel w))%nat.

#[local] Instance falls_preorder : PreOrder falls.
Proof using Type. split; [intros w|intros w1 w2 w3]; unfold falls; lia. Qed.

Lemma request_falls (c : syscall) : keeps falls (request c).
Proof using Hmu.
  intros w a w' H. unfold request in H. pose proof (bs_mono _ _ _ Hmu c (kernel w)) as Hm.
  destruct (k_call c (kernel w)) as [a1 k]. injection H as <- <-. exact Hm.
Qed.

(** A signal that is there is read. *)
Lemma read_pending_first (fuel : nat) (fd signo : Z) (w w' : world W) (r : result io_error (list Z)) :
  (k_call (ReadSignal fd) (kernel w)).1 = Ok (Some signo) -> read_pending fuel fd w = Done (r, w') ->
  exists rest, log w' = log w ++ called (ReadSignal fd) (Ok (Some signo)) :: rest.
Proof using Type.
  intros Ha H. unfold read_pending in H. destruct fuel as [|fuel]; [done|]. cbn [sys_loop] in H.
  unfold read_one at 1, request, mbind, sys_bind in H.
  destruct (k_call (ReadSignal fd) (kernel w)) as [a k]. cbn [fst] in Ha. subst a. cbn [mret sys_ret] in H.
  assert (Hk : keeps (extends (fun _ => True)) (sys_loop fuel (read_one fd) ([] ++ [signo]))).
  { apply keeps_loop; [apply _|]. intros l. apply read_one_keeps; [apply _|]. by apply only_request. }
  apply Hk in H as (rest & Hl & _). exists rest. rewrite Hl. cbn [log]. by rewrite <- app_assoc.
Qed.

(** So a descriptor that is reported readable ends the loop. *)
Lemma check_signals_stops (fuel : nat) (signo : Z) (w w' : world W) (r : result worker_error bool) :
  (k_call (ReadSignal (sig_fd cfg)) (kernel w)).1 = Ok (Some signo) ->
  check_signals fuel cfg true w = Done (r, w') -> r <> Ok true.
Proof using Type.
  intros Ha H. pose proof (check_signals_done cfg fuel true w w' r H) as (calls & Hl & _ & Hr).
  unfold check_signals in H. apply sys_bind_inv in H as (l & w1 & Hread & H). injection H as Hr' <-.
  apply (read_pending_first _ _ signo) in Hread as [rest Hl']; [|done]. rewrite Hl' in Hl.
  apply app_inv_head in Hl. subst calls. intros ->. by cbn in Hr.
Qed.

Lemma poll_with_falls (timeout : Z) (w w' : world W) (polled : result io_error (bool * bool)) :
  poll_with (nl_fd cfg) (sig_fd cfg) timeout w = Done (polled, w') ->
  match polled with
  | Ok (_, true) => exists signo, (k_call (ReadSignal (sig_fd cfg)) (kernel w')).1 = Ok (Some signo)
  | Ok (_, false) | Err Interrupted => (mu (kernel w') < mu (kernel w))%nat
  | Err _ => True
  end.
Proof using Hmu.
  unfold poll_with, request, mbind, sys_bind. pose proof (bs_poll _ _ _ Hmu (nl_fd cfg) (sig_fd cfg) timeout (kernel w)) as Hp.
  destruct (k_call (Poll _ timeout) (kernel w)) as [a k]. intros [= <- <-].
  destruct a as [[n revents]|[]]; exact Hp.
Qed.

(** A pass that goes round again uses up one of the wakeups left. *)
Lemma pass_decreases (fuel : nat) (s s' : loop_state) (w w' : world W) :
  worker_pass fuel cfg s w = Done (Continue s', w') -> (mu (kernel w') < mu (kernel w))%nat.
Proof using Hmu.
  intros H. pose proof request_falls as Hf.
  apply worker_pass_inv in H as (tm & w1 & s2 & w2 & s3 & w3 & tmo & w4 & polled & w5 & H1 & H2 & H3 & H4 & H5 & H).
  apply poll_with_falls in H5.
  assert (Hpre : falls w w4).
  { apply (now_keeps falls) in H1; [|auto..]. apply (report_stats_keeps falls) in H2; [|auto..].
    apply (send_template_keeps falls) in H3; [|auto..]. apply (poll_timeout_keeps falls) in H4; [|auto..].
    by repeat (etransitivity; [eassumption|]). }
  unfold falls in Hpre. destruct polled as [[ready signalled]|[]]; [|done|injection H as _ <-; lia|done].
  apply sys_bind_inv in H as (go_on & w6 & H6 & H). destruct go_on as [[]|e]; [|done..].
  destruct signalled.
  - destruct H5 as [signo Hs]. by destruct (check_signals_stops _ _ _ _ _ Hs H6).
  - apply (check_signals_keeps falls) in H6; [|auto].
    assert (Hpost : falls w6 w') by (eapply (handle_poll_keeps falls cfg); [auto..|exact H]).
    unfold falls in *. lia.
Qed.

Context (t : Template).
Context (H64 : pointer_width = 64) (Hclock : sane_clock W) (Hinterval : interval cfg <= secs (2 ^ 62)).

Lemma event_loop_ends (fuel : nat) (s : loop_state) (w : world W) :
  initial t s -> roomy s (1 + Z.of_nat fuel * pass_cost) -> (limit < fuel)%nat -> (mu (kernel w) < fuel)%nat ->
  ends (event_loop fuel cfg s) w (shut_down t w).
Proof using H64 Hclock Hinterval Hmu.
  intros Hinit Hroom Hlim Hfuel. assert (Hpc : 1 <= pass_cost) by (by vm_compute).
  apply (event_loop_from t cfg Hclock).
  apply (ends_loop_budget _ (loop_at t w) _ (fun w => mu (kernel w))); [|by apply loop_at_start|done].
  intros n s1 w1 (buf & ms & Hinv & Hr).
  pose proof (worker_pass_ends t cfg H64 Hclock Hinterval pend limit fuel w w1 s1 buf ms (bs_finite _ _ _ Hmu) Hlim
                Hinv ltac:(eapply roomy_less; [exact Hr|lia])) as Hrun.
  unfold run in *. destruct (worker_pass fuel cfg s1 w1) as [[step w2]| |] eqn:E; [|done..].
  apply (passed_on t n) in Hrun; [|done]. destruct step as [s2|r]; [|done]. split; [done|].
  by eapply pass_decreases.
Qed.

End Stops.

(** C2: the worker stops.  On a kernel that brings a shutdown signal after finitely
    many wakeups, [run_worker] ends, and with everything exported: the messages it
    handed to [send] hold one record per NAT event received, in order, all of them
    unless the run failed and then all but at most one message, and a collector has
    those for which [send] succeeded ([handed_over]).  Enough fuel is one pass more than the wakeups left and
    one read more than the signals that can be pending. *)
Theorem worker_stops_on_a_signal {T : Target} {W : Type} {K : Kernel W} (mu pend : W -> nat) (limit : nat)
    (args : Args) (fuel : nat) (w : world W) :
  pointer_width = 64 -> sane_clock W -> brings_signal mu pend limit ->
  is_u32 (domain_id args) -> is_u16 (arg_template_id args) ->
  ~ bad_flags args -> template_interval args <= 2 ^ 62 -> 1 + Z.of_nat fuel * pass_cost <= 2 ^ 60 ->
  (limit < fuel)%nat -> (mu (kernel w) < fuel)%nat ->
  ends (run_worker fuel args) w (exported args w).
Proof.
  intros H64 Hclock Hmu Hdom Hid Hgood Hint Hfuel Hlim Hw. assert (Hpc : 1 <= pass_cost) by (by vm_compute).
  apply (run_worker_exports False (fun w => (mu (kernel w) < fuel)%nat)); try done.
  - intros c w1 a w2 H. apply (request_falls mu pend limit Hmu) in H. unfold falls, carries in *. lia.
  - intros t cfg s w' Hi Hinit Hw'. apply (event_loop_ends cfg mu pend limit); try done.
    apply fresh_roomy; [apply (in_fresh _ _ Hinit)|lia].
Qed.

(** ** An alarm *)

(** The small machine with a timer that, after so many polls, raises SIGTERM. *)
Record alarm := { machine_of : machine; ticks : nat; raised : bool }.

Definition alarm_call (c : syscall) (k : alarm) : answer c * alarm :=
  match c return answer c * alarm with
  | Poll _ _ =>
      match ticks k with
      | O => (Ok (1, [0; 1]), {| machine_of := machine_of k; ticks := 0; raised := true |})
      | S n => (let nl := if bool_decide (queue (machine_of k) = []) then 0 else 1 in Ok (nl, [nl; 0]),
                {| machine_of := machine_of k; ticks := n; raised := raised k |})
      end
  | ReadSignal _ =>
      (if raised k then Ok (Some SIGTERM) else Err WouldBlock,
       {| machine_of := machine_of k; ticks := ticks k; raised := false |})
  | c => let '(a, m) := machine_call c (machine_of k) in
         (a, {| machine_of := m; ticks := ticks k; raised := raised k |})
  end.

#[export] Instance alarm_kernel : Kernel alarm.
Proof.
  refine {| k_call := alarm_call |}. intros fd vlen k l H.
  apply (k_recvmmsg_ok (W := machine) fd vlen (machine_of k)). cbn in H |- *.
  destruct (machine_recv vlen (machine_of k)) as [a m]. exact H.
Defined.

Definition alarm_pend (k : alarm) : nat := if raised k then 1 else 0.

Lemma alarm_brings : brings_signal ticks alarm_pend 1.
Proof.
  split.
  - intros c [m n r]. cbn [k_call alarm_kernel]. destruct c; cbn [alarm_call ticks];
      try (destruct (machine_call _ _); done); try (destruct n; cbn; lia); done.
  - intros nl sg timeout [m [|n] r]; [by exists SIGTERM|]. exact (Nat.lt_succ_diag_r n).
  - split; [|intros [m n []]; cbn; lia].
    intros sg [m n r] a k' [= <- <-] H. destruct r; [cbn; lia|]. by destruct H as [|[? ?]].
Qed.

Lemma alarm_clock : sane_clock alarm.
Proof. intros [m n r]. exact (machine_clock_sane m). Qed.

Definition alarm_world : world alarm :=
  {| kernel := {| machine_of := demo_machine; ticks := 3; raised := false |}; log := [] |}.

Lemma worker_stops_on_a_signal_witness :
  ends (run_worker (T := x86_64_debug) 5 (demo_args 30)) alarm_world (exported (T := x86_64_debug) (demo_args 30) alarm_world).
Proof.
  apply (@worker_stops_on_a_signal x86_64_debug alarm alarm_kernel ticks alarm_pend 1 (demo_args 30) 5 alarm_world).
  - reflexivity.
  - apply alarm_clock.
  - apply alarm_brings.
  - closed_bounds.
  - closed_bounds.
  - apply demo_flags_good.
  - vm_compute. discriminate.
  - vm_compute. discriminate.
  - lia.
  - vm_compute. lia.
Defined.
