(* ===== verification/WorkerTemplate.v ===== *)
(** * The template on an idle link

    A collector that forgets templates after a while is kept up to date: while no
    message is open the worker never sleeps past the time the template is due, and
    when it is due it goes out, alone, before the worker sleeps again. *)

From stdpp Require Import base list numbers strings.
From Stdlib Require Import ZArith Lia.
From S2P Require Import Prelude Constants Elements Event Template Record Encoder EncoderSpec EncoderProps CollectorProps System Socket Signals Worker WorkerLog WorkerFrame WorkerProps WorkerStops.
Local Open Scope Z_scope.

Section Idle.
Context {T : Target} {W : Type} {K : Kernel W} (t : Template) (cfg : config).

(** Whether the template is to be sent in a pass that starts at [tm]. *)
Definition template_is_due (s : loop_state) (tm : Z) : bool :=
  include_template (exp s) || (interval cfg <=? duration_since tm (last_template_time (exp s))).

Lemma check_template_due_include (s : loop_state) (tm : Z) :
  include_template (exp (check_template_due cfg tm s)) = template_is_due s tm /\
  message_active (check_template_due cfg tm s) = message_active s /\
  encoder (exp (check_template_due cfg tm s)) = encoder (exp s) /\
  last_template_time (exp (check_template_due cfg tm s)) = last_template_time (exp s).
Proof.
  unfold check_template_due, template_is_due. destruct (interval cfg <=? _); cbn; [by rewrite orb_true_r|].
  by rewrite orb_false_r.
Qed.

(** Reporting sends nothing and leaves the exporter alone. *)
Lemma report_stats_idle (tm : Z) (s s' : loop_state) (w w' : world W) :
  report_stats cfg tm s w = Done (s', w') ->
  exp s' = exp s /\ message_active s' = message_active s /\
  exists calls, log w' = log w ++ calls /\ sent calls = [].
Proof.
  intros H. pose proof H as H'. apply (report_stats_keeps (extends (fun c => sent_in c = None))) in H' as (calls & Hl & Hs);
    [|deaf..].
  apply report_stats_same in H as (He & Ha & _). split_and!; try done. exists calls. split; [done|]. unfold sent.
  clear -Hs. induction Hs as [|c calls Hc _ IH]; [done|]. cbn. by rewrite Hc, IH.
Qed.

(** A template sent alone: two readings of the clock, and the message. *)
Lemma send_template_due (s s' : loop_state) (w w' : world W) :
  idle t (exp s) -> message_active s = false -> include_template (exp s) = true ->
  send_template s w = Done (s', w') ->
  exists c1 c2 m a, message_of t (true, []) m /\
    log w' = log w ++ [called ClockNow c1; called ClockNow c2; called (UdpSend m) a] /\
    last_template_time (exp s') = instant c1 /\ message_active s' = false /\ include_template (exp s') = false.
Proof.
  intros [Hok Ht] Hact Hinc H. unfold send_template in H. rewrite Hact, Hinc in H. cbn [andb negb] in H.
  destruct (begin_message_done _ true Hok) as (e & Hbegin & Hb & (Hte & _) & _).
  rewrite Hbegin, lift_done_bind in H. apply sys_bind_inv in H as (x & w3 & H & Hret). injection Hret as <- <-.
  unfold flush_message in H. cbn [encoder set_encoder] in H.
  rewrite (has_pending_building _ _ _ Hb) in H. cbn [orb negb] in H. unfold settle_schedule, send_message in H.
  cbn [encoder set_encoder] in H. rewrite (bd_incl _ _ _ Hb) in H.
  apply sys_bind_inv in H as (x1 & w1 & H1 & H). apply sys_bind_inv in H1 as (tm & w1' & H1 & Hx1).
  apply now_inv in H1 as (c1 & -> & Hl1). injection Hx1 as <- <-. cbn [encoder] in H.
  apply sys_bind_inv in H as (c2 & w2 & H2 & H). apply (request_inv ClockNow c2) in H2.
  destruct (finalize_done e true [] c2 Hb) as (e' & Hfin & _).
  rewrite Hfin, lift_done_bind in H. cbv beta iota in H.
  apply sys_bind_inv in H as (a & w4 & H4 & H). apply (request_inv (UdpSend _) a) in H4.
  exists c1, c2, (message_bytes (template e) true [] (header_of e c2)), a.
  assert (Hlog : log w4 = log w ++ [called ClockNow c1; called ClockNow c2;
    called (UdpSend (message_bytes (template e) true [] (header_of e c2))) a])
    by (rewrite H4, H2, Hl1, <- !app_assoc; done).
  assert (Htt : template e = t) by congruence.
  split; [rewrite Htt; by apply message_of_building|].
  destruct a as [n|err]; [injection H as <- <-; done|].
  apply sys_bind_inv in H as (n & w5 & H5 & H). apply lift_inv in H5 as [_ ->]. injection H as <- <-. done.
Qed.

(** A pass with no message open, up to its poll. *)
Definition idle_pass (s : loop_state) (calls : list call) : Prop :=
  exists c0 stats tpl c1 timeout a post template_time,
    calls = (called ClockNow c0 :: stats ++ tpl ++ [called ClockNow c1]) ++
            called (Poll [nl_fd cfg; sig_fd cfg] timeout) a :: post /\
    sent stats = [] /\
    (if template_is_due s (instant c0)
     then exists c2 c3 m sent_ok, tpl = [called ClockNow c2; called ClockNow c3; called (UdpSend m) sent_ok] /\
            message_of t (true, []) m /\ template_time = instant c2
     else tpl = [] /\ template_time = last_template_time (exp s)) /\
    0 <= timeout /\ timeout * 10 ^ 6 <= Z.max 0 (template_time + interval cfg - instant c1).

Lemma ms_until_in_time (deadline other now : Z) :
  ms_until (Z.min deadline other) now * 10 ^ 6 <= Z.max 0 (deadline - now).
Proof.
  unfold ms_until, duration_since.
  pose proof (Z.mul_div_le (Z.max 0 (Z.min deadline other - now)) (10 ^ 6) ltac:(done)) as Hd.
  destruct (Z.leb_spec (Z.max 0 (Z.min deadline other - now) / 10 ^ 6) i32_max); lia.
Qed.

Lemma poll_timeout_idle (s : loop_state) (timeout : Z) (w w' : world W) :
  message_active s = false -> poll_timeout cfg s w = Done (timeout, w') ->
  exists c, log w' = log w ++ [called ClockNow c] /\ 0 <= timeout /\
    timeout * 10 ^ 6 <= Z.max 0 (last_template_time (exp s) + interval cfg - instant c).
Proof.
  intros Hact. unfold poll_timeout. rewrite Hact. intros H.
  apply sys_bind_inv in H as (d1 & w1 & H1 & H). apply lift_inv in H1 as [H1 ->].
  apply sys_bind_inv in H as (d2 & w2 & H2 & H). apply lift_inv in H2 as [_ ->].
  apply sys_bind_inv in H as (tm & w3 & H3 & H). apply now_inv in H3 as (c & -> & Hl). injection H as <- <-.
  exists c. split; [done|]. split; [apply ms_until_bounds|].
  unfold instant_add in H1. destruct (_ <? _); [|done]. injection H1 as <-. apply ms_until_in_time.
Qed.

Lemma worker_pass_idle (fuel : nat) (s : loop_state) (w w' : world W)
    (step : flow loop_state (result worker_error loop_state)) :
  idle t (exp s) -> message_active s = false -> worker_pass fuel cfg s w = Done (step, w') ->
  exists calls, log w' = log w ++ calls /\ idle_pass s calls.
Proof.
  intros Hidle Hact H.
  apply worker_pass_inv in H as (tm & w1 & s2 & w2 & s3 & w3 & timeout & w4 & polled & w5 & H1 & H2 & H3 & H4 & H5 & H).
  apply now_inv in H1 as (c0 & -> & Hl1).
  destruct (check_template_due_include s (instant c0)) as (Hi & Ha & He & Hlt).
  set (s1 := check_template_due cfg (instant c0) s) in *.
  apply report_stats_idle in H2 as (Hx2 & Ha2 & stats & Hl2 & Hs2).
  assert (Hidle2 : idle t (exp s2)) by (unfold idle in *; by rewrite Hx2, He).
  assert (Hact2 : message_active s2 = false) by congruence.
  assert (Htpl : exists tpl tt, log w3 = log w2 ++ tpl /\ message_active s3 = false /\
    last_template_time (exp s3) = tt /\
    if template_is_due s (instant c0)
    then exists c2 c3 m a, tpl = [called ClockNow c2; called ClockNow c3; called (UdpSend m) a] /\
           message_of t (true, []) m /\ tt = instant c2
    else tpl = [] /\ tt = last_template_time (exp s)).
  { rewrite <- Hx2 in Hi. destruct (template_is_due s (instant c0)) eqn:Hdue.
    - destruct (send_template_due s2 s3 w2 w3 Hidle2 Hact2 Hi H3) as (c2 & c3 & m & a & Hm & Hl & Ht & Hact3 & _).
      do 2 eexists. split; [exact Hl|]. split; [done|]. split; [exact Ht|]. by exists c2, c3, m, a.
    - unfold send_template in H3. rewrite Hi in H3. injection H3 as <- <-. exists [], (last_template_time (exp s)).
      rewrite app_nil_r. split_and!; try done. by rewrite Hx2. }
  destruct Htpl as (tpl & tt & Hl3 & Hact3 & Htt & Htpl).
  apply poll_timeout_idle in H4 as (c1 & Hl4 & H0 & Hin); [|done]. rewrite Htt in Hin.
  unfold poll_with in H5.
  apply sys_bind_inv in H5 as (a & w5' & H5 & Hret). injection Hret as <- <-. apply (request_inv (Poll _ _) a) in H5.
  apply (after_poll_keeps (extends (fun _ => True)) cfg) in H as (post & Hpost & _); [|deaf..].
  eexists. split.
  - exact (log_two _ _ _ _ _ (log_two _ _ _ _ _ (log_two _ _ _ _ _ (log_two _ _ _ _ _ (log_two _ _ _ _ _ Hl1 Hl2) Hl3) Hl4) H5) Hpost).
  - exists c0, stats, tpl, c1, timeout, a, post, tt.
    split; [rewrite <- !app_assoc; cbn [app]; by rewrite <- !app_assoc|]. by split_and!.
Qed.

End Idle.

(** C37: on an idle link the template goes out on time.  In every state of the event
    loop with no message open, the next pass returns, on a kernel that has only
    finitely many signals to give; it reads the clock; it sends exactly one message
    before it polls, one that holds the template and no record, if the template was
    never sent or the interval has passed since it was, and none otherwise; and
    then it sleeps no longer than until the template is due again. *)
Theorem idle_template_on_time {T : Target} {W : Type} {K : Kernel W} (t : Template) (cfg : config)
    (pend : W -> nat) (limit fuel n : nat) (s0 s : loop_state) (w0 w : world W) :
  pointer_width = 64 -> sane_clock W -> interval cfg <= secs (2 ^ 62) ->
  finitely_pending pend limit -> (limit < fuel)%nat ->
  initial t s0 -> roomy s0 (Z.of_nat (S n) * pass_cost) -> reachable cfg fuel s0 w0 n s w ->
  message_active s = false ->
  ends (worker_pass fuel cfg s) w (fun _ w' => exists calls, log w' = log w ++ calls /\ idle_pass t cfg s calls).
Proof.
  intros H64 Hclock Hint Hfin Hlim Hinit Hroom Hreach Hact. assert (Hpc : 1 <= pass_cost) by (by vm_compute).
  destruct (reachable_inv t cfg H64 Hclock Hint fuel n s0 s w0 w pass_cost Hinit) as (buf & ms & Hinv & Hbud);
    [eapply roomy_less; [exact Hroom|lia]|lia|done|].
  pose proof (worker_pass_ends t cfg H64 Hclock Hint pend limit fuel w0 w s buf ms Hfin Hlim Hinv Hbud) as Hrun.
  unfold run in *. destruct (worker_pass fuel cfg s w) as [[step w']| |] eqn:Hpass; [|done..].
  apply (worker_pass_idle t cfg fuel s w w' step); [|done|done].
  pose proof (li_holding _ _ _ _ _ _ Hinv) as Hh. unfold holding in Hh. rewrite Hact in Hh. apply Hh.
Qed.

(** The first pass of a run, evaluated: the template is sent, then the poll. *)
Definition sends_then_polls (calls : list call) : bool :=
  match calls with
  | existT ClockNow _ :: existT ClockNow _ :: existT ClockNow _ :: existT (UdpSend _) _ :: existT ClockNow _ ::
    existT (Poll _ timeout) _ :: _ => (0 <=? timeout) && (timeout <=? 30000)
  | _ => false
  end.

Example first_pass_sends :
  match ReceiveBatch_new (T := x86_64_debug) RECV_BATCH_SIZE RECV_SLOT_SIZE with
  | Done b => match worker_pass (T := x86_64_debug) 5 demo_config (demo_state b) alarm_world with
              | Done (_, w) => sends_then_polls (log w)
              | _ => false
              end
  | _ => false
  end = true.
Proof. vm_compute. reflexivity. Qed.

Lemma idle_template_on_time_witness :
  exists b, ReceiveBatch_new (T := x86_64_debug) RECV_BATCH_SIZE RECV_SLOT_SIZE = Done b /\
    ends (worker_pass (T := x86_64_debug) 5 demo_config (demo_state b)) alarm_world
      (fun _ w' => exists calls, log w' = log alarm_world ++ calls /\ idle_pass demo_template demo_config (demo_state b) calls).
Proof.
  destruct demo_batch as (b & Hnew & Hb). exists b. split; [exact Hnew|].
  apply (@idle_template_on_time x86_64_debug alarm alarm_kernel demo_template demo_config alarm_pend 1 5 0
           (demo_state b) (demo_state b) alarm_world alarm_world).
  - reflexivity.
  - apply alarm_clock.
  - vm_compute. discriminate.
  - apply (bs_finite _ _ _ alarm_brings).
  - lia.
  - exact (demo_initial b Hb).
  - eapply roomy_less; [apply demo_roomy|vm_compute; discriminate].
  - apply reach_start.
  - reflexivity.
Defined.
