(* ===== verification/WorkerPanics.v ===== *)
(** * A template interval that is too long

    [run_worker] of [src/main.rs] accepts any template interval but zero.  Adding one of
    2^63 seconds or more to an [Instant] overflows, which panics: in the first pass of the
    event loop, once the template is out. *)

From stdpp Require Import base list numbers strings.
From Stdlib Require Import ZArith Lia.
From S2P Require Import Prelude Constants Elements Event Template Record Encoder EncoderSpec EncoderProps CollectorProps System Socket Signals Worker WorkerLog WorkerFrame WorkerProps WorkerMain WorkerStops WorkerTemplate.
Local Open Scope Z_scope.

(** ** Code that may overflow *)

Section Overflow.
Context {W : Type} {K : Kernel W}.

(** [m] ends in [Q], or with the panic of an overflow. *)
Definition overflows_or {A : Type} (m : sys W A) (w : world W) (Q : A -> world W -> Prop) : Prop :=
  match m w with
  | Done (a, w') => Q a w'
  | Panic why => why = ArithmeticOverflow
  | Exhausted => False
  end.

Lemma overflows_or_bind {A B : Type} (m : sys W A) (f : A -> sys W B) (w : world W)
    (P : A -> world W -> Prop) (Q : B -> world W -> Prop) :
  ends m w P -> (forall a w', P a w' -> overflows_or (f a) w' Q) -> overflows_or (m ≫= f) w Q.
Proof.
  unfold run, overflows_or, mbind, sys_bind. destruct (m w) as [[a w']| |]; [|done..]. intros HP Hf. by apply Hf.
Qed.

Lemma overflows_or_panic {A B : Type} (m : sys W A) (f : A -> sys W B) (w : world W) (Q : B -> world W -> Prop) :
  m w = Panic ArithmeticOverflow -> overflows_or (m ≫= f) w Q.
Proof. unfold overflows_or, mbind, sys_bind. by intros ->. Qed.

Lemma overflows_or_lift {A B : Type} (m : outcome A) (a : A) (f : A -> sys W B) (w : world W) (Q : B -> world W -> Prop) :
  m = Done a -> overflows_or (f a) w Q -> overflows_or (lift m ≫= f) w Q.
Proof. intros -> H. exact H. Qed.

Lemma overflows_or_ret {A : Type} (a : A) (w : world W) (Q : A -> world W -> Prop) :
  Q a w -> overflows_or (mret a) w Q.
Proof. done. Qed.

Lemma overflows_or_ends {A : Type} (m : sys W A) (w : world W) (P Q : A -> world W -> Prop) :
  ends m w P -> (forall a w', P a w' -> Q a w') -> overflows_or m w Q.
Proof. unfold run, overflows_or. destruct (m w) as [[a w']| |]; [|done..]. auto. Qed.

Lemma ends_done {A : Type} (m : sys W A) (w : world W) (Q : A -> world W -> Prop) :
  ends m w Q -> exists a w', m w = Done (a, w') /\ Q a w'.
Proof. unfold run. destruct (m w) as [[a w']| |]; [|done..]. intros HQ. by exists a, w'. Qed.

Lemma bind_done_eq {A B : Type} (m : sys W A) (f : A -> sys W B) (w w' : world W) (a : A) :
  m w = Done (a, w') -> (m ≫= f) w = f a w'.
Proof. unfold mbind, sys_bind. by intros ->. Qed.

End Overflow.

(** ** The first pass *)

Section Panics.
Context {T : Target} {W : Type} {K : Kernel W} (t : Template).
Context (H64 : pointer_width = 64) (Hclock : sane_clock W).
Context (Hpos : forall k : W, 0 <= instant (k_call ClockNow k).1).

Lemma now_nonneg (tm : Z) (w w' : world W) : now w = Done (tm, w') -> 0 <= tm.
Proof using Hpos.
  unfold now. intros H. apply sys_bind_inv in H as (c & w1 & H1 & H). injection H as <- <-. unfold request in H1.
  pose proof (Hpos (kernel w)) as Hc. destruct (k_call ClockNow (kernel w)) as [c' k]. by injection H1 as <- <-.
Qed.

(** The template that is sent first is stamped with a reading of the clock. *)
Lemma first_template_stamped (s s' : loop_state) (w w' : world W) :
  idle t (exp s) -> message_active s = false -> include_template (exp s) = true ->
  send_template s w = Done (s', w') -> 0 <= last_template_time (exp s').
Proof using Hpos.
  intros [Hok Ht] Hact Hinc H. unfold send_template in H. rewrite Hact, Hinc in H. cbn [andb negb] in H.
  destruct (begin_message_done _ true Hok) as (e & Hbegin & Hb & _).
  rewrite Hbegin, lift_done_bind in H. apply sys_bind_inv in H as (x & w3 & H & Hret). injection Hret as <- <-.
  unfold flush_message in H. cbn [encoder set_encoder] in H.
  rewrite (has_pending_building _ _ _ Hb) in H. cbn [orb negb] in H. unfold settle_schedule, send_message in H.
  cbn [encoder set_encoder] in H. rewrite (bd_incl _ _ _ Hb) in H.
  apply sys_bind_inv in H as (x1 & w1 & H1 & H). apply sys_bind_inv in H1 as (tm & w1' & H1 & Hx1).
  apply now_nonneg in H1. injection Hx1 as <- <-. cbn [encoder] in H.
  apply sys_bind_inv in H as (c2 & w2 & _ & H). destruct (finalize_done e true [] c2 Hb) as (e' & Hfin & _).
  rewrite Hfin, lift_done_bind in H. cbv beta iota in H. apply sys_bind_inv in H as (a & w4 & _ & H).
  destruct a as [n|err]; [by injection H as <- <-|].
  apply sys_bind_inv in H as (n & w5 & _ & H). by injection H as <- <-.
Qed.

Lemma instant_add_panics (a d : Z) : 0 <= a -> secs (2 ^ 63) <= d -> instant_add a d = Panic ArithmeticOverflow.
Proof using Type.
  intros Ha Hd. unfold instant_add. destruct (Z.ltb_spec ((a + d) / 10 ^ 9) (2 ^ 63)) as [Hlt|]; [|done].
  pose proof (Z.div_le_lower_bound (a + d) (10 ^ 9) (2 ^ 63)). unfold secs in *. lia.
Qed.

Lemma worker_pass_panics (cfg : config) (fuel : nat) (s : loop_state) (w : world W) :
  initial t s -> secs (2 ^ 63) <= interval cfg -> worker_pass fuel cfg s w = Panic ArithmeticOverflow.
Proof using H64 Hclock Hpos.
  intros Hinit Hint. pose proof (initial_inv t s w Hinit) as Hinv. pose proof Hinit as [Hidle Hinc Hact _ _ Hfresh].
  unfold worker_pass. destruct (ends_done _ _ _ (now_run Hclock False w)) as (tm & w1 & H1 & Htm & Hq1).
  rewrite (bind_done_eq _ _ _ _ _ H1). cbv zeta.
  assert (Hinv1 : loop_inv t w (check_template_due cfg tm s) w1 [] []).
  { apply check_template_due_inv. eapply loop_inv_quiet; try done. apply (li_timely _ _ _ _ _ _ Hinv). }
  destruct (check_template_due_include cfg s tm) as (Hi1 & Ha1 & He1 & _).
  set (s1 := check_template_due cfg tm s) in *.
  destruct (ends_done _ _ _ (report_stats_run t cfg False w w1 tm s1 [] [] Hinv1 Htm))
    as (s2 & w2 & H2 & Hinv2 & Hx2 & Ht2 & Hf2).
  pose proof (report_stats_idle cfg tm s1 s2 w1 w2 H2) as (_ & Ha2 & _).
  rewrite (bind_done_eq _ _ _ _ _ H2).
  assert (Hi2 : include_template (exp s2) = true) by (rewrite Hx2, Hi1; unfold template_is_due; by rewrite Hinc).
  assert (Hr2 : roomy s2 1).
  { pose proof (check_template_due_roomy cfg tm s 1 (fresh_roomy s 1 Hfresh ltac:(lia))) as Hr. fold s1 in Hr.
    unfold roomy in *. by rewrite Hx2, Ht2, Hf2. }
  destruct (ends_done _ _ _ (send_template_run t Hclock False w w2 s2 [] [] Hinv2 Hr2))
    as (s3 & w3 & H3 & _ & _ & _ & _ & Ha3).
  rewrite (bind_done_eq _ _ _ _ _ H3).
  assert (Ha2' : message_active s2 = false) by congruence.
  assert (Hidle2 : idle t (exp s2)) by (unfold idle in *; by rewrite Hx2, He1).
  pose proof (first_template_stamped s2 s3 w2 w3 Hidle2 Ha2' Hi2 H3) as Hstamp.
  unfold mbind, sys_bind, poll_timeout, mbind, sys_bind, lift. rewrite Ha3, Ha2'.
  by rewrite instant_add_panics.
Qed.

Lemma event_loop_panics (cfg : config) (fuel : nat) (s : loop_state) (w : world W) : (0 < fuel)%nat ->
  initial t s -> secs (2 ^ 63) <= interval cfg -> event_loop fuel cfg s w = Panic ArithmeticOverflow.
Proof using H64 Hclock Hpos.
  intros Hfuel Hinit Hint. destruct fuel as [|fuel]; [lia|]. unfold event_loop, mbind, sys_bind. cbn [sys_loop].
  by rewrite worker_pass_panics.
Qed.

(** ** The whole run *)

(** Failing in the setup, with nothing sent or received. *)
Definition not_started (w0 : world W) (r : result worker_error unit) (w : world W) : Prop :=
  (exists e, r = Err e) /\ quiet w0 w.

Abbreviation calmly := (calm (fun _ : world W => True)).

Lemma carried (c : syscall) : keeps (carries (fun _ : world W => True)) (request c).
Proof using Type. done. Qed.

Lemma close_all_not_started (fds : list Z) (e : worker_error) (w0 w : world W) : calmly w0 w ->
  overflows_or (close_all fds (Err e)) w (not_started w0).
Proof using Type.
  intros Hq. eapply overflows_or_ends; [by apply (close_all_calm False _ carried)|].
  intros r w' (-> & Hq' & _). split; [by eexists|done].
Qed.

Lemma calm_ends (c : syscall) (w0 w : world W) : calmly w0 w -> (forall a, silent (called c a)) ->
  ends (request c) w (fun _ w' => calmly w0 w').
Proof using Type. intros Hq Hs. by apply (calm_request False _ c w0 w carried). Qed.

Context (args : Args) (Htok : template_ok t) (Hdomain : is_u32 (domain_id args)).
Context (Hint : 2 ^ 63 <= template_interval args) (fuel : nat) (Hfuel : (0 < fuel)%nat).

Lemma work_panics (sig_fd udp_fd nl_fd : Z) (w0 w : world W) :
  overflows_or (work fuel args t sig_fd udp_fd nl_fd) w (not_started w0).
Proof using H64 Hclock Hpos Htok Hdomain Hint Hfuel.
  unfold work. eapply overflows_or_bind; [by apply (initial_state_run t args H64 Hclock Htok Hdomain False)|].
  intros s w1 [[Hinit _] _]. apply overflows_or_panic, event_loop_panics; [done|done|]. cbn [interval]. unfold secs. lia.
Qed.

Lemma run_worker_overflows (w : world W) :
  configure args = Done (Ok t) -> overflows_or (run_worker fuel args) w (not_started w).
Proof using H64 Hclock Hpos Htok Hdomain Hint Hfuel.
  intros Hcfg. unfold run_worker.
  assert (Hfail : forall e w', calmly w w' -> overflows_or (mret (Err e)) w' (not_started w))
    by (intros e w' [Hq _]; apply overflows_or_ret; split; [by eexists|done]).
  eapply overflows_or_lift; [exact Hcfg|]. cbv beta iota.
  eapply overflows_or_bind; [apply (sysctls_calm False _ carried), calm_refl|]. intros [_|e] w1 Hq1; [|by apply Hfail].
  eapply overflows_or_bind; [by apply (SignalFd_new_calm False _ carried _ w)|]. intros [sig_fd|e] w2 Hq2; [|by apply Hfail].
  eapply overflows_or_bind; [by apply (calm_ends UdpBind w)|]. intros [udp_fd|e] w3 Hq3; [|by apply close_all_not_started].
  eapply overflows_or_bind; [by apply (calm_ends (UdpConnect _ _) w)|]. intros [_|e] w4 Hq4;
    [|by apply close_all_not_started].
  eapply overflows_or_bind; [by apply (set_send_buf_calm False _ carried _ _ w)|]. cbn beta. intros _ w5 Hq5.
  eapply overflows_or_bind; [by apply (open_calm False _ carried _ w)|]. intros [nl_fd|e] w6 Hq6;
    [|by apply close_all_not_started].
  apply work_panics.
Qed.

End Panics.

(** C35: a template interval of 2^63 seconds or more, half of the 64-bit range, passes validation and
    ends the worker.  With any other flags that pass validation, on any kernel with a
    monotonic clock between 0 and 2^62 seconds, [run_worker] either fails in its setup, with an
    error and before anything is sent or received, or panics on the overflow of adding the
    interval to the time of the template; it never gets to wait for an event. *)
Theorem huge_template_interval_panics {T : Target} {W : Type} {K : Kernel W} (args : Args) (fuel : nat) (w : world W) :
  pointer_width = 64 -> sane_clock W -> (forall k : W, 0 <= instant (k_call ClockNow k).1) ->
  is_u32 (domain_id args) -> is_u16 (arg_template_id args) -> ~ bad_flags args ->
  2 ^ 63 <= template_interval args -> (0 < fuel)%nat ->
  (exists t, configure args = Done (Ok t)) /\
  overflows_or (run_worker fuel args) w (fun r w' => (exists e, r = Err e) /\ quiet w w').
Proof.
  intros H64 Hclock Hpos Hdom Hid Hgood Hint Hfuel.
  destruct (configure_cases args Hid) as [[Hbad _]|(_ & width & t & Ht & Hres)]; [done|].
  destruct (resolve_ok _ _ _ _ _ Hid Hres) as [_ Htok]. split; [by exists t|].
  exact (run_worker_overflows t H64 Hclock Hpos args Htok Hdom Hint fuel Hfuel w Ht).
Qed.

(** On the small machine, where the setup succeeds, it panics. *)
Definition panicked {A : Type} (m : outcome A) : bool := match m with Panic _ => true | _ => false end.

Lemma demo_worker_panicked : panicked (run_worker (T := x86_64_debug) 5 (demo_args (2 ^ 63)) demo_world) = true.
Proof. vm_compute. reflexivity. Qed.

Lemma panicked_why {W A : Type} (m : sys W A) (w : world W) (Q : A -> world W -> Prop) :
  overflows_or m w Q -> panicked (m w) = true -> m w = Panic ArithmeticOverflow.
Proof. unfold overflows_or. destruct (m w) as [[r w']|why|]; [done| |done]. by intros ->. Qed.

Lemma machine_clock_nonneg (k : machine) : 0 <= instant (k_call ClockNow k).1.
Proof.
  destruct k as [q ps c]. change (0 <= (c mod 2 ^ 40) * 10 ^ 6). pose proof (Z.mod_pos_bound c (2 ^ 40) ltac:(done)). lia.
Qed.

Lemma huge_template_interval_panics_witness :
  (exists t, configure (T := x86_64_debug) (demo_args (2 ^ 63)) = Done (Ok t)) /\
  run_worker (T := x86_64_debug) 5 (demo_args (2 ^ 63)) demo_world = Panic ArithmeticOverflow.
Proof.
  destruct (@huge_template_interval_panics x86_64_debug machine machine_kernel (demo_args (2 ^ 63)) 5 demo_world)
    as [Hcfg Hrun].
  - reflexivity.
  - apply machine_clock_sane.
  - apply machine_clock_nonneg.
  - closed_bounds.
  - closed_bounds.
  - unfold bad_flags. cbn [demo_args template_interval arg_counter_width arg_template_id]. unfold MIN_TEMPLATE_ID. lia.
  - vm_compute. discriminate.
  - lia.
  - split; [exact Hcfg|]. exact (panicked_why _ _ _ Hrun demo_worker_panicked).
Defined.
