(* ===== verification/WorkerBusy.v ===== *)
(** * The worker on a busy link

    What the event loop does while datagrams keep arriving that hold no NAT event:
    nothing is sent, however long it lasts, although the message under construction
    may hold records and the template may be due. *)

From stdpp Require Import base list numbers strings.
From Stdlib Require Import ZArith Lia.
From S2P Require Import Prelude Constants Elements Event Parser ParserSpec Netlink NetlinkProps Template Record Encoder EncoderSpec System Socket Signals Worker WorkerLog WorkerFrame WorkerProps.
Local Open Scope Z_scope.

(** Not a poll, or one that found the netlink socket readable. *)
Definition finds_data (c : call) : bool :=
  match c with
  | existT (Poll _ _) (Ok (_, revents)) => readable revents 0
  | existT (Poll _ _) (Err _) => false
  | _ => true
  end.

(** A stretch in which every poll found data, no signal came, and the data held
    no NAT event. *)
Definition busy {T : Target} (calls : list call) : Prop :=
  forallb finds_data calls = true /\ signals_read calls = [] /\ events (packets calls) = [].

Lemma busy_app {T : Target} (l1 l2 : list call) : busy (l1 ++ l2) -> busy l1 /\ busy l2.
Proof.
  unfold busy, signals_read. rewrite forallb_app, packets_app, events_app, omap_app, andb_true_iff.
  intros ([H1 H2] & Hs & He). apply app_nil in Hs as [? ?]. apply app_nil in He as [? ?]. done.
Qed.

Section Busy.
Context {T : Target} {W : Type} {K : Kernel W} (cfg : config) (H64 : pointer_width = 64).

(** The message stays open, unchanged. *)
Definition unmoved (s s' : loop_state) : Prop :=
  message_active s' = true /\ encoder (exp s') = encoder (exp s) /\
  batch_ok RECV_BATCH_SIZE RECV_SLOT_SIZE (batch s').

Lemma handle_datagram_unmoved (s s' : loop_state) (i : Z) (p : packet) (w w' : world W) :
  message_active s = true -> batch_ok RECV_BATCH_SIZE RECV_SLOT_SIZE (batch s) ->
  0 <= i < RECV_BATCH_SIZE -> i < filled (batch s) -> slot_holds (batch s) i p -> packet_ok p ->
  events_of p = [] -> handle_datagram s i w = Done (s', w') ->
  w' = w /\ unmoved s s' /\ batch s' = batch s.
Proof using H64.
  intros Hact Hb Hi Hf Hslot Hp Hev. unfold handle_datagram.
  rewrite (datagram_done RECV_BATCH_SIZE RECV_SLOT_SIZE _ _ p) by (try done; unfold isize_max; rewrite H64; by apply Z.leb_le).
  rewrite lift_done_bind. cbv beta match. cbn [sender_portid len datagram_len]. unfold events_of in Hev.
  destruct (Z.eqb_spec p.1 0) as [Hpid|Hpid]; cbn [negb].
  2: { intros H. apply sys_bind_inv in H as (n & w1 & H1 & H). apply lift_inv in H1 as [_ ->].
       injection H as <- <-. done. }
  intros H. apply sys_bind_inv in H as (s1 & w1 & H1 & H).
  assert (H1' : w1 = w /\ exp s1 = exp s /\ message_active s1 = true /\ batch s1 = batch s).
  { destruct (_ <? _).
    - apply sys_bind_inv in H1 as (n & w2 & H2 & H1). apply lift_inv in H2 as [_ ->].
      injection H1 as <- <-. done.
    - injection H1 as <- <-. done. }
  destruct H1' as (-> & Hexp & Hact1 & Hba). unfold unmoved. rewrite <- Hba, <- Hexp.
  destruct (_ =? 0); [injection H as <- <-; by rewrite Hba|].
  rewrite Hact1 in H. cbn [negb] in H. apply sys_bind_inv in H as (s2 & w2 & H2 & H). injection H2 as <- <-.
  apply sys_bind_inv in H as (x & w3 & H3 & H). injection H as <- <-.
  unfold parse_into in H3. rewrite parse_messages_done in H3 by (try done; by apply slot_input_ok).
  rewrite Hev in H3. cbn [foldM] in H3. injection H3 as <- <-. cbn. by rewrite Hba.
Qed.

Lemma unmoved_trans (s1 s2 s3 : loop_state) : unmoved s1 s2 -> unmoved s2 s3 -> unmoved s1 s3.
Proof using Type. intros (_ & He & _) (Ha & He' & Hb). split; [done|]. split; [congruence|done]. Qed.

Lemma handle_datagrams_unmoved (ps : list packet) (s s' : loop_state) (i : Z) (w w' : world W) :
  message_active s = true -> batch_ok RECV_BATCH_SIZE RECV_SLOT_SIZE (batch s) ->
  0 <= i -> i + zlen ps <= filled (batch s) -> filled (batch s) <= RECV_BATCH_SIZE ->
  (forall j q, ps !! j = Some q -> slot_holds (batch s) (i + Z.of_nat j) q) -> Forall packet_ok ps ->
  events ps = [] -> sys_foldM handle_datagram s (seqZ i (zlen ps)) w = Done (s', w') ->
  w' = w /\ unmoved s s'.
Proof using H64.
  revert s i w. induction ps as [|p ps IH]; intros s i w Hact Hb Hi Hf Hf' Hslots Hps Hev.
  { change (seqZ i (zlen [])) with (@nil Z). intros H. injection H as <- <-. done. }
  rewrite seqZ_zlen_cons. rewrite zlen_cons in Hf. pose proof (zlen_nonneg ps) as Hnn.
  apply Forall_cons_1 in Hps as [Hp Hps]. change (events (p :: ps)) with (events_of p ++ events ps) in Hev.
  apply app_nil in Hev as [Hev Hevs]. cbn [sys_foldM]. intros H. apply sys_bind_inv in H as (s1 & w1 & H1 & H).
  destruct (handle_datagram_unmoved s s1 i p w w1) as (-> & Hu & Hb1); try done; [lia|lia| |].
  { specialize (Hslots 0%nat p eq_refl). by rewrite Z.add_0_r in Hslots. }
  destruct (IH s1 (i + 1) w) as [-> Hu']; rewrite ?Hb1; try done; try lia; [apply Hu| |].
  - intros j q Hq. specialize (Hslots (S j) q Hq). by replace (i + 1 + Z.of_nat j) with (i + Z.of_nat (S j)) by lia.
  - split; [done|]. exact (unmoved_trans _ _ _ Hu Hu').
Qed.

(** Whatever follows, it only makes the log longer. *)
Lemma drain_extends (passes : nat) (s s' : loop_state) (w w' : world W) :
  drain passes (nl_fd cfg) s w = Done (s', w') -> exists calls, log w' = log w ++ calls.
Proof using Type.
  intros H. apply (drain_keeps (extends (fun _ => True)) cfg) in H; [|deaf..]. destruct H as (calls & Hl & _). by exists calls.
Qed.

Lemma handle_datagrams_extends (l : list Z) (s s' : loop_state) (w w' : world W) :
  sys_foldM handle_datagram s l w = Done (s', w') -> exists calls, log w' = log w ++ calls.
Proof using Type.
  intros H. apply (keeps_foldM (extends (fun _ => True))) in H; [destruct H as (calls & Hl & _); by exists calls|].
  intros. apply (handle_datagram_keeps (extends (fun _ => True))); deaf.
Qed.

(** Draining datagrams without events sends nothing. *)
Definition drained (s : loop_state) (w : world W) (s' : loop_state) (w' : world W) : Prop :=
  exists calls, log w' = log w ++ calls /\
    (events (packets calls) = [] -> sent calls = [] /\ unmoved s s').

Lemma drain_unmoved (passes : nat) (s s' : loop_state) (w w' : world W) :
  message_active s = true -> batch_ok RECV_BATCH_SIZE RECV_SLOT_SIZE (batch s) ->
  drain passes (nl_fd cfg) s w = Done (s', w') -> drained s w s' w'.
Proof using H64.
  revert s w. induction passes as [|passes IH]; intros s w Hact Hb; cbn [drain].
  { intros H. injection H as <- <-. exists []. by rewrite app_nil_r. }
  intros H. apply sys_bind_inv in H as ([r b] & w1 & H1 & H).
  pose proof (recv_batch_ends True (nl_fd cfg) _ _ (batch s) w Hb) as Hrecv. unfold run in Hrecv. rewrite H1 in Hrecv.
  destruct Hrecv as (Hb1 & a & _ & Hl1 & Ha). cbv zeta in H.
  assert (Hstop : sent [called (Recvmmsg (nl_fd cfg) RECV_BATCH_SIZE) a] = [] -> w' = w1 -> s' = set_batch s b ->
                  drained s w s' w').
  { intros Hs -> ->. eexists. split; [exact Hl1|]. by intros _. }
  destruct a as [ps|e]; [|destruct Ha as [-> _]; injection H as <- <-; by apply Hstop].
  destruct Ha as (-> & Hfill & Hle & Hps & Hslots).
  destruct (zlen ps =? 0); [injection H as <- <-; by apply Hstop|].
  apply sys_bind_inv in H as (s2 & w2 & H2 & H).
  destruct (handle_datagrams_extends _ _ _ _ _ H2) as [c2 Hl2].
  assert (Hend : exists c3, log w' = log w2 ++ c3).
  { destruct (_ <? _); [|by eapply drain_extends]. injection H as <- <-. exists []. by rewrite app_nil_r. }
  destruct (decide (events ps = [])) as [Hev|Hev].
  - destruct (handle_datagrams_unmoved ps (set_batch s b) s2 0 w1 w2) as [-> Hu]; try done; try (cbn; lia).
    destruct (_ <? _); [injection H as <- <-; by eexists; split; [exact Hl1|]|].
    destruct (IH s2 w1) as (c & Hl & Hc); [apply Hu|apply Hu|exact H|].
    exists ([called (Recvmmsg (nl_fd cfg) RECV_BATCH_SIZE) (Ok ps)] ++ c).
    split; [exact (log_two _ _ _ _ _ Hl1 Hl)|]. rewrite packets_app, events_app. intros He.
    apply app_nil in He as [_ He]. destruct (Hc He) as [Hs Hu2]. split; [exact Hs|].
    exact (unmoved_trans s s2 s' Hu Hu2).
  - destruct Hend as [c3 Hl3]. eexists. split; [exact (log_two _ _ _ _ _ (log_two _ _ _ _ _ Hl1 Hl2) Hl3)|].
    rewrite !packets_app, !events_app. intros He. exfalso. apply app_nil in He as [He _]. apply app_nil in He as [He _].
    apply Hev. unfold packets in He. cbn in He. by rewrite app_nil_r in He.
Qed.

(** Calls that send nothing. *)
Definition mute (c : call) : Prop := sent_in c = None.

Lemma mute_sent (calls : list call) : Forall mute calls -> sent calls = [].
Proof using Type. induction 1 as [|c calls Hc _ IH]; [done|]. unfold sent in *. cbn. by rewrite Hc. Qed.

Lemma poll_with_inv (timeout : Z) (w w' : world W) (polled : result io_error (bool * bool)) :
  poll_with (nl_fd cfg) (sig_fd cfg) timeout w = Done (polled, w') ->
  exists c, log w' = log w ++ [c] /\ mute c /\
    (finds_data c = true -> exists signalled, polled = Ok (true, signalled)).
Proof using Type.
  unfold poll_with. intros H. apply sys_bind_inv in H as (a & w1 & H1 & H). injection H as <- <-.
  unfold request in H1. destruct (k_call _ (kernel w)) as [a' k]. injection H1 as <- <-. eexists.
  split; [done|]. split; [done|]. cbn. destruct a' as [[count revents]|e]; [|done]. intros ->. by eexists.
Qed.

(** The pass up to its poll. *)
Lemma before_poll (s s3 : loop_state) (w w1 w2 w3 w4 : world W) (tm tmo : Z) (s2 : loop_state) :
  message_active s = true -> now w = Done (tm, w1) ->
  report_stats cfg tm (check_template_due cfg tm s) w1 = Done (s2, w2) -> send_template s2 w2 = Done (s3, w3) ->
  poll_timeout cfg s3 w3 = Done (tmo, w4) ->
  message_active s3 = true /\ encoder (exp s3) = encoder (exp s) /\ batch s3 = batch s /\ extends mute w w4.
Proof using Type.
  intros Hact H1 H2 H3 H4. destruct (report_stats_same cfg _ _ _ _ _ H2) as (Hx & Ha & _ & _ & Hba).
  assert (Hkeep : message_active (check_template_due cfg tm s) = true /\
    encoder (exp (check_template_due cfg tm s)) = encoder (exp s) /\ batch (check_template_due cfg tm s) = batch s)
    by (unfold check_template_due; by destruct (_ <=? _)).
  destruct Hkeep as (Hk1 & Hk2 & Hk3). unfold send_template in H3. rewrite Ha, Hk1, andb_false_r in H3.
  injection H3 as <- <-. rewrite Ha, Hba, Hx. split_and!; try done.
  apply (now_keeps (extends mute)) in H1; [|deaf]. apply (report_stats_keeps (extends mute)) in H2; [|deaf..].
  apply (poll_timeout_keeps (extends mute)) in H4; [|deaf]. by repeat (etransitivity; [eassumption|]).
Qed.

Lemma check_signals_mute (fuel : nat) (signalled : bool) (w w' : world W) (r : result worker_error bool) :
  check_signals fuel cfg signalled w = Done (r, w') -> extends mute w w'.
Proof using Type.
  intros H. pose proof (check_signals_run cfg fuel signalled w) as Hrun. unfold run in Hrun. rewrite H in Hrun.
  destruct Hrun as (calls & Hl & Hall). exists calls. split; [done|]. eapply Forall_impl; [exact Hall|]. by intros c [Hc _].
Qed.

(** One pass on a busy link. *)
Lemma worker_pass_unmoved (fuel : nat) (s s' : loop_state) (w w' : world W) :
  message_active s = true -> batch_ok RECV_BATCH_SIZE RECV_SLOT_SIZE (batch s) ->
  worker_pass fuel cfg s w = Done (Continue s', w') ->
  exists calls, log w' = log w ++ calls /\ (busy calls -> sent calls = [] /\ unmoved s s').
Proof using H64.
  intros Hact Hb H.
  apply worker_pass_inv in H as (tm & w1 & s2 & w2 & s3 & w3 & tmo & w4 & polled & w5 & H1 & H2 & H3 & H4 & H5 & H).
  destruct (before_poll _ _ _ _ _ _ _ _ _ _ Hact H1 H2 H3 H4) as (Hact3 & He3 & Hb3 & pre & Hl4 & Hpre).
  destruct (poll_with_inv _ _ _ _ H5) as (c & Hl5 & Hc & Hfind). pose proof (log_two _ _ _ _ _ Hl4 Hl5) as Hl.
  assert (Hready : forall rest, busy ((pre ++ [c]) ++ rest) -> exists signalled, polled = Ok (true, signalled)).
  { intros rest Hbusy. apply busy_app in Hbusy as [Hbusy _]. apply busy_app in Hbusy as [_ (Hf & _)].
    apply Hfind. cbn in Hf. by rewrite andb_true_r in Hf. }
  destruct polled as [[ready signalled]|e].
  2: { destruct e; try discriminate H. injection H as <- <-. exists ((pre ++ [c]) ++ []). rewrite app_nil_r.
       split; [done|]. rewrite <- (app_nil_r (pre ++ [c])). intros Hbusy. by destruct (Hready _ Hbusy). }
  apply sys_bind_inv in H as (go_on & w6 & H6 & H). apply check_signals_mute in H6 as (mid & Hl6 & Hmid).
  pose proof (log_two _ _ _ _ _ Hl Hl6) as Hl7. destruct go_on as [[]|e]; [|discriminate H..].
  destruct ready.
  - apply sys_bind_inv in H as (s4 & w7 & H7 & H). injection H as <- <-.
    rewrite <- Hb3 in Hb. destruct (drain_unmoved _ _ _ _ _ Hact3 Hb H7) as (calls & Hl8 & Hd).
    eexists. split; [exact (log_two _ _ _ _ _ Hl7 Hl8)|]. intros Hbusy. apply busy_app in Hbusy as [_ (_ & _ & He)].
    destruct (Hd He) as [Hs Hu].
    assert (Hc1 : sent [c] = []) by (apply mute_sent, Forall_cons_2; [done|apply Forall_nil_2]).
    rewrite !sent_app, Hs, Hc1, (mute_sent pre), (mute_sent mid) by done. split; [done|]. destruct Hu as (? & ? & ?). split; [done|]. split; [congruence|done].
  - assert (Hpost : extends (fun _ => True) w6 w')
      by exact (handle_poll_keeps (extends (fun _ => True)) cfg ltac:(deaf) ltac:(deaf) ltac:(deaf) false s3 w6 _ w' H).
    destruct Hpost as (post & Hl8 & _).
    exists ((pre ++ [c]) ++ (mid ++ post)). split; [rewrite Hl8, Hl7; by rewrite <- !app_assoc|].
    intros Hbusy. by destruct (Hready _ Hbusy) as [? [=]].
Qed.

(** Any number of passes. *)
Lemma reachable_unmoved (fuel n : nat) (s0 s : loop_state) (w0 w : world W) :
  message_active s0 = true -> batch_ok RECV_BATCH_SIZE RECV_SLOT_SIZE (batch s0) ->
  reachable cfg fuel s0 w0 n s w ->
  exists calls, log w = log w0 ++ calls /\ (busy calls -> sent calls = [] /\ unmoved s0 s).
Proof using H64.
  intros Hact Hb Hr. induction Hr as [|n s w s' w' Hr IH Hpass]; [exists []; by rewrite app_nil_r|].
  destruct IH as (c1 & Hl1 & Hc1).
  destruct (decide (forallb finds_data c1 = true /\ signals_read c1 = [] /\ events (packets c1) = [])) as [Hbusy|Hnot].
  - destruct (Hc1 Hbusy) as [Hs1 (Ha & He & Hba)].
    destruct (worker_pass_unmoved fuel s s' w w' Ha Hba Hpass) as (c2 & Hl2 & Hc2).
    exists (c1 ++ c2). split; [exact (log_two _ _ _ _ _ Hl1 Hl2)|]. intros Hbb. apply busy_app in Hbb as [_ Hb2].
    destruct (Hc2 Hb2) as [Hs2 Hu2]. rewrite sent_app, Hs1, Hs2. split; [done|].
    exact (unmoved_trans s0 s s' (conj Ha (conj He Hba)) Hu2).
  - destruct (worker_pass_extends cfg fuel s w w' _ Hpass) as [c2 Hl2].
    exists (c1 ++ c2). split; [exact (log_two _ _ _ _ _ Hl1 Hl2)|]. intros Hbb. by apply busy_app in Hbb as [Hb1 _].
Qed.

End Busy.

(** C36: a busy link holds everything back.  With a message open, for as many
    passes as every poll finds data and the data hold no NAT event, the loop sends
    nothing, whatever time passes, and the message stays open as it is: the records
    already in it wait, and so does the template, although it may be overdue. *)
Theorem busy_link_holds_everything_back {T : Target} {W : Type} {K : Kernel W} (cfg : config)
    (fuel n : nat) (s0 s : loop_state) (w0 w : world W) :
  pointer_width = 64 -> message_active s0 = true ->
  batch_ok RECV_BATCH_SIZE RECV_SLOT_SIZE (batch s0) -> reachable cfg fuel s0 w0 n s w ->
  exists calls, log w = log w0 ++ calls /\
    (busy calls -> sent calls = [] /\ message_active s = true /\ encoder (exp s) = encoder (exp s0)).
Proof.
  intros H64 Hact Hb Hr. destruct (reachable_unmoved cfg H64 fuel n s0 s w0 w Hact Hb Hr) as (calls & Hl & Hc).
  exists calls. split; [done|]. intros Hbusy. destruct (Hc Hbusy) as [Hs (Ha & He & _)]. done.
Qed.

(** ** A busy link *)

(** A kernel that always has one more notification, of a session that is not
    translated; ten seconds pass between two readings of the clock. *)
Record stream := { second : Z }.

Definition untranslated : bytes := event_bytes (T := x86_64_debug) 8 (fixture_event 6).

Definition stream_call (c : syscall) (k : stream) : answer c * stream :=
  match c return answer c * stream with
  | ClockNow => ({| system_time := 0; instant := secs (second k) |}, {| second := second k + 10 |})
  | Poll _ _ => (Ok (1, [1; 0]), k)
  | Recvmmsg _ vlen => (if 1 <=? vlen then Ok [(0, untranslated)] else Err WouldBlock, k)
  | c => (fst (machine_call c {| queue := []; pending := []; clock_ms := 0 |}), k)
  end.

Lemma one_packet_ok (u : bytes) (vlen : Z) (l : list packet) : packet_okb (0, u) = true ->
  (if 1 <=? vlen then Ok [(0, u)] else Err WouldBlock) = Ok l ->
  zlen l <= vlen /\ Forall (fun d => bytes_ok d.2 /\ zlen d.2 < 2 ^ 32) l.
Proof.
  intros Hu. destruct (Z.leb_spec 1 vlen) as [Hv|]; [|done]. intros [= <-]. split; [exact Hv|].
  apply Forall_cons_2; [by apply (packet_okb_ok (0, u))|apply Forall_nil_2].
Qed.

Lemma untranslated_ok : packet_okb (0, untranslated) = true.
Proof. vm_compute. reflexivity. Qed.

#[export] Instance stream_kernel : Kernel stream :=
  {| k_call := stream_call; k_recvmmsg_ok fd vlen k l := one_packet_ok untranslated vlen l untranslated_ok |}.

(** The state with one record in an open message. *)
Definition open_message : Encoder :=
  match (e ← begin_message (T := x86_64_debug) (encoder (exp (demo_state no_batch))) false;
         add_record (T := x86_64_debug) e (fixture_event 6)) with
  | Done (e, _) => e
  | _ => encoder (exp (demo_state no_batch))
  end.

Definition open_state (b : ReceiveBatch) : loop_state :=
  set_active (set_exp (demo_state b) (set_include (set_encoder (exp (demo_state b)) open_message) false)) true.

Definition stream_world : world stream := {| kernel := {| second := 0 |}; log := [] |}.

(** Four passes: the run is busy, and the template, due every 30 s, is overdue. *)
Definition overdue (s : loop_state) (w : world stream) : bool :=
  forallb finds_data (log w) && bool_decide (signals_read (log w) = []) &&
  bool_decide (events (T := x86_64_debug) (packets (log w)) = []) &&
  include_template (exp s) && (30 <? second (kernel w)).

Lemma overdue_after_four_passes :
  match ReceiveBatch_new (T := x86_64_debug) RECV_BATCH_SIZE RECV_SLOT_SIZE with
  | Done b => match pass_n (T := x86_64_debug) demo_config 5 4 (open_state b) stream_world with Some (s, w) => overdue s w | None => false end
  | _ => false
  end = true.
Proof. vm_compute. reflexivity. Qed.

Lemma busy_link_holds_everything_back_witness :
  exists b s w, ReceiveBatch_new (T := x86_64_debug) RECV_BATCH_SIZE RECV_SLOT_SIZE = Done b /\
    reachable (T := x86_64_debug) demo_config 5 (open_state b) stream_world 4 s w /\
    include_template (exp s) = true /\ 30 < second (kernel w) /\ sent (log w) = [].
Proof.
  pose proof overdue_after_four_passes as H.
  destruct demo_batch as (b & Hnew & Hb). rewrite Hnew in H.
  destruct (pass_n (T := x86_64_debug) demo_config 5 4 (open_state b) stream_world) as [[s w]|] eqn:Hp; [|discriminate H].
  apply pass_n_reachable in Hp. unfold overdue in H. rewrite !andb_true_iff, !bool_decide_eq_true in H.
  destruct H as ((((Hf & Hs) & He) & Hi) & Ht). apply Z.ltb_lt in Ht.
  destruct (@busy_link_holds_everything_back x86_64_debug stream stream_kernel demo_config 5 4
              (open_state b) s stream_world w eq_refl eq_refl Hb Hp) as (calls & Hl & Hc).
  cbn [log stream_world app] in Hl. subst calls. destruct (Hc (conj Hf (conj Hs He))) as [Hsent _].
  exists b, s, w. exact (conj Hnew (conj Hp (conj Hi (conj Ht Hsent)))).
Defined.
