(* ===== verification/WorkerFlush.v ===== *)
(** * A silence of 100 ms and everything is out

    While a message is open the worker polls with the flush timeout, and a poll that
    reports nothing makes it send the message: then every event that was received has
    been handed to [send]. *)

From stdpp Require Import base list numbers strings.
From Stdlib Require Import ZArith Lia.
From S2P Require Import Prelude Constants Elements Event Parser ParserSpec Template Record Encoder EncoderSpec EncoderProps Collector CollectorProps System Socket Signals Worker WorkerLog WorkerFrame WorkerProps WorkerStops WorkerBusy.
Local Open Scope Z_scope.

(** A poll that reports nothing: the timeout passed. *)
Definition reports_nothing (a : answer (Poll [] 0)) : bool :=
  match a with
  | Ok (_, revents) => negb (readable revents 0) && negb (readable revents 1)
  | Err _ => false
  end.

Section Flush.
Context {T : Target} {W : Type} {K : Kernel W} (t : Template) (cfg : config).

Lemma poll_timeout_open (s : loop_state) (timeout : Z) (w w' : world W) :
  message_active s = true -> poll_timeout cfg s w = Done (timeout, w') -> timeout = FLUSH_TIMEOUT_MS.
Proof. unfold poll_timeout. intros ->. by intros [= <- <-]. Qed.

(** A pass over an open message: nothing is sent before the poll, which waits for
    the flush timeout; after silence the message is closed and the loop goes on. *)
Lemma worker_pass_open (fuel : nat) (s : loop_state) (w w' : world W)
    (next : flow loop_state (result worker_error loop_state)) :
  message_active s = true -> worker_pass fuel cfg s w = Done (next, w') ->
  exists pre a post, log w' = log w ++ pre ++ called (Poll [nl_fd cfg; sig_fd cfg] FLUSH_TIMEOUT_MS) a :: post /\
    sent pre = [] /\
    (reports_nothing a = true -> exists s', next = Continue s' /\ message_active s' = false).
Proof.
  intros Hact H.
  apply worker_pass_inv in H as (tm & w1 & s2 & w2 & s3 & w3 & tmo & w4 & polled & w5 & H1 & H2 & H3 & H4 & H5 & H).
  destruct (before_poll cfg _ _ _ _ _ _ _ _ _ _ Hact H1 H2 H3 H4) as (Hact3 & _ & _ & pre & Hl4 & Hpre).
  apply poll_timeout_open in H4 as ->; [|done].
  unfold poll_with in H5. apply sys_bind_inv in H5 as (a & w5' & H5 & Hret). injection Hret as <- <-.
  apply (request_inv (Poll _ _) a) in H5. pose proof (log_two _ _ _ _ _ Hl4 H5) as Hl.
  assert (Hpost : extends (fun _ => True) w5' w').
  { eapply (after_poll_keeps (extends (fun _ => True)) cfg); [deaf..|exact H]. }
  destruct Hpost as (post & Hlp & _). exists pre, a, post.
  split; [rewrite Hlp, Hl, <- !app_assoc; done|]. split; [by eapply mute_sent|].
  intros Hnone. destruct a as [[n revents]|e]; [|done]. cbn in Hnone. apply andb_true_iff in Hnone as [Hr Hs].
  apply negb_true_iff in Hr, Hs. rewrite Hr, Hs in H. apply sys_bind_inv in H as (go_on & w6 & H6 & H).
  injection H6 as <- <-. unfold handle_poll in H. cbn [negb] in H. rewrite Hact3 in H. apply sys_bind_inv in H as (x & w7 & _ & H).
  injection H as <- _. by eexists.
Qed.

End Flush.

(** C38: nothing is held back for longer than 100 ms of silence.  In every state of
    the event loop with a message open, on a kernel with finitely many signals to
    give, the next pass returns; it sends nothing before it polls, and polls with a
    timeout of 100 ms; if the poll reports nothing, the loop goes on with no message
    open, and every event received so far is in a message handed to [send]: a
    collector has the records of those for which the call succeeded, and, if no call
    failed since the start, a record of every event received. *)
Theorem silence_flushes_everything {T : Target} {W : Type} {K : Kernel W} (p : Protocol)
    (pr : Profile) (width : CounterWidth) (id : Z) (t : Template) (cfg : config) (pend : W -> nat)
    (limit fuel n : nat) (s0 s : loop_state) (w0 w : world W) :
  pointer_width = 64 -> sane_clock W -> interval cfg <= secs (2 ^ 62) ->
  is_u16 id -> resolve p pr width id = Done (Ok t) ->
  finitely_pending pend limit -> (limit < fuel)%nat ->
  initial t s0 -> roomy s0 (Z.of_nat (S n) * pass_cost) -> reachable cfg fuel s0 w0 n s w ->
  message_active s = true ->
  ends (worker_pass fuel cfg s) w (fun next w' => exists pre a post,
    log w' = log w ++ pre ++ called (Poll [nl_fd cfg; sig_fd cfg] 100) a :: post /\ sent pre = [] /\
    (reports_nothing a = true -> exists s' calls ms, next = Continue s' /\ message_active s' = false /\
       log w' = log w0 ++ calls /\ handed_over t calls ms /\ contents ms = events (packets calls) /\
       (failures calls = 0 -> exists ts,
          collect (delivered calls) = Done (ts, map (collected t) (events (packets calls)))))).
Proof.
  intros H64 Hclock Hint Hid Hres Hfin Hlim Hinit Hroom Hreach Hact. assert (Hpc : 1 <= pass_cost) by (by vm_compute).
  destruct (resolve_ok _ _ _ _ _ Hid Hres) as [Ht Htok].
  assert (Hread : CollectorProps.readable t).
  { rewrite Ht. apply resolved_readable. pose proof (to_id _ Htok) as Hb. rewrite Ht in Hb. exact Hb. }
  destruct (reachable_inv t cfg H64 Hclock Hint fuel n s0 s w0 w pass_cost Hinit) as (buf & ms & Hinv & Hbud);
    [eapply roomy_less; [exact Hroom|lia]|lia|done|].
  pose proof (worker_pass_ends t cfg H64 Hclock Hint pend limit fuel w0 w s buf ms Hfin Hlim Hinv Hbud) as Hrun.
  unfold run in *. destruct (worker_pass fuel cfg s w) as [[next w']| |] eqn:Hpass; [|done..].
  destruct (worker_pass_open cfg fuel s w w' next Hact Hpass) as (pre & a & post & Hl & Hpre & Hquiet).
  exists pre, a, post. split; [done|]. split; [done|]. intros Hnone.
  destruct (Hquiet Hnone) as (s' & -> & Hact'). destruct Hrun as (buf' & ms' & Hf & Ha & Hinv' & _).
  pose proof (li_holding _ _ _ _ _ _ Hinv') as Hh. unfold holding in Hh. rewrite Hact' in Hh. destruct Hh as [_ ->].
  destruct (advance_handed t w0 w' [] ms' Hread Ha) as (calls & Hl' & Hc & He); [by left|].
  rewrite app_nil_r in He. exists s', calls, ms'. split_and!; try done. intros H0.
  destruct (ho_collected _ _ _ Hc) as [ts Hts]. exists ts. by rewrite (ho_all _ _ _ Hc H0), He in Hts.
Qed.

(** ** On the machine with the alarm *)

(** The first pass takes in the kernel's datagrams and leaves a message open; the
    poll of the second reports nothing. *)
Lemma first_pass_opens :
  match ReceiveBatch_new (T := x86_64_debug) RECV_BATCH_SIZE RECV_SLOT_SIZE with
  | Done b => match pass_n (T := x86_64_debug) demo_config 5 1 (demo_state b) alarm_world with
              | Some (s, w) => message_active s && reports_nothing (k_call (Poll [3; 4] 100) (kernel w)).1
              | None => false
              end
  | _ => false
  end = true.
Proof. vm_compute. reflexivity. Qed.

Lemma silence_flushes_everything_witness :
  exists b s w, ReceiveBatch_new (T := x86_64_debug) RECV_BATCH_SIZE RECV_SLOT_SIZE = Done b /\
    reachable (T := x86_64_debug) demo_config 5 (demo_state b) alarm_world 1 s w /\ message_active s = true /\
    ends (worker_pass (T := x86_64_debug) 5 demo_config s) w (fun next w' => exists pre a post,
      log w' = log w ++ pre ++ called (Poll [3; 4] 100) a :: post /\ sent pre = [] /\
      (reports_nothing a = true -> exists s' calls ms, next = Continue s' /\ message_active s' = false /\
         log w' = calls /\ handed_over demo_template calls ms /\
         contents ms = events (T := x86_64_debug) (packets calls) /\
         (failures calls = 0 -> exists ts, collect (delivered calls) =
            Done (ts, map (collected demo_template) (events (T := x86_64_debug) (packets calls)))))).
Proof.
  pose proof first_pass_opens as H. destruct demo_batch as (b & Hnew & Hb). rewrite Hnew in H.
  destruct (pass_n (T := x86_64_debug) demo_config 5 1 (demo_state b) alarm_world) as [[s w]|] eqn:Hp; [|discriminate H].
  apply pass_n_reachable in Hp. apply andb_true_iff in H as [Hact _].
  exists b, s, w. split; [exact Hnew|]. split; [exact Hp|]. split; [exact Hact|].
  apply (@silence_flushes_everything x86_64_debug alarm alarm_kernel Ipfix Full Eight 256 demo_template demo_config
           alarm_pend 1 5 1 (demo_state b) s alarm_world w).
  - reflexivity.
  - apply alarm_clock.
  - vm_compute. discriminate.
  - closed_bounds.
  - vm_compute. reflexivity.
  - apply (bs_finite _ _ _ alarm_brings).
  - lia.
  - exact (demo_initial b Hb).
  - eapply roomy_less; [apply demo_roomy|vm_compute; discriminate].
  - exact Hp.
  - exact Hact.
Defined.
