(* ===== verification/Supervisor.v ===== *)
(** * The supervisor

    The [--daemon] side of [src/main.rs]: [run_supervisor] forks the worker,
    watches it, restarts it with a growing delay and stops it on request;
    [redirect_stdio] detaches the daemon from the terminal; [main] chooses
    between the two.

    The model follows one process: [fork] answers 0 in the child and the child's
    identifier in the parent, and from there on the run is that process's own. *)

From stdpp Require Import base list numbers strings.
From Stdlib Require Import ZArith Lia.
From S2P Require Import Prelude Encoder System Signals Worker.
Local Open Scope Z_scope.

Definition WORKER_STOP_GRACE : Z := secs 10.
Definition RESTART_BACKOFF_MIN : Z := secs 1.
Definition RESTART_BACKOFF_MAX : Z := secs 60.
Definition HEALTHY_RUNTIME : Z := secs 60.

Definition STDIN_FILENO : Z := 0.
Definition STDOUT_FILENO : Z := 1.
Definition STDERR_FILENO : Z := 2.
Definition O_WRONLY : Z := 1.
Definition O_RDWR : Z := 2.
Definition O_CREAT : Z := 0x40.
Definition O_APPEND : Z := 0x400.
Definition LOG_MODE : Z := 0x1A0.

(** What [run_supervisor] fails with. *)
Inductive supervisor_error :=
  | DaemonForkFailed (e : io_error)
  | SetsidFailed (e : io_error)
  | NulInPath (path : string)
  | OpenFailed (path : string) (e : io_error)
  | Dup2Failed (e : io_error)
  | SupervisorSignalsFailed (e : io_error)
  | WorkerForkFailed (e : io_error)
  | WaitpidFailed (e : io_error)
  | SupervisorPollFailed (e : io_error)
  | SupervisorReadFailed (e : io_error).

(** How a process ends: [main] returns, or [_exit] is called. *)
Inductive process_end :=
  | Returned (r : result (supervisor_error + worker_error) unit)
  | Exits (rc : Z).

Inductive Supervision := Exited (status : Z) | ShutdownRequested.

(** [Duration * u32], which panics past the last representable second. *)
Definition duration_mul (d k : Z) : outcome Z :=
  if d * k / 10 ^ 9 <? 2 ^ 64 then Done (d * k) else Panic ArithmeticOverflow.

(** ** Wait statuses *)

(** [v as i8] *)
Definition as_i8 (v : Z) : Z := (v + 2 ^ 7) mod 2 ^ 8 - 2 ^ 7.

Definition WIFEXITED (status : Z) : bool := Z.land status 0x7f =? 0.
Definition WEXITSTATUS (status : Z) : Z := Z.land (Z.shiftr status 8) 0xff.
Definition WIFSIGNALED (status : Z) : bool := 2 <=? as_i8 (Z.land status 0x7f + 1).

Definition should_restart (status : Z) : bool :=
  if WIFEXITED status then negb (WEXITSTATUS status =? 0) else WIFSIGNALED status.

(** [CString::new] refuses a path with a zero byte in it. *)
Fixpoint has_nul (s : string) : bool :=
  match s with
  | EmptyString => false
  | String c s' => Nat.eqb (Ascii.nat_of_ascii c) 0 || has_nul s'
  end.

Section Supervisor.
Context {T : Target} {W : Type} {K : Kernel W}.

(** ** Watching the worker *)

Definition try_reap (child_pid : Z) : sys W (result supervisor_error (option Z)) :=
  rc ← request (Waitpid child_pid);
  mret match rc with
       | Ok (pid, status) => if pid =? child_pid then Ok (Some status) else Ok None
       | Err Interrupted => Ok None
       | Err e => Err (WaitpidFailed e)
       end.

(** The variables of [supervise_child]. *)
Abbreviation watch := (bool * option Z)%type (only parsing).

(** The signals that are not merely the worker's exit. *)
Definition not_sigchld (sig : Z) : bool := negb (sig =? SIGCHLD).

(** One signal of the [for] loop. *)
Definition on_signal (child_pid : Z) (s : watch) (sig : Z) : sys W watch :=
  let '(shutting_down, kill_deadline) := s in
  if negb shutting_down then
    _ ← request (Kill child_pid SIGTERM);
    t ← now;
    deadline ← lift (instant_add t WORKER_STOP_GRACE);
    mret (true, Some deadline)
  else mret s.

(** The [else if]: the worker has not gone in time. *)
Definition escalate (child_pid : Z) (s : watch) : sys W watch :=
  match s.2 with
  | Some deadline =>
      t ← now;
      if deadline <=? t then _ ← request (Kill child_pid SIGKILL); mret (s.1, None)
      else mret s
  | None => mret s
  end.

Definition watch_timeout (s : watch) : sys W Z :=
  match s.2 with
  | Some deadline => t ← now; mret (ms_until deadline t)
  | None => mret (-1)
  end.

(** One pass of the [loop]. *)
Definition watch_pass (fuel : nat) (fd child_pid : Z) (s : watch)
    : sys W (flow watch (result supervisor_error Supervision)) :=
  reaped ← try_reap child_pid;
  match reaped with
  | Err e => mret (Break (Err e))
  | Ok (Some status) => mret (Break (Ok (if s.1 then ShutdownRequested else Exited status)))
  | Ok None =>
      timeout ← watch_timeout s;
      polled ← poll_readable fd timeout;
      match polled with
      | Err Interrupted => mret (Continue s)
      | Err e => mret (Break (Err (SupervisorPollFailed e)))
      | Ok true =>
          signals ← read_pending fuel fd;
          match signals with
          | Err e => mret (Break (Err (SupervisorReadFailed e)))
          | Ok l => s ← sys_foldM (on_signal child_pid) s (List.filter not_sigchld l); mret (Continue s)
          end
      | Ok false => s ← escalate child_pid s; mret (Continue s)
      end
  end.

Definition supervise_child (fuel : nat) (fd child_pid : Z) : sys W (result supervisor_error Supervision) :=
  sys_loop fuel (watch_pass fuel fd child_pid) (false, None).

(** ** Between two workers *)

(** One pass of the [loop] of [wait_before_restart]. *)
Definition wait_pass (fuel : nat) (fd deadline : Z) (_ : unit)
    : sys W (flow unit (result supervisor_error bool)) :=
  t ← now;
  if deadline <=? t then mret (Break (Ok false))
  else
    polled ← poll_readable fd (ms_until deadline t);
    match polled with
    | Err Interrupted => mret (Continue tt)
    | Err e => mret (Break (Err (SupervisorPollFailed e)))
    | Ok ready =>
        if (ready : bool) then
          signals ← read_pending fuel fd;
          mret match signals with
               | Err e => Break (Err (SupervisorReadFailed e))
               | Ok l => match List.find not_sigchld l with Some _ => Break (Ok true) | None => Continue tt end
               end
        else mret (Continue tt)
    end.

Definition wait_before_restart (fuel : nat) (fd delay : Z) : sys W (result supervisor_error bool) :=
  t ← now;
  deadline ← lift (instant_add t delay);
  sys_loop fuel (wait_pass fuel fd deadline) tt.

(** ** The worker's process *)

(** From the fork on: the child never returns to the loop. *)
Definition child_main (fuel : nat) (args : Args) (fd : Z) : sys W process_end :=
  _ ← close_in_child fd;
  unblocked ← unblock_all;
  rc ← match unblocked with
       | Err _ => mret 1
       | Ok _ =>
           ended ← run_worker fuel args;
           mret match ended with Ok _ => 0 | Err _ => 1 end
       end;
  _ ← request (Exit rc);
  mret (Exits rc).

(** ** The supervisor's loop *)

Definition stopped : process_end := Returned (Ok tt).
Definition failed (e : supervisor_error) : process_end := Returned (Err (inl e)).

(** A worker exited: restart it after the delay, unless it is done or a signal
    comes first. *)
Definition restart (fuel : nat) (fd started status backoff : Z) : sys W (flow Z process_end) :=
  if negb (should_restart status) then mret (Break stopped)
  else
    t ← now;
    let backoff := if HEALTHY_RUNTIME <=? duration_since t started then RESTART_BACKOFF_MIN else backoff in
    waited ← wait_before_restart fuel fd backoff;
    match waited with
    | Err e => mret (Break (failed e))
    | Ok true => mret (Break stopped)
    | Ok false =>
        doubled ← lift (duration_mul backoff 2);
        mret (Continue (Z.min doubled RESTART_BACKOFF_MAX))
    end.

Definition supervisor_pass (fuel : nat) (args : Args) (fd backoff : Z) : sys W (flow Z process_end) :=
  started ← now;
  forked ← request Fork;
  match forked with
  | Err e => mret (Break (failed (WorkerForkFailed e)))
  | Ok child_pid =>
      if child_pid =? 0 then ended ← child_main fuel args fd; mret (Break ended)
      else
        supervised ← supervise_child fuel fd child_pid;
        match supervised with
        | Err e => mret (Break (failed e))
        | Ok ShutdownRequested => mret (Break stopped)
        | Ok (Exited status) => restart fuel fd started status backoff
        end
  end.

(** The loop; the descriptor is dropped when the supervisor returns, which the
    child does not do. *)
Definition supervise (fuel : nat) (args : Args) (fd : Z) : sys W process_end :=
  ended ← sys_loop fuel (supervisor_pass fuel args fd) RESTART_BACKOFF_MIN;
  match ended with
  | Exits rc => mret (Exits rc)
  | Returned r => _ ← SignalFd_drop fd; mret (Returned r)
  end.

(** ** Detaching *)

Definition open_fd (path : string) (flags mode : Z) : sys W (result supervisor_error Z) :=
  if has_nul path then mret (Err (NulInPath path))
  else
    fd ← request (Open path flags mode);
    mret match fd with Ok fd => Ok fd | Err e => Err (OpenFailed path e) end.

Definition dup2_checked (fd target_fd : Z) : sys W (result supervisor_error unit) :=
  r ← request (Dup2 fd target_fd);
  mret match r with Ok _ => Ok tt | Err e => Err (Dup2Failed e) end.

(** The three [dup2]s, up to the first that fails. *)
Definition redirect_fds (devnull out_fd : Z) : sys W (result supervisor_error unit) :=
  r ← dup2_checked devnull STDIN_FILENO;
  match r with
  | Err e => mret (Err e)
  | Ok _ =>
      r ← dup2_checked out_fd STDOUT_FILENO;
      match r with
      | Err e => mret (Err e)
      | Ok _ => dup2_checked out_fd STDERR_FILENO
      end
  end.

(** Closing what was opened, unless it is a standard descriptor itself. *)
Definition close_extra (fd : Z) (extra : bool) : sys W unit :=
  if extra && (STDERR_FILENO <? fd) then request (Close fd) else mret tt.

Definition redirect_stdio (log_file : option string) : sys W (result supervisor_error unit) :=
  devnull ← open_fd "/dev/null" O_RDWR 0;
  match devnull with
  | Err e => mret (Err e)
  | Ok devnull =>
      out ← match log_file with
            | Some path => open_fd path (Z.lor (Z.lor O_WRONLY O_CREAT) O_APPEND) LOG_MODE
            | None => mret (Ok devnull)
            end;
      match out with
      | Err e => mret (Err e)
      | Ok out_fd =>
          r ← redirect_fds devnull out_fd;
          _ ← close_extra out_fd (negb (out_fd =? devnull));
          _ ← close_extra devnull true;
          mret r
      end
  end.

Definition run_supervisor (fuel : nat) (args : Args) : sys W process_end :=
  forked ← request Fork;
  match forked with
  | Err e => mret (failed (DaemonForkFailed e))
  | Ok pid =>
      if 0 <? pid then mret stopped
      else
        session ← request Setsid;
        match session with
        | Err e => mret (failed (SetsidFailed e))
        | Ok _ =>
            redirected ← redirect_stdio (log_file args);
            match redirected with
            | Err e => mret (failed e)
            | Ok _ =>
                signals ← SignalFd_new [SIGTERM; SIGINT; SIGCHLD];
                match signals with
                | Err e => mret (failed (SupervisorSignalsFailed e))
                | Ok fd => supervise fuel args fd
                end
            end
        end
  end.

Definition main (fuel : nat) (args : Args) : sys W process_end :=
  if daemon args then run_supervisor fuel args
  else
    r ← run_worker fuel args;
    mret (Returned match r with Ok _ => Ok tt | Err e => Err (inr e) end).

End Supervisor.
