(* ===== verification/KeeperSpec.v ===== *)
(** * What a supervisor promises

    The daemon's life as a machine that knows nothing of polls, descriptors or
    buffers of signals: a worker is started, and then it fails and is started again
    after a delay, or ends well, or is stopped on request, first politely and after
    ten seconds by force.  A labelled transition system; what it guarantees is
    proved by induction on its steps.  The supervisor is shown elsewhere to be an
    implementation of it. *)

From Stdlib Require Import ZArith Lia Sorted.
From stdpp Require Import base list numbers.
From S2P Require Import Prelude Encoder System Machine Signals Worker Supervisor.
Local Open Scope Z_scope.

(** ** The delays *)

(** The delay before restart number [k] of a crash loop, counting from 0. *)
Definition delay_of (k : Z) : Z := secs (Z.min (2 ^ k) 60).

Lemma delay_of_bounds (k : Z) : 0 <= k -> RESTART_BACKOFF_MIN <= delay_of k <= RESTART_BACKOFF_MAX.
Proof.
  intros Hk. unfold RESTART_BACKOFF_MIN, RESTART_BACKOFF_MAX, delay_of, secs.
  pose proof (Z.pow_pos_nonneg 2 k ltac:(lia) Hk). lia.
Qed.

Lemma delay_doubles (k : Z) : 0 <= k ->
  duration_mul (delay_of k) 2 = Done (delay_of k * 2) /\
  Z.min (delay_of k * 2) RESTART_BACKOFF_MAX = delay_of (k + 1).
Proof.
  intros Hk. pose proof (delay_of_bounds k Hk) as Hb. split.
  - unfold duration_mul. destruct (Z.ltb_spec (delay_of k * 2 / 10 ^ 9) (2 ^ 64)) as [_|H]; [done|].
    unfold RESTART_BACKOFF_MAX, secs in Hb. pose proof (Z.mul_div_le (delay_of k * 2) (10 ^ 9) ltac:(done)). lia.
  - unfold RESTART_BACKOFF_MAX, delay_of, secs. rewrite Z.pow_add_r, Z.pow_1_r by lia.
    pose proof (Z.pow_pos_nonneg 2 k ltac:(lia) Hk). lia.
Qed.

Module Keeper.

(** Where the daemon stands; [k] is the number of restarts of the crash loop. *)
Inductive phase :=
  | Resting (k : Z)                    (* about to start a worker *)
  | Running (pid started k : Z)
  | Asked (pid : Z)                    (* a shutdown was requested *)
  | Stopping (pid deadline : Z)        (* the worker was asked to stop *)
  | Killed (pid : Z)
  | Ended (status started k : Z)       (* the worker went on its own *)
  | Waiting (deadline k : Z)
  | Stopped.

(** The phase, and the last reading of the clock. *)
Record State := { now_is : phase; clock : Z }.

Inductive label :=
  | Reads (t : Z)
  | Forks (pid : Z)
  | Gets (sig : Z)                     (* a signal to the supervisor *)
  | Signals (pid sig : Z)              (* a signal to the worker *)
  | Reaps (pid status : Z).

(** Where a signal leads, and where signals are listened to. *)
Definition hear (ph : phase) (sig : Z) : phase :=
  if not_sigchld sig then
    match ph with
    | Running pid _ _ => Asked pid
    | Waiting _ _ => Stopped
    | _ => ph
    end
  else ph.

Definition attentive (ph : phase) : bool :=
  match ph with Resting _ | Ended _ _ _ => false | _ => true end.

(** The restarts counted, [k] of them so far, after a worker up from [started] to [t]. *)
Definition counted (started t k : Z) : Z := if HEALTHY_RUNTIME <=? Z.max 0 (t - started) then 0 else k.

Inductive step : State -> list label -> State -> Prop :=
  | reads ph t t' : step {| now_is := ph; clock := t |} [Reads t'] {| now_is := ph; clock := t' |}
  | hears ph t sig : attentive ph = true ->
      step {| now_is := ph; clock := t |} [Gets sig] {| now_is := hear ph sig; clock := t |}
  | forks k t pid :
      step {| now_is := Resting k; clock := t |} [Forks pid] {| now_is := Running pid t k; clock := t |}
  | terminates pid t t' :
      step {| now_is := Asked pid; clock := t |} [Signals pid SIGTERM; Reads t']
        {| now_is := Stopping pid (t' + WORKER_STOP_GRACE); clock := t' |}
  | kills pid deadline t : deadline <= t ->
      step {| now_is := Stopping pid deadline; clock := t |} [Signals pid SIGKILL]
        {| now_is := Killed pid; clock := t |}
  | reaps pid status started k t :
      step {| now_is := Running pid started k; clock := t |} [Reaps pid status]
        {| now_is := Ended status started k; clock := t |}
  | reaps_stopping pid status deadline t :
      step {| now_is := Stopping pid deadline; clock := t |} [Reaps pid status] {| now_is := Stopped; clock := t |}
  | reaps_killed pid status t :
      step {| now_is := Killed pid; clock := t |} [Reaps pid status] {| now_is := Stopped; clock := t |}
  | retires status started k t : should_restart status = false ->
      step {| now_is := Ended status started k; clock := t |} [] {| now_is := Stopped; clock := t |}
  | backs_off status started k t t0 t1 : should_restart status = true ->
      step {| now_is := Ended status started k; clock := t |} [Reads t0; Reads t1]
        {| now_is := Waiting (t1 + delay_of (counted started t0 k)) (counted started t0 k); clock := t1 |}
  | restarts deadline k t : deadline <= t ->
      step {| now_is := Waiting deadline k; clock := t |} [] {| now_is := Resting (k + 1); clock := t |}.

(** ** What it guarantees *)

Definition reading_in (l : label) : option Z := match l with Reads t => Some t | _ => None end.
Definition readings (ls : list label) : list Z := omap reading_in ls.

Definition fork_in (l : label) : option Z := match l with Forks pid => Some pid | _ => None end.
Definition workers (ls : list label) : list Z := omap fork_in ls.

(** The readings [ts] never go back, from [t] on; the last of them. *)
Fixpoint rises (t : Z) (ts : list Z) : Prop :=
  match ts with [] => True | t' :: ts => t <= t' /\ rises t' ts end.
Definition latest (t : Z) (ts : list Z) : Z := default t (list.last ts).

Lemma latest_app (t : Z) (a b : list Z) : latest t (a ++ b) = latest (latest t a) b.
Proof. unfold latest. rewrite last_app. by destruct (list.last b). Qed.

Lemma latest_cons (t t' : Z) (ts : list Z) : latest t (t' :: ts) = latest t' ts.
Proof. exact (latest_app t [t'] ts). Qed.

Lemma rises_app (t : Z) (a b : list Z) : rises t (a ++ b) <-> rises t a /\ rises (latest t a) b.
Proof.
  revert t. induction a as [|x a IH]; intros t; [cbn; tauto|]. rewrite latest_cons. cbn [app rises]. rewrite IH. tauto.
Qed.

Lemma sorted_rises (t : Z) (ts : list Z) : Sorted Z.le (t :: ts) <-> rises t ts.
Proof.
  revert t. induction ts as [|x ts IH]; intros t; cbn [rises].
  - split; [done|]. intros _. apply Sorted_cons; [apply Sorted_nil|apply HdRel_nil].
  - rewrite <- IH. split.
    + intros H. inversion H as [|? ? Hs Hd]; subst. inversion Hd; subst. done.
    + intros [Hle Hs]. apply Sorted_cons; [done|]. by apply HdRel_cons.
Qed.

(** Every start but the first was paid for with the shortest delay at least: the
    time [paid] by [workers] starts is over, or will be when the wait is. *)
Definition paid (t0 : Z) (n : Z) (s : State) : Prop :=
  match now_is s with
  | Resting k => 0 <= k /\ n * RESTART_BACKOFF_MIN <= clock s - t0
  | Waiting deadline k => 0 <= k /\ n * RESTART_BACKOFF_MIN <= deadline - t0 /\ (n - 1) * RESTART_BACKOFF_MIN <= clock s - t0
  | Running _ _ k | Ended _ _ k => 0 <= k /\ (n - 1) * RESTART_BACKOFF_MIN <= clock s - t0
  | _ => (n - 1) * RESTART_BACKOFF_MIN <= clock s - t0
  end.

Lemma paid_later (t0 n t t' : Z) (ph : phase) :
  t <= t' -> paid t0 n {| now_is := ph; clock := t |} -> paid t0 n {| now_is := ph; clock := t' |}.
Proof. intros Hle. unfold paid. destruct ph; cbn [now_is clock]; lia. Qed.

Lemma paid_bound (t0 n : Z) (s : State) : paid t0 n s -> (n - 1) * RESTART_BACKOFF_MIN <= clock s - t0.
Proof. unfold paid, RESTART_BACKOFF_MIN, secs. destruct (now_is s); lia. Qed.

Lemma step_paid (t0 n : Z) (s s' : State) (l : list label) :
  rises (clock s) (readings l) -> paid t0 n s -> step s l s' ->
  clock s' = latest (clock s) (readings l) /\ paid t0 (n + zlen (workers l)) s'.
Proof.
  intros Hr Hp Hs. destruct Hs as [ph t t'|ph t sig Ha|k t pid|pid t t'|pid d t Hd|pid st sd k t|pid st d t|pid st t
    |st sd k t Hsr|st sd k t u0 u1 Hsr|d k t Hd]; cbn in Hr; change (zlen (workers _)) with 0 || change (zlen (workers _)) with 1;
    rewrite ?Z.add_0_r; (split; [done|]).
  - eapply paid_later; [apply Hr|done].
  - unfold hear. destruct (not_sigchld sig); [|done]. destruct ph; try done; unfold paid in *; cbn in *; lia.
  - unfold paid in *; cbn [now_is clock] in *. lia.
  - unfold paid in *; cbn [now_is clock] in *. lia.
  - exact Hp.
  - exact Hp.
  - exact Hp.
  - exact Hp.
  - apply Hp.
  - unfold paid in *; cbn [now_is clock] in *. destruct Hp as [Hk Hp].
    assert (Hc : 0 <= counted sd u0 k) by (unfold counted; destruct (_ <=? _); lia).
    pose proof (delay_of_bounds _ Hc). lia.
  - unfold paid in *; cbn [now_is clock] in *. lia.
Qed.

(** A run from the start. *)
Lemma steps_paid (t0 : Z) (s' : State) (ls : list label) :
  steps step {| now_is := Resting 0; clock := t0 |} ls s' -> rises t0 (readings ls) ->
  (zlen (workers ls) - 1) * RESTART_BACKOFF_MIN <= latest t0 (readings ls) - t0.
Proof.
  intros Hs Hr.
  assert (H : rises t0 (readings ls) -> clock s' = latest t0 (readings ls) /\ paid t0 (zlen (workers ls)) s').
  { revert Hs. apply (steps_invariant step (fun ls s => rises t0 (readings ls) ->
      clock s = latest t0 (readings ls) /\ paid t0 (zlen (workers ls)) s)).
    - intros pre s l s1 IH Hstep. unfold readings, workers. rewrite !omap_app, rises_app, latest_app, zlen_app.
      fold (readings pre) (readings l) (workers pre) (workers l).
      intros [Hpre Hl]. destruct (IH Hpre) as [Hc Hp]. rewrite <- Hc in *. by eapply step_paid.
    - intros _. split; [done|]. change (zlen (workers [])) with 0. unfold paid. cbn [now_is clock]. lia. }
  destruct (H Hr) as [Hc Hp]. rewrite <- Hc. by apply paid_bound.
Qed.

End Keeper.
