(* ===== verification/SupervisorProps.v ===== *)
(** * Supervising the worker

    What the supervisor does to its worker, read off the log of system calls:
    the order of signals when it stops one, the wait between two, that there is
    never more than one, and that a shutdown request is final. *)

From stdpp Require Import base list numbers strings.
From Stdlib Require Import ZArith Lia.
From S2P Require Import Prelude Constants Elements Template Encoder CollectorProps System Socket Signals Worker WorkerLog WorkerProps WorkerMain Supervisor KeeperSpec.
Local Open Scope Z_scope.

(** ** Reading the log *)

Definition kill_in (c : call) : option Z :=
  match c with
  | existT (Kill _ sig) _ => Some sig
  | _ => None
  end.

(** The signals sent in a stretch of the log. *)
Definition kills (calls : list call) : list Z := omap kill_in calls.

(** The shutdown requests read in a stretch of the log. *)
Definition requests (calls : list call) : list Z := List.filter not_sigchld (signals_read calls).

(** A call that neither starts a worker nor reaps one. *)
Definition steady_call (c : call) : Prop :=
  match c with
  | existT Fork _ => False
  | existT (Waitpid q) (Ok (p, _)) => p <> q
  | _ => True
  end.

Definition steady (calls : list call) : Prop := Forall steady_call calls.

(** A call that cannot block for good: a poll with a timeout. *)
Definition prompt_call (c : call) : Prop :=
  match c with
  | existT (Poll _ timeout) _ => 0 <= timeout
  | _ => True
  end.

Lemma kills_app (l1 l2 : list call) : kills (l1 ++ l2) = kills l1 ++ kills l2.
Proof. apply omap_app. Qed.

Lemma requests_app (l1 l2 : list call) : requests (l1 ++ l2) = requests l1 ++ requests l2.
Proof. unfold requests, signals_read. by rewrite omap_app, List.filter_app. Qed.

Lemma steady_nil : steady [].
Proof. apply Forall_nil_2. Qed.

Lemma steady_app (l1 l2 : list call) : steady l1 -> steady l2 -> steady (l1 ++ l2).
Proof. intros. by apply Forall_app. Qed.

Lemma steady_cons (c : call) (l : list call) : steady_call c -> steady l -> steady (c :: l).
Proof. apply Forall_cons_2. Qed.

Create HintDb calls.
#[export] Hint Resolve steady_nil steady_app steady_cons : calls.
#[export] Hint Extern 1 (steady_call _) => exact I : calls.

(** Reads of the signal descriptor are steady and send nothing. *)
Lemma reads_plain (fd : Z) (calls : list call) : Forall (is_read fd) calls ->
  kills calls = [] /\ steady calls /\ Forall prompt_call calls.
Proof.
  induction 1 as [|[c a] calls Hc _ (Hk & Hs & Hp)]; [by repeat constructor|]. unfold is_read in Hc.
  cbn in Hc. subst c. split; [exact Hk|]. split; by apply Forall_cons_2.
Qed.

(** A deadline in the past polls without waiting; it never blocks for good. *)
Lemma ms_until_nonneg (deadline t : Z) : 0 <= ms_until deadline t.
Proof.
  unfold ms_until, duration_since, i32_max.
  pose proof (Z.div_pos (Z.max 0 (deadline - t)) (10 ^ 6) ltac:(lia) ltac:(lia)). destruct (_ <=? _); lia.
Qed.

Lemma poll_readable_logged {W : Type} {K : Kernel W} (stuck : Prop) (fd timeout : Z) (w : world W) :
  run stuck (poll_readable fd timeout) w (fun _ w' => exists a, log w' = log w ++ [called (Poll [fd] timeout) a]).
Proof. unfold poll_readable. call_with a w' Hl. apply run_ret. by exists a. Qed.

Section Watching.
Context {W : Type} {K : Kernel W} (Hclock : sane_clock W).

(** Reading the clock, with the reading in the log. *)
Lemma now_logged (stuck : Prop) (w : world W) :
  run stuck now w (fun t w' => exists c : Clock, log w' = log w ++ [called ClockNow c] /\ t = instant c /\
    t < secs (2 ^ 62)).
Proof using Hclock.
  unfold now. eapply run_bind.
  { apply (run_request _ ClockNow w (fun (a : answer ClockNow) w' =>
      log w' = log w ++ [called ClockNow a] /\ instant a < secs (2 ^ 62))). intros a k Ha.
    split; [done|]. pose proof (Hclock (kernel w)) as H. by rewrite Ha in H. }
  intros a w' [Hl Ht]. apply run_ret. by exists a.
Qed.

(** ** Stopping a worker *)

(** The calls made since the worker started and the variables of
    [supervise_child] they lead to: nothing asked for and nothing sent; asked,
    SIGTERM sent, and the deadline the grace period after the clock read then; or
    the deadline passed and SIGKILL sent too.  Until then every wait is bounded. *)
Inductive stop_order (pid : Z) : list call -> bool * option Z -> Prop :=
  | watching calls : kills calls = [] -> requests calls = [] -> stop_order pid calls (false, None)
  | stopping a (c : Clock) b :
      kills a = [] -> requests a <> [] -> kills b = [] -> Forall prompt_call b ->
      stop_order pid (a ++ [called (Kill pid SIGTERM) tt; called ClockNow c] ++ b)
        (true, Some (instant c + WORKER_STOP_GRACE))
  | killed a (c : Clock) b (c' : Clock) d :
      kills a = [] -> requests a <> [] -> kills b = [] -> Forall prompt_call b -> kills d = [] ->
      instant c + WORKER_STOP_GRACE <= instant c' ->
      stop_order pid (a ++ [called (Kill pid SIGTERM) tt; called ClockNow c] ++ b ++
        [called ClockNow c'; called (Kill pid SIGKILL) tt] ++ d) (true, None).

(** Calls that send nothing and read no request change nothing. *)
Lemma stop_order_more (pid : Z) (calls more : list call) (s : bool * option Z) :
  stop_order pid calls s -> kills more = [] -> (s.1 = false -> requests more = []) ->
  (is_Some s.2 -> Forall prompt_call more) -> stop_order pid (calls ++ more) s.
Proof using Type.
  intros Hs Hk Hr Hp. destruct Hs as [calls Hka Hra|a c b Hka Hra Hkb Hpb|a c b c' d Hka Hra Hkb Hpb Hkd Hgr].
  - apply watching; [by rewrite kills_app, Hka, Hk|]. by rewrite requests_app, Hra, Hr.
  - rewrite <- !app_assoc. apply stopping; [done|done|by rewrite kills_app, Hkb, Hk|].
    apply Forall_app. split; [done|]. by apply Hp.
  - rewrite <- !app_assoc. apply killed; try done. by rewrite kills_app, Hkd, Hk.
Qed.

(** [after w0 w P]: since [w0] the calls [P] speaks of were made. *)
Definition after (w0 w : world W) (P : list call -> Prop) : Prop :=
  exists calls, log w = log w0 ++ calls /\ P calls.

Lemma on_signal_run (stuck : Prop) (pid : Z) (s : bool * option Z) (sig : Z) (w0 w : world W) :
  after w0 w (fun calls => requests calls <> [] /\ steady calls /\
    (stop_order pid calls s \/ s = (false, None) /\ kills calls = [])) ->
  run stuck (on_signal pid s sig) w (fun s' w' => s'.1 = true /\
    after w0 w' (fun calls => requests calls <> [] /\ steady calls /\ stop_order pid calls s')).
Proof using Hclock.
  intros (calls & Hl & Hr & Hst & Hs). destruct s as [down deadline]. unfold on_signal.
  destruct down; cbn [negb].
  - destruct Hs as [Hs|[Hs _]]; [|discriminate]. apply run_ret. split; [done|]. by exists calls.
  - assert (deadline = None /\ kills calls = []) as [-> Hk].
    { destruct Hs as [Hs|[[= ->] Hk]]; [|done]. by inversion Hs. }
    call_with u w1 H1. destruct u. eapply run_bind; [apply now_logged|]. intros t w2 (c & H2 & -> & Ht).
    eapply run_lift_bind; [apply instant_add_done; [done|by vm_compute]|]. apply run_ret. split; [done|].
    pose proof (log_two _ _ _ _ _ (log_two _ _ _ _ _ Hl H1) H2) as H3.
    eexists. split; [exact H3|]. split; [|split].
    + rewrite !requests_app. by destruct (requests calls).
    + auto with calls.
    + rewrite <- app_assoc. exact (stopping pid calls c [] Hk Hr eq_refl (Forall_nil_2 _)).
Qed.

Lemma on_signals_run (stuck : Prop) (pid : Z) (l : list Z) (s : bool * option Z) (w0 w : world W) :
  s.1 = true -> after w0 w (fun calls => requests calls <> [] /\ steady calls /\ stop_order pid calls s) ->
  run stuck (sys_foldM (on_signal pid) s l) w (fun s' w' =>
    after w0 w' (fun calls => requests calls <> [] /\ steady calls /\ stop_order pid calls s')).
Proof using Hclock.
  revert s w. induction l as [|sig l IH]; intros s w Hs Ha; [by apply run_ret|]. cbn [sys_foldM].
  eapply run_bind; [apply (on_signal_run stuck pid s sig w0 w)|].
  - destruct Ha as (calls & Hl & Hr & Hst & Ho). exists calls. auto.
  - intros s' w' [Hs' Ha']. by apply IH.
Qed.

(** One call of a stretch that leaves the worker alone. *)
Definition plain_call (c : call) : Prop := kill_in c = None /\ signal_read c = None /\ steady_call c.

(** The variables of [supervise_child] after the calls since [w0]. *)
Definition watched (pid : Z) (w0 : world W) (s : bool * option Z) (w : world W) : Prop :=
  after w0 w (fun calls => steady calls /\ stop_order pid calls s).

Lemma watched_call (pid : Z) (w0 w w' : world W) (s : bool * option Z) (c : call) :
  watched pid w0 s w -> log w' = log w ++ [c] -> plain_call c -> (is_Some s.2 -> prompt_call c) ->
  watched pid w0 s w'.
Proof using Type.
  intros (calls & Hl & Hst & Ho) Hl' (Hk & Hr & Hsc) Hp.
  exists (calls ++ [c]). split; [exact (log_two _ _ _ _ _ Hl Hl')|]. split.
  - auto with calls.
  - apply stop_order_more; [done|unfold kills; cbn; by rewrite Hk| |].
    + intros _. unfold requests, signals_read. cbn. by rewrite Hr.
    + intros H. apply Forall_cons_2; [by apply Hp|done].
Qed.

Lemma watch_timeout_run (stuck : Prop) (pid : Z) (w0 w : world W) (s : bool * option Z) :
  watched pid w0 s w ->
  run stuck (watch_timeout s) w (fun timeout w' => watched pid w0 s w' /\ (is_Some s.2 -> 0 <= timeout)).
Proof using Hclock.
  intros Hw. destruct s as [down [deadline|]]; unfold watch_timeout; cbn [snd].
  - eapply run_bind; [apply now_logged|]. intros t w' (c & Hl & -> & Ht). apply run_ret. split.
    + by eapply watched_call.
    + intros _. apply ms_until_nonneg.
  - apply run_ret. split; [done|]. by intros [? [=]].
Qed.

Lemma escalate_run (stuck : Prop) (pid : Z) (w0 w : world W) (s : bool * option Z) :
  watched pid w0 s w -> run stuck (escalate pid s) w (fun s' w' => watched pid w0 s' w').
Proof using Hclock.
  intros Hw. destruct s as [down [deadline|]]; unfold escalate; cbn [fst snd]; [|by apply run_ret].
  eapply run_bind; [apply now_logged|]. intros t w1 (c' & Hl1 & -> & Ht).
  destruct (Z.leb_spec deadline (instant c')) as [Hle|_]; [|by apply run_ret; eapply watched_call].
  call_with u w2 Hl2. destruct u. apply run_ret. destruct Hw as (calls & Hl & Hst & Ho).
  inversion Ho as [|a c b Hka Hra Hkb Hpb|]; subst.
  eexists. split; [exact (log_two _ _ _ _ _ (log_two _ _ _ _ _ Hl Hl1) Hl2)|]. split.
  - auto with calls.
  - rewrite <- !app_assoc. exact (killed pid a c b c' [] Hka Hra Hkb Hpb eq_refl Hle).
Qed.

Lemma try_reap_run (stuck : Prop) (pid : Z) (w0 w : world W) (s : bool * option Z) :
  watched pid w0 s w ->
  run stuck (try_reap pid) w (fun r w' =>
    match r with
    | Ok (Some status) => log w' = log w ++ [called (Waitpid pid) (Ok (pid, status))]
    | _ => watched pid w0 s w'
    end).
Proof using Type.
  intros Hw. unfold try_reap. call_with a w' Hl. apply run_ret. destruct a as [[p status]|[]].
  - destruct (Z.eqb_spec p pid) as [->|Hne]; [exact Hl|]. by eapply watched_call.
  - by eapply watched_call.
  - by eapply watched_call.
  - by eapply watched_call.
Qed.

Lemma poll_readable_run (stuck : Prop) (pid fd timeout : Z) (w0 w : world W) (s : bool * option Z) :
  watched pid w0 s w -> (is_Some s.2 -> 0 <= timeout) ->
  run stuck (poll_readable fd timeout) w (fun _ w' => watched pid w0 s w').
Proof using Type.
  intros Hw Ht. eapply run_conseq; [apply poll_readable_logged|]. intros _ w' [a Hl]. by eapply watched_call.
Qed.

(** Reading the signals and acting on them. *)
Lemma read_signals_run (fuel : nat) (fd pid : Z) (w0 w : world W) (s : bool * option Z) :
  watched pid w0 s w ->
  runs (signals ← read_pending fuel fd;
        match signals with
        | Err e => mret (Break (Err (SupervisorReadFailed e)))
        | Ok l => s ← sys_foldM (on_signal pid) s (List.filter not_sigchld l); mret (Continue s)
        end) w
    (fun (step : flow _ (result supervisor_error Supervision)) w' => match step with
       | Continue s' => watched pid w0 s' w'
       | Break (Ok _) => False
       | Break (Err _) => after w0 w' (fun calls => steady calls)
       end).
Proof using Hclock.
  intros (calls & Hl & Hst & Ho). eapply run_bind; [apply read_pending_run|].
  intros [l|e] w' (reads & Hl' & Hrd & Hsig).
  all: destruct (reads_plain fd reads Hrd) as (Hk & Hs & Hp).
  all: pose proof (log_two _ _ _ _ _ Hl Hl') as Hl2.
  all: assert (Hst2 : steady (calls ++ reads)) by (auto with calls).
  2: { apply run_ret. by exists (calls ++ reads). }
  assert (Hreq : requests reads = List.filter not_sigchld l) by (unfold requests; by rewrite Hsig).
  destruct (List.filter not_sigchld l) as [|sig rest].
  - apply run_ret. exists (calls ++ reads). split; [done|]. split; [done|]. by apply stop_order_more.
  - assert (Hne : requests (calls ++ reads) <> []).
    { rewrite requests_app, Hreq. by destruct (requests calls). }
    cbn [sys_foldM]. eapply run_bind; [eapply run_bind; [apply (on_signal_run True pid s sig w0 w')|]|].
    + exists (calls ++ reads). split; [done|]. split; [done|]. split; [done|]. destruct s as [[] d].
      * left. apply stop_order_more; done.
      * right. inversion Ho. split; [done|]. rewrite kills_app, Hk, app_nil_r. done.
    + intros s' w2 [Hs' Ha]. by apply on_signals_run.
    + intros s' w2 (calls2 & Hl3 & _ & Hst3 & Ho3). apply run_ret. by exists calls2.
Qed.

(** How [supervise_child] ends: with the worker reaped, after the calls of
    [stop_order] in a state that tells a shutdown from an exit of its own. *)
Definition supervised (pid : Z) (w0 : world W) (r : result supervisor_error Supervision) (w : world W) : Prop :=
  after w0 w (fun calls =>
    match r with
    | Err _ => steady calls
    | Ok how => exists before status d,
        calls = before ++ [called (Waitpid pid) (Ok (pid, status))] /\ steady before /\
        match how with
        | Exited st => st = status /\ stop_order pid before (false, d)
        | ShutdownRequested => stop_order pid before (true, d)
        end
    end).

Lemma watched_steady (pid : Z) (w0 w : world W) (s : bool * option Z) (e : supervisor_error) :
  watched pid w0 s w -> supervised pid w0 (Err e) w.
Proof using Type. intros (calls & Hl & Hst & _). by exists calls. Qed.

Lemma watch_pass_run (fuel : nat) (fd pid : Z) (w0 w : world W) (s : bool * option Z) :
  watched pid w0 s w ->
  runs (watch_pass fuel fd pid s) w (fun step w' =>
    match step with Continue s' => watched pid w0 s' w' | Break r => supervised pid w0 r w' end).
Proof using Hclock.
  intros Hw. unfold watch_pass. eapply run_bind; [by apply try_reap_run|].
  intros [[status|]|e] w1 H1.
  - apply run_ret. destruct Hw as (calls & Hl & Hst & Ho).
    exists (calls ++ [called (Waitpid pid) (Ok (pid, status))]). split; [exact (log_two _ _ _ _ _ Hl H1)|].
    destruct s as [[] d]; exists calls, status, d; done.
  - eapply run_bind; [by apply watch_timeout_run|]. intros timeout w2 [H2 Ht].
    eapply run_bind; [by apply poll_readable_run|]. intros [[]|e] w3 H3.
    + eapply run_conseq; [by apply read_signals_run|]. intros [s'|[how|e]] w4 H4; [done|done|].
      destruct H4 as (calls & Hl & Hst). by exists calls.
    + eapply run_bind; [by apply escalate_run|]. intros s' w4 H4. by apply run_ret.
    + destruct e; apply run_ret; [by eapply watched_steady|done|by eapply watched_steady].
  - apply run_ret. by eapply watched_steady.
Qed.

Lemma supervise_child_run (fuel : nat) (fd pid : Z) (w : world W) :
  runs (supervise_child fuel fd pid) w (supervised pid w).
Proof using Hclock.
  apply (runs_loop _ (watched pid w)); [intros; by apply watch_pass_run|].
  exists []. rewrite app_nil_r. split; [done|]. split; [apply Forall_nil_2|by apply watching].
Qed.

End Watching.

(** What [supervise_child] reports, and what it did for it: an exit, if the worker
    was reaped with that status, no shutdown signal was read and nothing was sent
    to it; a shutdown, if it was stopped in the right order and reaped. *)
Definition in_order {W : Type} (pid : Z) (w : world W) (r : result supervisor_error Supervision)
    (w' : world W) : Prop :=
  exists calls, log w' = log w ++ calls /\
    match r with
    | Err _ => True
    | Ok (Exited status) =>
        last calls = Some (called (Waitpid pid) (Ok (pid, status))) /\ kills calls = [] /\ requests calls = []
    | Ok ShutdownRequested => exists before status d,
        calls = before ++ [called (Waitpid pid) (Ok (pid, status))] /\ stop_order pid before (true, d)
    end.

Lemma supervised_in_order {W : Type} (pid : Z) (w w' : world W) (r : result supervisor_error Supervision) :
  supervised pid w r w' -> in_order pid w r w'.
Proof.
  intros (calls & Hl & Hend). exists calls. split; [done|]. destruct r as [[status|]|e]; [| |done].
  - destruct Hend as (before & st & d & -> & _ & -> & Ho). inversion Ho; subst.
    rewrite last_snoc, kills_app, requests_app. split; [done|]. split; by apply app_nil.
  - destruct Hend as (before & st & d & -> & _ & Ho). by exists before, st, d.
Qed.

(** ** Waiting before a restart *)

Lemma filter_none {A : Type} (f : A -> bool) (l : list A) : List.find f l = None -> List.filter f l = [].
Proof.
  induction l as [|x l IH]; [done|]. cbn. destruct (f x); [done|]. exact IH.
Qed.

Section Waiting.
Context {W : Type} {K : Kernel W} (Hclock : sane_clock W).

(** Nothing but waiting: no signal sent, no request read, no unbounded wait. *)
Definition idling (calls : list call) : Prop :=
  steady calls /\ kills calls = [] /\ requests calls = [] /\ Forall prompt_call calls.

Lemma idling_snoc (calls : list call) (c : call) :
  idling calls -> plain_call c -> prompt_call c -> idling (calls ++ [c]).
Proof using Type.
  intros (Hst & Hk & Hr & Hp) (Hkc & Hrc & Hsc) Hpc. unfold idling.
  rewrite kills_app, requests_app, Hk, Hr. unfold kills, requests, signals_read. cbn. rewrite Hkc, Hrc.
  split_and!; [|done|done|]; apply Forall_app; split; try done; by apply Forall_cons_2.
Qed.

Definition waited (deadline : Z) (w0 : world W) (r : result supervisor_error bool) (w : world W) : Prop :=
  after w0 w (fun calls => steady calls /\
    match r with
    | Ok false => requests calls = [] /\ exists before (c : Clock),
        calls = before ++ [called ClockNow c] /\ deadline <= instant c
    | Ok true => requests calls <> []
    | Err _ => True
    end).

Lemma wait_pass_run (fuel : nat) (fd deadline : Z) (u : unit) (w0 w : world W) :
  after w0 w idling ->
  runs (wait_pass fuel fd deadline u) w (fun step w' =>
    match step with Continue _ => after w0 w' idling | Break r => waited deadline w0 r w' end).
Proof using Hclock.
  intros (calls & Hl & Hi). unfold wait_pass. eapply run_bind; [by apply now_logged|].
  intros t w1 (c & Hl1 & -> & _). pose proof (log_two _ _ _ _ _ Hl Hl1) as Hl2. clear Hl1.
  assert (Hi2 : idling (calls ++ [called ClockNow c])) by by apply idling_snoc.
  destruct (Z.leb_spec deadline (instant c)) as [Hle|Hgt].
  { apply run_ret. exists (calls ++ [called ClockNow c]). split; [done|]. destruct Hi2 as (Hst & _ & Hr & _).
    split; [done|]. split; [done|]. by exists calls, c. }
  eapply run_bind; [apply poll_readable_logged|]. intros polled w2 [a Hl3].
  pose proof (log_two _ _ _ _ _ Hl2 Hl3) as Hl4. clear Hl2 Hl3.
  assert (Hi4 : idling ((calls ++ [called ClockNow c]) ++ [called (Poll [fd] (ms_until deadline (instant c))) a]))
    by (apply idling_snoc; [done|done|apply ms_until_nonneg]).
  set (calls4 := (_ ++ _) ++ _) in *. pose proof Hi4 as (Hst & Hk & Hr & Hp).
  destruct polled as [[]|e].
  - eapply run_bind; [apply read_pending_run|]. intros signals w3 (reads & Hl5 & Hrd & Hsig). apply run_ret.
    pose proof (log_two _ _ _ _ _ Hl4 Hl5) as Hl6. destruct (reads_plain fd reads Hrd) as (Hkr & Hsr & Hpr).
    assert (Hst6 : steady (calls4 ++ reads)) by (auto with calls).
    destruct signals as [l|e]; [|by exists (calls4 ++ reads)].
    assert (Hreq : requests (calls4 ++ reads) = List.filter not_sigchld l)
      by (rewrite requests_app, Hr; unfold requests; by rewrite Hsig).
    destruct (List.find not_sigchld l) as [sig|] eqn:Hfind; exists (calls4 ++ reads); (split; [done|]).
    + split; [done|]. rewrite Hreq. intros Hnil. apply List.find_some in Hfind.
      rewrite <- List.filter_In, Hnil in Hfind. destruct Hfind.
    + unfold idling. rewrite kills_app, Hk, Hkr, Hreq. split_and!; [done|done| |by apply Forall_app].
      by apply filter_none.
  - apply run_ret. by exists calls4.
  - destruct e; apply run_ret; exists calls4; done.
Qed.

Lemma wait_before_restart_run (fuel : nat) (fd delay : Z) (w : world W) :
  delay <= secs (2 ^ 62) ->
  runs (wait_before_restart fuel fd delay) w (fun r w' => exists (c : Clock) w1,
    log w1 = log w ++ [called ClockNow c] /\ waited (instant c + delay) w1 r w').
Proof using Hclock.
  intros Hd. unfold wait_before_restart. eapply run_bind; [by apply now_logged|].
  intros t w1 (c & Hl & -> & Ht). eapply run_lift_bind; [by apply instant_add_done|].
  eapply run_conseq; [apply (runs_loop _ (fun _ w' => after w1 w' idling) (waited (instant c + delay) w1))|].
  - intros u w2 H2. by apply wait_pass_run.
  - exists []. rewrite app_nil_r. split; [done|]. split_and!; try done; apply Forall_nil_2.
  - intros r w' Hr. by exists c, w1.
Qed.

(** What [restart] does with a worker that was started at [started], exited with
    [status] and would be restarted after delay [k]. *)
Definition restarted (started status k : Z) (w0 : world W) (step : flow Z process_end) (w : world W) : Prop :=
  after w0 w (fun calls => steady calls /\
    match step with
    | Continue b => should_restart status = true /\ requests calls = [] /\
        exists (c0 c1 c2 : Clock) before,
          calls = called ClockNow c0 :: called ClockNow c1 :: before ++ [called ClockNow c2] /\
          let k' := if HEALTHY_RUNTIME <=? duration_since (instant c0) started then 0 else k in
          instant c1 + delay_of k' <= instant c2 /\ b = delay_of (k' + 1)
    | Break (Returned (Ok _)) => (should_restart status = false /\ calls = []) \/
        (should_restart status = true /\ requests calls <> [])
    | Break (Returned (Err _)) => should_restart status = true
    | Break (Exits _) => False
    end).

Lemma restart_run (fuel : nat) (fd started status k : Z) (w : world W) : 0 <= k ->
  runs (restart fuel fd started status (delay_of k)) w (restarted started status k w).
Proof using Hclock.
  intros Hk. unfold restart. destruct (should_restart status) eqn:Hst; cbn [negb].
  2: { apply run_ret. exists []. rewrite app_nil_r. split; [done|]. split; [apply Forall_nil_2|by left]. }
  eapply run_bind; [by apply now_logged|]. intros t w1 (c0 & Hl0 & -> & _).
  set (k' := if HEALTHY_RUNTIME <=? duration_since (instant c0) started then 0 else k).
  assert (Hk' : 0 <= k') by (unfold k'; destruct (_ <=? _); lia).
  replace (if HEALTHY_RUNTIME <=? duration_since (instant c0) started then RESTART_BACKOFF_MIN else delay_of k)
    with (delay_of k') by (unfold k'; by destruct (_ <=? _)).
  eapply run_bind; [apply wait_before_restart_run|].
  { pose proof (delay_of_bounds k' Hk') as Hb. unfold RESTART_BACKOFF_MAX, secs in *. lia. }
  intros r w3 (c1 & w2 & Hl1 & rest & Hl2 & Hst2 & Hr).
  pose proof (log_two _ _ _ _ _ (log_two _ _ _ _ _ Hl0 Hl1) Hl2) as Hl3.
  assert (Hst3 : steady (([called ClockNow c0] ++ [called ClockNow c1]) ++ rest))
    by (auto with calls).
  destruct r as [[]|e]; [| |by apply run_ret; eexists].
  - apply run_ret. eexists. split; [exact Hl3|]. split; [done|]. right. split; [done|exact Hr].
  - destruct (delay_doubles k' Hk') as [Hd Hm]. eapply run_lift_bind; [exact Hd|]. apply run_ret.
    rewrite Hm. eexists. split; [exact Hl3|]. split; [done|]. destruct Hr as (Hreq & before & c2 & -> & Hle).
    split; [done|]. split; [exact Hreq|]. by exists c0, c1, c2, before.
Qed.

End Waiting.

(** ** One worker at a time *)

(** An observer of the log: the worker that was forked and not reaped, and
    whether a shutdown signal was read.  It rejects a fork while a worker is
    alive or after a shutdown signal. *)
Record monitor := { alive : option Z; asked : bool }.

Definition observe (m : monitor) (c : call) : option monitor :=
  match c with
  | existT Fork (Ok p) =>
      if bool_decide (alive m = None) && negb (asked m) then Some {| alive := Some p; asked := false |} else None
  | existT (Waitpid q) (Ok (p, _)) =>
      if (p =? q) && bool_decide (alive m = Some p) then Some {| alive := None; asked := asked m |} else Some m
  | existT (ReadSignal _) (Ok (Some sig)) =>
      Some {| alive := alive m; asked := asked m || not_sigchld sig |}
  | _ => Some m
  end.

Fixpoint observe_all (m : monitor) (calls : list call) : option monitor :=
  match calls with
  | [] => Some m
  | c :: rest => m ← observe m c; observe_all m rest
  end.

Lemma observe_app (m : monitor) (l1 l2 : list call) :
  observe_all m (l1 ++ l2) = (m ← observe_all m l1; observe_all m l2).
Proof.
  revert m. induction l1 as [|c l1 IH]; intros m; [done|]. cbn. destruct (observe m c); [apply IH|done].
Qed.

(** Steady calls only ever record a request. *)
Lemma observe_steady (calls : list call) (m : monitor) : steady calls ->
  observe_all m calls = Some {| alive := alive m; asked := asked m || negb (bool_decide (requests calls = [])) |}.
Proof.
  intros Hst. revert m. induction Hst as [|c calls Hc _ IH]; intros m.
  { destruct m as [al []]; done. }
  assert (Hone : observe m c = Some {| alive := alive m; asked := asked m || negb (bool_decide (requests [c] = [])) |}).
  { destruct m as [al as_], c as [[] a]; try (destruct as_; reflexivity); cbn in a |- *.
    - destruct a as [[sig|]|]; try (destruct as_; reflexivity). unfold requests, signals_read. cbn.
      destruct (not_sigchld sig), as_; done.
    - done.
    - destruct a as [[p st]|]; [|destruct as_; done]. cbn in Hc. destruct (Z.eqb_spec p pid); [done|].
      destruct as_; done. }
  change (c :: calls) with ([c] ++ calls). rewrite requests_app, observe_app. cbn [observe_all]. rewrite Hone.
  cbn [mbind option_bind]. rewrite IH. cbn [alive asked]. rewrite <- orb_assoc. do 3 f_equal.
  destruct (requests [c]); [done|]. rewrite !bool_decide_false by done. done.
Qed.

(** ** The worker's process *)

Record args_ok (fuel : nat) (args : Args) : Prop := {
  ao_domain : is_u32 (domain_id args);
  ao_template_id : is_u16 (arg_template_id args);
  ao_interval : template_interval args <= 2 ^ 62;
  ao_fuel : 1 + Z.of_nat fuel * pass_cost <= 2 ^ 60
}.

Section Supervising.
Context {T : Target} {W : Type} {K : Kernel W}.
Context (H64 : pointer_width = 64) (Hclock : sane_clock W) (fuel : nat) (args : Args).
Context (Hargs : args_ok fuel args).

(** A run of the worker, with any flags: success means everything was exported. *)
Lemma run_worker_ends_well (w : world W) :
  runs (run_worker fuel args) w (fun r w' => after w w' (fun calls =>
    match r with
    | Ok _ => exists t ms, configure args = Done (Ok t) /\ handed_over t calls ms /\ contents ms = events (packets calls)
    | Err _ => True
    end)).
Proof using H64 Hclock Hargs.
  destruct Hargs as [Hdom Hid Hint Hfuel].
  destruct (configure_cases args Hid) as [[_ [e He]]|(Hgood & _)].
  { unfold run_worker. eapply run_lift_bind; [exact He|]. apply run_ret. exists []. by rewrite app_nil_r. }
  eapply run_conseq; [by apply run_worker_runs|]. intros r w' (t & calls & ms & rest & Ht & Hl & Hc & He & Hr).
  exists calls. split; [done|]. destruct r as [u|e]; [|done]. exists t, ms. subst rest. by rewrite app_nil_r in He.
Qed.

(** How the worker's process ends. *)
Definition child_ended (fd : Z) (w0 : world W) (ended : process_end) (w : world W) : Prop :=
  exists (rc : Z) (a : result io_error unit) (calls : list call),
    ended = Exits rc /\ (rc = 0 \/ rc = 1) /\
    log w = log w0 ++ [called (Close fd) tt; called SigUnblockAll a] ++ calls ++ [called (Exit rc) tt] /\
    match a with
    | Err _ => rc = 1 /\ calls = []
    | Ok _ => rc = 0 ->
        exists t ms, configure args = Done (Ok t) /\ handed_over t calls ms /\ contents ms = events (packets calls)
    end.

Lemma child_main_run (fd : Z) (w : world W) :
  runs (child_main fuel args fd) w (child_ended fd w).
Proof using H64 Hclock Hargs.
  unfold child_main, close_in_child, unblock_all. call_with u w1 H1. destruct u. call_with a w2 H2.
  pose proof (log_two _ _ _ _ _ H1 H2) as H3. destruct a as [[]|e].
  - eapply (run_bind _ _ _ _ (fun rc w' => (rc = 0 \/ rc = 1) /\ after w2 w' (fun calls => rc = 0 ->
      exists t ms, configure args = Done (Ok t) /\ handed_over t calls ms /\ contents ms = events (packets calls)))).
    + eapply run_bind; [apply run_worker_ends_well|]. intros r w4 (calls & H4 & Hr). apply run_ret.
      destruct r; (split; [by auto|]); by exists calls.
    + intros rc w4 (Hrc & calls & H4 & Hr). call_with u w5 H5. destruct u. apply run_ret.
      exists rc, (Ok tt), calls. split; [done|]. split; [done|]. split; [|done].
      pose proof (log_two _ _ _ _ _ (log_two _ _ _ _ _ H3 H4) H5) as H6. by rewrite <- !app_assoc in H6.
  - apply run_ret_bind. call_with u w5 H5. destruct u. apply run_ret. exists 1, (Err e), [].
    split; [done|]. split; [by right|]. split; [exact (log_two _ _ _ _ _ H3 H5)|done].
Qed.

(** ** The loop *)

(** Between two workers: none alive, none asked to stop. *)
Definition idle_monitor : monitor := {| alive := None; asked := false |}.

(** The state at the top of a pass. *)
Definition between (w0 : world W) (backoff : Z) (w : world W) : Prop :=
  (exists k, 0 <= k /\ backoff = delay_of k) /\
  after w0 w (fun calls => observe_all idle_monitor calls = Some idle_monitor).

(** The state at the end. *)
Definition finished (w0 : world W) (ended : process_end) (w : world W) : Prop :=
  match ended with
  | Exits _ => True
  | Returned r => after w0 w (fun calls => exists m, observe_all idle_monitor calls = Some m /\
      match r with Ok _ => alive m = None | Err _ => True end)
  end.

(** After the worker [pid] was forked and before it is reaped. *)
Lemma supervised_observed (pid : Z) (w1 w2 : world W) (r : result supervisor_error Supervision) :
  supervised pid w1 r w2 -> after w1 w2 (fun calls => exists m,
    observe_all {| alive := Some pid; asked := false |} calls = Some m /\
    match r with
    | Ok (Exited _) => m = idle_monitor
    | Ok ShutdownRequested => alive m = None
    | Err _ => True
    end).
Proof using Type.
  intros (calls & Hl & Hr). exists calls. split; [done|]. destruct r as [how|e].
  - destruct Hr as (before & status & d & -> & Hst & Hhow). rewrite observe_app, observe_steady by done.
    cbn [mbind option_bind alive asked observe_all observe called]. rewrite Z.eqb_refl, bool_decide_true by done.
    cbn [andb mbind option_bind]. eexists. split; [done|]. destruct how as [st|]; [|done].
    destruct Hhow as [_ Ho]. inversion Ho as [? _ Hreq| |]; subst. by rewrite Hreq.
  - rewrite observe_steady by done. by eexists.
Qed.

(** Where the observer stands after more calls. *)
Lemma after_observed (w0 w1 w2 : world W) (m1 : monitor) (P : monitor -> Prop) :
  after w0 w1 (fun calls => observe_all idle_monitor calls = Some m1) ->
  after w1 w2 (fun calls => exists m, observe_all m1 calls = Some m /\ P m) ->
  after w0 w2 (fun calls => exists m, observe_all idle_monitor calls = Some m /\ P m).
Proof using Type.
  intros (c1 & H1 & O1) (c2 & H2 & m & O2 & HP). exists (c1 ++ c2). split; [exact (log_two _ _ _ _ _ H1 H2)|].
  exists m. split; [|done]. by rewrite observe_app, O1.
Qed.

Lemma restart_finished (w0 w1 w2 : world W) (started status k : Z) (step : flow Z process_end) : 0 <= k ->
  after w0 w1 (fun calls => observe_all idle_monitor calls = Some idle_monitor) ->
  restarted started status k w1 step w2 ->
  match step with Continue b => between w0 b w2 | Break ended => finished w0 ended w2 end.
Proof using Type.
  intros Hk Ho (calls & Hl & Hst & Hstep). pose proof (observe_steady calls idle_monitor Hst) as Hobs.
  destruct step as [b|[r|rc]].
  - destruct Hstep as (_ & Hreq & c0 & c1 & c2 & before & _ & Hlet). cbv zeta in Hlet.
    destruct Hlet as [_ ->]. split.
    { eexists. split; [|done]. destruct (_ <=? _); lia. }
    rewrite Hreq in Hobs. destruct Ho as (c & H & Hc). exists (c ++ calls).
    split; [exact (log_two _ _ _ _ _ H Hl)|]. by rewrite observe_app, Hc.
  - apply (after_observed w0 w1 w2 idle_monitor); [done|]. exists calls. split; [done|].
    eexists. split; [exact Hobs|]. by destruct r.
  - done.
Qed.

Lemma supervisor_pass_run (fd backoff : Z) (w0 w : world W) : between w0 backoff w ->
  runs (supervisor_pass fuel args fd backoff) w (fun step w' =>
    match step with Continue b => between w0 b w' | Break ended => finished w0 ended w' end).
Proof using H64 Hclock Hargs.
  intros [(k & Hk & ->) (calls & Hl & Ho)]. unfold supervisor_pass.
  eapply run_bind; [by apply now_logged|]. intros started w1 (c & Hl1 & _ & _). call_with forked w2 Hl2.
  pose proof (log_two _ _ _ _ _ (log_two _ _ _ _ _ Hl Hl1) Hl2) as Hl3.
  destruct forked as [pid|e].
  2: { apply run_ret. eexists. split; [exact Hl3|]. rewrite <- app_assoc, observe_app, Ho. by eexists. }
  assert (Ho3 : after w0 w2 (fun calls => observe_all idle_monitor calls = Some {| alive := Some pid; asked := false |})).
  { eexists. split; [exact Hl3|]. by rewrite <- app_assoc, observe_app, Ho. }
  destruct (Z.eqb_spec pid 0) as [->|Hpid].
  { eapply run_bind; [apply child_main_run|]. intros ended w3 (rc & a & cs & -> & _). by apply run_ret. }
  eapply run_bind; [by apply supervise_child_run|]. intros r w3 Hsup. apply supervised_observed in Hsup.
  destruct r as [[status|]|e].
  - eapply run_conseq; [by apply restart_run|]. intros step w4 Hre.
    apply (restart_finished w0 w3 w4 started status k); [done| |done].
    destruct (after_observed w0 w2 w3 _ _ Ho3 Hsup) as (cs & Hcs & m & Hm & ->). by exists cs.
  - apply run_ret. exact (after_observed w0 w2 w3 _ _ Ho3 Hsup).
  - apply run_ret. exact (after_observed w0 w2 w3 _ _ Ho3 Hsup).
Qed.

Lemma supervise_run (fd : Z) (w : world W) : runs (supervise fuel args fd) w (finished w).
Proof using H64 Hclock Hargs.
  unfold supervise. eapply run_bind.
  { apply (runs_loop _ (between w) (finished w)); [intros; by apply supervisor_pass_run|].
    split; [by exists 0|]. exists []. by rewrite app_nil_r. }
  intros [r|rc] w1 Hf; [|by apply run_ret]. unfold SignalFd_drop. call_with u w2 Hl2. destruct u.
  apply run_ret. destruct Hf as (calls & Hl & m & Hm & Hr).
  exists (calls ++ [called (Close fd) tt]). split; [exact (log_two _ _ _ _ _ Hl Hl2)|].
  exists m. rewrite observe_app, Hm. by destruct m.
Qed.

End Supervising.

(** C12: the supervisor's discipline.  Whatever the kernel answers, the supervisor
    does not panic, never forks a worker while the one before is not reaped, and
    never forks one after it has read a shutdown signal.  When it returns normally no
    worker is left; when it returns an error (of [fork], [waitpid], [poll] or [read]) at most
    the one it started last is. *)
Theorem one_worker_at_a_time {T : Target} {W : Type} {K : Kernel W} (fuel : nat) (args : Args) (fd : Z)
    (w : world W) :
  pointer_width = 64 -> sane_clock W -> args_ok fuel args ->
  runs (supervise fuel args fd) w (fun ended w' =>
    match ended with
    | Exits _ => True
    | Returned r => exists calls m, log w' = log w ++ calls /\ observe_all idle_monitor calls = Some m /\
        (r = Ok tt -> alive m = None)
    end).
Proof.
  intros H64 Hclock Hargs. eapply run_conseq; [by apply supervise_run|]. intros [r|rc] w' Hf; [|done].
  destruct Hf as (calls & Hl & m & Hm & Hr). exists calls, m. split; [done|]. split; [done|].
  intros ->. exact Hr.
Qed.

(** C16: the worker's process.  After the fork it closes the supervisor's descriptor
    and clears the inherited signal mask before anything else, ends in [_exit]
    and never returns into the supervisor's loop; it exits with 0 only if every NAT
    event it received is in a message that it handed to [send] ([handed_over] says
    what a collector has of them). *)
Theorem worker_process_exits {T : Target} {W : Type} {K : Kernel W} (fuel : nat) (args : Args) (fd : Z)
    (w : world W) :
  pointer_width = 64 -> sane_clock W -> args_ok fuel args ->
  runs (child_main fuel args fd) w (child_ended args fd w).
Proof. intros H64 Hclock Hargs. by apply child_main_run. Qed.

(** ** Wait statuses *)

(** The status of a process that exited with [code], and of one killed by
    [signal], with or without a core dump, as [wait(2)] encodes them. *)
Definition exit_status (code : Z) : Z := Z.shiftl code 8.
Definition signal_status (core : bool) (signal : Z) : Z := Z.lor signal (if core then 0x80 else 0).

(** Decided by computation, once and for all. *)
Lemma exit_statuses_checked :
  forallb (fun code => Bool.eqb (should_restart (exit_status code)) (negb (code =? 0))) (seqZ 0 256) = true.
Proof. vm_compute. reflexivity. Qed.

Lemma signal_statuses_checked :
  forallb (fun signal => should_restart (signal_status false signal) && should_restart (signal_status true signal))
    (seqZ 1 126) = true.
Proof. vm_compute. reflexivity. Qed.

Lemma forallb_seqZ (f : Z -> bool) (m n x : Z) : forallb f (seqZ m n) = true -> m <= x < m + n -> f x = true.
Proof.
  rewrite forallb_forall. intros Hall Hx. apply Hall, list_elem_of_In, elem_of_seqZ. done.
Qed.

(** C32: which exits are restarted: a worker that exited with a code other than 0,
    and one that was killed by a signal; not one that exited with 0. *)
Theorem only_failures_are_restarted (code signal : Z) (core : bool) :
  0 <= code < 256 -> 1 <= signal <= 126 ->
  (should_restart (exit_status code) = true <-> code <> 0) /\
  should_restart (signal_status core signal) = true.
Proof.
  intros Hc Hs. pose proof (forallb_seqZ _ _ _ _ exit_statuses_checked Hc) as He.
  pose proof (forallb_seqZ _ _ _ signal signal_statuses_checked ltac:(lia)) as Hsig.
  apply Bool.eqb_prop in He. apply andb_true_iff in Hsig as [H0 H1]. split; [|by destruct core].
  rewrite He. rewrite negb_true_iff, Z.eqb_neq. done.
Qed.

Lemma only_failures_are_restarted_witness :
  (should_restart (exit_status 42) = true <-> 42 <> 0) /\ should_restart (signal_status true SIGKILL) = true.
Proof.
  apply (only_failures_are_restarted 42 SIGKILL true).
  - lia.
  - unfold SIGKILL. lia.
Defined.

(** ** Detaching from the terminal *)

(** Opening the null device for reading and writing, and the log file for appending,
    created with mode 0640 if need be. *)
Definition opens_null (a : result io_error Z) : call := called (Open "/dev/null" 0x2 0) a.
Definition opens_log (path : string) (a : result io_error Z) : call := called (Open path 0x441 0x1A0) a.

(** The descriptors as they are opened: [out] is the log file's, or the null device's. *)
Definition opening (log_file : option string) (devnull out : Z) (calls : list call) : Prop :=
  match log_file with
  | Some path => has_nul path = false /\ calls = [opens_null (Ok devnull); opens_log path (Ok out)]
  | None => out = devnull /\ calls = [opens_null (Ok devnull)]
  end.

(** What each standard descriptor becomes a duplicate of, in this order. *)
Definition duplicates (devnull out : Z) : list (Z * Z) := [(devnull, 0); (out, 1); (out, 2)].
Definition duplicated (d : Z * Z) : call := called (Dup2 d.1 d.2) (Ok tt).

(** The descriptors that have to be closed again: those above the standard
    ones, each once. *)
Definition extras (devnull out : Z) : list Z :=
  List.filter (fun fd => 2 <? fd) (if out =? devnull then [devnull] else [out; devnull]).
Definition closing (devnull out : Z) : list call := map (fun fd => called (Close fd) tt) (extras devnull out).

(** What [redirect_stdio] returns against the calls it made: the null device could not
    be opened; the log file could not, its path having a NUL byte or the system refusing it, and the
    null device stays open; a duplication failed, the ones after it are not tried; all
    succeeded. *)
Inductive redirected (log_file : option string) : result supervisor_error unit -> list call -> Prop :=
  | null_refused e : redirected log_file (Err (OpenFailed "/dev/null" e)) [opens_null (Err e)]
  | log_path_bad path devnull : log_file = Some path -> has_nul path = true ->
      redirected log_file (Err (NulInPath path)) [opens_null (Ok devnull)]
  | log_refused path devnull e : log_file = Some path -> has_nul path = false ->
      redirected log_file (Err (OpenFailed path e)) [opens_null (Ok devnull); opens_log path (Err e)]
  | dup_refused devnull out opens i d e : opening log_file devnull out opens ->
      duplicates devnull out !! i = Some d ->
      redirected log_file (Err (Dup2Failed e))
        (opens ++ map duplicated (take i (duplicates devnull out)) ++ [called (Dup2 d.1 d.2) (Err e)] ++
         closing devnull out)
  | all_redirected devnull out opens : opening log_file devnull out opens ->
      redirected log_file (Ok tt) (opens ++ map duplicated (duplicates devnull out) ++ closing devnull out).

Lemma open_fd_run {W : Type} {K : Kernel W} (stuck : Prop) (path : string) (flags mode : Z) (w : world W) :
  run stuck (open_fd path flags mode) w (fun r w' =>
    match r with
    | Ok fd => has_nul path = false /\ log w' = log w ++ [called (Open path flags mode) (Ok fd)]
    | Err (OpenFailed p e) => p = path /\ has_nul path = false /\
        log w' = log w ++ [called (Open path flags mode) (Err e)]
    | Err (NulInPath p) => p = path /\ has_nul path = true /\ log w' = log w
    | Err _ => False
    end).
Proof.
  unfold open_fd. destruct (has_nul path); [by apply run_ret|]. call_with a w' H. apply run_ret. by destruct a.
Qed.

Lemma dup2_checked_run {W : Type} {K : Kernel W} (stuck : Prop) (fd target : Z) (w : world W) :
  run stuck (dup2_checked fd target) w (fun r w' => exists a, log w' = log w ++ [called (Dup2 fd target) a] /\
    r = match a with Ok _ => Ok tt | Err e => Err (Dup2Failed e) end).
Proof. unfold dup2_checked. call_with a w' H. apply run_ret. by exists a. Qed.

Lemma redirect_fds_run {W : Type} {K : Kernel W} (stuck : Prop) (devnull out : Z) (w : world W) :
  run stuck (redirect_fds devnull out) w (fun r w' =>
    (r = Ok tt /\ log w' = log w ++ map duplicated (duplicates devnull out)) \/
    (exists i d e, r = Err (Dup2Failed e) /\ duplicates devnull out !! i = Some d /\
       log w' = log w ++ map duplicated (take i (duplicates devnull out)) ++ [called (Dup2 d.1 d.2) (Err e)])).
Proof.
  unfold redirect_fds. eapply run_bind; [apply dup2_checked_run|]. intros r w1 (a & H1 & ->).
  destruct a as [[]|e]; [|apply run_ret; right; exists 0%nat, (devnull, 0), e; done].
  eapply run_bind; [apply dup2_checked_run|]. intros r w2 (a & H2 & ->).
  pose proof (log_two _ _ _ _ _ H1 H2) as H3.
  destruct a as [[]|e]; [|apply run_ret; right; exists 1%nat, (out, 1), e; done].
  eapply run_conseq; [apply dup2_checked_run|]. intros r w3 (a & H4 & ->).
  pose proof (log_two _ _ _ _ _ H3 H4) as H5. rewrite <- app_assoc in H5.
  destruct a as [[]|e]; [by left|]. right. exists 2%nat, (out, 2), e. done.
Qed.

Lemma close_extra_run {W : Type} {K : Kernel W} (stuck : Prop) (fd : Z) (extra : bool) (w : world W) :
  run stuck (close_extra fd extra) w (fun _ w' =>
    log w' = log w ++ (if extra && (STDERR_FILENO <? fd) then [called (Close fd) tt] else [])).
Proof.
  unfold close_extra. destruct (_ && _); [|by apply run_ret; rewrite app_nil_r].
  apply (run_request stuck (Close fd) w (fun (_ : answer (Close fd)) w' => log w' = log w ++ [called (Close fd) tt])).
  intros [] k _. done.
Qed.

(** From the point where both descriptors are open. *)
Lemma redirected_run {W : Type} {K : Kernel W} (stuck : Prop) (log_file : option string) (devnull out : Z)
    (opens : list call) (w0 w : world W) :
  log w = log w0 ++ opens -> opening log_file devnull out opens ->
  run stuck (r ← redirect_fds devnull out; _ ← close_extra out (negb (out =? devnull));
        _ ← close_extra devnull true; mret r) w (fun r w' => after w0 w' (redirected log_file r)).
Proof.
  intros H Hopen. eapply run_bind; [apply redirect_fds_run|]. intros r w1 Hr.
  eapply run_bind; [apply close_extra_run|]. intros [] w2 H2.
  eapply run_bind; [apply close_extra_run|]. intros [] w3 H3. apply run_ret.
  assert (Hclose : log w3 = log w1 ++ closing devnull out).
  { rewrite H3, H2, <- app_assoc. f_equal. unfold closing, extras. cbn [andb]. change STDERR_FILENO with 2.
    destruct (out =? devnull); cbn [negb andb List.filter]; destruct (2 <? devnull), (2 <? out); done. }
  destruct Hr as [[-> H1]|(i & d & e & -> & Hd & H1)]; rewrite H1, H in Hclose; eexists;
    (split; [rewrite Hclose, <- !app_assoc; done|]); rewrite <- ?app_assoc; [by apply all_redirected|].
  by apply dup_refused.
Qed.

Lemma redirect_stdio_run {W : Type} {K : Kernel W} (stuck : Prop) (log_file : option string) (w : world W) :
  run stuck (redirect_stdio log_file) w (fun r w' => after w w' (redirected log_file r)).
Proof.
  unfold redirect_stdio. eapply run_bind; [apply open_fd_run|]. intros [devnull|e] w1 H1.
  2: { apply run_ret. destruct e; try done; destruct H1 as (-> & Hnul & H1); [done|].
       eexists. split; [exact H1|apply null_refused]. }
  destruct H1 as [_ H1]. destruct log_file as [path|].
  - eapply run_bind; [apply open_fd_run|]. intros [out|e] w2 H2.
    + destruct H2 as [Hnul H2].
      by apply (redirected_run stuck (Some path) devnull out _ w w2 (log_two _ _ _ _ _ H1 H2)).
    + apply run_ret. destruct e; try done; destruct H2 as (-> & Hnul & H2).
      * rewrite H1 in H2. eexists. split; [exact H2|by apply log_path_bad].
      * eexists. split; [exact (log_two _ _ _ _ _ H1 H2)|by apply log_refused].
  - apply run_ret_bind. by apply (redirected_run stuck None devnull devnull _ w w1 H1).
Qed.

(** C30: detaching from the terminal.  [redirect_stdio] ends, having made exactly the
    calls [redirected] lists.  It opens /dev/null for reading and writing, and then the log file, if
    one was given, for appending, created with mode 0640; makes standard input a duplicate of
    the null device and standard output and error duplicates of the log file, or of the null
    device without one; and then closes each of the two descriptors that is above the
    standard ones exactly once, also when a duplication fails, which ends the
    duplications.  When the log file cannot be opened, however, it returns with the null device still open. *)
Theorem stdio_is_redirected {W : Type} {K : Kernel W} (log_file : option string) (w : world W) :
  ends (redirect_stdio log_file) w (fun r w' => after w w' (redirected log_file r)).
Proof. apply redirect_stdio_run. Qed.

(** ** The daemon *)

(** The calls up to the supervisor's loop: the fork into the background, a new
    session, the redirected descriptors, the signals. *)
Definition detached (args : Args) (calls : list call) : Prop :=
  exists pid sid rcalls fd, pid <= 0 /\
    calls = [called Fork (Ok pid); called Setsid (Ok sid)] ++ rcalls ++
      [called (SigBlock [SIGTERM; SIGINT; SIGCHLD]) (Ok tt); called (Signalfd [SIGTERM; SIGINT; SIGCHLD]) (Ok fd)] /\
    redirected (log_file args) (Ok tt) rcalls.

(** How a daemon's process ends: as the process in the foreground, by a failure
    to detach, or as the supervisor. *)
Definition daemon_ended {W : Type} (args : Args) (w0 : world W) (ended : process_end) (w : world W) : Prop :=
  (exists pid, 0 < pid /\ ended = stopped /\ log w = log w0 ++ [called Fork (Ok pid)]) \/
  (exists e a rest, ended = failed e /\ log w = log w0 ++ called Fork a :: rest /\ steady rest) \/
  (exists before w1, detached args before /\ log w1 = log w0 ++ before /\ finished w1 ended w).

Section Daemon.
Context {W : Type} {K : Kernel W} (stuck : Prop).

Lemma steady_call_run {B : Type} (c : syscall) (f : answer c -> sys W B) (w0 w : world W)
    (Q : B -> world W -> Prop) :
  after w0 w steady -> (forall a, steady_call (called c a)) ->
  (forall a w', after w0 w' steady -> run stuck (f a) w' Q) -> run stuck (request c ≫= f) w Q.
Proof using Type.
  intros (calls & Hl & Hst) Hc Hf. apply run_request_bind. intros a w' Hl'. apply Hf.
  exists (calls ++ [called c a]). split; [exact (log_two _ _ _ _ _ Hl Hl')|].
  auto with calls.
Qed.

Ltac steadily a w' H' :=
  lazymatch goal with
  | H : after ?w0 ?w steady |- run ?s (@mbind _ _ _ ?B ?f (@request ?W ?K ?c)) ?w ?Q =>
      refine (@steady_call_run B c f w0 w Q H (fun _ => I) _); clear H; intros a w' H'
  end.

Lemma open_fd_steady (path : string) (flags mode : Z) (w0 w : world W) : after w0 w steady ->
  run stuck (open_fd path flags mode) w (fun _ w' => after w0 w' steady).
Proof using Type.
  intros H. unfold open_fd. destruct (has_nul path); [by apply run_ret|]. steadily a w1 H1. by apply run_ret.
Qed.

Lemma dup2_checked_steady (fd target : Z) (w0 w : world W) : after w0 w steady ->
  run stuck (dup2_checked fd target) w (fun _ w' => after w0 w' steady).
Proof using Type. intros H. unfold dup2_checked. steadily a w1 H1. by apply run_ret. Qed.

Lemma redirect_fds_steady (devnull out : Z) (w0 w : world W) : after w0 w steady ->
  run stuck (redirect_fds devnull out) w (fun _ w' => after w0 w' steady).
Proof using Type.
  intros H. unfold redirect_fds. eapply run_bind; [by apply dup2_checked_steady|].
  intros [_|e] w1 H1; [|by apply run_ret]. eapply run_bind; [by apply dup2_checked_steady|].
  intros [_|e] w2 H2; [|by apply run_ret]. by apply dup2_checked_steady.
Qed.

Lemma close_extra_steady (fd : Z) (extra : bool) (w0 w : world W) : after w0 w steady ->
  run stuck (close_extra fd extra) w (fun _ w' => after w0 w' steady).
Proof using Type.
  intros (calls & Hl & Hst). eapply run_conseq; [apply close_extra_run|]. cbn beta. intros ? w' Hl'.
  eexists. split; [exact (log_two _ _ _ _ _ Hl Hl')|]. apply Forall_app. split; [done|].
  destruct (_ && _); [by apply Forall_cons_2|apply Forall_nil_2].
Qed.

Lemma redirect_stdio_steady (log_file : option string) (w0 w : world W) : after w0 w steady ->
  run stuck (redirect_stdio log_file) w (fun _ w' => after w0 w' steady).
Proof using Type.
  intros H. unfold redirect_stdio. eapply run_bind; [by apply open_fd_steady|].
  intros [devnull|e] w1 H1; [|by apply run_ret].
  eapply (run_bind _ _ _ _ (fun _ w' => after w0 w' steady)).
  { destruct log_file; [by apply open_fd_steady|by apply run_ret]. }
  intros [out|e] w2 H2; [|by apply run_ret].
  eapply run_bind; [by apply redirect_fds_steady|]. intros r w3 H3.
  eapply run_bind; [by apply (close_extra_steady _ _ w0)|]. cbn beta. intros _ w4 H4.
  eapply run_bind; [by apply (close_extra_steady _ _ w0)|]. cbn beta. intros _ w5 H5. by apply run_ret.
Qed.

(** Both facts about [redirect_stdio] at once. *)
Lemma run_both {A : Type} (m : sys W A) (w : world W) (P Q : A -> world W -> Prop) :
  run stuck m w P -> run stuck m w Q -> run stuck m w (fun a w' => P a w' /\ Q a w').
Proof using Type. unfold run. by destruct (m w) as [[a w']| |]. Qed.

End Daemon.

Section DaemonRun.
Context {T : Target} {W : Type} {K : Kernel W}.
Context (H64 : pointer_width = 64) (Hclock : sane_clock W) (fuel : nat) (args : Args).
Context (Hargs : args_ok fuel args).

Lemma run_supervisor_run (w : world W) : runs (run_supervisor fuel args) w (daemon_ended args w).
Proof using H64 Hclock Hargs.
  unfold run_supervisor. call_with forked w1 H1. destruct forked as [pid|e].
  2: { apply run_ret. right. left. exists (DaemonForkFailed e), (Err e), []. split_and!; [done|exact H1|apply Forall_nil_2]. }
  destruct (Z.ltb_spec 0 pid) as [Hpid|Hpid].
  { apply run_ret. left. by exists pid. }
  call_with session w2 H2. pose proof (log_two _ _ _ _ _ H1 H2) as H3.
  assert (Hfail : forall w' e, after w2 w' steady -> daemon_ended args w (failed e) w').
  { intros w' e (rest & Hl & Hst). right. left. exists e, (Ok pid), (called Setsid session :: rest).
    split; [done|]. split; [exact (log_two _ _ _ _ _ H3 Hl)|]. by apply Forall_cons_2. }
  assert (Hhere : after w2 w2 steady) by (exists []; split; [by rewrite app_nil_r|apply Forall_nil_2]).
  destruct session as [sid|e]; [|by apply run_ret, Hfail].
  eapply run_bind; [apply run_both; [apply redirect_stdio_run|by apply redirect_stdio_steady]|].
  intros r w4 [(rcalls & H4 & Hr) Hst4]. destruct r as [[]|e]; [|by apply run_ret, Hfail].
  unfold SignalFd_new. eapply (run_bind _ _ _ _ (fun r w' => match r with
    | Ok fd => log w' = log w4 ++ [called (SigBlock [SIGTERM; SIGINT; SIGCHLD]) (Ok tt);
                                   called (Signalfd [SIGTERM; SIGINT; SIGCHLD]) (Ok fd)]
    | Err _ => after w2 w' steady end)).
  - call_with a w5 H5. pose proof (log_two _ _ _ _ _ H4 H5) as H6.
    destruct Hst4 as (calls4 & Hl4 & Hst4). pose proof (log_two _ _ _ _ _ Hl4 H5) as H7.
    assert (Hst5 : after w2 w5 steady)
      by (eexists; split; [exact H7|]; auto with calls).
    destruct a as [[]|e]; [|by apply run_ret].
    apply (run_request _ (Signalfd [SIGTERM; SIGINT; SIGCHLD]) w5 (fun (r : answer (Signalfd _)) w' => match r with
      | Ok fd => log w' = log w4 ++ [called (SigBlock [SIGTERM; SIGINT; SIGCHLD]) (Ok tt);
                                     called (Signalfd [SIGTERM; SIGINT; SIGCHLD]) (Ok fd)]
      | Err _ => after w2 w' steady end)).
    intros [fd|e] k _; cbn [log].
    + by rewrite H5, <- app_assoc.
    + eexists. split; [exact (log_two _ _ _ _ _ H7 eq_refl)|].
      auto with calls.
  - intros [fd|e] w5 H5; [|by apply run_ret, Hfail].
    eapply run_conseq; [by apply supervise_run|]. intros ended w6 Hf. right. right.
    eexists _, w5. split; [|split; [exact (log_two _ _ _ _ _ (log_two _ _ _ _ _ H3 H4) H5)|done]].
    exists pid, sid, rcalls, fd. split; [done|]. split; [|done]. by rewrite <- !app_assoc.
Qed.

End DaemonRun.

(** C17: a daemon, from [main] on.  With [--daemon], on any kernel: the process in
    the foreground forks once and returns; the one in the background starts
    workers only after it has its own session, its standard descriptors
    redirected and the signals blocked, and then keeps the supervisor's
    discipline; a failure on the way is returned before any worker exists. *)
Theorem daemon_detaches_first {T : Target} {W : Type} {K : Kernel W} (fuel : nat) (args : Args) (w : world W) :
  pointer_width = 64 -> sane_clock W -> args_ok fuel args -> daemon args = true ->
  runs (main fuel args) w (daemon_ended args w).
Proof. intros H64 Hclock Hargs Hd. unfold main. rewrite Hd. by apply run_supervisor_run. Qed.

(** ** Runs *)

(** A host to supervise on: the time, the signals to come with the time they
    arrive, how long each worker to come lives and the status it leaves, the
    death of the present one, and whether workers mind SIGTERM. *)
Record host := {
  ms : Z; arriving : list (Z * Z); lives : list (Z * Z); death : option (Z * Z); stubborn : bool
}.

Fixpoint insert_signal (x : Z * Z) (l : list (Z * Z)) : list (Z * Z) :=
  match l with
  | [] => [x]
  | y :: l' => if x.1 <=? y.1 then x :: l else y :: insert_signal x l'
  end.

(** A worker dies at [at_ms], which the supervisor hears as SIGCHLD. *)
Definition dies (h : host) (at_ms status : Z) : host :=
  {| ms := ms h; arriving := insert_signal (at_ms, SIGCHLD) (arriving h); lives := lives h;
     death := Some (at_ms, status); stubborn := stubborn h |}.

Definition host_kill (h : host) (sig : Z) : host :=
  if (sig =? SIGTERM) && stubborn h then h
  else dies h (ms h) (if sig =? SIGTERM then 0 else signal_status false sig).

Definition host_call (c : syscall) (h : host) : answer c * host :=
  match c return answer c * host with
  | ClockNow => ({| system_time := 0; instant := (ms h mod 2 ^ 40) * 10 ^ 6 |}, h)
  | Fork =>
      match lives h with
      | [] => (Err (OtherError 11), h)
      | (dur, status) :: rest =>
          (Ok 100, dies {| ms := ms h; arriving := arriving h; lives := rest; death := None; stubborn := stubborn h |}
                     (ms h + dur) status)
      end
  | Waitpid pid =>
      (match death h with
       | Some (t, status) => if t <=? ms h then Ok (pid, status) else Ok (0, 0)
       | None => Ok (0, 0)
       end, h)
  | Kill _ sig => (tt, host_kill h sig)
  | Poll _ timeout =>
      match arriving h with
      | (t, _) :: _ =>
          if (timeout <? 0) || (t <=? ms h + timeout)
          then (Ok (1, [1]), {| ms := Z.max (ms h) t; arriving := arriving h; lives := lives h;
                                death := death h; stubborn := stubborn h |})
          else (Ok (0, [0]), {| ms := ms h + timeout; arriving := arriving h; lives := lives h;
                                death := death h; stubborn := stubborn h |})
      | [] => (Ok (0, [0]), {| ms := ms h + Z.max 0 timeout; arriving := []; lives := lives h;
                               death := death h; stubborn := stubborn h |})
      end
  | ReadSignal _ =>
      match arriving h with
      | (t, sig) :: rest =>
          if t <=? ms h
          then (Ok (Some sig), {| ms := ms h; arriving := rest; lives := lives h; death := death h;
                                  stubborn := stubborn h |})
          else (Err WouldBlock, h)
      | [] => (Err WouldBlock, h)
      end
  | c => (fst (machine_call c {| queue := []; pending := []; clock_ms := 0 |}), h)
  end.

#[export] Instance host_kernel : Kernel host.
Proof.
  refine {| k_call := host_call |}. intros fd vlen h l Hl. exfalso. revert Hl. cbn. unfold machine_recv. cbn.
  by rewrite take_nil, bool_decide_true, andb_false_r.
Defined.

Lemma host_clock_sane : sane_clock host.
Proof.
  intros [t a l d b]. change ((t mod 2 ^ 40) * 10 ^ 6 < secs (2 ^ 62)).
  pose proof (Z.mod_pos_bound t (2 ^ 40) ltac:(done)). unfold secs. lia.
Qed.

Definition on_host (h : host) : world host := {| kernel := h; log := [] |}.

(** A worker that does not mind SIGTERM: asked to stop after 5 s, it is killed
    ten seconds later. *)
Definition stubborn_host : host :=
  {| ms := 0; arriving := [(5000, SIGTERM)]; lives := []; death := None; stubborn := true |}.

Example stubborn_worker_is_killed :
  match supervise_child 20 4 100 (on_host stubborn_host) with
  | Done (Ok ShutdownRequested, w) => kills (log w) = [SIGTERM; SIGKILL] /\ ms (kernel w) = 15000
  | _ => False
  end.
Proof. vm_compute. split; reflexivity. Qed.

(** A crash loop: four workers fail at once and are replaced after 1, 2, 4 and 8
    seconds, the fifth lives 70 s and is replaced after 1 s by one that exits
    cleanly. *)
Definition crashing_host : host :=
  {| ms := 0; arriving := [];
     lives := [(0, 256); (0, 256); (0, 9); (0, 256); (70000, 11); (500, 0)];
     death := None; stubborn := false |}.

Definition demo_daemon : Args := demo_args 30.

Example crash_loop_backs_off :
  match supervise (T := x86_64_debug) 30 demo_daemon 4 (on_host crashing_host) with
  | Done (Returned (Ok _), w) => ms (kernel w) = 1000 + 2000 + 4000 + 8000 + 70000 + 1000 + 500
  | _ => False
  end.
Proof. vm_compute. reflexivity. Qed.

(** The same loop, interrupted by SIGTERM while it waits. *)
Definition interrupted_host : host :=
  {| ms := 0; arriving := [(2500, SIGTERM)]; lives := lives crashing_host; death := None; stubborn := false |}.

Example shutdown_interrupts_the_wait :
  match supervise (T := x86_64_debug) 30 demo_daemon 4 (on_host interrupted_host) with
  | Done (Returned (Ok _), w) => ms (kernel w) = 2500 /\ kills (log w) = []
  | _ => False
  end.
Proof. vm_compute. split; reflexivity. Qed.

Lemma demo_daemon_ok : args_ok 30 demo_daemon.
Proof.
  split; [unfold is_u32; cbn; lia|unfold is_u16; cbn; lia|by vm_compute|by vm_compute].
Qed.

Lemma one_worker_at_a_time_witness :
  runs (supervise (T := x86_64_debug) 30 demo_daemon 4) (on_host crashing_host) (fun ended w' =>
    match ended with
    | Exits _ => True
    | Returned r => exists calls m, log w' = calls /\ observe_all idle_monitor calls = Some m /\
        (r = Ok tt -> alive m = None)
    end).
Proof.
  apply (@one_worker_at_a_time x86_64_debug host host_kernel 30 demo_daemon 4 (on_host crashing_host)).
  - reflexivity.
  - apply host_clock_sane.
  - apply demo_daemon_ok.
Defined.

Lemma worker_process_exits_witness :
  runs (child_main (T := x86_64_debug) 30 demo_daemon 4) demo_world
    (child_ended (T := x86_64_debug) demo_daemon 4 demo_world).
Proof.
  apply (@worker_process_exits x86_64_debug machine machine_kernel 30 demo_daemon 4 demo_world).
  - reflexivity.
  - apply machine_clock_sane.
  - apply demo_daemon_ok.
Defined.

(** The same arguments with [--daemon] and a log file. *)
Definition daemon_args : Args := {|
  collector := collector demo_daemon; recv_buf := recv_buf demo_daemon; send_buf := send_buf demo_daemon;
  domain_id := domain_id demo_daemon; arg_protocol := arg_protocol demo_daemon;
  arg_profile := arg_profile demo_daemon; arg_counter_width := arg_counter_width demo_daemon;
  arg_template_id := arg_template_id demo_daemon; template_interval := template_interval demo_daemon;
  verbose := false; daemon := true; log_file := Some "/var/log/natstream.log"%string; no_sysctl := false |}.

Lemma daemon_detaches_first_witness :
  runs (main (T := x86_64_debug) 30 daemon_args) (on_host crashing_host)
    (daemon_ended daemon_args (on_host crashing_host)).
Proof.
  apply (@daemon_detaches_first x86_64_debug host host_kernel 30 daemon_args (on_host crashing_host)).
  - reflexivity.
  - apply host_clock_sane.
  - exact (Build_args_ok _ daemon_args (ao_domain _ _ demo_daemon_ok) (ao_template_id _ _ demo_daemon_ok)
             (ao_interval _ _ demo_daemon_ok) (ao_fuel _ _ demo_daemon_ok)).
  - reflexivity.
Defined.
