(* ===== verification/SupervisorStops.v ===== *)
(** * The supervisor stops its worker

    Total correctness of [supervise_child]: on a kernel where waiting takes time and
    finitely many signals come, it ends, however little the worker heeds SIGTERM.
    The measure has two parts: the signals and interruptions still to come, and,
    once SIGTERM is sent, the time left of the grace period.  Nothing is assumed of
    what [kill] does or of when [waitpid] finds the worker dead. *)

From stdpp Require Import base list numbers strings.
From Stdlib Require Import ZArith Lia.
From S2P Require Import Prelude Encoder System Socket Signals Worker WorkerLog WorkerFrame WorkerProps Supervisor KeeperSpec SupervisorProps.
Local Open Scope Z_scope.

(** ** Code that does not run out of fuel *)

Section Lively.
Context {W : Type} {K : Kernel W}.

Definition lively {A : Type} (m : sys W A) : Prop := forall w, m w <> Exhausted.

Lemma lively_ret {A : Type} (a : A) : lively (mret a).
Proof. done. Qed.

Lemma lively_lift {A : Type} (m : outcome A) : m <> Exhausted -> lively (lift m).
Proof. intros Hm w. unfold lift. by destruct m. Qed.

Lemma lively_request (c : syscall) : lively (request c).
Proof. intros w. unfold request. by destruct (k_call c (kernel w)). Qed.

Lemma bind_exhausted {A B : Type} (m : sys W A) (f : A -> sys W B) (w : world W) :
  (m ≫= f) w = Exhausted -> m w = Exhausted \/ exists a w1, m w = Done (a, w1) /\ f a w1 = Exhausted.
Proof. unfold mbind, sys_bind. destruct (m w) as [[a w1]| |]; [|done|by left]. intros H. right. by exists a, w1. Qed.

Lemma lively_bind {A B : Type} (m : sys W A) (f : A -> sys W B) :
  lively m -> (forall a, lively (f a)) -> lively (m ≫= f).
Proof. intros Hm Hf w H. apply bind_exhausted in H as [H|(a & w1 & _ & H)]; [by apply (Hm w)|by apply (Hf a w1)]. Qed.

Lemma lively_foldM {A S : Type} (f : S -> A -> sys W S) (l : list A) :
  (forall s x, lively (f s x)) -> forall s, lively (sys_foldM f s l).
Proof. intros Hf. induction l as [|x l IH]; intros s; cbn [sys_foldM]; [apply lively_ret|by apply lively_bind]. Qed.

Lemma instant_add_lively (t d : Z) : instant_add t d <> Exhausted.
Proof. unfold instant_add. by destruct (_ <? _). Qed.

(** A loop whose passes do not get stuck and pay from a measure. *)
Lemma sys_loop_lively {S R : Type} (body : S -> sys W (flow S R)) (I : S -> world W -> Prop) (mu : S -> world W -> Z) :
  (forall s w, I s w -> 0 <= mu s w) -> (forall s w, I s w -> body s w <> Exhausted) ->
  (forall s w s' w', I s w -> body s w = Done (Continue s', w') -> I s' w' /\ mu s' w' < mu s w) ->
  forall fuel s w, I s w -> mu s w < Z.of_nat fuel -> sys_loop fuel body s w <> Exhausted.
Proof.
  intros Hpos Hliv Hpay fuel. induction fuel as [|fuel IH]; intros s w HI Hmu; [specialize (Hpos s w HI); lia|].
  cbn [sys_loop]. specialize (Hliv s w HI). destruct (body s w) as [[[s'|r] w']| |] eqn:E; try done.
  destruct (Hpay _ _ _ _ HI E). apply IH; [done|lia].
Qed.

(** What cannot get stuck and is right if it ends, ends rightly. *)
Lemma ends_of_runs {A : Type} (m : sys W A) (w : world W) (Q : A -> world W -> Prop) :
  runs m w Q -> m w <> Exhausted -> ends m w Q.
Proof. unfold run. by destruct (m w) as [[a w']| |]. Qed.

End Lively.

Ltac lively :=
  repeat first
    [ apply lively_ret
    | match goal with |- lively (request ?c) => exact (lively_request c) end
    | apply lively_lift, instant_add_lively
    | apply lively_bind; [|intros ?] | apply lively_foldM; intros ? ?
    | match goal with
      | |- lively (if ?b then _ else _) => destruct b
      | |- lively (match ?x with _ => _ end) => destruct x
      end ].

(** [H] says that lively code got stuck. *)
Ltac not_lively H :=
  exfalso; revert H; match goal with |- ?m ?w = Exhausted -> False => apply (fun L : lively m => L w) end.

(** ** A kernel on which waiting ends *)

(** Every call of the kernel returns.  [time] never goes back and the clock reads it; at
    most [left] more signals and interruptions come, and reading a signal, or being
    interrupted, uses one up.  A poll reports the descriptor readable only if a signal can
    be read; one that reports nothing had a timeout, as [poll] without one waits until
    there is something to report, and took at least a [tick]. *)
Record wakes {W : Type} {K : Kernel W} (fd : Z) (time : W -> Z) (tick : Z) (left : W -> nat) : Prop := {
  wk_tick : 0 < tick;
  wk_time : forall c k, time k <= time (k_call c k).2;
  wk_left : forall c k, (left (k_call c k).2 <= left k)%nat;
  wk_clock : forall k, time k <= instant (k_call ClockNow k).1 <= time (k_call ClockNow k).2;
  wk_poll : forall timeout k,
    let '(a, k') := k_call (Poll [fd] timeout) k in
    match a with
    | Ok (count, revents) => if (0 <? count) && readable revents 0
        then exists signo, (k_call (ReadSignal fd) k').1 = Ok (Some signo)
        else 0 <= timeout /\ time k + tick <= time k'
    | Err Interrupted => (left k' < left k)%nat
    | Err _ => True
    end;
  wk_read : forall k a k', k_call (ReadSignal fd) k = (a, k') ->
    a = Err Interrupted \/ (exists signo, a = Ok (Some signo)) -> (left k' < left k)%nat
}.

Section Stops.
Context {W : Type} {K : Kernel W} (fd : Z) (time : W -> Z) (tick : Z) (left : W -> nat).
Context (Hm : wakes fd time tick left).

(** Time has not gone back and no signal has been added. *)
Definition onward (w w' : world W) : Prop :=
  time (kernel w) <= time (kernel w') /\ (left (kernel w') <= left (kernel w))%nat.

#[local] Instance onward_preorder : PreOrder onward.
Proof using Type. split; [intros w|intros w1 w2 w3]; unfold onward; lia. Qed.

Lemma request_onward (c : syscall) : keeps onward (request c).
Proof using Hm.
  intros w a w' H. unfold request in H. pose proof (wk_time _ _ _ _ Hm c (kernel w)) as Ht.
  pose proof (wk_left _ _ _ _ Hm c (kernel w)) as Hl. destruct (k_call c (kernel w)) as [a1 k].
  injection H as <- <-. by split.
Qed.

Lemma now_onward (t : Z) (w w' : world W) :
  now w = Done (t, w') -> onward w w' /\ time (kernel w) <= t <= time (kernel w').
Proof using Hm.
  unfold now. intros H. apply sys_bind_inv in H as (c & w1 & H1 & H). injection H as <- <-.
  split; [exact (request_onward ClockNow _ _ _ H1)|]. unfold request in H1.
  pose proof (wk_clock _ _ _ _ Hm (kernel w)) as Hc. destruct (k_call ClockNow (kernel w)) as [c' k].
  injection H1 as <- <-. exact Hc.
Qed.

Context (pid : Z).

(** Where [supervise_child] stands, and what it has left. *)
Definition phase_ok (s : bool * option Z) (k : W) : Prop :=
  match s with
  | (false, None) => True
  | (true, Some deadline) => deadline <= time k + WORKER_STOP_GRACE
  | (true, None) => True
  | (false, Some _) => False
  end.

Definition debt (s : bool * option Z) (k : W) : Z :=
  Z.of_nat (left k) * (WORKER_STOP_GRACE / tick + 2) +
  match s.2 with Some deadline => Z.max 0 (deadline - time k) / tick + 1 | None => 0 end.

Lemma grace_ticks (d : Z) : 0 <= d <= WORKER_STOP_GRACE -> 0 <= d / tick <= WORKER_STOP_GRACE / tick.
Proof using Hm.
  intros Hd. pose proof (wk_tick _ _ _ _ Hm). split; [apply Z.div_pos|apply Z.div_le_mono]; lia.
Qed.

Lemma debt_nonneg (s : bool * option Z) (k : W) : 0 <= debt s k.
Proof using Hm.
  pose proof (wk_tick _ _ _ _ Hm). unfold debt.
  pose proof (grace_ticks WORKER_STOP_GRACE ltac:(by vm_compute)).
  destruct s.2 as [d|]; [pose proof (Z.div_pos (Z.max 0 (d - time k)) tick)|]; nia.
Qed.

(** A signal less pays for any grace period. *)
Lemma debt_less (s s' : bool * option Z) (k k' : W) :
  phase_ok s' k' -> (left k' < left k)%nat -> debt s' k' < debt s k.
Proof using Hm.
  intros Hp Hl. pose proof (wk_tick _ _ _ _ Hm).
  pose proof (grace_ticks WORKER_STOP_GRACE ltac:(by vm_compute)) as Hg.
  assert (Hs' : match s'.2 with Some d => Z.max 0 (d - time k') / tick + 1 | None => 0 end <= WORKER_STOP_GRACE / tick + 1).
  { destruct s' as [[] [d|]]; cbn in Hp |- *; try lia; try done.
    pose proof (grace_ticks (Z.max 0 (d - time k'))). unfold WORKER_STOP_GRACE, secs in *. lia. }
  assert (Hs : 0 <= match s.2 with Some d => Z.max 0 (d - time k) / tick + 1 | None => 0 end)
    by (destruct s.2 as [d|]; [pose proof (Z.div_pos (Z.max 0 (d - time k)) tick)|]; lia).
  unfold debt. nia.
Qed.

Lemma phase_onward (s : bool * option Z) (w w' : world W) :
  phase_ok s (kernel w) -> onward w w' -> phase_ok s (kernel w').
Proof using Type. intros Hp [Ht _]. destruct s as [[] [d|]]; cbn in *; try done. lia. Qed.

Lemma on_signal_onward (s s' : bool * option Z) (sig : Z) (w w' : world W) :
  phase_ok s (kernel w) -> on_signal pid s sig w = Done (s', w') -> phase_ok s' (kernel w') /\ onward w w'.
Proof using Hm.
  intros Hp H. destruct s as [[] d]; unfold on_signal in H; cbn [negb] in H.
  { injection H as <- <-. split; [done|reflexivity]. }
  apply sys_bind_inv in H as (u & w1 & H1 & H). apply sys_bind_inv in H as (t & w2 & H2 & H).
  apply sys_bind_inv in H as (deadline & w3 & H3 & H). apply lift_inv in H3 as [H3 ->].
  injection H as <- <-. apply now_onward in H2 as [Ho2 Ht2]. unfold instant_add in H3.
  destruct (_ <? _); [|done]. injection H3 as <-. split; [cbn; lia|].
  transitivity w1; [exact (request_onward (Kill pid SIGTERM) _ _ _ H1)|done].
Qed.

Lemma on_signals_onward (l : list Z) (s s' : bool * option Z) (w w' : world W) :
  phase_ok s (kernel w) -> sys_foldM (on_signal pid) s l w = Done (s', w') ->
  phase_ok s' (kernel w') /\ onward w w'.
Proof using Hm.
  revert s w. induction l as [|sig l IH]; intros s w Hp H; cbn [sys_foldM] in H.
  { injection H as <- <-. split; [done|reflexivity]. }
  apply sys_bind_inv in H as (s1 & w1 & H1 & H). apply on_signal_onward in H1 as [Hp1 Ho1]; [|done].
  apply IH in H as [Hp2 Ho2]; [|done]. split; [done|]. by transitivity w1.
Qed.

(** A readable descriptor gives a signal. *)
Lemma read_pending_less (fuel : nat) (r : result io_error (list Z)) (w w' : world W) :
  (exists signo, (k_call (ReadSignal fd) (kernel w)).1 = Ok (Some signo)) ->
  read_pending fuel fd w = Done (r, w') ->
  time (kernel w) <= time (kernel w') /\ (left (kernel w') < left (kernel w))%nat.
Proof using Hm.
  intros [signo Ha] H. unfold read_pending in H. destruct fuel as [|fuel]; [done|]. cbn [sys_loop] in H.
  unfold read_one at 1, request, mbind, sys_bind in H.
  pose proof (wk_time _ _ _ _ Hm (ReadSignal fd) (kernel w)) as Ht.
  destruct (k_call (ReadSignal fd) (kernel w)) as [a k] eqn:E. cbn [fst snd] in Ha, Ht. subst a.
  apply (wk_read _ _ _ _ Hm) in E; [|right; by eexists]. cbn [mret sys_ret] in H.
  assert (Hk : keeps onward (sys_loop fuel (read_one fd) ([] ++ [signo]))).
  { apply keeps_loop; [apply _|]. intros l. apply (keeps_bind onward); [exact (request_onward (ReadSignal fd))|].
    intros b. apply (keeps_ret onward). }
  apply Hk in H as [Ht' Hl']. cbn [kernel] in *. lia.
Qed.

Lemma watch_timeout_onward (s : bool * option Z) (timeout : Z) (w w' : world W) :
  watch_timeout s w = Done (timeout, w') -> onward w w' /\ (s.2 = None -> timeout = -1).
Proof using Hm.
  unfold watch_timeout. destruct s.2 as [deadline|].
  - intros H. apply sys_bind_inv in H as (t & w1 & H1 & H). injection H as <- <-.
    apply now_onward in H1 as [Ho _]. by split.
  - intros [= <- <-]. split; [reflexivity|done].
Qed.

Lemma poll_readable_onward (timeout : Z) (polled : result io_error bool) (w w' : world W) :
  poll_readable fd timeout w = Done (polled, w') -> onward w w' /\
  match polled with
  | Ok true => exists signo, (k_call (ReadSignal fd) (kernel w')).1 = Ok (Some signo)
  | Ok false => 0 <= timeout /\ time (kernel w) + tick <= time (kernel w')
  | Err Interrupted => (left (kernel w') < left (kernel w))%nat
  | Err _ => True
  end.
Proof using Hm.
  unfold poll_readable. intros H. apply sys_bind_inv in H as (a & w1 & H1 & H). injection H as <- <-.
  split; [exact (request_onward (Poll [fd] timeout) _ _ _ H1)|]. unfold request in H1.
  pose proof (wk_poll _ _ _ _ Hm timeout (kernel w)) as Hp.
  destruct (k_call (Poll [fd] timeout) (kernel w)) as [a' k]. injection H1 as <- <-. cbn [kernel].
  destruct a' as [[count revents]|[]]; done.
Qed.

(** Escalating: the deadline passes, or some of the grace period has. *)
Lemma escalate_pays (deadline : Z) (s' : bool * option Z) (w0 w w' : world W) :
  phase_ok (true, Some deadline) (kernel w0) -> onward w0 w -> time (kernel w0) + tick <= time (kernel w) ->
  escalate pid (true, Some deadline) w = Done (s', w') ->
  phase_ok s' (kernel w') /\ debt s' (kernel w') < debt (true, Some deadline) (kernel w0) /\ onward w w'.
Proof using Hm.
  unfold escalate, onward, debt. cbn [fst snd phase_ok]. intros Hp [Ht0 Hl0] Hlt H.
  pose proof (wk_tick _ _ _ _ Hm). pose proof (grace_ticks WORKER_STOP_GRACE ltac:(by vm_compute)) as Hg.
  apply sys_bind_inv in H as (t & w1 & H1 & H). apply now_onward in H1 as [[Ho1 Ho1'] Ht1].
  destruct (Z.leb_spec deadline t).
  - apply sys_bind_inv in H as (u & w2 & H2 & H). injection H as <- <-.
    pose proof (request_onward (Kill pid SIGKILL) _ _ _ H2) as [Ho2 Ho2']. split; [done|]. cbn [fst snd] in *.
    pose proof (Z.div_pos (Z.max 0 (deadline - time (kernel w0))) tick). nia.
  - injection H as <- <-. cbn [fst snd phase_ok]. split; [lia|].
    assert (Z.max 0 (deadline - time (kernel w1)) / tick + 1 <= Z.max 0 (deadline - time (kernel w0)) / tick).
    { rewrite <- (Z.div_add _ 1 tick) by lia. apply Z.div_le_mono; lia. }
    nia.
Qed.

Lemma try_reap_onward : keeps onward (try_reap pid).
Proof using Hm.
  intros w r w' H. unfold try_reap in H. apply sys_bind_inv in H as (a & w1 & H1 & H). injection H as _ <-.
  exact (request_onward (Waitpid pid) _ _ _ H1).
Qed.

(** A pass that goes round again has paid. *)
Lemma watch_pass_pays (fuel : nat) (s s' : bool * option Z) (w w' : world W) :
  phase_ok s (kernel w) -> watch_pass fuel fd pid s w = Done (Continue s', w') ->
  phase_ok s' (kernel w') /\ debt s' (kernel w') < debt s (kernel w) /\ onward w w'.
Proof using Hm.
  intros Hp H. unfold watch_pass in H. apply sys_bind_inv in H as (reaped & w1 & H1 & H).
  destruct reaped as [[status|]|e]; [done| |done]. apply try_reap_onward in H1 as Ho1.
  apply sys_bind_inv in H as (timeout & w2 & H2 & H). apply watch_timeout_onward in H2 as [Ho2 Ht2].
  apply sys_bind_inv in H as (polled & w3 & H3 & H). apply poll_readable_onward in H3 as [Ho3 H3].
  assert (Ho : onward w w3) by (unfold onward in *; lia).
  pose proof (phase_onward s w w3 Hp Ho) as Hp3.
  destruct polled as [[]|[]]; [| |done| |done].
  - apply sys_bind_inv in H as (l & w4 & H4 & H). apply read_pending_less in H4; [|done].
    destruct l as [l|e]; [|done]. apply sys_bind_inv in H as (s1 & w5 & H5 & H). injection H as <- <-.
    assert (Ho4 : onward w w4) by (unfold onward in *; lia).
    apply on_signals_onward in H5 as [Hp5 Ho5]; [|by apply (phase_onward s w)].
    split; [done|]. split; [apply debt_less; [done|]|]; unfold onward in *; lia.
  - apply sys_bind_inv in H as (s1 & w4 & H4 & H). injection H as <- <-.
    destruct s as [[] [deadline|]]; [|specialize (Ht2 eq_refl); lia|done|specialize (Ht2 eq_refl); lia].
    apply (escalate_pays deadline s1 w w3) in H4 as (Hp4 & Hd4 & Ho4); [|done|done|unfold onward in *; lia].
    split; [done|]. split; [done|]. unfold onward in *. lia.
  - injection H as <- <-. split; [done|]. split; [|done]. apply debt_less; [done|]. unfold onward in *. lia.
Qed.

(** A pass does not get stuck. *)
Lemma watch_pass_lively (fuel : nat) (s : bool * option Z) (w : world W) :
  (left (kernel w) < fuel)%nat -> watch_pass fuel fd pid s w <> Exhausted.
Proof using Hm.
  intros Hfuel H. unfold watch_pass in H.
  apply bind_exhausted in H as [H|(reaped & w1 & H1 & H)]; [not_lively H; unfold try_reap; lively|].
  destruct reaped as [[status|]|e]; [done| |done]. apply try_reap_onward in H1 as Ho1.
  apply bind_exhausted in H as [H|(timeout & w2 & H2 & H)]; [not_lively H; unfold watch_timeout, now; lively|].
  apply watch_timeout_onward in H2 as [Ho2 _].
  apply bind_exhausted in H as [H|(polled & w3 & H3 & H)]; [not_lively H; unfold poll_readable; lively|].
  apply poll_readable_onward in H3 as [Ho3 _]. destruct polled as [[]|[]]; try done.
  - apply bind_exhausted in H as [H|(l & w4 & H4 & H)].
    + assert (Hf : (left (kernel w3) < fuel)%nat) by (unfold onward in *; lia).
      pose proof (read_pending_ends left fuel fd w3 (wk_read _ _ _ _ Hm) Hf) as He. unfold run in He.
      by rewrite H in He.
    + destruct l as [l|e]; [|done]. not_lively H. unfold on_signal, now. lively.
  - not_lively H. unfold escalate, now. lively.
Qed.

Lemma supervise_child_lively (fuel : nat) (w : world W) :
  Z.of_nat (left (kernel w)) * (WORKER_STOP_GRACE / tick + 2) < Z.of_nat fuel ->
  supervise_child fuel fd pid w <> Exhausted.
Proof using Hm.
  intros Hfuel. pose proof (grace_ticks WORKER_STOP_GRACE ltac:(by vm_compute)) as Hg.
  assert (Hleft : (left (kernel w) < fuel)%nat) by nia.
  apply (sys_loop_lively _ (fun s w' => phase_ok s (kernel w') /\ onward w w') (fun s w' => debt s (kernel w'))).
  - intros s w1 _. apply debt_nonneg.
  - intros s w1 [_ Ho]. apply watch_pass_lively. unfold onward in Ho. lia.
  - intros s w1 s' w2 [Hp Ho] E. apply watch_pass_pays in E as (Hp2 & Hd2 & Ho2); [|done].
    split; [split; [done|by transitivity w1]|done].
  - split; [done|reflexivity].
  - unfold debt. cbn [snd]. lia.
Qed.

End Stops.

(** ** Between two workers *)

Section Restarts.
Context {T : Target} {W : Type} {K : Kernel W}.
Context (fd : Z) (time : W -> Z) (tick : Z) (left : W -> nat).
Context (Hm : wakes fd time tick left).

Abbreviation onward := (onward time left).
#[local] Existing Instance onward_preorder.

Ltac onwards :=
  repeat first
    [ frame_step constr:(onward) | apply (keeps_loop onward); intros ? | apply (keeps_foldM onward); intros ? ?
    | match goal with |- keeps _ (request ?c) => exact (request_onward fd time tick left Hm c) end ].

Lemma supervise_child_onward (fuel : nat) (pid : Z) : keeps onward (supervise_child fuel fd pid).
Proof using Hm.
  unfold supervise_child, watch_pass, try_reap, watch_timeout, poll_readable, escalate, on_signal, read_pending, read_one, now.
  onwards.
Qed.

Lemma restart_onward (fuel : nat) (started status backoff : Z) : keeps onward (restart fuel fd started status backoff).
Proof using Hm.
  unfold restart, wait_before_restart, wait_pass, poll_readable, read_pending, read_one, now. onwards.
Qed.

(** What [wait_before_restart] has left: signals, and started ticks. *)
Definition wait_debt (deadline : Z) (k : W) : Z :=
  Z.of_nat (left k) + (Z.max 0 (deadline - time k) + tick - 1) / tick.

Lemma wait_debt_nonneg (deadline : Z) (k : W) : 0 <= wait_debt deadline k.
Proof using Hm.
  pose proof (wk_tick _ _ _ _ Hm). unfold wait_debt.
  pose proof (Z.div_pos (Z.max 0 (deadline - time k) + tick - 1) tick). lia.
Qed.

Lemma wait_debt_mono (deadline : Z) (w w' : world W) :
  onward w w' -> wait_debt deadline (kernel w') - Z.of_nat (left (kernel w')) <=
                 wait_debt deadline (kernel w) - Z.of_nat (left (kernel w)).
Proof using Hm.
  intros [Ht _]. unfold wait_debt. pose proof (wk_tick _ _ _ _ Hm).
  pose proof (Z.div_le_mono (Z.max 0 (deadline - time (kernel w')) + tick - 1)
                (Z.max 0 (deadline - time (kernel w)) + tick - 1) tick). lia.
Qed.

Lemma wait_debt_tick (deadline : Z) (w w' : world W) :
  onward w w' -> time (kernel w) < deadline -> time (kernel w) + tick <= time (kernel w') ->
  wait_debt deadline (kernel w') < wait_debt deadline (kernel w).
Proof using Hm.
  intros [_ Hl] Hlt Ht. unfold wait_debt. pose proof (wk_tick _ _ _ _ Hm).
  assert ((Z.max 0 (deadline - time (kernel w')) + tick - 1) / tick + 1 <=
          (Z.max 0 (deadline - time (kernel w)) + tick - 1) / tick); [|lia].
  destruct (Z.le_gt_cases deadline (time (kernel w'))).
  - rewrite (Z.div_small (Z.max 0 _ + _ - _)) by lia. apply Z.div_le_lower_bound; lia.
  - rewrite <- Z.div_add by lia. apply Z.div_le_mono; lia.
Qed.

Lemma wait_pass_pays (fuel : nat) (deadline : Z) (u u' : unit) (w w' : world W) :
  wait_pass fuel fd deadline u w = Done (Continue u', w') ->
  wait_debt deadline (kernel w') < wait_debt deadline (kernel w) /\ onward w w'.
Proof using Hm.
  intros H. unfold wait_pass in H. apply sys_bind_inv in H as (t & w1 & H1 & H).
  apply (now_onward fd time tick left Hm) in H1 as [Ho1 Ht1].
  destruct (Z.leb_spec deadline t); [done|]. apply sys_bind_inv in H as (polled & w2 & H2 & H).
  apply (poll_readable_onward fd time tick left Hm) in H2 as [Ho2 H2].
  assert (Ho : onward w w2) by (by transitivity w1). pose proof (wait_debt_mono deadline w w2 Ho) as Hd.
  destruct polled as [[]|[]]; [| |done| |done].
  - apply sys_bind_inv in H as (l & w3 & H3 & H). apply (read_pending_less fd time tick left Hm) in H3; [|done].
    assert (Ho3 : onward w2 w3) by (unfold SupervisorStops.onward; lia). pose proof (wait_debt_mono deadline w2 w3 Ho3).
    injection H as _ <-. split; [destruct Ho; lia|by transitivity w2].
  - injection H as _ <-. split; [|done]. apply wait_debt_tick; [done|lia|]. destruct Ho1. lia.
  - injection H as _ <-. split; [|done]. destruct Ho1. lia.
Qed.

Lemma wait_pass_lively (fuel : nat) (deadline : Z) (u : unit) (w : world W) :
  (left (kernel w) < fuel)%nat -> wait_pass fuel fd deadline u w <> Exhausted.
Proof using Hm.
  intros Hfuel H. unfold wait_pass in H.
  apply bind_exhausted in H as [H|(t & w1 & H1 & H)]; [not_lively H; unfold now; lively|].
  apply (now_onward fd time tick left Hm) in H1 as [[_ Ho1] _]. destruct (deadline <=? t); [done|].
  apply bind_exhausted in H as [H|(polled & w2 & H2 & H)]; [not_lively H; unfold poll_readable; lively|].
  apply (poll_readable_onward fd time tick left Hm) in H2 as [[_ Ho2] _]. destruct polled as [[]|[]]; try done.
  apply bind_exhausted in H as [H|(l & w3 & H3 & H)]; [|by destruct l].
  assert (Hf : (left (kernel w2) < fuel)%nat) by lia.
  pose proof (read_pending_ends left fuel fd w2 (wk_read _ _ _ _ Hm) Hf) as He. unfold run in He. by rewrite H in He.
Qed.

Lemma wait_before_restart_lively (fuel : nat) (delay : Z) (w : world W) : 0 <= delay ->
  Z.of_nat (left (kernel w)) + delay / tick + 2 <= Z.of_nat fuel ->
  wait_before_restart fuel fd delay w <> Exhausted.
Proof using Hm.
  intros Hd Hfuel H. pose proof (wk_tick _ _ _ _ Hm). unfold wait_before_restart in H.
  apply bind_exhausted in H as [H|(t & w1 & H1 & H)]; [not_lively H; unfold now; lively|].
  apply (now_onward fd time tick left Hm) in H1 as [[Ho1 Hl1] Ht1].
  apply bind_exhausted in H as [H|(deadline & w2 & H2 & H)]; [not_lively H; lively|].
  apply lift_inv in H2 as [H2 ->]. unfold instant_add in H2. destruct (_ <? _); [|done]. injection H2 as <-.
  revert H. apply (sys_loop_lively _ (fun _ w' => onward w1 w') (fun _ w' => wait_debt (t + delay) (kernel w'))).
  - intros u w2 _. apply wait_debt_nonneg.
  - intros u w2 [_ Hl2]. apply wait_pass_lively. pose proof (Z.div_pos delay tick). lia.
  - intros u w2 u' w3 Ho2 E. apply wait_pass_pays in E as [Hp Ho3]. split; [by transitivity w2|done].
  - reflexivity.
  - unfold wait_debt.
    assert ((Z.max 0 (t + delay - time (kernel w1)) + tick - 1) / tick <= delay / tick + 1); [|lia].
    rewrite <- Z.div_add by lia. apply Z.div_le_mono; lia.
Qed.

Lemma restart_lively (fuel : nat) (started status k : Z) (w : world W) : 0 <= k ->
  Z.of_nat (left (kernel w)) + RESTART_BACKOFF_MAX / tick + 2 <= Z.of_nat fuel ->
  restart fuel fd started status (delay_of k) w <> Exhausted.
Proof using Hm.
  intros Hk Hfuel H. pose proof (wk_tick _ _ _ _ Hm). unfold restart in H. destruct (negb _); [done|].
  apply bind_exhausted in H as [H|(t & w1 & H1 & H)]; [not_lively H; unfold now; lively|].
  apply (now_onward fd time tick left Hm) in H1 as [[_ Hl1] _].
  apply bind_exhausted in H as [H|(r & w2 & H2 & H)].
  - revert H. apply wait_before_restart_lively.
    + destruct (_ <=? _); [by vm_compute|]. pose proof (delay_of_bounds k Hk). unfold RESTART_BACKOFF_MIN, secs in *. lia.
    + assert ((if HEALTHY_RUNTIME <=? duration_since t started then RESTART_BACKOFF_MIN else delay_of k) / tick
              <= RESTART_BACKOFF_MAX / tick); [|lia].
      apply Z.div_le_mono; [done|]. destruct (_ <=? _); [by vm_compute|]. apply (delay_of_bounds k Hk).
  - destruct r as [[]|e]; [done| |done].
    apply bind_exhausted in H as [H|(d & w3 & H3 & H)]; [|done]. unfold lift, duration_mul in H.
    by destruct (_ <? _).
Qed.

End Restarts.

(** ** The supervisor's loop *)

(** A kernel that follows the parent, and on which every worker started uses up
    one of the [left] events to come. *)
Definition forks_finitely {W : Type} {K : Kernel W} (left : W -> nat) : Prop := forall k,
  match k_call Fork k with
  | (Ok pid, k') => pid <> 0 /\ (left k' < left k)%nat
  | (Err _, _) => True
  end.

Definition returned (ended : process_end) : Prop := exists r, ended = Returned r.

Section Supervisor.
Context {T : Target} {W : Type} {K : Kernel W}.
Context (fd : Z) (time : W -> Z) (tick : Z) (left : W -> nat).
Context (Hm : wakes fd time tick left) (Hforks : forks_finitely left).
Context (fuel : nat) (args : Args).

Lemma fork_inv (pid : Z) (w w' : world W) :
  request Fork w = Done (Ok pid, w') -> pid <> 0 /\ (left (kernel w') < left (kernel w))%nat.
Proof using Hforks.
  unfold request. pose proof (Hforks (kernel w)) as Hf. destruct (k_call Fork (kernel w)) as [a k].
  intros [= -> <-]. exact Hf.
Qed.

Lemma restart_returns (started status backoff : Z) (ended : process_end) (w w' : world W) :
  restart fuel fd started status backoff w = Done (Break ended, w') -> returned ended.
Proof using Type.
  unfold restart. intros H. destruct (negb _); [injection H as <- _; by eexists|].
  apply sys_bind_inv in H as (t & w1 & _ & H). apply sys_bind_inv in H as ([[]|e] & w2 & _ & H).
  - injection H as <- _. by eexists.
  - by apply sys_bind_inv in H as (d & w3 & _ & H).
  - injection H as <- _. by eexists.
Qed.

Lemma supervisor_pass_returns (backoff : Z) (ended : process_end) (w w' : world W) :
  supervisor_pass fuel args fd backoff w = Done (Break ended, w') -> returned ended.
Proof using Hforks.
  unfold supervisor_pass. intros H. apply sys_bind_inv in H as (t & w1 & _ & H).
  apply sys_bind_inv in H as ([pid|e] & w2 & H2 & H); [|injection H as <- _; by eexists].
  apply fork_inv in H2 as [H2 _]. rewrite (proj2 (Z.eqb_neq _ _) H2) in H.
  apply sys_bind_inv in H as ([[status|]|e] & w3 & _ & H); [by apply restart_returns in H|..]; injection H as <- _; by eexists.
Qed.

(** A pass that starts another worker has used one up. *)
Lemma supervisor_pass_pays (backoff b : Z) (w w' : world W) :
  supervisor_pass fuel args fd backoff w = Done (Continue b, w') -> (left (kernel w') < left (kernel w))%nat.
Proof using Hm Hforks.
  unfold supervisor_pass. intros H. apply sys_bind_inv in H as (t & w1 & H1 & H).
  apply (now_onward fd time tick left Hm) in H1 as [[_ Hl1] _].
  apply sys_bind_inv in H as ([pid|e] & w2 & H2 & H); [|done].
  apply fork_inv in H2 as [H2 Hl2]. rewrite (proj2 (Z.eqb_neq _ _) H2) in H.
  apply sys_bind_inv in H as ([[status|]|e] & w3 & H3 & H); [|done..].
  apply (supervise_child_onward fd time tick left Hm) in H3 as [_ Hl3].
  apply (restart_onward fd time tick left Hm) in H as [_ Hl4]. lia.
Qed.

Definition enough (k : W) : Prop :=
  Z.of_nat (left k) * (WORKER_STOP_GRACE / tick + 2) + RESTART_BACKOFF_MAX / tick + 2 <= Z.of_nat fuel.

Lemma enough_less (k k' : W) : (left k' <= left k)%nat -> enough k -> enough k'.
Proof using Hm.
  pose proof (grace_ticks fd time tick left Hm WORKER_STOP_GRACE ltac:(by vm_compute)). unfold enough. nia.
Qed.

Lemma enough_parts (k : W) : enough k ->
  Z.of_nat (left k) * (WORKER_STOP_GRACE / tick + 2) < Z.of_nat fuel /\
  Z.of_nat (left k) + RESTART_BACKOFF_MAX / tick + 2 <= Z.of_nat fuel.
Proof using Hm.
  pose proof (wk_tick _ _ _ _ Hm). pose proof (Z.div_pos RESTART_BACKOFF_MAX tick ltac:(by vm_compute)).
  pose proof (grace_ticks fd time tick left Hm WORKER_STOP_GRACE ltac:(by vm_compute)). unfold enough. nia.
Qed.

Lemma supervisor_pass_lively (k : Z) (w : world W) : 0 <= k -> enough (kernel w) ->
  supervisor_pass fuel args fd (delay_of k) w <> Exhausted.
Proof using Hm Hforks.
  intros Hk He H. unfold supervisor_pass in H.
  apply bind_exhausted in H as [H|(t & w1 & H1 & H)]; [not_lively H; unfold now; lively|].
  apply (now_onward fd time tick left Hm) in H1 as [[_ Hl1] _].
  apply bind_exhausted in H as [H|([pid|e] & w2 & H2 & H)]; [not_lively H; lively| |done].
  apply fork_inv in H2 as [H2 Hl2]. rewrite (proj2 (Z.eqb_neq _ _) H2) in H.
  assert (He2 : enough (kernel w2)) by (eapply enough_less; [|exact He]; lia).
  apply bind_exhausted in H as [H|([[status|]|e] & w3 & H3 & H)]; [| |done..].
  - revert H. apply (supervise_child_lively fd time tick left Hm), enough_parts, He2.
  - revert H. apply (restart_lively fd time tick left Hm); [done|]. apply enough_parts.
    apply (supervise_child_onward fd time tick left Hm) in H3 as [_ Hl3]. by eapply enough_less.
Qed.

Context (H64 : pointer_width = 64) (Hclock : sane_clock W) (Hargs : args_ok fuel args).

Lemma supervise_lively (w : world W) : enough (kernel w) -> supervise fuel args fd w <> Exhausted.
Proof using All.
  intros He H. unfold supervise in H. apply bind_exhausted in H as [H|([r|rc] & w1 & _ & H)]; [|not_lively H; unfold SignalFd_drop; lively|done].
  revert H. apply (sys_loop_lively _ (fun b w' => between w b w' /\ enough (kernel w')) (fun _ w' => Z.of_nat (left (kernel w')))).
  - intros. lia.
  - intros b w1 [[(k & Hk & ->) _] He1]. by apply supervisor_pass_lively.
  - intros b w1 b' w2 [Hb He1] E. pose proof (supervisor_pass_run H64 Hclock fuel args Hargs fd b w w1 Hb) as Hrun.
    unfold run in Hrun. rewrite E in Hrun. apply supervisor_pass_pays in E.
    split; [|lia]. split; [done|]. eapply enough_less; [|done]. lia.
  - split; [|done]. split; [by exists 0|]. exists []. by rewrite app_nil_r.
  - apply enough_parts in He. pose proof (wk_tick _ _ _ _ Hm).
    pose proof (Z.div_pos RESTART_BACKOFF_MAX tick ltac:(by vm_compute)). lia.
Qed.

Lemma supervise_returns (ended : process_end) (w w' : world W) :
  supervise fuel args fd w = Done (ended, w') -> returned ended.
Proof using Hforks.
  unfold supervise. intros H. apply sys_bind_inv in H as (e & w1 & H1 & H).
  apply (sys_loop_inv _ (fun _ _ => True) (fun e _ => returned e)) in H1 as [r ->];
    [|intros ? ? [|] ? _; [done|apply supervisor_pass_returns]|done].
  apply sys_bind_inv in H as (u & w2 & _ & H). injection H as <- _. by eexists.
Qed.

End Supervisor.



(** ** Workers that do not listen *)

(** A worker runs; it has been sent SIGKILL and still runs; it is dead; it is reaped. *)
Inductive life := Running | Dying | Dead | Reaped.

(** The time, the signals not yet read, those that the operator sends once the
    supervisor waits without a timeout, the worker, and for each
    worker to come whether it survives its start.  Workers mind only SIGKILL, and of
    that they die only when the supervisor next waits: until then [waitpid] finds them
    alive.  A poll that waits in vain takes a second at least; the clock stops at
    [last_instant], and from then on polls fail, as does one that would wait for ever. *)
Record ward := { reading : Z; inbox : list Z; orders : list Z; worker : life; nursery : list bool }.

Definition last_instant : Z := secs (2 ^ 40).
Definition ward_time (k : ward) : Z := Z.min (reading k) last_instant.
Definition ward_left (k : ward) : nat :=
  (length (inbox k) + length (orders k) + match worker k with Running | Dying => 1 | _ => 0 end +
   2 * length (nursery k))%nat.

(** A worker dies, which its parent hears. *)
Definition ward_dies (k : ward) : ward :=
  {| reading := reading k; inbox := inbox k ++ [SIGCHLD]; orders := orders k; worker := Dead; nursery := nursery k |}.

Definition with_worker (k : ward) (l : life) : ward :=
  {| reading := reading k; inbox := inbox k; orders := orders k; worker := l; nursery := nursery k |}.

Definition ward_poll (timeout : Z) (k : ward) : result io_error (Z * list Z) * ward :=
  let woken := reading k + Z.max (secs 1) (timeout * 10 ^ 6) in
  match inbox k, worker k, orders k with
  | _ :: _, _, _ => (Ok (1, [1]), k)
  | [], Dying, _ => (Ok (1, [1]), ward_dies k)
  | [], _, sig :: rest =>
      if timeout <? 0
      then (Ok (1, [1]), {| reading := reading k; inbox := [sig]; orders := rest; worker := worker k; nursery := nursery k |})
      else if woken <=? last_instant
      then (Ok (0, [0]), {| reading := woken; inbox := []; orders := sig :: rest; worker := worker k; nursery := nursery k |})
      else (Err (OtherError 12), k)
  | [], _, [] =>
      if (0 <=? timeout) && (woken <=? last_instant)
      then (Ok (0, [0]), {| reading := woken; inbox := []; orders := []; worker := worker k; nursery := nursery k |})
      else (Err (OtherError 12), k)
  end.

Definition ward_kill (sig : Z) (k : ward) : ward :=
  match worker k with
  | Running => if sig =? SIGKILL then with_worker k Dying else k
  | _ => k
  end.

(** [waitpid] with [WNOHANG]: no news, the dead worker's status, or [ECHILD]. *)
Definition ward_wait (pid : Z) (k : ward) : result io_error (Z * Z) * ward :=
  match worker k with
  | Running | Dying => (Ok (0, 0), k)
  | Dead => (Ok (pid, 9), with_worker k Reaped)
  | Reaped => (Err (OtherError 10), k)
  end.

Definition ward_fork (k : ward) : result io_error Z * ward :=
  match nursery k with
  | [] => (Err (OtherError 11), k)
  | survives :: rest =>
      let born := {| reading := reading k; inbox := inbox k; orders := orders k; worker := Running; nursery := rest |} in
      (Ok 100, if survives : bool then born else ward_dies born)
  end.

Definition ward_call (c : syscall) (k : ward) : answer c * ward :=
  match c return answer c * ward with
  | ClockNow => ({| system_time := 0; instant := ward_time k |}, k)
  | Poll _ timeout => ward_poll timeout k
  | ReadSignal _ =>
      match inbox k with
      | sig :: rest =>
          (Ok (Some sig),
           {| reading := reading k; inbox := rest; orders := orders k; worker := worker k; nursery := nursery k |})
      | [] => (Err WouldBlock, k)
      end
  | Fork => ward_fork k
  | Kill _ sig => (tt, ward_kill sig k)
  | Waitpid pid => ward_wait pid k
  | c => (fst (machine_call c {| queue := []; pending := []; clock_ms := 0 |}), k)
  end.

#[export] Instance ward_kernel : Kernel ward.
Proof.
  refine {| k_call := ward_call |}. intros fd vlen k l Hl. exfalso. revert Hl. cbn. unfold machine_recv. cbn.
  by rewrite take_nil, bool_decide_true, andb_false_r.
Defined.

Lemma ward_dies_left (k : ward) : worker k = Running \/ worker k = Dying -> ward_left (ward_dies k) = ward_left k.
Proof. intros Hk. unfold ward_left. cbn. rewrite length_app. cbn. destruct Hk as [-> | ->]; lia. Qed.

Lemma ward_poll_onward (timeout : Z) (k : ward) :
  ward_time k <= ward_time (ward_poll timeout k).2 /\ (ward_left (ward_poll timeout k).2 <= ward_left k)%nat.
Proof.
  unfold ward_poll. destruct k as [t [|sig l] [|o os] [] n]; cbn [inbox orders worker];
    repeat match goal with |- context [if ?b then _ else _] => destruct b eqn:? end;
    unfold ward_time, ward_left, secs, last_instant in *; cbn; lia.
Qed.

Lemma ward_fork_less (k : ward) :
  match ward_fork k with (Ok pid, k') => pid = 100 /\ (ward_left k' < ward_left k)%nat | (Err _, k') => k' = k end.
Proof.
  unfold ward_fork. destruct k as [t l o b [|[] n]]; cbn [nursery]; [done| |]; (split; [done|]);
    rewrite ?ward_dies_left by (by left); unfold ward_left; cbn; destruct b; lia.
Qed.

Lemma ward_onward (c : syscall) (k : ward) :
  ward_time k <= ward_time (ward_call c k).2 /\ (ward_left (ward_call c k).2 <= ward_left k)%nat.
Proof.
  destruct c; cbn [ward_call snd]; try (split; reflexivity).
  - apply ward_poll_onward.
  - destruct k as [t [|sig l] o b n]; cbn [inbox snd]; [split; reflexivity|]. split; [reflexivity|]. cbn. lia.
  - pose proof (ward_fork_less k) as Hf. unfold ward_fork in *. destruct (nursery k) as [|survives n]; [split; reflexivity|].
    destruct Hf as [_ Hf]. cbn [snd]. split; [by destruct survives|lia].
  - unfold ward_wait. destruct k as [t l o [] n]; cbn [worker snd]; split; reflexivity.
  - unfold ward_kill. destruct k as [t l o [] n]; cbn [worker]; [|split; reflexivity..].
    destruct (_ =? _); split; reflexivity.
Qed.

Lemma ward_wakes (fd : Z) : wakes fd ward_time (secs 1) ward_left.
Proof.
  split.
  - by vm_compute.
  - intros c k. apply (ward_onward c k).
  - intros c k. apply (ward_onward c k).
  - intros k. split; reflexivity.
  - intros timeout [t [|sig l] [|sig' o] [] n]; cbn [k_call ward_kernel ward_call]; unfold ward_poll; cbn [inbox orders worker];
      repeat match goal with |- context [if ?b then _ else _] => destruct b eqn:? end; try done; try (by eexists);
      change ((0 <? 0) && readable [0] 0) with false; unfold ward_time, secs in *; cbn in *; lia.
  - intros [t [|sig l] o b n] a k' [= <- <-] H; [|cbn; lia]. by destruct H as [|[? ?]].
Qed.

Lemma ward_forks : forks_finitely ward_left.
Proof.
  intros k. cbn [k_call ward_kernel ward_call]. pose proof (ward_fork_less k) as Hf.
  destruct (ward_fork k) as [[pid|e] k']; [|done]. by destruct Hf as [-> Hf].
Qed.

Lemma ward_clock : sane_clock ward.
Proof. intros k. change (ward_time k < secs (2 ^ 62)). unfold ward_time, last_instant, secs. lia. Qed.

Definition deaf_worker : world ward :=
  {| kernel := {| reading := 0; inbox := [SIGTERM; SIGINT]; orders := []; worker := Running; nursery := [] |}; log := [] |}.

(** The timeouts of the polls in a log, and the process ids that [waitpid] returned. *)
Definition waits (calls : list call) : list Z :=
  omap (fun c : call => match projT1 c with Poll _ timeout => Some timeout | _ => None end) calls.
Definition reaps (calls : list call) : list Z :=
  omap (fun c : call => match c with existT (Waitpid _) (Ok (pid, _)) => Some pid | _ => None end) calls.

(** It is killed after ten seconds, and found dead only after one more wait, without
    a timeout. *)
Example deaf_worker_is_killed :
  match supervise_child 40 4 100 deaf_worker with
  | Done (Ok ShutdownRequested, w) => kills (log w) = [SIGTERM; SIGKILL] /\ reading (kernel w) = secs 10 /\
      waits (log w) = [-1; 10000; -1] /\ reaps (log w) = [0; 0; 0; 100]
  | _ => False
  end.
Proof. vm_compute. split_and!; reflexivity. Qed.


(** A worker that does not survive its start, and a deaf one. *)
Definition two_workers : world ward :=
  {| kernel := {| reading := 0; inbox := []; orders := [SIGTERM]; worker := Reaped; nursery := [false; true] |}; log := [] |}.

(** The second is started after a second and killed ten seconds later. *)
Example second_worker_is_killed :
  match supervise (T := x86_64_debug) 130 demo_daemon 4 two_workers with
  | Done (Returned (Ok _), w) => kills (log w) = [SIGTERM; SIGKILL] /\ reading (kernel w) = secs 11
  | _ => False
  end.
Proof. vm_compute. split; reflexivity. Qed.

