(* ===== verification/SupervisorRefines.v ===== *)
(** * The supervisor implements the keeper

    A forward simulation between the supervisor's loop in [src/main.rs] and the
    machine of [KeeperSpec]: the forks, the signals read and sent, the reaped
    workers and the clock readings of its system calls are a run of that machine.
    What the machine guarantees holds of the supervisor. *)

From Stdlib Require Import ZArith Lia Sorted.
From stdpp Require Import base list numbers strings.
From S2P Require Import Prelude Encoder System Machine Socket Signals Worker WorkerLog WorkerFrame WorkerProps WorkerMain Supervisor KeeperSpec SupervisorProps SupervisorStops.
Import Keeper.
Local Open Scope Z_scope.

(** ** The trace of a log *)

Definition seen (c : call) : list label :=
  match c with
  | existT ClockNow clock => [Reads (instant clock)]
  | existT Fork (Ok pid) => [Forks pid]
  | existT (ReadSignal _) (Ok (Some sig)) => [Gets sig]
  | existT (Kill pid sig) _ => [Signals pid sig]
  | existT (Waitpid q) (Ok (p, status)) => if p =? q then [Reaps p status] else []
  | _ => []
  end.

Section Keeps.
Context {T : Target} {W : Type} {K : Kernel W}.

(** The calls between two worlds are a run of the machine. *)
Definition kept : State -> world W -> State -> world W -> Prop := simulates step seen.

Lemma reads_now (s : State) (t : Z) (w w' : world W) :
  now w = Done (t, w') -> kept s w {| now_is := now_is s; clock := t |} w'.
Proof.
  intros H. apply now_inv in H as (c & -> & L). destruct s. eapply simulates_call; [exact L|]. apply reads.
Qed.

Lemma polls (s : State) (fd timeout : Z) (r : result io_error bool) (w w' : world W) :
  poll_readable fd timeout w = Done (r, w') -> kept s w s w'.
Proof.
  unfold poll_readable. intros H. apply sys_bind_inv in H as (a & w1 & H1 & H). injection H as <- <-.
  apply (request_inv (Poll _ _) a) in H1. eapply simulates_hidden; [exact H1|]. by apply Forall_cons_2.
Qed.

(** Signals read one after the other. *)
Lemma hear_attentive (ph : phase) (sig : Z) : attentive ph = true -> attentive (hear ph sig) = true.
Proof. unfold hear. destruct (not_sigchld sig); [|done]. by destruct ph. Qed.

Lemma reads_heard (fd : Z) (calls : list call) (ph : phase) (t : Z) :
  Forall (is_read fd) calls -> attentive ph = true ->
  steps step {| now_is := ph; clock := t |} (labels_of seen calls)
    {| now_is := foldl hear ph (signals_read calls); clock := t |}.
Proof.
  intros Hall. revert ph. induction Hall as [|[c a] calls Hc _ IH]; intros ph Ha; [apply steps_none|].
  unfold is_read in Hc. cbn in Hc. subst c. unfold signals_read. cbn. unfold labels_of. cbn [map concat].
  destruct a as [[sig|]|e]; [|by apply IH..]. eapply steps_more; [by apply hears|]. by apply IH, hear_attentive.
Qed.

Lemma read_pending_kept (fuel : nat) (fd : Z) (r : result io_error (list Z)) (s : State) (w w' : world W) :
  attentive (now_is s) = true -> read_pending fuel fd w = Done (r, w') ->
  exists sigs, kept s w {| now_is := foldl hear (now_is s) sigs; clock := clock s |} w' /\
    match r with Ok l => l = sigs | Err _ => True end.
Proof.
  intros Ha H. pose proof (read_pending_run fuel fd w) as Hrun. unfold run in Hrun. rewrite H in Hrun.
  destruct Hrun as (calls & L & Hall & Hr). exists (signals_read calls). split; [|done].
  exists calls. split; [done|]. destruct s as [ph t]. by apply (reads_heard fd).
Qed.

(** What a list of signals leads to. *)
Lemma foldl_hear_none (ph : phase) (l : list Z) : List.filter not_sigchld l = [] -> foldl hear ph l = ph.
Proof.
  revert ph. induction l as [|x l IH]; intros ph H; [done|]. cbn in H |- *. unfold hear at 2.
  destruct (not_sigchld x); [done|]. by apply IH.
Qed.

Lemma foldl_hear_fixed (ph : phase) (l : list Z) : (forall sig, hear ph sig = ph) -> foldl hear ph l = ph.
Proof. intros Hf. induction l as [|x l IH]; [done|]. cbn. by rewrite Hf. Qed.

Lemma foldl_hear_some (ph ph' : phase) (l : list Z) :
  List.filter not_sigchld l <> [] -> (forall sig, not_sigchld sig = true -> hear ph sig = ph') ->
  (forall sig, hear ph' sig = ph') -> foldl hear ph l = ph'.
Proof.
  intros Hne Hto Hfix. induction l as [|x l IH]; [done|]. cbn in Hne |- *. destruct (not_sigchld x) eqn:Hx.
  - rewrite Hto by done. by apply foldl_hear_fixed.
  - assert (Hsame : hear ph x = ph) by (unfold hear; by rewrite Hx). rewrite Hsame. by apply IH.
Qed.

(** ** Watching a worker *)

(** The variables of [supervise_child] and the phase. *)
Definition watches (pid started k : Z) (v : bool * option Z) : phase :=
  match v with
  | (false, _) => Running pid started k
  | (true, Some deadline) => Stopping pid deadline
  | (true, None) => Killed pid
  end.

Definition proper (v : bool * option Z) : Prop := v.1 = false -> v.2 = None.

(** The machine stands at [ph] and got there with the calls since [w]. *)
Definition at_phase (s : State) (w : world W) (ph : phase) (w' : world W) : Prop :=
  exists t, kept s w {| now_is := ph; clock := t |} w'.

Lemma at_phase_refl (s : State) (w : world W) : at_phase s w (now_is s) w.
Proof. exists (clock s). destruct s. apply simulates_refl. Qed.

Lemma at_phase_then (s : State) (w w1 w2 : world W) (ph ph' : phase) :
  at_phase s w ph w1 -> (forall t, at_phase {| now_is := ph; clock := t |} w1 ph' w2) -> at_phase s w ph' w2.
Proof. intros [t H1] H2. destruct (H2 t) as [t' H']. exists t'. by eapply simulates_trans. Qed.

Lemma on_signal_kept (pid sig : Z) (v v' : bool * option Z) (t : Z) (w w' : world W) (ph : phase) :
  proper v -> ph = (if v.1 then watches pid 0 0 v else Asked pid) -> on_signal pid v sig w = Done (v', w') ->
  v'.1 = true /\ at_phase {| now_is := ph; clock := t |} w (watches pid 0 0 v') w'.
Proof.
  intros Hp Hph H. destruct v as [[] d]; cbn in Hph, H; subst ph.
  { injection H as <- <-. split; [done|]. apply at_phase_refl. }
  apply sys_bind_inv in H as (u & w1 & H1 & H). apply (request_inv (Kill _ _) u) in H1.
  apply sys_bind_inv in H as (tm & w2 & H2 & H). apply now_inv in H2 as (c & -> & L2).
  apply sys_bind_inv in H as (deadline & w3 & H3 & H). apply lift_inv in H3 as [H3 ->]. injection H as <- <-.
  unfold instant_add in H3. destruct (_ <? _); [|done]. injection H3 as <-. split; [done|].
  exists (instant c). eapply simulates_calls; [exact (log_two _ _ _ _ _ H1 L2)|]. apply terminates.
Qed.

Lemma on_signals_kept (pid started k : Z) (l : list Z) (v v' : bool * option Z) (t : Z) (w w' : world W) (ph : phase) :
  proper v -> ph = (if v.1 then watches pid started k v else match l with [] => Running pid started k | _ => Asked pid end) ->
  sys_foldM (on_signal pid) v l w = Done (v', w') ->
  proper v' /\ at_phase {| now_is := ph; clock := t |} w (watches pid started k v') w'.
Proof.
  revert v t w ph. induction l as [|sig l IH]; intros v t w ph Hp Hph H; cbn [sys_foldM] in H.
  { injection H as <- <-. split; [done|]. assert (ph = watches pid started k v) as -> by (by destruct v as [[] ?]).
    apply at_phase_refl. }
  apply sys_bind_inv in H as (v1 & w1 & H1 & H).
  apply (on_signal_kept pid sig v v1 t w w1 ph) in H1 as [Hv1 [t1 Hs1]]; [|done|by destruct v as [[] []]].
  destruct v1 as [[] d1]; [|done].
  destruct (IH (true, d1) t1 w1 (watches pid started k (true, d1))) as [Hp' Ha]; [done|done|exact H|].
  split; [done|]. apply (at_phase_then _ w w1 w' (watches pid 0 0 (true, d1))); [by exists t1|].
  intros t2. destruct (IH (true, d1) t2 w1 (watches pid started k (true, d1))) as [_ Ha2]; [done|done|exact H|].
  by destruct d1.
Qed.

Lemma at_phase_kept (s s' : State) (w w1 w2 : world W) (ph : phase) :
  kept s w s' w1 -> at_phase s' w1 ph w2 -> at_phase s w ph w2.
Proof. intros H1 [t H2]. exists t. by eapply simulates_trans. Qed.

Lemma kept_at_phase (s s' : State) (w w' : world W) : kept s w s' w' -> at_phase s w (now_is s') w'.
Proof. intros H. exists (clock s'). by destruct s'. Qed.

Lemma watch_timeout_kept (v : bool * option Z) (timeout : Z) (s : State) (w w' : world W) :
  watch_timeout v w = Done (timeout, w') -> at_phase s w (now_is s) w'.
Proof.
  unfold watch_timeout. intros H. destruct v.2.
  - apply sys_bind_inv in H as (tm & w1 & H1 & H). injection H as <- <-.
    apply (reads_now s) in H1. exact (kept_at_phase _ _ _ _ H1).
  - injection H as <- <-. apply at_phase_refl.
Qed.

Lemma escalate_kept (pid started k : Z) (v v' : bool * option Z) (s : State) (w w' : world W) :
  proper v -> now_is s = watches pid started k v -> escalate pid v w = Done (v', w') ->
  proper v' /\ at_phase s w (watches pid started k v') w'.
Proof.
  intros Hp Hph H. unfold escalate in H. destruct v as [b [d|]]; cbn in H.
  2: { injection H as <- <-. split; [done|]. rewrite <- Hph. apply at_phase_refl. }
  destruct b; [|by specialize (Hp eq_refl)]. apply sys_bind_inv in H as (tm & w1 & H1 & H).
  apply (reads_now s) in H1. rewrite Hph in H1. destruct (Z.leb_spec d tm) as [Hle|_].
  - apply sys_bind_inv in H as (u & w2 & H2 & H). injection H as <- <-. apply (request_inv (Kill _ _) u) in H2.
    split; [done|]. eapply at_phase_kept; [exact H1|]. exists tm. eapply simulates_call; [exact H2|]. by apply kills.
  - injection H as <- <-. split; [done|]. exact (kept_at_phase _ _ _ _ H1).
Qed.

Lemma try_reap_kept (pid started k : Z) (v : bool * option Z) (r : result supervisor_error (option Z)) (s : State) (w w' : world W) :
  now_is s = watches pid started k v -> try_reap pid w = Done (r, w') ->
  match r with
  | Ok (Some status) => at_phase s w (if v.1 then Stopped else Ended status started k) w'
  | _ => kept s w s w'
  end.
Proof.
  intros Hph H. unfold try_reap in H. apply sys_bind_inv in H as (a & w1 & H1 & H). injection H as <- <-.
  apply (request_inv (Waitpid pid) a) in H1. destruct a as [[q status]|e].
  - destruct (Z.eqb_spec q pid) as [->|Hne].
    + exists (clock s). destruct s as [ph t]. cbn in Hph. subst ph. eapply simulates_call; [exact H1|].
      cbn. rewrite Z.eqb_refl. destruct v as [[] [d|]]; [apply reaps_stopping|apply reaps_killed|apply reaps..].
    + eapply simulates_hidden; [exact H1|]. apply Forall_cons_2; [|apply Forall_nil_2]. unfold hidden. cbn.
      by apply Z.eqb_neq in Hne as ->.
  - assert (Hk : kept s w s w1) by (eapply simulates_hidden; [exact H1|by apply Forall_cons_2]). by destruct e.
Qed.

(** How [supervise_child] stands after the answer [r]. *)
Definition watched_to (started k : Z) (s : State) (w : world W) (r : result supervisor_error Supervision) (w' : world W) : Prop :=
  match r with
  | Ok (Exited status) => at_phase s w (Ended status started k) w'
  | Ok ShutdownRequested => at_phase s w Stopped w'
  | Err _ => exists ph, at_phase s w ph w'
  end.

(** How a pass of its loop stands. *)
Definition passed_to (pid started k : Z) (s : State) (w : world W)
    (next : flow (bool * option Z) (result supervisor_error Supervision)) (w' : world W) : Prop :=
  match next with
  | Continue v' => proper v' /\ at_phase s w (watches pid started k v') w'
  | Break r => watched_to started k s w r w'
  end.

(** The phase the signals [sigs] lead to is the one they are acted on in. *)
Lemma heard_phase (pid started k : Z) (v : bool * option Z) (sigs : list Z) :
  foldl hear (watches pid started k v) sigs =
  if v.1 then watches pid started k v
  else match List.filter not_sigchld sigs with [] => Running pid started k | _ => Asked pid end.
Proof.
  destruct v as [[] d]; cbn [fst].
  - apply foldl_hear_fixed. intros sig. unfold hear. destruct (not_sigchld sig); by destruct d.
  - destruct (List.filter not_sigchld sigs) eqn:Hf; [by apply foldl_hear_none|].
    apply foldl_hear_some; [by rewrite Hf|intros sig Hs; unfold hear; by rewrite Hs|].
    intros sig. unfold hear. by destruct (not_sigchld sig).
Qed.

Lemma signals_kept (fuel : nat) (fd pid started k : Z) (v : bool * option Z) (s0 : State) (w0 w w' : world W)
    (next : flow (bool * option Z) (result supervisor_error Supervision)) :
  proper v -> at_phase s0 w0 (watches pid started k v) w ->
  (signals ← read_pending fuel fd;
   match signals with
   | Err e => mret (Break (Err (SupervisorReadFailed e)))
   | Ok l => s ← sys_foldM (on_signal pid) v (List.filter not_sigchld l); mret (Continue s)
   end) w = Done (next, w') -> passed_to pid started k s0 w0 next w'.
Proof.
  intros Hp [t Hk] H. apply sys_bind_inv in H as (signals & w1 & H1 & H).
  apply (read_pending_kept _ _ _ {| now_is := watches pid started k v; clock := t |}) in H1 as (sigs & Hk1 & Hr);
    [|by destruct v as [[] []]].
  pose proof (simulates_trans _ _ _ _ _ _ _ _ Hk Hk1) as Hk2. cbn [now_is clock] in Hk2.
  destruct signals as [l|e]; [subst l|injection H as <- <-; eexists; exact (kept_at_phase _ _ _ _ Hk2)].
  apply sys_bind_inv in H as (v' & w2 & H2 & H). injection H as <- <-.
  destruct (on_signals_kept pid started k _ v v' t _ _ _ Hp (heard_phase pid started k v sigs) H2) as [Hp' Ha].
  split; [done|]. by eapply at_phase_kept.
Qed.

Lemma watch_pass_kept (fuel : nat) (fd pid started k : Z) (v : bool * option Z) (s0 : State) (w0 w w' : world W)
    (next : flow (bool * option Z) (result supervisor_error Supervision)) :
  proper v /\ at_phase s0 w0 (watches pid started k v) w -> watch_pass fuel fd pid v w = Done (next, w') ->
  passed_to pid started k s0 w0 next w'.
Proof.
  intros [Hp [t Hk]] H. unfold watch_pass in H. apply sys_bind_inv in H as (reaped & w1 & H1 & H).
  apply (try_reap_kept pid started k v _ {| now_is := watches pid started k v; clock := t |}) in H1; [|done].
  destruct reaped as [[status|]|e].
  { injection H as <- <-. pose proof (at_phase_kept _ _ _ _ _ _ Hk H1) as Ha. by destruct v as [[] ?]. }
  2: { injection H as <- <-. eexists. exact (at_phase_kept _ _ _ _ _ _ Hk (kept_at_phase _ _ _ _ H1)). }
  pose proof (kept_at_phase _ _ _ _ (simulates_trans _ _ _ _ _ _ _ _ Hk H1)) as Hat1.
  apply sys_bind_inv in H as (timeout & w2 & H2 & H).
  pose proof (at_phase_then _ _ _ _ _ _ Hat1 (fun t => watch_timeout_kept v timeout _ _ _ H2)) as Hat2.
  apply sys_bind_inv in H as (polled & w3 & H3 & H).
  pose proof (at_phase_then _ _ _ _ _ _ Hat2 (fun t => kept_at_phase _ _ _ _ (polls _ _ _ _ _ _ H3))) as Hat3.
  cbn [now_is] in Hat3. destruct polled as [[]|e]; [by apply (signals_kept fuel fd pid started k v s0 w0 w3)| |].
  - apply sys_bind_inv in H as (v' & w4 & H4 & H). injection H as <- <-. destruct Hat3 as [t3 Hk3].
    apply (escalate_kept pid started k v v' {| now_is := watches pid started k v; clock := t3 |}) in H4 as [Hp' Ha]; [|done..].
    split; [done|]. by eapply at_phase_kept.
  - destruct e; injection H as <- <-; [by eexists|done|by eexists].
Qed.

Lemma supervise_child_kept (fuel : nat) (fd pid started k : Z) (r : result supervisor_error Supervision) (s : State) (w w' : world W) :
  now_is s = Running pid started k -> supervise_child fuel fd pid w = Done (r, w') -> watched_to started k s w r w'.
Proof.
  intros Hph. apply (sys_loop_inv _ (fun v w1 => proper v /\ at_phase s w (watches pid started k v) w1)).
  - intros v w1 next w2 HI H. by eapply watch_pass_kept.
  - split; [done|]. cbn. rewrite <- Hph. apply at_phase_refl.
Qed.

(** ** Between two workers *)

(** How the wait stands after the answer [r]. *)
Definition waited_to (k : Z) (s : State) (w : world W) (r : result supervisor_error bool) (w' : world W) : Prop :=
  match r with
  | Ok false => at_phase s w (Resting (k + 1)) w'
  | Ok true => at_phase s w Stopped w'
  | Err _ => exists ph, at_phase s w ph w'
  end.

Lemma wait_pass_kept (fuel : nat) (fd deadline k : Z) (u : unit) (s0 : State) (w0 w w' : world W)
    (next : flow unit (result supervisor_error bool)) :
  at_phase s0 w0 (Waiting deadline k) w -> wait_pass fuel fd deadline u w = Done (next, w') ->
  match next with
  | Continue _ => at_phase s0 w0 (Waiting deadline k) w'
  | Break r => waited_to k s0 w0 r w'
  end.
Proof.
  intros [t Hk] H. unfold wait_pass in H. apply sys_bind_inv in H as (tm & w1 & H1 & H).
  apply (reads_now {| now_is := Waiting deadline k; clock := t |}) in H1. cbn [now_is] in H1.
  pose proof (simulates_trans _ _ _ _ _ _ _ _ Hk H1) as Hk1. clear Hk H1. destruct (Z.leb_spec deadline tm) as [Hle|_].
  { injection H as <- <-. eapply at_phase_kept; [exact Hk1|]. exists tm. apply simulates_silent. by apply restarts. }
  apply sys_bind_inv in H as (polled & w2 & H2 & H).
  pose proof (simulates_trans _ _ _ _ _ _ _ _ Hk1 (polls _ _ _ _ _ _ H2)) as Hk2. clear Hk1 H2.
  pose proof (kept_at_phase _ _ _ _ Hk2) as Ha2. destruct polled as [[]|e]; [|by injection H as <- <-|].
  2: { destruct e; injection H as <- <-; [by eexists|done|by eexists]. }
  apply sys_bind_inv in H as (signals & w3 & H3 & H).
  apply (read_pending_kept _ _ _ {| now_is := Waiting deadline k; clock := tm |}) in H3 as (sigs & Hk3 & Hr); [|done].
  pose proof (kept_at_phase _ _ _ _ (simulates_trans _ _ _ _ _ _ _ _ Hk2 Hk3)) as Ha3. cbn [now_is clock] in Ha3.
  destruct signals as [l|e]; [subst l|injection H as <- <-; by eexists].
  destruct (List.find not_sigchld sigs) as [sig|] eqn:Hfind; injection H as <- <-.
  - rewrite (foldl_hear_some _ Stopped) in Ha3; [done| | |].
    + intros Hnil. apply List.find_some in Hfind. rewrite <- List.filter_In, Hnil in Hfind. destruct Hfind.
    + intros x Hx. unfold hear. by rewrite Hx.
    + intros x. unfold hear. by destruct (not_sigchld x).
  - by rewrite foldl_hear_none in Ha3 by by apply filter_none.
Qed.

Lemma wait_kept (loop_fuel fuel : nat) (fd deadline k : Z) (r : result supervisor_error bool) (s0 : State) (w0 w w' : world W) :
  at_phase s0 w0 (Waiting deadline k) w -> sys_loop loop_fuel (wait_pass fuel fd deadline) tt w = Done (r, w') ->
  waited_to k s0 w0 r w'.
Proof.
  apply (sys_loop_inv _ (fun _ => at_phase s0 w0 (Waiting deadline k))). intros u w1 step w2 HI H.
  exact (wait_pass_kept _ _ _ _ _ _ _ _ _ _ HI H).
Qed.

(** A worker that ended: the supervisor goes on with the next one, or is done. *)
Lemma restart_kept (fuel : nat) (fd started status k : Z) (next : flow Z process_end) (s : State) (w w' : world W) :
  0 <= k -> now_is s = Ended status started k -> restart fuel fd started status (delay_of k) w = Done (next, w') ->
  match next with
  | Continue b => exists k', 0 <= k' /\ b = delay_of k' /\ at_phase s w (Resting k') w'
  | Break (Returned (Ok _)) => at_phase s w Stopped w'
  | Break (Returned (Err _)) => exists ph, at_phase s w ph w'
  | Break (Exits _) => False
  end.
Proof.
  intros Hk Hph H. destruct s as [ph t]. cbn in Hph. subst ph. unfold restart in H.
  destruct (should_restart status) eqn:Hsr; cbn [negb] in H.
  2: { injection H as <- <-. exists t. apply simulates_silent. by apply retires. }
  apply sys_bind_inv in H as (t0 & w1 & H1 & H). apply now_inv in H1 as (c0 & -> & L0).
  apply sys_bind_inv in H as (r & w2 & H2 & H). unfold wait_before_restart in H2.
  apply sys_bind_inv in H2 as (t1 & w3 & H3 & H2). apply now_inv in H3 as (c1 & -> & L1).
  apply sys_bind_inv in H2 as (deadline & w4 & H4 & H2). apply lift_inv in H4 as [H4 ->].
  unfold instant_add in H4. destruct (_ <? _); [|done]. injection H4 as <-.
  set (k' := counted started (instant c0) k). assert (Hk' : 0 <= k') by (unfold k', counted; destruct (_ <=? _); lia).
  assert (Hd : (if HEALTHY_RUNTIME <=? duration_since (instant c0) started then RESTART_BACKOFF_MIN else delay_of k) = delay_of k')
    by (unfold k', counted, duration_since; by destruct (_ <=? _)).
  rewrite Hd in H, H2.
  assert (Hwait : at_phase {| now_is := Ended status started k; clock := t |} w (Waiting (instant c1 + delay_of k') k') w3).
  { exists (instant c1). eapply simulates_calls; [exact (log_two _ _ _ _ _ L0 L1)|]. by apply backs_off. }
  apply (wait_kept _ _ _ _ _ _ _ _ _ _ Hwait) in H2.
  destruct r as [[]|e]; [by injection H as <- <-| |injection H as <- <-; exact H2].
  destruct (delay_doubles k' Hk') as [Hdbl Hmin]. apply sys_bind_inv in H as (d & w5 & H5 & H).
  apply lift_inv in H5 as [H5 ->]. rewrite Hdbl in H5. injection H5 as <-. injection H as <- <-.
  exists (k' + 1). split; [lia|]. by rewrite Hmin.
Qed.

(** ** The loop *)

(** At the top of a pass: about to start a worker. *)
Definition ready (s0 : State) (w0 : world W) (backoff : Z) (w : world W) : Prop :=
  exists k, 0 <= k /\ backoff = delay_of k /\ at_phase s0 w0 (Resting k) w.

(** At the end: stopped, unless the supervisor failed; in a new worker's process,
    about to start it until the fork. *)
Definition left_at (s0 : State) (w0 : world W) (ended : process_end) (w : world W) : Prop :=
  match ended with
  | Returned (Ok _) => at_phase s0 w0 Stopped w
  | Returned (Err _) => exists ph, at_phase s0 w0 ph w
  | Exits _ => exists k w1 child, at_phase s0 w0 (Resting k) w1 /\ log w = log w1 ++ called Fork (Ok 0) :: child
  end.

Context (H64 : pointer_width = 64) (Hclock : sane_clock W) (fuel : nat) (args : Args) (Hargs : args_ok fuel args).

Lemma supervisor_pass_kept (fd backoff : Z) (next : flow Z process_end) (s0 : State) (w0 w w' : world W) :
  ready s0 w0 backoff w -> supervisor_pass fuel args fd backoff w = Done (next, w') ->
  match next with Continue b => ready s0 w0 b w' | Break ended => left_at s0 w0 ended w' end.
Proof.
  intros (k & Hk & -> & t & Hkept) H. unfold supervisor_pass in H. apply sys_bind_inv in H as (started & w1 & H1 & H).
  apply (reads_now {| now_is := Resting k; clock := t |}) in H1. cbn [now_is] in H1.
  pose proof (simulates_trans _ _ _ _ _ _ _ _ Hkept H1) as Hk1. clear Hkept H1.
  apply sys_bind_inv in H as (forked & w2 & H2 & H). apply (request_inv Fork forked) in H2.
  destruct forked as [pid|e].
  2: { injection H as <- <-. exists (Resting k), started. eapply simulates_trans; [exact Hk1|].
       eapply simulates_hidden; [exact H2|]. by apply Forall_cons_2. }
  destruct (Z.eqb_spec pid 0) as [->|_].
  { apply sys_bind_inv in H as (ended & w3 & H3 & H). injection H as <- <-.
    pose proof (child_main_run H64 Hclock fuel args Hargs fd w2) as Hchild. unfold run in Hchild. rewrite H3 in Hchild.
    destruct Hchild as (rc & a & calls & -> & _ & L & _). do 3 eexists. split; [by exists started|].
    exact (log_two _ _ _ _ _ H2 L). }
  assert (Hrun : at_phase s0 w0 (Running pid started k) w2).
  { exists started. eapply simulates_trans; [exact Hk1|]. eapply simulates_call; [exact H2|]. apply forks. }
  destruct Hrun as [t2 Hk2]. apply sys_bind_inv in H as (supervised & w3 & H3 & H).
  apply (supervise_child_kept fuel fd pid started k _ {| now_is := Running pid started k; clock := t2 |}) in H3; [|done].
  destruct supervised as [[status|]|e].
  - destruct H3 as [t3 Hk3]. pose proof (simulates_trans _ _ _ _ _ _ _ _ Hk2 Hk3) as Hk4.
    apply (restart_kept fuel fd started status k next {| now_is := Ended status started k; clock := t3 |}) in H; [|done..].
    destruct next as [b|[[u|e]|rc]]; [| | |done].
    + destruct H as (k' & Hk' & -> & Ha). exists k'. split; [done|]. split; [done|]. by eapply at_phase_kept.
    + by eapply at_phase_kept.
    + destruct H as [ph Ha]. exists ph. by eapply at_phase_kept.
  - injection H as <- <-. by eapply at_phase_kept.
  - injection H as <- <-. destruct H3 as [ph Ha]. exists ph. by eapply at_phase_kept.
Qed.

Lemma supervise_kept (fd : Z) (ended : process_end) (t : Z) (w w' : world W) :
  supervise fuel args fd w = Done (ended, w') -> left_at {| now_is := Resting 0; clock := t |} w ended w'.
Proof.
  unfold supervise. intros H. apply sys_bind_inv in H as (e & w1 & H1 & H).
  apply (sys_loop_inv _ (ready {| now_is := Resting 0; clock := t |} w) (left_at {| now_is := Resting 0; clock := t |} w)) in H1.
  - destruct e as [r|rc]; [|by injection H as <- <-]. apply sys_bind_inv in H as (u & w2 & H2 & H). injection H as <- <-.
    apply (request_inv (Close fd) u) in H2.
    assert (Hclose : forall s, kept s w1 s w2) by (intros s; eapply simulates_hidden; [exact H2|by apply Forall_cons_2]).
    destruct r as [v|e]; cbn in H1 |- *.
    + exact (at_phase_then _ _ _ _ _ _ H1 (fun t => kept_at_phase _ _ _ _ (Hclose _))).
    + destruct H1 as [ph Ha]. exists ph. exact (at_phase_then _ _ _ _ _ _ Ha (fun t => kept_at_phase _ _ _ _ (Hclose _))).
  - intros b w2 next w3 HI E. by eapply supervisor_pass_kept.
  - exists 0. split; [done|]. split; [done|]. exact (at_phase_refl {| now_is := Resting 0; clock := t |} w).
Qed.

End Keeps.

(** C11: the supervisor is a keeper of its worker.  Whatever the kernel answers, the
    supervisor does not panic, and when it returns, its forks, the signals it read and
    sent, the workers it reaped and its clock readings are a run of the keeper's
    machine from rest; if it returns normally, to its final phase.  A process that
    exits is a new worker's: the run until its fork is one of the machine too, to a
    phase in which a worker is due. *)
Theorem supervisor_refines_keeper {T : Target} {W : Type} {K : Kernel W} (fuel : nat) (args : Args) (fd t : Z)
    (w : world W) :
  pointer_width = 64 -> sane_clock W -> args_ok fuel args ->
  runs (supervise fuel args fd) w (fun ended w' => exists calls child s,
    log w' = log w ++ calls ++ child /\
    steps step {| now_is := Resting 0; clock := t |} (labels_of seen calls) s /\
    match ended with
    | Returned (Ok _) => child = [] /\ now_is s = Stopped
    | Returned (Err _) => child = []
    | Exits _ => (exists k, now_is s = Resting k) /\ head child = Some (called Fork (Ok 0))
    end).
Proof.
  intros H64 Hclock Hargs. pose proof (supervise_run H64 Hclock fuel args Hargs fd w) as Hrun. unfold run in *.
  destruct (supervise fuel args fd w) as [[ended w']| |] eqn:E; [|done..].
  apply (supervise_kept H64 Hclock fuel args Hargs fd ended t) in E. destruct ended as [[u|e]|rc].
  - destruct E as (t' & calls & L & Hs). exists calls, [], {| now_is := Stopped; clock := t' |}. by rewrite app_nil_r.
  - destruct E as (ph & t' & calls & L & Hs). exists calls, [], {| now_is := ph; clock := t' |}. by rewrite app_nil_r.
  - destruct E as (k & w1 & child & (t' & calls & L & Hs) & L'). exists calls, (called Fork (Ok 0) :: child).
    eexists. split; [by rewrite L', L, <- app_assoc|]. split; [exact Hs|]. split; [by exists k|done].
Qed.

(** C13: a worker that keeps failing is not restarted in a tight loop.  On a kernel
    whose monotonic clock does not go back, the supervisor takes at least a second
    for every worker but the first: whenever it returns, the workers it forked, less
    one, in seconds, are no more than the time from its first to its last reading of
    the clock. *)
Theorem restarts_are_rate_limited {T : Target} {W : Type} {K : Kernel W} (fuel : nat) (args : Args) (fd : Z)
    (w : world W) :
  pointer_width = 64 -> sane_clock W -> args_ok fuel args ->
  runs (supervise fuel args fd) w (fun ended w' =>
    match ended with
    | Returned _ => exists calls, log w' = log w ++ calls /\
        let trace := labels_of seen calls in
        forall first final, head (readings trace) = Some first -> list.last (readings trace) = Some final ->
          Sorted Z.le (readings trace) -> (zlen (workers trace) - 1) * RESTART_BACKOFF_MIN <= final - first
    | Exits _ => True
    end).
Proof.
  intros H64 Hclock Hargs. pose proof (supervise_run H64 Hclock fuel args Hargs fd w) as Hrun. unfold run in *.
  destruct (supervise fuel args fd w) as [[[r|rc] w']| |] eqn:E; [|done..]. destruct Hrun as (calls & L & _).
  exists calls. split; [done|]. cbv zeta. set (trace := labels_of seen calls). intros first final Hfirst Hfinal Hsort.
  apply (supervise_kept H64 Hclock fuel args Hargs fd (Returned r) first) in E.
  assert (Hsteps : exists s, steps step {| now_is := Resting 0; clock := first |} trace s).
  { destruct r as [u|e]; [destruct E as (t' & c & L' & Hs)|destruct E as (ph & t' & c & L' & Hs)];
      rewrite L in L'; apply app_inv_head in L' as <-; by eexists. }
  destruct Hsteps as [s Hs]. apply steps_paid in Hs.
  - unfold latest in Hs. by rewrite Hfinal in Hs.
  - destruct (readings trace) as [|x ts]; [done|]. injection Hfirst as ->. split; [lia|]. by apply sorted_rises.
Qed.

(** ** Two workers *)

Lemma supervisor_refines_keeper_witness :
  runs (supervise (T := x86_64_debug) 130 demo_daemon 4) two_workers (fun ended w' => exists calls child s,
    log w' = calls ++ child /\
    steps step {| now_is := Resting 0; clock := 0 |} (labels_of seen calls) s /\
    match ended with
    | Returned (Ok _) => child = [] /\ now_is s = Stopped
    | Returned (Err _) => child = []
    | Exits _ => (exists k, now_is s = Resting k) /\ head child = Some (called Fork (Ok 0))
    end).
Proof.
  apply (@supervisor_refines_keeper x86_64_debug ward ward_kernel 130 demo_daemon 4 0 two_workers).
  - reflexivity.
  - apply ward_clock.
  - split; [closed_bounds|closed_bounds|by vm_compute|by vm_compute].
Defined.

(** The first worker fails at once, the second starts a second later; the readings of
    the clock rise. *)
Example two_workers_take_a_second :
  match supervise (T := x86_64_debug) 130 demo_daemon 4 two_workers with
  | Done (Returned (Ok _), w) =>
      let trace := labels_of seen (log w) in
      let ts := readings trace in
      length (workers trace) = 2%nat /\ head ts = Some 0 /\ list.last ts = Some (secs 11) /\
      forallb (fun p => p.1 <=? p.2) (zip ts (tail ts)) = true
  | _ => False
  end.
Proof. vm_compute. split_and!; reflexivity. Qed.

Lemma restarts_are_rate_limited_witness :
  runs (supervise (T := x86_64_debug) 130 demo_daemon 4) two_workers (fun ended w' =>
    match ended with
    | Returned _ => exists calls, log w' = calls /\
        let trace := labels_of seen calls in
        forall first final, head (readings trace) = Some first -> list.last (readings trace) = Some final ->
          Sorted Z.le (readings trace) -> (zlen (workers trace) - 1) * RESTART_BACKOFF_MIN <= final - first
    | Exits _ => True
    end).
Proof.
  apply (@restarts_are_rate_limited x86_64_debug ward ward_kernel 130 demo_daemon 4 two_workers).
  - reflexivity.
  - apply ward_clock.
  - split; [closed_bounds|closed_bounds|by vm_compute|by vm_compute].
Defined.
