(* ===== verification/TestSupport.v ===== *)
(** * The unit tests' vocabulary

    The unit tests of the source are replayed on the model.  A test is a program
    that panics where the Rust test would: a failed assertion, an index or a slice
    out of range, an [unwrap] of an error.  This file has the assertions and the
    helpers of [src/export/test_fixture.rs]. *)

From stdpp Require Import base list numbers strings.
From Stdlib Require Import ZArith Lia.
From S2P Require Import Prelude Elements Event.
Local Open Scope Z_scope.

(** [assert!], [assert_eq!] and [assert_ne!] *)
Definition assert_that (b : bool) : outcome unit := guard_panic AssertFailed b.

Definition assert_eq {A : Type} `{EqDecision A} (left right : A) : outcome unit :=
  assert_that (bool_decide (left = right)).

Definition assert_ne {A : Type} `{EqDecision A} (left right : A) : outcome unit :=
  assert_that (negb (bool_decide (left = right))).

(** [Result::unwrap] and [Result::expect_err] *)
Definition unwrap {E A : Type} (r : result E A) : outcome A :=
  match r with Ok a => Done a | Err _ => Panic ExpectFailed end.

Definition expect_err {E A : Type} (r : result E A) : outcome E :=
  match r with Ok _ => Panic ExpectFailed | Err e => Done e end.

Definition is_ok {E A : Type} (r : result E A) : bool :=
  match r with Ok _ => true | Err _ => false end.

(** [for x in l { ... }] *)
Definition for_each {A : Type} (l : list A) (f : A -> outcome unit) : outcome unit :=
  foldM (fun _ x => f x) tt l.

(** Calling [f] until it returns [false], counting: [while f() { n += 1 }].  The
    count is bounded, as a test's own guard would. *)
Definition count_while {S : Type} (fuel : nat) (f : S -> outcome (S * bool)) (s : S) : outcome (S * Z) :=
  loop fuel (fun '(s, n) =>
    '(s, more) ← f s;
    Done (if (more : bool) then Continue (s, n + 1) else Break (s, n))) (s, 0).

Definition be16 (bs : bytes) : outcome Z :=
  b0 ← index bs 0; b1 ← index bs 1; Done (from_be_bytes [b0; b1]).

Definition be32 (bs : bytes) : outcome Z := b ← slice bs 0 4; Done (from_be_bytes b).

Definition be64 (bs : bytes) : outcome Z := b ← slice bs 0 8; Done (from_be_bytes b).

(** Reading a field of a message and comparing it. *)
Definition be16_is (bs : bytes) (a b want : Z) : outcome unit :=
  s ← slice bs a b; v ← be16 s; assert_eq v want.

Definition be32_is (bs : bytes) (a b want : Z) : outcome unit :=
  s ← slice bs a b; v ← be32 s; assert_eq v want.

Definition be64_is (bs : bytes) (a b want : Z) : outcome unit :=
  s ← slice bs a b; v ← be64 s; assert_eq v want.

Definition bytes_are (bs : bytes) (a b : Z) (want : bytes) : outcome unit :=
  s ← slice bs a b; assert_eq s want.

Definition byte_is (bs : bytes) (i want : Z) : outcome unit :=
  v ← index bs i; assert_eq v want.

(** An event with some of its fields set. *)
Definition with_counts (ev : ConntrackEvent) (ob op rb rp : Z) : ConntrackEvent :=
  {| nat_event := nat_event ev; protocol := protocol ev; src_ip := src_ip ev; dst_ip := dst_ip ev;
     src_port := src_port ev; dst_port := dst_port ev; post_nat_src_ip := post_nat_src_ip ev;
     post_nat_dst_ip := post_nat_dst_ip ev; post_nat_src_port := post_nat_src_port ev;
     post_nat_dst_port := post_nat_dst_port ev; orig_bytes := ob; orig_packets := op;
     reply_bytes := rb; reply_packets := rp |}.

Definition with_orig_bytes (ev : ConntrackEvent) (v : Z) : ConntrackEvent :=
  with_counts ev v (orig_packets ev) (reply_bytes ev) (reply_packets ev).

Definition with_nat_event (ev : ConntrackEvent) (k : NatEventType) : ConntrackEvent :=
  {| nat_event := k; protocol := protocol ev; src_ip := src_ip ev; dst_ip := dst_ip ev;
     src_port := src_port ev; dst_port := dst_port ev; post_nat_src_ip := post_nat_src_ip ev;
     post_nat_dst_ip := post_nat_dst_ip ev; post_nat_src_port := post_nat_src_port ev;
     post_nat_dst_port := post_nat_dst_port ev; orig_bytes := orig_bytes ev;
     orig_packets := orig_packets ev; reply_bytes := reply_bytes ev; reply_packets := reply_packets ev |}.

(** [str::contains] *)
Fixpoint contains (s pattern : string) : bool :=
  String.prefix pattern s ||
  match s with
  | EmptyString => false
  | String _ s' => contains s' pattern
  end.

(** The targets the tests are replayed on: debug and release, both byte orders
    and both pointer widths. *)
Definition targets : list Target := [x86_64_debug; s390x_release; armv7_release].

Definition passed (test : outcome unit) : bool :=
  match test with Done _ => true | _ => false end.

(** A suite, run on every target. *)
Definition suite_passes (suite : Target -> list (outcome unit)) : bool :=
  forallb (fun T => forallb passed (suite T)) targets.

Lemma suite_passes_all (suite : Target -> list (outcome unit)) :
  suite_passes suite = true -> Forall (fun T => Forall (fun test => test = Done tt) (suite T)) targets.
Proof.
  unfold suite_passes. rewrite forallb_forall. intros Hall. apply Forall_forall. intros T HT.
  apply list_elem_of_In in HT. specialize (Hall T HT). rewrite forallb_forall in Hall.
  apply Forall_forall. intros test Htest. apply list_elem_of_In in Htest. specialize (Hall test Htest).
  destruct test as [[]| |]; done.
Qed.
