(* ===== verification/RecordTests.v ===== *)
(** * The unit tests of the record writer

    The tests of [src/export/record.rs], replayed on [Record]. *)

From stdpp Require Import base list numbers.
From Stdlib Require Import ZArith Lia.
From S2P Require Import Prelude Constants Elements Event Template Record TestSupport.
Local Open Scope Z_scope.

Section RecordTests.
Context {T : Target}.

Definition event : ConntrackEvent := fixture_event 17.

Definition template (profile : Profile) (width : CounterWidth) : outcome Template :=
  r ← resolve Ipfix profile width DEFAULT_TEMPLATE_ID; unwrap r.

(** One record on its own: its bytes and the clamp count. *)
Definition encode (t : Template) (ev : ConntrackEvent) : outcome (bytes * Z) :=
  '(buf, offset, saturated) ← write_record (replicate (Z.to_nat (record_size t)) 0) 0 (fields t) ev;
  _ ← assert_eq offset (record_size t);
  Done (buf, saturated).

Definition a_full_record_carries_every_field_in_template_order : outcome unit :=
  t ← template Full Eight;
  '(r, saturated) ← encode t event;
  _ ← assert_eq saturated 0;
  _ ← byte_is r 0 NAT44_SESSION_CREATE;
  _ ← byte_is r 1 17;
  _ ← bytes_are r 2 6 [192; 168; 1; 10];
  _ ← bytes_are r 6 10 [8; 8; 8; 8];
  _ ← be16_is r 10 12 1234;
  _ ← be16_is r 12 14 53;
  _ ← bytes_are r 14 18 [203; 0; 113; 5];
  _ ← be16_is r 18 20 40000;
  _ ← bytes_are r 20 24 [8; 8; 8; 8];
  _ ← be16_is r 24 26 53;
  _ ← be64_is r 26 34 700;
  _ ← be64_is r 34 42 7;
  _ ← be64_is r 42 50 900;
  be64_is r 50 58 9.

Definition the_nat_event_code_follows_the_event_type : outcome unit :=
  t ← template Full Eight;
  '(create, _) ← encode t event;
  _ ← byte_is create 0 NAT44_SESSION_CREATE;
  '(delete, _) ← encode t (with_nat_event event Delete);
  byte_is delete 0 NAT44_SESSION_DELETE.

Definition narrow_counters_shrink_only_the_counters : outcome unit :=
  t ← template Full Four;
  '(r, saturated) ← encode t event;
  _ ← assert_eq saturated 0;
  _ ← assert_eq (zlen r) 42;
  t8 ← template Full Eight;
  '(wide, _) ← encode t8 event;
  r26 ← slice r 0 26;
  w26 ← slice wide 0 26;
  _ ← assert_eq r26 w26;
  _ ← be32_is r 26 30 700;
  _ ← be32_is r 30 34 7;
  _ ← be32_is r 34 38 900;
  be32_is r 38 42 9.

(** [slice::windows] *)
Definition windows (n : nat) (l : bytes) : list bytes :=
  map (fun i => take n (drop i l)) (seq 0 (length l + 1 - n)).

Definition a_flow_only_record_holds_the_pre_nat_tuple_and_counters : outcome unit :=
  t ← template FlowOnly Eight;
  '(r, _) ← encode t event;
  _ ← assert_eq (zlen r) 45;
  _ ← byte_is r 0 17;
  _ ← bytes_are r 1 5 [192; 168; 1; 10];
  _ ← bytes_are r 5 9 [8; 8; 8; 8];
  _ ← be16_is r 9 11 1234;
  _ ← be16_is r 11 13 53;
  _ ← be64_is r 13 21 700;
  _ ← be64_is r 21 29 7;
  _ ← be64_is r 29 37 900;
  _ ← be64_is r 37 45 9;
  assert_that (negb (existsb (fun w => bool_decide (w = [203; 0; 113; 5])) (windows 4 r))).

Definition a_nat_source_record_stops_after_the_source_translation : outcome unit :=
  t ← template NatSource Eight;
  '(r, _) ← encode t event;
  _ ← assert_eq (zlen r) 52;
  _ ← byte_is r 0 NAT44_SESSION_CREATE;
  _ ← bytes_are r 14 18 [203; 0; 113; 5];
  _ ← be16_is r 18 20 40000;
  _ ← be64_is r 20 28 700;
  be64_is r 28 36 7.

Definition counter_max_is_the_widest_value_the_field_can_hold : outcome unit :=
  _ ← assert_eq (counter_max 4) u32_max;
  assert_eq (counter_max 8) u64_max.

Definition an_oversized_counter_is_clamped_to_the_field_maximum : outcome unit :=
  t ← template Full Four;
  '(r, saturated) ← encode t (with_orig_bytes event (u32_max + 1));
  _ ← assert_eq saturated 1;
  be32_is r 26 30 u32_max.

Definition clamping_never_reports_a_smaller_number_than_the_truth : outcome unit :=
  t ← template Full Four;
  for_each [u32_max + 1; Z.shiftl 1 32; Z.lor (Z.shiftl 1 32) 5; u64_max] (fun value =>
    '(r, saturated) ← encode t (with_orig_bytes event value);
    _ ← assert_eq saturated 1;
    be32_is r 26 30 u32_max).

Definition a_counter_that_exactly_fills_the_field_is_not_clamped : outcome unit :=
  t ← template Full Four;
  '(r, saturated) ← encode t (with_orig_bytes event u32_max);
  _ ← assert_eq saturated 0;
  be32_is r 26 30 u32_max.

Definition every_oversized_counter_is_counted_separately : outcome unit :=
  t ← template Full Four;
  '(_, saturated) ← encode t (with_counts event u64_max 1 u64_max u64_max);
  assert_eq saturated 3.

Definition wide_counters_hold_everything_conntrack_can_report : outcome unit :=
  t ← template Full Eight;
  '(r, saturated) ← encode t (with_counts event u64_max (orig_packets event) (reply_bytes event) u64_max);
  _ ← assert_eq saturated 0;
  _ ← be64_is r 26 34 u64_max;
  be64_is r 50 58 u64_max.

Definition a_record_always_occupies_exactly_the_advertised_size : outcome unit :=
  for_each [Ipfix; Netflow9] (fun protocol =>
    for_each [Full; NatSource; FlowOnly] (fun profile =>
      for_each [Four; Eight] (fun width =>
        r ← resolve protocol profile width DEFAULT_TEMPLATE_ID;
        t ← unwrap r;
        _ ← encode t event;
        Done tt))).

End RecordTests.

Definition record_tests (T : Target) : list (outcome unit) := [
  a_full_record_carries_every_field_in_template_order;
  the_nat_event_code_follows_the_event_type;
  narrow_counters_shrink_only_the_counters;
  a_flow_only_record_holds_the_pre_nat_tuple_and_counters;
  a_nat_source_record_stops_after_the_source_translation;
  counter_max_is_the_widest_value_the_field_can_hold;
  an_oversized_counter_is_clamped_to_the_field_maximum;
  clamping_never_reports_a_smaller_number_than_the_truth;
  a_counter_that_exactly_fills_the_field_is_not_clamped;
  every_oversized_counter_is_counted_separately;
  wide_counters_hold_everything_conntrack_can_report;
  a_record_always_occupies_exactly_the_advertised_size].

Lemma record_tests_pass : suite_passes record_tests = true.
Proof. vm_compute. reflexivity. Qed.
