(* ===== verification/TemplateTests.v ===== *)
(** * The unit tests of the templates

    The tests of [src/export/template.rs], replayed on [Template]. *)

From stdpp Require Import base list numbers strings.
From Stdlib Require Import ZArith Lia.
From S2P Require Import Prelude Elements Template TestSupport.
Local Open Scope Z_scope.

#[export] Instance CounterWidth_eq_dec : EqDecision CounterWidth.
Proof. solve_decision. Defined.

#[local] Existing Instance FieldSource.t_eq_dec.

Section TemplateTests.
Context {T : Target}.

Definition PEN : option Z := Some REVERSE_INFORMATION_ELEMENT_PEN.

Definition ALL_PROTOCOLS : list Protocol := [Ipfix; Netflow9].
Definition ALL_PROFILES : list Profile := [Full; NatSource; FlowOnly].
Definition ALL_WIDTHS : list CounterWidth := [Four; Eight].

Definition resolve_default (protocol : Protocol) (profile : Profile) (width : CounterWidth) : outcome Template :=
  r ← resolve protocol profile width DEFAULT_TEMPLATE_ID; unwrap r.

Definition every_configuration : list (Protocol * Profile * CounterWidth) :=
  protocol ← ALL_PROTOCOLS; profile ← ALL_PROFILES; width ← ALL_WIDTHS; [(protocol, profile, width)].

Definition every_profile_and_width : list (Profile * CounterWidth) :=
  profile ← ALL_PROFILES; width ← ALL_WIDTHS; [(profile, width)].

Definition profiles_carry_the_documented_field_count_and_record_size : outcome unit :=
  for_each [(Full, 14, 58, 42); (NatSource, 12, 52, 36); (FlowOnly, 9, 45, 29)]
    (fun '(profile, fields, wide_record, narrow_record) =>
      for_each ALL_PROTOCOLS (fun protocol =>
        wide ← resolve_default protocol profile Eight;
        n ← field_count wide;
        _ ← assert_eq n fields;
        _ ← assert_eq (record_size wide) wide_record;
        narrow ← resolve_default protocol profile Four;
        n ← field_count narrow;
        _ ← assert_eq n fields;
        assert_eq (record_size narrow) narrow_record)).

Definition the_full_profile_advertises_the_documented_elements_in_order : outcome unit :=
  ipfix ← resolve_default Ipfix Full Eight;
  assert_eq (map (fun f => (rf_id f, rf_pen f, rf_length f)) (fields ipfix))
    [(230, None, 1); (4, None, 1); (8, None, 4); (12, None, 4); (7, None, 2); (11, None, 2);
     (225, None, 4); (227, None, 2); (226, None, 4); (228, None, 2); (1, None, 8); (2, None, 8);
     (1, PEN, 8); (2, PEN, 8)].

Definition the_netflow9_full_profile_swaps_the_reverse_elements_for_out_counters : outcome unit :=
  v9 ← resolve_default Netflow9 Full Eight;
  assert_eq (map rf_id (fields v9))
    [230; 4; 8; 12; 7; 11; 225; 227; 226; 228; 1; 2; V9_OUT_BYTES; V9_OUT_PKTS].

Definition is_none {A : Type} (o : option A) : bool :=
  match o with None => true | Some _ => false end.

Definition ipfix_never_borrows_the_netflow9_out_counter_types : outcome unit :=
  for_each every_profile_and_width (fun '(profile, width) =>
    template ← resolve_default Ipfix profile width;
    for_each (fields template) (fun field =>
      if is_none (rf_pen field) then
        assert_that (negb (rf_id field =? V9_OUT_BYTES) && negb (rf_id field =? V9_OUT_PKTS))
      else Done tt)).

Definition netflow9_never_resolves_an_enterprise_element : outcome unit :=
  for_each every_profile_and_width (fun '(profile, width) =>
    template ← resolve_default Netflow9 profile width;
    assert_that (forallb (fun f => is_none (rf_pen f)) (fields template))).

Definition NAT_ELEMENTS : list Z :=
  [IE_NAT_EVENT; IE_POST_NAT_SOURCE_IPV4_ADDRESS; IE_POST_NAPT_SOURCE_TRANSPORT_PORT;
   IE_POST_NAT_DESTINATION_IPV4_ADDRESS; IE_POST_NAPT_DESTINATION_TRANSPORT_PORT].

Definition has_source (source : FieldSource.t) (fs : list ResolvedField) : bool :=
  existsb (fun f => bool_decide (rf_source f = source)) fs.

Definition the_flow_only_profile_carries_no_nat_elements : outcome unit :=
  for_each ALL_PROTOCOLS (fun protocol =>
    template ← resolve_default protocol FlowOnly Eight;
    _ ← for_each (fields template) (fun field =>
          assert_that (negb (bool_decide (rf_id field ∈ NAT_ELEMENTS))));
    assert_that (has_source FieldSource.SrcIp (fields template))).

Definition the_nat_source_profile_drops_only_the_destination_translation : outcome unit :=
  template ← resolve_default Ipfix NatSource Eight;
  let fs := fields template in
  _ ← assert_that (has_source FieldSource.NatEvent fs);
  _ ← assert_that (has_source FieldSource.PostNatSrcIp fs);
  _ ← assert_that (has_source FieldSource.PostNatSrcPort fs);
  _ ← assert_that (negb (has_source FieldSource.PostNatDstIp fs));
  assert_that (negb (has_source FieldSource.PostNatDstPort fs)).

Definition every_resolved_field_is_as_wide_as_its_source : outcome unit :=
  for_each every_configuration (fun '(protocol, profile, width) =>
    template ← resolve_default protocol profile width;
    _ ← for_each (fields template) (fun field =>
          match FieldSource.natural_len (rf_source field) with
          | Some natural => assert_eq (rf_length field) natural
          | None => assert_eq (rf_length field) (width_bytes width)
          end);
    assert_eq (sum_z (map rf_length (fields template))) (record_size template)).

Definition the_template_set_size_accounts_for_every_specifier : outcome unit :=
  for_each every_configuration (fun '(protocol, profile, width) =>
    template ← resolve_default protocol profile width;
    let specifiers := sum_z (map (fun f => match rf_pen f with
      | Some _ => FIELD_SPECIFIER_LEN + ENTERPRISE_NUMBER_LEN
      | None => FIELD_SPECIFIER_LEN end) (fields template)) in
    let unpadded := SET_HEADER_LEN + 4 + specifiers in
    _ ← assert_eq (set_size template) (align_up unpadded (set_alignment protocol));
    assert_eq (set_size template mod set_alignment protocol) 0).

Definition data_sets_are_padded_only_where_the_protocol_asks : outcome unit :=
  ipfix ← resolve_default Ipfix Full Eight;
  _ ← for_each (seqZ 0 4) (fun records =>
        assert_eq (data_set_size ipfix records) (SET_HEADER_LEN + records * 58));
  v9 ← resolve_default Netflow9 Full Eight;
  for_each (seqZ 0 4) (fun records =>
    let size := data_set_size v9 records in
    _ ← assert_eq (size mod NETFLOW9_ALIGNMENT) 0;
    _ ← assert_that (SET_HEADER_LEN + records * 58 <=? size);
    assert_that (size <? SET_HEADER_LEN + records * 58 + NETFLOW9_ALIGNMENT)).

Definition the_reported_capacity_fits_alongside_the_template : outcome unit :=
  for_each every_configuration (fun '(protocol, profile, width) =>
    template ← resolve_default protocol profile width;
    capacity ← max_records_per_message template;
    _ ← assert_that (0 <? capacity);
    let used records := header_len protocol + set_size template + data_set_size template records in
    _ ← assert_that (used capacity <=? MAX_MSG_SIZE);
    assert_that (MAX_MSG_SIZE <? used (capacity + 1))).

Definition align_up_rounds_to_the_next_multiple : outcome unit :=
  _ ← assert_eq (align_up 0 4) 0;
  _ ← assert_eq (align_up 1 4) 4;
  _ ← assert_eq (align_up 4 4) 4;
  _ ← assert_eq (align_up 5 4) 8;
  for_each (seqZ 0 8) (fun value => assert_eq (align_up value 1) value).

Definition template_ids_below_the_reserved_range_are_rejected : outcome unit :=
  _ ← for_each [0; 1; 2; 255] (fun id =>
        r ← resolve Ipfix Full Eight id;
        err ← expect_err r;
        assert_that (contains (config_error_fmt err) "at least 256"));
  r ← resolve Ipfix Full Eight MIN_TEMPLATE_ID;
  _ ← assert_that (is_ok r);
  r ← resolve Ipfix Full Eight u16_max;
  assert_that (is_ok r).

Definition the_template_id_is_carried_through_to_the_resolved_template : outcome unit :=
  r ← resolve Ipfix Full Eight 4242;
  template ← unwrap r;
  assert_eq (template_id template) 4242.

Definition counter_width_accepts_only_four_or_eight_bytes : outcome unit :=
  w ← unwrap (CounterWidth_from_bytes 4);
  _ ← assert_eq w Four;
  w ← unwrap (CounterWidth_from_bytes 8);
  _ ← assert_eq w Eight;
  _ ← assert_eq (width_bytes Four) 4;
  _ ← assert_eq (width_bytes Eight) 8;
  for_each [0; 1; 2; 3; 5; 6; 7; 9; 16; 255] (fun bad =>
    err ← expect_err (CounterWidth_from_bytes bad);
    assert_that (contains (config_error_fmt err) "must be 4 or 8")).

Definition each_protocol_reports_its_own_wire_constants : outcome unit :=
  _ ← assert_eq (version Ipfix) 10;
  _ ← assert_eq (header_len Ipfix) 16;
  _ ← assert_eq (template_set_id Ipfix) 2;
  _ ← assert_that (supports_enterprise Ipfix);
  _ ← assert_eq (set_alignment Ipfix) 1;
  _ ← assert_eq (version Netflow9) 9;
  _ ← assert_eq (header_len Netflow9) 20;
  _ ← assert_eq (template_set_id Netflow9) 0;
  _ ← assert_that (negb (supports_enterprise Netflow9));
  assert_eq (set_alignment Netflow9) 4.

End TemplateTests.

Definition template_tests (T : Target) : list (outcome unit) := [
  profiles_carry_the_documented_field_count_and_record_size;
  the_full_profile_advertises_the_documented_elements_in_order;
  the_netflow9_full_profile_swaps_the_reverse_elements_for_out_counters;
  ipfix_never_borrows_the_netflow9_out_counter_types;
  netflow9_never_resolves_an_enterprise_element;
  the_flow_only_profile_carries_no_nat_elements;
  the_nat_source_profile_drops_only_the_destination_translation;
  every_resolved_field_is_as_wide_as_its_source;
  the_template_set_size_accounts_for_every_specifier;
  data_sets_are_padded_only_where_the_protocol_asks;
  the_reported_capacity_fits_alongside_the_template;
  align_up_rounds_to_the_next_multiple;
  template_ids_below_the_reserved_range_are_rejected;
  the_template_id_is_carried_through_to_the_resolved_template;
  counter_width_accepts_only_four_or_eight_bytes;
  each_protocol_reports_its_own_wire_constants].

Lemma template_tests_pass : suite_passes template_tests = true.
Proof. vm_compute. reflexivity. Qed.
