(* ===== verification/EncoderTests.v ===== *)
(** * The unit tests of the encoder

    The tests of [src/export/encoder.rs], replayed on [Encoder].  The clock is read
    by [Encoder::new] and by [finalize]; the tests get their readings here. *)

From stdpp Require Import base list numbers strings.
From Stdlib Require Import ZArith Lia.
From S2P Require Import Prelude Constants Elements Event Template Record Encoder TestSupport.
Local Open Scope Z_scope.

(** A reading of the clocks, [ms] milliseconds after the first. *)
Definition clock_at (ms : Z) : Clock :=
  {| system_time := (1700000000000 + ms) * 10 ^ 6; instant := (1000 + ms) * 10 ^ 6 |}.

(** [write!(out, "{b:02x}")] *)
Definition hex_digit (d : Z) : string :=
  match String.get (Z.to_nat d) "0123456789abcdef" with
  | Some c => String c EmptyString
  | None => EmptyString
  end.

Fixpoint hex (bs : bytes) : string :=
  match bs with
  | [] => EmptyString
  | b :: bs' => hex_digit (b / 16) +:+ hex_digit (b mod 16) +:+ hex bs'
  end.

Section EncoderTests.
Context {T : Target}.

Definition template_of (protocol : Protocol) (profile : Profile) (width : CounterWidth) : outcome Template :=
  r ← resolve protocol profile width DEFAULT_TEMPLATE_ID; unwrap r.

Definition test_template : outcome Template := template_of Ipfix Full Eight.

Definition encoder_for (domain : Z) (t : outcome Template) : outcome Encoder :=
  t ← t; Done (new domain t (clock_at 0)).

Definition test_encoder : outcome Encoder := encoder_for 0 test_template.

Definition test_event : ConntrackEvent := fixture_event 6.

(** [finalize], at a time: the message and the count. *)
Definition finish (enc : Encoder) (ms : Z) : outcome (Encoder * bytes * Z) := finalize enc (clock_at ms).

(** [assert!(enc.add_record(&event))] *)
Definition must_add (enc : Encoder) (ev : ConntrackEvent) : outcome Encoder :=
  '(enc, added) ← add_record enc ev; _ ← assert_that added; Done enc.

Definition GOLDEN_IPFIX_TEMPLATE_MESSAGE : string :=
  "000a005800000000000000000000000000020048" +:+
  "0100000e00e600010004000100080004000c0004" +:+
  "00070002000b000200e1000400e3000200e20004" +:+
  "00e4000200010008000200088001000800007279" +:+
  "8002000800007279".

Definition the_default_template_message_is_unchanged_on_the_wire : outcome unit :=
  enc ← test_encoder;
  enc ← begin_message enc true;
  '(_, msg, _) ← finish enc 1;
  msg ← fill msg 4 8 0;
  assert_eq (hex msg) GOLDEN_IPFIX_TEMPLATE_MESSAGE.

Definition message_header_describes_the_message : outcome unit :=
  enc ← encoder_for 42 test_template;
  enc ← begin_message enc false;
  enc ← must_add enc test_event;
  '(_, msg, count) ← finish enc 1;
  _ ← assert_eq count 1;
  _ ← be16_is msg 0 2 IPFIX_VERSION;
  _ ← be16_is msg 2 4 (zlen msg);
  s ← slice msg 4 8; time ← be32 s;
  _ ← assert_ne time 0;
  _ ← be32_is msg 8 12 0;
  be32_is msg 12 16 42.

Definition a_template_only_message_carries_no_data_set : outcome unit :=
  enc ← test_encoder;
  enc ← begin_message enc true;
  _ ← assert_that (template_included enc);
  _ ← assert_that (has_pending_output enc);
  let size := set_size (template enc) in
  '(_, msg, count) ← finish enc 1;
  _ ← assert_eq count 0;
  _ ← assert_eq (zlen msg) (IPFIX_HEADER_LEN + size);
  _ ← be16_is msg 2 4 (zlen msg);
  _ ← be16_is msg 16 18 IPFIX_TEMPLATE_SET_ID;
  _ ← be16_is msg 18 20 size;
  _ ← be16_is msg 20 22 DEFAULT_TEMPLATE_ID;
  be16_is msg 22 24 14.

Definition an_empty_message_without_a_template_is_not_worth_sending : outcome unit :=
  enc ← test_encoder;
  enc ← begin_message enc false;
  assert_that (negb (has_pending_output enc)).

(** One specifier of the template in a message, at an offset: the next offset and
    the record size so far. *)
Definition check_specifier (msg : bytes) (st : Z * Z) (field : ResolvedField) : outcome (Z * Z) :=
  let '(offset, size) := st in
  s ← slice_from msg offset; raw_id ← be16 s;
  s ← slice_from msg (offset + 2); length ← be16 s;
  let offset := offset + FIELD_SPECIFIER_LEN in
  _ ← assert_eq length (rf_length field);
  offset ← match rf_pen field with
           | Some pen =>
               _ ← assert_eq (Z.land raw_id ENTERPRISE_BIT) ENTERPRISE_BIT;
               _ ← assert_eq (Z.land raw_id (u16_max - ENTERPRISE_BIT)) (rf_id field);
               s ← slice_from msg offset; number ← be32 s;
               _ ← assert_eq number pen;
               Done (offset + ENTERPRISE_NUMBER_LEN)
           | None =>
               _ ← assert_eq raw_id (rf_id field);
               _ ← assert_eq (Z.land raw_id ENTERPRISE_BIT) 0;
               Done offset
           end;
  Done (offset, size + length).

Definition the_template_describes_the_fields_the_encoder_writes : outcome unit :=
  enc ← test_encoder;
  enc ← begin_message enc true;
  let fs := fields (template enc) in
  '(_, msg, _) ← finish enc 1;
  '(offset, size) ← foldM (check_specifier msg) (IPFIX_HEADER_LEN + SET_HEADER_LEN + 4, 0) fs;
  _ ← assert_eq offset (zlen msg);
  assert_eq size 58.

Definition record_fields_are_written_in_template_order : outcome unit :=
  enc ← test_encoder;
  enc ← begin_message enc false;
  enc ← must_add enc test_event;
  let size := record_size (template enc) in
  '(_, msg, _) ← finish enc 1;
  _ ← be16_is msg 16 18 DEFAULT_TEMPLATE_ID;
  _ ← be16_is msg 18 20 (SET_HEADER_LEN + size);
  r ← slice_from msg 20;
  _ ← assert_eq (zlen r) size;
  _ ← byte_is r 0 NAT44_SESSION_CREATE;
  _ ← byte_is r 1 6;
  _ ← bytes_are r 2 6 [192; 168; 1; 10];
  _ ← bytes_are r 6 10 [8; 8; 8; 8];
  _ ← be16_is r 10 12 1234;
  _ ← be16_is r 12 14 53;
  _ ← bytes_are r 14 18 [203; 0; 113; 5];
  _ ← be16_is r 18 20 40000;
  _ ← bytes_are r 20 24 [8; 8; 8; 8];
  _ ← be16_is r 24 26 53;
  _ ← be64_is r 26 34 700;
  _ ← be64_is r 34 42 7;
  _ ← be64_is r 42 50 900;
  be64_is r 50 58 9.

Definition a_delete_event_sets_the_delete_nat_event_code : outcome unit :=
  enc ← test_encoder;
  enc ← begin_message enc false;
  let ev := with_nat_event test_event Delete in
  enc ← must_add enc ev;
  '(_, msg, _) ← finish enc 1;
  byte_is msg 20 NAT44_SESSION_DELETE.

(** [while enc.add_record(&event()) { accepted += 1 }], within the test's bound. *)
Definition add_until_full (enc : Encoder) : outcome (Encoder * Z) :=
  count_while 1000 (fun enc => add_record enc test_event) enc.

(** Fill a message: the records accepted and the encoded length. *)
Definition fill_message (include_template : bool) : outcome (Z * Z) :=
  enc ← test_encoder;
  enc ← begin_message enc include_template;
  '(enc, accepted) ← add_until_full enc;
  '(_, msg, count) ← finish enc 1;
  _ ← assert_eq count accepted;
  Done (accepted, zlen msg).

Definition a_full_message_stays_within_the_mtu_budget : outcome unit :=
  for_each [false; true] (fun include_template =>
    '(records, len) ← fill_message include_template;
    _ ← assert_that (0 <? records);
    _ ← assert_that (len <=? MAX_MSG_SIZE);
    assert_that (MAX_MSG_SIZE <? len + 58)).

Definition a_template_leaves_room_for_fewer_records : outcome unit :=
  '(without, _) ← fill_message false;
  '(with_template, _) ← fill_message true;
  assert_that (with_template <? without).

Definition a_rejected_record_fits_in_a_fresh_message : outcome unit :=
  enc ← test_encoder;
  enc ← begin_message enc false;
  '(enc, _) ← add_until_full enc;
  '(enc, _, _) ← finish enc 1;
  enc ← begin_message enc false;
  _ ← must_add enc test_event;
  Done tt.

Definition the_sequence_number_counts_records_sent_before_each_message : outcome unit :=
  enc ← test_encoder;
  enc ← begin_message enc false;
  enc ← must_add enc test_event;
  enc ← must_add enc test_event;
  '(enc, msg, count) ← finish enc 1;
  _ ← assert_eq count 2;
  _ ← be32_is msg 8 12 0;
  enc ← begin_message enc false;
  enc ← must_add enc test_event;
  '(enc, msg, _) ← finish enc 2;
  _ ← be32_is msg 8 12 2;
  enc ← begin_message enc true;
  '(enc, msg, count) ← finish enc 3;
  _ ← assert_eq count 0;
  _ ← be32_is msg 8 12 3;
  enc ← begin_message enc false;
  enc ← must_add enc test_event;
  '(_, msg, _) ← finish enc 4;
  be32_is msg 8 12 3.

Definition the_sequence_number_wraps_instead_of_overflowing : outcome unit :=
  enc ← test_encoder;
  let enc := set_counters enc u32_max (saturated_counters enc) in
  enc ← begin_message enc false;
  enc ← must_add enc test_event;
  enc ← must_add enc test_event;
  '(enc, _, _) ← finish enc 1;
  assert_eq (sequence_number enc) 1.

(** ** NetFlow v9 *)

Definition v9_template (profile : Profile) (width : CounterWidth) : outcome Template :=
  template_of Netflow9 profile width.

Definition v9_encoder : outcome Encoder := encoder_for 0 (v9_template Full Eight).

Definition a_netflow9_header_describes_the_packet : outcome unit :=
  enc ← encoder_for 7 (v9_template Full Eight);
  enc ← begin_message enc false;
  enc ← must_add enc test_event;
  '(_, msg, count) ← finish enc 1;
  _ ← assert_eq count 1;
  _ ← be16_is msg 0 2 NETFLOW9_VERSION;
  _ ← be16_is msg 2 4 1;
  s ← slice msg 8 12; time ← be32 s;
  _ ← assert_that (0 <? time);
  _ ← be32_is msg 12 16 0;
  _ ← be32_is msg 16 20 7;
  assert_eq (zlen msg) (NETFLOW9_HEADER_LEN + SET_HEADER_LEN + 58 + 2).

(** [for _ in 0..n { assert!(enc.add_record(&event())) }] *)
Definition add_n (n : nat) (enc : Encoder) : outcome Encoder :=
  foldM (fun enc _ => must_add enc test_event) enc (seq 0 n).

Definition the_netflow9_count_totals_template_and_data_records : outcome unit :=
  enc ← v9_encoder;
  enc ← begin_message enc true;
  '(enc, msg, _) ← finish enc 1;
  _ ← be16_is msg 2 4 1;
  enc ← begin_message enc true;
  enc ← add_n 5 enc;
  '(enc, msg, _) ← finish enc 2;
  _ ← be16_is msg 2 4 6;
  enc ← begin_message enc false;
  enc ← add_n 3 enc;
  '(_, msg, _) ← finish enc 3;
  be16_is msg 2 4 3.

Definition the_netflow9_sequence_number_counts_packets_not_records : outcome unit :=
  enc ← v9_encoder;
  _ ← foldM (fun enc expected =>
        enc ← begin_message enc false;
        enc ← must_add enc test_event;
        enc ← must_add enc test_event;
        '(enc, msg, _) ← finish enc expected;
        _ ← be32_is msg 12 16 expected;
        Done enc) enc (seqZ 0 3);
  Done tt.

(** The second message is made 15 ms after the first. *)
Definition netflow9_sys_up_time_advances : outcome unit :=
  enc ← v9_encoder;
  enc ← begin_message enc true;
  '(enc, msg, _) ← finish enc 1;
  s ← slice msg 4 8; first ← be32 s;
  enc ← begin_message enc true;
  '(_, msg, _) ← finish enc 16;
  s ← slice msg 4 8; second ← be32 s;
  assert_that (first <? second).

Definition a_netflow9_template_uses_flowset_zero_and_plain_specifiers : outcome unit :=
  enc ← v9_encoder;
  enc ← begin_message enc true;
  let fs := fields (template enc) in
  let size := set_size (template enc) in
  '(_, msg, _) ← finish enc 1;
  _ ← be16_is msg 20 22 NETFLOW9_TEMPLATE_FLOWSET_ID;
  _ ← be16_is msg 22 24 size;
  _ ← be16_is msg 24 26 DEFAULT_TEMPLATE_ID;
  _ ← be16_is msg 26 28 14;
  offset ← foldM (fun offset field =>
             _ ← assert_that (match rf_pen field with None => true | Some _ => false end);
             s ← slice_from msg offset; raw_id ← be16 s;
             _ ← assert_eq raw_id (rf_id field);
             _ ← assert_eq (Z.land raw_id ENTERPRISE_BIT) 0;
             s ← slice_from msg (offset + 2); length ← be16 s;
             _ ← assert_eq length (rf_length field);
             Done (offset + FIELD_SPECIFIER_LEN)) (NETFLOW9_HEADER_LEN + SET_HEADER_LEN + 4) fs;
  assert_eq offset (zlen msg).

Definition netflow9_maps_the_reply_counters_onto_out_bytes_and_packets : outcome unit :=
  t ← v9_template Full Eight;
  ids ← slice (map rf_id (fields t)) 10 14;
  assert_eq ids [1; 2; V9_OUT_BYTES; V9_OUT_PKTS].

Definition netflow9_pads_data_flowsets_to_a_four_byte_boundary : outcome unit :=
  for_each (seqZ 1 4) (fun records =>
    enc ← v9_encoder;
    enc ← begin_message enc false;
    enc ← add_n (Z.to_nat records) enc;
    '(_, msg, count) ← finish enc 1;
    _ ← assert_eq count records;
    s ← slice msg 22 24; flowset_len ← be16 s;
    _ ← assert_eq (flowset_len mod NETFLOW9_ALIGNMENT) 0;
    _ ← assert_eq flowset_len (SET_HEADER_LEN + records * 58 + (records mod 2) * 2);
    assert_eq (zlen msg) (NETFLOW9_HEADER_LEN + flowset_len)).

Definition a_netflow9_template_only_packet_carries_no_data_flowset : outcome unit :=
  enc ← v9_encoder;
  enc ← begin_message enc true;
  let size := set_size (template enc) in
  '(_, msg, count) ← finish enc 1;
  _ ← assert_eq count 0;
  _ ← assert_eq (zlen msg) (NETFLOW9_HEADER_LEN + size);
  assert_eq (zlen msg) 84.

(** One configuration: one record has the advertised size, and a full message
    stays within the budget with the capacity the template reports. *)
Definition configuration_agrees (protocol : Protocol) (profile : Profile) (width : CounterWidth) : outcome unit :=
  t ← template_of protocol profile width;
  _ ← assert_eq (sum_z (map rf_length (fields t))) (record_size t);
  enc ← encoder_for 0 (Done t);
  enc ← begin_message enc false;
  enc ← must_add enc test_event;
  '(enc, msg, _) ← finish enc 1;
  let padding :=
    if bool_decide (protocol = Netflow9)
    then align_up (SET_HEADER_LEN + record_size t) NETFLOW9_ALIGNMENT - SET_HEADER_LEN - record_size t
    else 0 in
  _ ← assert_eq (zlen msg) (header_len protocol + SET_HEADER_LEN + record_size t + padding);
  enc ← begin_message enc true;
  '(enc, accepted) ← add_until_full enc;
  '(_, msg, count) ← finish enc 2;
  _ ← assert_eq count accepted;
  _ ← assert_that (0 <? accepted);
  _ ← assert_that (zlen msg <=? MAX_MSG_SIZE);
  capacity ← max_records_per_message t;
  assert_eq accepted capacity.

Definition every_configuration_agrees_with_the_template_it_advertises : outcome unit :=
  for_each [Ipfix; Netflow9] (fun protocol =>
    for_each [Full; NatSource; FlowOnly] (fun profile =>
      for_each [Four; Eight] (fun width => configuration_agrees protocol profile width))).

Definition narrow_counters_clamp_instead_of_truncating : outcome unit :=
  enc ← encoder_for 0 (template_of Ipfix Full Four);
  enc ← begin_message enc false;
  let ev := with_counts test_event u64_max 5 (reply_bytes test_event) (reply_packets test_event) in
  enc ← must_add enc ev;
  _ ← assert_eq (saturated_counters enc) 1;
  '(_, msg, _) ← finish enc 1;
  r ← slice_from msg 20;
  _ ← be32_is r 26 30 u32_max;
  be32_is r 30 34 5.

End EncoderTests.

Definition encoder_tests (T : Target) : list (outcome unit) := [
  the_default_template_message_is_unchanged_on_the_wire;
  message_header_describes_the_message;
  a_template_only_message_carries_no_data_set;
  an_empty_message_without_a_template_is_not_worth_sending;
  the_template_describes_the_fields_the_encoder_writes;
  record_fields_are_written_in_template_order;
  a_delete_event_sets_the_delete_nat_event_code;
  a_full_message_stays_within_the_mtu_budget;
  a_template_leaves_room_for_fewer_records;
  a_rejected_record_fits_in_a_fresh_message;
  the_sequence_number_counts_records_sent_before_each_message;
  the_sequence_number_wraps_instead_of_overflowing;
  a_netflow9_header_describes_the_packet;
  the_netflow9_count_totals_template_and_data_records;
  the_netflow9_sequence_number_counts_packets_not_records;
  netflow9_sys_up_time_advances;
  a_netflow9_template_uses_flowset_zero_and_plain_specifiers;
  netflow9_maps_the_reply_counters_onto_out_bytes_and_packets;
  netflow9_pads_data_flowsets_to_a_four_byte_boundary;
  a_netflow9_template_only_packet_carries_no_data_flowset;
  every_configuration_agrees_with_the_template_it_advertises;
  narrow_counters_clamp_instead_of_truncating].

Lemma encoder_tests_pass : suite_passes encoder_tests = true.
Proof. vm_compute. reflexivity. Qed.
