(* ===== verification/ParserTests.v ===== *)
(** * The unit tests of the netlink parser

    The tests of [src/netlink/parser.rs] and of [src/netlink/constants.rs],
    replayed on [Parser], with the message builder of [Netlink]. *)

From stdpp Require Import base list numbers.
From Stdlib Require Import ZArith Lia.
From S2P Require Import Prelude Constants Elements Event Parser Netlink NetlinkProps TestSupport.
Local Open Scope Z_scope.

Section ParserTests.
Context {T : Target}.

(** [assert!(parse(&buf).is_empty())] *)
Definition yields_nothing (buf : bytes) : outcome unit := events ← parse buf; assert_eq (zlen events) 0.

Definition ip (a b c d : Z) : Ipv4Addr := Ipv4Addr_new a b c d.

Definition snat_event_reports_the_translated_source : outcome unit :=
  buf ← snat_event;
  events ← parse buf;
  _ ← assert_eq (zlen events) 1;
  e ← index events 0;
  _ ← assert_eq (nat_event e) Create;
  _ ← assert_eq (protocol e) 6;
  _ ← assert_eq (src_ip e) (ip 192 168 1 10);
  _ ← assert_eq (src_port e) 1234;
  _ ← assert_eq (dst_ip e) (ip 8 8 8 8);
  _ ← assert_eq (dst_port e) 53;
  _ ← assert_eq (post_nat_src_ip e) (ip 203 0 113 5);
  _ ← assert_eq (post_nat_src_port e) 40000;
  _ ← assert_eq (post_nat_dst_ip e) (ip 8 8 8 8);
  _ ← assert_eq (post_nat_dst_port e) 53;
  _ ← assert_eq (orig_packets e) 7;
  _ ← assert_eq (orig_bytes e) 700;
  _ ← assert_eq (reply_packets e) 9;
  assert_eq (reply_bytes e) 900.

Definition dnat_event_reports_the_translated_destination : outcome unit :=
  orig ← tuple CTA_TUPLE_ORIG (ip 10 0 0 1) (ip 203 0 113 1) 6 5000 80;
  reply ← tuple CTA_TUPLE_REPLY (ip 10 0 0 99) (ip 10 0 0 1) 6 8080 5000;
  status ← attr CTA_STATUS (to_be_bytes 4 IPS_DST_NAT);
  buf ← ct_event IPCTNL_MSG_CT_NEW NFPROTO_IPV4 [orig; reply; status];
  events ← parse buf;
  _ ← assert_eq (zlen events) 1;
  e ← index events 0;
  _ ← assert_eq (post_nat_dst_ip e) (ip 10 0 0 99);
  _ ← assert_eq (post_nat_dst_port e) 8080;
  _ ← assert_eq (post_nat_src_ip e) (ip 10 0 0 1);
  assert_eq (post_nat_src_port e) 5000.

Definition delete_message_yields_a_delete_event : outcome unit :=
  orig ← tuple CTA_TUPLE_ORIG (ip 192 168 1 10) (ip 8 8 8 8) 17 1234 53;
  reply ← tuple CTA_TUPLE_REPLY (ip 8 8 8 8) (ip 203 0 113 5) 17 53 40000;
  status ← attr CTA_STATUS (to_be_bytes 4 IPS_SRC_NAT);
  buf ← ct_event IPCTNL_MSG_CT_DELETE NFPROTO_IPV4 [orig; reply; status];
  events ← parse buf;
  _ ← assert_eq (zlen events) 1;
  e ← index events 0;
  assert_eq (nat_event e) Delete.

Definition events_without_nat_status_are_filtered : outcome unit :=
  orig ← tuple CTA_TUPLE_ORIG (ip 10 0 0 1) (ip 10 0 0 2) 6 1000 2000;
  reply ← tuple CTA_TUPLE_REPLY (ip 10 0 0 2) (ip 10 0 0 1) 6 2000 1000;
  status ← attr CTA_STATUS (to_be_bytes 4 0x00000188);
  buf ← ct_event IPCTNL_MSG_CT_NEW NFPROTO_IPV4 [orig; reply; status];
  yields_nothing buf.

Definition events_missing_status_are_filtered : outcome unit :=
  orig ← tuple CTA_TUPLE_ORIG (ip 10 0 0 1) (ip 10 0 0 2) 6 1000 2000;
  buf ← ct_event IPCTNL_MSG_CT_NEW NFPROTO_IPV4 [orig];
  yields_nothing buf.

Definition netlink_control_messages_are_not_events : outcome unit :=
  orig ← tuple CTA_TUPLE_ORIG (ip 10 0 0 1) (ip 10 0 0 2) 6 1000 2000;
  reply ← tuple CTA_TUPLE_REPLY (ip 10 0 0 2) (ip 203 0 113 9) 6 2000 1000;
  status ← attr CTA_STATUS (to_be_bytes 4 IPS_SRC_NAT);
  buf ← message 0x2 NFPROTO_IPV4 [orig; reply; status];
  yields_nothing buf.

Definition other_nfnetlink_subsystems_are_ignored : outcome unit :=
  let subsys_ctnetlink_exp := 2 in
  let exp_msg_new := 0 in
  orig ← tuple CTA_TUPLE_ORIG (ip 10 0 0 1) (ip 10 0 0 2) 6 1000 2000;
  status ← attr CTA_STATUS (to_be_bytes 4 IPS_SRC_NAT);
  buf ← message (Z.lor (Z.shiftl subsys_ctnetlink_exp 8) exp_msg_new) NFPROTO_IPV4 [orig; status];
  yields_nothing buf.

Definition non_ipv4_events_are_skipped : outcome unit :=
  status ← attr CTA_STATUS (to_be_bytes 4 IPS_SRC_NAT);
  buf ← ct_event IPCTNL_MSG_CT_NEW NFPROTO_IPV6 [status];
  yields_nothing buf.

Definition several_messages_in_one_datagram_are_all_parsed : outcome unit :=
  buf ← snat_event;
  events ← parse (buf ++ buf ++ buf);
  assert_eq (zlen events) 3.

Definition a_truncated_datagram_yields_only_whole_messages : outcome unit :=
  buf ← snat_event;
  let whole := zlen buf in
  events ← parse (take (Z.to_nat (whole + 24)) (buf ++ buf));
  assert_eq (zlen events) 1.

Definition malformed_input_does_not_panic : outcome unit :=
  valid ← snat_event;
  _ ← for_each (seqZ 0 (zlen valid)) (fun len =>
        prefix ← slice valid 0 len; _ ← parse prefix; Done tt);
  _ ← parse (replicate 64 0xFF);
  _ ← parse (replicate 64 0x00);
  short ← copy_from_slice valid 0 4 (to_ne_bytes 4 4);
  _ ← parse short;
  Done tt.

Definition attributes_with_short_payloads_are_ignored : outcome unit :=
  src ← attr CTA_IP_V4_SRC [10; 0];
  dst ← attr CTA_IP_V4_DST [10; 0; 0; 2];
  ips ← nested CTA_TUPLE_IP [src; dst];
  orig ← nested CTA_TUPLE_ORIG [ips];
  status ← attr CTA_STATUS (to_be_bytes 4 IPS_SRC_NAT);
  buf ← ct_event IPCTNL_MSG_CT_NEW NFPROTO_IPV4 [orig; status];
  events ← parse buf;
  _ ← assert_eq (zlen events) 1;
  e ← index events 0;
  _ ← assert_eq (src_ip e) UNSPECIFIED;
  assert_eq (dst_ip e) (ip 10 0 0 2).

(** ** Buffer sizes *)

Definition a_buffer_size_too_large_for_an_int_becomes_the_largest_one_that_fits : outcome unit :=
  _ ← assert_eq (buffer_size usize_max) c_int_max;
  _ ← assert_that (0 <? buffer_size usize_max);
  assert_eq (buffer_size (c_int_max + 1)) c_int_max.

Definition an_ordinary_buffer_size_is_passed_through : outcome unit :=
  _ ← assert_eq (buffer_size DEFAULT_RECV_BUF_SIZE) (4 * 1024 * 1024);
  _ ← assert_eq (buffer_size 0) 0;
  assert_eq (buffer_size c_int_max) c_int_max.

End ParserTests.

Definition netlink_tests (T : Target) : list (outcome unit) := [
  snat_event_reports_the_translated_source;
  dnat_event_reports_the_translated_destination;
  delete_message_yields_a_delete_event;
  events_without_nat_status_are_filtered;
  events_missing_status_are_filtered;
  netlink_control_messages_are_not_events;
  other_nfnetlink_subsystems_are_ignored;
  non_ipv4_events_are_skipped;
  several_messages_in_one_datagram_are_all_parsed;
  a_truncated_datagram_yields_only_whole_messages;
  malformed_input_does_not_panic;
  attributes_with_short_payloads_are_ignored;
  a_buffer_size_too_large_for_an_int_becomes_the_largest_one_that_fits;
  an_ordinary_buffer_size_is_passed_through].

Lemma netlink_tests_pass : suite_passes netlink_tests = true.
Proof. vm_compute. reflexivity. Qed.
