(* ===== verification/MainTests.v ===== *)
(** * The unit tests of the worker and the supervisor

    The tests of [src/main.rs] on the restart policy, the poll timeout and the
    sysctls, replayed on [Supervisor] and [Worker].  The sysctl tests run on a
    kernel with nothing but files. *)

From stdpp Require Import base list numbers strings gmap.
From Stdlib Require Import ZArith Lia.
From S2P Require Import Prelude Constants Elements Event Template Encoder System Socket Signals Worker Supervisor SupervisorProps TestSupport.
Local Open Scope Z_scope.

(** ** The restart policy *)

(** The wait statuses of the shells the tests run: [exit code], [kill -sig $$]. *)
Definition SIGSEGV : Z := 11.

Definition only_a_clean_exit_stops_the_supervisor : outcome unit :=
  _ ← assert_that (negb (should_restart (exit_status 0)));
  for_each [1; 2; 42; 127] (fun code => assert_that (should_restart (exit_status code))).

Definition a_worker_killed_by_a_signal_is_restarted : outcome unit :=
  _ ← assert_that (should_restart (signal_status false SIGKILL));
  _ ← assert_that (should_restart (signal_status true SIGSEGV));
  assert_that (should_restart (signal_status false SIGTERM)).

(** ** The poll timeout *)

Definition millis (n : Z) : Z := n * 10 ^ 6.

Definition a_future_deadline_becomes_its_distance_in_milliseconds (now : Z) : outcome unit :=
  deadline ← instant_add now (millis 250);
  _ ← assert_eq (ms_until deadline now) 250;
  deadline ← instant_add now (secs 30);
  assert_eq (ms_until deadline now) 30000.

Definition a_deadline_already_past_yields_a_zero_timeout (now : Z) : outcome unit :=
  _ ← assert_eq (ms_until (now - secs 1) now) 0;
  assert_eq (ms_until now now) 0.

Definition an_enormous_deadline_clamps_instead_of_wrapping (now : Z) : outcome unit :=
  deadline ← instant_add now (secs (60 * 60 * 24 * 365));
  let timeout := ms_until deadline now in
  _ ← assert_that (0 <? timeout);
  assert_eq timeout i32_max.

(** ** The sysctls *)

(** Files by path, each with its contents and whether it can be written. *)
Definition files : Type := gmap string (string * bool).

Definition ENOENT : Z := 2.
Definition EACCES : Z := 13.

Definition files_call (c : syscall) (k : files) : answer c * files :=
  match c return answer c * files with
  | ReadFile path =>
      (match k !! path with Some (contents, _) => Ok contents | None => Err (OtherError ENOENT) end, k)
  | WriteFile path contents =>
      match k !! path with
      | Some (_, true) => (Ok tt, <[path := (contents, true)]> k)
      | Some (_, false) => (Err (OtherError EACCES), k)
      | None => (Ok tt, <[path := (contents, true)]> k)
      end
  | Recvmmsg _ _ => (Err WouldBlock, k)
  | c => (fst (machine_call c {| queue := []; pending := []; clock_ms := 0 |}), k)
  end.

#[export] Instance files_kernel : Kernel files.
Proof. by refine {| k_call := files_call |}. Defined.

Definition temp_path : string := "/tmp/natstream_test_1_0_sysctl".

(** A run of [set_proc_sysctl] on one file: its result and the file afterwards. *)
Definition run_sysctl (k : files) : outcome (result worker_error unit * option string) :=
  '(r, w) ← set_proc_sysctl temp_path "1" {| kernel := k; log := [] |};
  Done (r, option_map fst (kernel w !! temp_path)).

Definition one_file (contents : string) (writable : bool) : files := {[ temp_path := (contents, writable) ]}.

Definition a_sysctl_holding_the_wrong_value_is_rewritten : outcome unit :=
  '(r, contents) ← run_sysctl (one_file ("0" +:+ newline) true);
  _ ← unwrap r;
  assert_eq contents (Some ("1" +:+ newline)%string).

Definition surrounding_whitespace_is_not_part_of_the_value : outcome unit :=
  for_each ["1" +:+ newline; "1"; "  1  " +:+ newline; "1" +:+ newline +:+ newline]%string (fun already_set =>
    '(r, contents) ← run_sysctl (one_file already_set true);
    _ ← unwrap r;
    assert_eq contents (Some already_set)).

Definition a_sysctl_already_holding_the_value_is_not_written : outcome unit :=
  '(r, contents) ← run_sysctl (one_file ("1" +:+ newline) false);
  _ ← assert_that (is_ok r);
  assert_eq contents (Some ("1" +:+ newline)%string).

Definition a_missing_sysctl_reports_the_path_it_could_not_read : outcome unit :=
  '(r, _) ← run_sysctl ∅;
  err ← expect_err r;
  let message := worker_error_context err in
  _ ← assert_that (contains message "failed to read sysctl");
  assert_that (contains message temp_path).

Definition main_tests (T : Target) : list (outcome unit) := [
  only_a_clean_exit_stops_the_supervisor;
  a_worker_killed_by_a_signal_is_restarted;
  a_future_deadline_becomes_its_distance_in_milliseconds (secs 86400);
  a_deadline_already_past_yields_a_zero_timeout (secs 86400);
  an_enormous_deadline_clamps_instead_of_wrapping (secs 86400);
  a_sysctl_holding_the_wrong_value_is_rewritten;
  surrounding_whitespace_is_not_part_of_the_value;
  a_sysctl_already_holding_the_value_is_not_written;
  a_missing_sysctl_reports_the_path_it_could_not_read].

Lemma main_tests_pass : suite_passes main_tests = true.
Proof. vm_compute. reflexivity. Qed.
