(* ===== verification/SignalTests.v ===== *)
(** * The unit tests of the signal descriptor

    The tests of [src/signals.rs], replayed on [Signals] and a small process: a
    signal mask, the pending signals, the set a signalfd watches, and a clock that
    a poll with nothing to report lets run for its timeout. *)

From stdpp Require Import base list numbers.
From Stdlib Require Import ZArith Lia.
From S2P Require Import Prelude System Socket Signals TestSupport.
Local Open Scope Z_scope.

Record process := { mask : list Z; raised_signals : list Z; watched : list Z; elapsed_ms : Z }.

Definition deliverable (k : process) : list Z :=
  filter (fun sig => bool_decide (sig ∈ watched k)) (raised_signals k).

Definition process_call (c : syscall) (k : process) : answer c * process :=
  match c return answer c * process with
  | SigBlock l => (Ok tt, {| mask := mask k ++ l; raised_signals := raised_signals k; watched := watched k;
                             elapsed_ms := elapsed_ms k |})
  | SigUnblockAll => (Ok tt, {| mask := []; raised_signals := raised_signals k; watched := watched k;
                                elapsed_ms := elapsed_ms k |})
  | Signalfd l => (Ok 4, {| mask := mask k; raised_signals := raised_signals k; watched := l;
                            elapsed_ms := elapsed_ms k |})
  | ReadSignal _ =>
      match deliverable k with
      | [] => (Err WouldBlock, k)
      | sig :: _ => (Ok (Some sig), {| mask := mask k;
                       raised_signals := filter (fun s => negb (s =? sig)) (raised_signals k);
                       watched := watched k; elapsed_ms := elapsed_ms k |})
      end
  | Poll _ timeout =>
      match deliverable k with
      | [] => (Ok (0, [0]), {| mask := mask k; raised_signals := raised_signals k; watched := watched k;
                               elapsed_ms := elapsed_ms k + timeout |})
      | _ => (Ok (1, [POLLIN]), k)
      end
  | Recvmmsg _ _ => (Err WouldBlock, k)
  | c => (fst (machine_call c {| queue := []; pending := []; clock_ms := 0 |}), k)
  end.

#[export] Instance process_kernel : Kernel process.
Proof. by refine {| k_call := process_call |}. Defined.

(** The tests' own view of the process. *)
Definition is_blocked (sig : Z) : sys process bool := fun w => Done (bool_decide (sig ∈ mask (kernel w)), w).

Definition elapsed : sys process Z := fun w => Done (elapsed_ms (kernel w), w).

(** [raise]: a blocked signal becomes pending, once; an unblocked one would end
    the process. *)
Definition raise (sig : Z) : sys process unit := fun w =>
  let k := kernel w in
  if bool_decide (sig ∈ mask k) then
    let l := if bool_decide (sig ∈ raised_signals k) then raised_signals k else raised_signals k ++ [sig] in
    Done (tt, {| kernel := {| mask := mask k; raised_signals := l; watched := watched k;
                              elapsed_ms := elapsed_ms k |}; log := log w |})
  else Panic ExpectFailed.

Definition check (b : bool) : sys process unit := lift (assert_that b).

Definition got {E A : Type} (r : result E A) : sys process A := lift (unwrap r).

Definition SIGUSR1 : Z := 10.
Definition SIGUSR2 : Z := 12.
Definition TEST_SIGNALS : list Z := [SIGUSR1; SIGUSR2].

(** [signals.read_pending().unwrap()] and [poll_readable(..).unwrap()] *)
Definition pending_now (fd : Z) : sys process (list Z) := r ← read_pending 5 fd; got r.
Definition readable_within (fd timeout : Z) : sys process bool := r ← poll_readable fd timeout; got r.

Definition creating_the_descriptor_blocks_its_signals : sys process unit :=
  b ← is_blocked SIGUSR1; _ ← check (negb b);
  r ← SignalFd_new TEST_SIGNALS; _ ← got r;
  b ← is_blocked SIGUSR1; _ ← check b;
  b ← is_blocked SIGUSR2; check b.

Definition a_raised_signal_becomes_readable_and_is_reported : sys process unit :=
  r ← SignalFd_new [SIGUSR1]; fd ← got r;
  b ← readable_within fd 0; _ ← check (negb b);
  _ ← raise SIGUSR1;
  b ← readable_within fd 1000; _ ← check b;
  l ← pending_now fd; check (bool_decide (l = [SIGUSR1])).

(** The test compares the signals sorted; the process delivers them in order. *)
Definition every_pending_signal_is_drained_in_one_read : sys process unit :=
  r ← SignalFd_new TEST_SIGNALS; fd ← got r;
  _ ← raise SIGUSR1;
  _ ← raise SIGUSR2;
  l ← pending_now fd; _ ← check (bool_decide (l = TEST_SIGNALS));
  l ← pending_now fd; _ ← check (bool_decide (l = []));
  b ← readable_within fd 0; check (negb b).

Definition reading_an_idle_descriptor_returns_nothing_instead_of_blocking : sys process unit :=
  r ← SignalFd_new [SIGUSR1]; fd ← got r;
  started ← elapsed;
  l ← pending_now fd; _ ← check (bool_decide (l = []));
  t ← elapsed; check (t - started <? 1000).

Definition a_signal_raised_before_polling_is_not_lost : sys process unit :=
  r ← SignalFd_new [SIGUSR1]; fd ← got r;
  _ ← raise SIGUSR1;
  b ← readable_within fd 0; _ ← check b;
  l ← pending_now fd; check (bool_decide (l = [SIGUSR1])).

Definition polling_an_idle_descriptor_waits_out_the_timeout : sys process unit :=
  r ← SignalFd_new [SIGUSR1]; fd ← got r;
  started ← elapsed;
  b ← readable_within fd 50; _ ← check (negb b);
  t ← elapsed; check (45 <=? t - started).

Definition unblocking_restores_an_empty_mask : sys process unit :=
  r ← SignalFd_new TEST_SIGNALS; fd ← got r;
  b ← is_blocked SIGUSR1; _ ← check b;
  _ ← SignalFd_drop fd;
  r ← unblock_all; _ ← got r;
  b ← is_blocked SIGUSR1; _ ← check (negb b);
  b ← is_blocked SIGUSR2; _ ← check (negb b);
  b ← is_blocked SIGTERM; check (negb b).

(** A test, on a fresh process. *)
Definition on_process (test : sys process unit) : outcome unit :=
  '(_, _) ← test {| kernel := {| mask := []; raised_signals := []; watched := []; elapsed_ms := 0 |}; log := [] |};
  Done tt.

Definition signal_tests (T : Target) : list (outcome unit) := map on_process [
  creating_the_descriptor_blocks_its_signals;
  a_raised_signal_becomes_readable_and_is_reported;
  every_pending_signal_is_drained_in_one_read;
  reading_an_idle_descriptor_returns_nothing_instead_of_blocking;
  a_signal_raised_before_polling_is_not_lost;
  polling_an_idle_descriptor_waits_out_the_timeout;
  unblocking_restores_an_empty_mask].

Lemma signal_tests_pass : suite_passes signal_tests = true.
Proof. vm_compute. reflexivity. Qed.
