(* ===== verification/TestSuite.v ===== *)
(** * The unit tests, together

    Every unit test of the source that is not about the command line parser, run
    on the model on every target. *)

From stdpp Require Import base list.
From S2P Require Import Prelude TestSupport RecordTests TemplateTests EncoderTests ParserTests MainTests SignalTests.

Definition unit_tests (T : Target) : list (outcome unit) :=
  record_tests T ++ template_tests T ++ encoder_tests T ++ netlink_tests T ++ main_tests T ++ signal_tests T.

(** The model passes the program's own unit tests: on a debug and a release
    build, on both byte orders and both pointer widths, every test runs to its end
    without a failed assertion or any other panic. *)
Lemma unit_tests_pass :
  Forall (fun T => Forall (fun test => test = Done tt) (unit_tests T)) targets.
Proof.
  pose proof (suite_passes_all _ record_tests_pass) as H1. pose proof (suite_passes_all _ template_tests_pass) as H2.
  pose proof (suite_passes_all _ encoder_tests_pass) as H3. pose proof (suite_passes_all _ netlink_tests_pass) as H4.
  pose proof (suite_passes_all _ main_tests_pass) as H5. pose proof (suite_passes_all _ signal_tests_pass) as H6.
  rewrite Forall_forall in H1, H2, H3, H4, H5, H6. apply Forall_forall. intros T HT. unfold unit_tests.
  repeat (apply Forall_app; split); auto.
Qed.
